(** * Invoicerr back-office services: a shallow embedding

    The NestJS services of the repository (invoices, clients, receipts,
    signatures, invitations, statistics, webhooks, cron) are embedded as
    functions of a state-and-exception monad over a relational store.

    Modelling conventions
    - A Prisma table is the list of its rows in storage order; [findUnique]
      and [findFirst] return the first matching row, [findMany] without
      [orderBy] returns the matching rows in that order, [update] rewrites
      the rows with the given primary key, [create] appends and is refused
      on a primary-key conflict.
    - A JavaScript [number] is an IEEE 754 binary64 value ([spec_float] with
      a precision of 53 bits): sums, products and quotients are rounded to the
      nearest double, ties to even, and NaN, the infinities and the two zeros
      are values like the others. A [Float] column stores the double it is
      given.
    - A string is the UTF-8 encoding of the JavaScript string.
    - A [Date] is its epoch value in milliseconds ([Z]); the calendar of the
      host ([getFullYear], [getMonth], the [Date] constructor) is a field of
      the host environment.
    - A thrown exception (or a rejected promise) is the [Throw] result; what
      was written before the throw stays written, as there is no transaction.
    - The outside world (SMTP server, webhook endpoints, plugin registry) is
      a read-only oracle in the host environment; what was attempted is
      recorded in the [mailbox] and [outbox] traces. *)

From Stdlib Require Import List String Ascii Bool Arith ZArith QArith Qround Qabs Lia.
From Stdlib Require Import Permutation Sorted DecimalString Floats.SpecFloat.
Import ListNotations.

Local Open Scope string_scope.
Local Open Scope list_scope.
Local Open Scope Z_scope.

(** ** Scalars *)

Definition Id := string.
Definition DateTime := Z.
Definition Number := spec_float.
Definition Currency := string.
Definition WebhookType := string.
Definition WebhookEvent := string.

(** ** Numbers

    The arithmetic of JavaScript on its [number] type: binary64 with
    rounding to nearest, ties to even. *)

Module Num.

Definition prec : Z := 53.
Definition emax : Z := 1024.

Definition add : Number -> Number -> Number := SFadd prec emax.
Definition mul : Number -> Number -> Number := SFmul prec emax.
Definition div : Number -> Number -> Number := SFdiv prec emax.

(** [a === b] and [a >= b]: false as soon as one side is NaN; the two
    zeros are equal. *)
Definition eqb : Number -> Number -> bool := SFeqb.
Definition geb (a b : Number) : bool := SFleb b a.

(** The double nearest to the fraction [n / d]. *)
Definition ratio (n : Z) (d : positive) : Number :=
  match n with
  | Z0 => S754_zero false
  | Zpos p => div (S754_finite false p 0) (S754_finite false d 0)
  | Zneg p => div (S754_finite true p 0) (S754_finite false d 0)
  end.

(** The value of an integer literal, and of a decimal literal given by its
    digits and the number of them after the point: [decimal 1999 2] is the
    double that [19.99] denotes. *)
Definition ofZ (z : Z) : Number := ratio z 1.

Definition decimal (digits : Z) (places : nat) : Number :=
  ratio digits (Z.to_pos (10 ^ Z.of_nat places)).

(** The real number a finite double stands for; 0 for the others. *)
Definition exact (x : Number) : Q :=
  match x with
  | S754_finite s m e =>
      ((if s then - (1) else 1) * inject_Z (Zpos m) * Qpower 2 e)%Q
  | _ => 0%Q
  end.

(** JavaScript truthiness of a number: the zeros and NaN are falsy. *)
Definition truthy (x : Number) : bool :=
  match x with
  | S754_zero _ | S754_nan => false
  | _ => true
  end.

Definition same (x y : Number) : bool :=
  match x, y with
  | S754_zero a, S754_zero b | S754_infinity a, S754_infinity b =>
      Bool.eqb a b
  | S754_nan, S754_nan => true
  | S754_finite a m e, S754_finite b n f =>
      Bool.eqb a b && Pos.eqb m n && Z.eqb e f
  | _, _ => false
  end.

(** Integer literals are read as the double of their value and printed
    back when the double is that of an integer. *)
Definition of_literal (z : Z) : option spec_float :=
  if Z.abs z <=? 2 ^ 53 then Some (ofZ z) else None.

Definition to_literal (x : spec_float) : option Z :=
  let candidate :=
    match x with
    | S754_finite s m e =>
        let z := if 0 <=? e then Zpos m * 2 ^ e else Zpos m / 2 ^ (- e) in
        if s then - z else z
    | _ => 0
    end in
  if (Z.abs candidate <=? 2 ^ 53) && same x (ofZ candidate)
  then Some candidate else None.

End Num.

Declare Scope number_scope.
Delimit Scope number_scope with num.
Bind Scope number_scope with Number.
Number Notation spec_float Num.of_literal Num.to_literal : number_scope.
Infix "+" := Num.add : number_scope.
Infix "*" := Num.mul : number_scope.
Infix "/" := Num.div : number_scope.
Infix ">=" := Num.geb : number_scope.

Inductive InvoiceStatus := UNPAID | SENT | PAID | OVERDUE.
Inductive QuoteStatus := Q_DRAFT | Q_SENT | Q_SIGNED | Q_EXPIRED.
Inductive ClientType := COMPANY | INDIVIDUAL.
Inductive LogLevel := DEBUG | INFO | WARN | ERROR | FATAL.

Definition InvoiceStatus_eqb (a b : InvoiceStatus) : bool :=
  match a, b with
  | UNPAID, UNPAID | SENT, SENT | PAID, PAID | OVERDUE, OVERDUE => true
  | _, _ => false
  end.

(** JavaScript truthiness of a possibly missing string: [undefined], [null]
    and the empty string are falsy. *)
Definition truthy (s : option string) : bool :=
  match s with
  | Some EmptyString => false
  | Some _ => true
  | None => false
  end.

(** [a || b] on possibly missing strings. *)
Definition or_else (a b : option string) : option string :=
  if truthy a then a else b.

(** [x || 0] on a possibly missing number: [undefined], the zeros and NaN
    give [0]. *)
Definition or_zero (x : option Number) : Number :=
  match x with
  | Some v => if Num.truthy v then v else 0%num
  | None => 0%num
  end.

(** [String.prototype.toUpperCase] on the ASCII letters. *)
Definition upper_ascii (c : ascii) : ascii :=
  let n := nat_of_ascii c in
  if (andb (Nat.leb 97 n) (Nat.leb n 122)) then ascii_of_nat (n - 32) else c.

Fixpoint toUpperCase (s : string) : string :=
  match s with
  | EmptyString => EmptyString
  | String c r => String (upper_ascii c) (toUpperCase r)
  end.

(** ** Rows of the relational store *)

(** A row keeps the columns that the embedded services read or write.
    Columns that none of them names (an invoice's [number] and [rawNumber],
    the [updatedAt] timestamps the ORM maintains by itself, ...) are left
    out: the statements below speak of the columns kept here. *)

Module Company.
Record t := {
  id : Id;
  name : string;
  exemptVat : bool;
  country : option string;
  currency : Currency
}.
End Company.

Module Client.
Record t := {
  id : Id;
  type : ClientType;
  name : string;
  legalId : option string;
  contactFirstname : option string;
  contactLastname : option string;
  contactEmail : option string;
  contactPhone : option string;
  address : option string;
  postalCode : option string;
  city : option string;
  country : option string;
  currency : option Currency;
  isActive : bool
}.

Definition with_isActive (b : bool) (c : t) : t :=
  {| id := id c; type := type c; name := name c; legalId := legalId c;
     contactFirstname := contactFirstname c;
     contactLastname := contactLastname c;
     contactEmail := contactEmail c; contactPhone := contactPhone c;
     address := address c; postalCode := postalCode c; city := city c;
     country := country c; currency := currency c; isActive := b |}.
End Client.

Module InvoiceItem.
Record t := {
  id : Id;
  invoiceId : Id;
  description : string;
  quantity : Number;
  unitPrice : Number;
  vatRate : Number;
  type : string;
  order : Number
}.
End InvoiceItem.

Module Invoice.
Record t := {
  id : Id;
  clientId : Id;
  companyId : Id;
  quoteId : option Id;
  recurringInvoiceId : option Id;
  paymentMethod : option string;
  paymentMethodId : option Id;
  paymentDetails : option string;
  notes : option string;
  currency : Currency;
  dueDate : DateTime;
  totalHT : Number;
  totalVAT : Number;
  totalTTC : Number;
  status : InvoiceStatus;
  isActive : bool;
  createdAt : DateTime
}.

Definition with_isActive (b : bool) (i : t) : t :=
  {| id := id i; clientId := clientId i; companyId := companyId i;
     quoteId := quoteId i; recurringInvoiceId := recurringInvoiceId i;
     paymentMethod := paymentMethod i; paymentMethodId := paymentMethodId i;
     paymentDetails := paymentDetails i; notes := notes i;
     currency := currency i; dueDate := dueDate i; totalHT := totalHT i;
     totalVAT := totalVAT i; totalTTC := totalTTC i; status := status i;
     isActive := b; createdAt := createdAt i |}.

Definition with_status (s : InvoiceStatus) (i : t) : t :=
  {| id := id i; clientId := clientId i; companyId := companyId i;
     quoteId := quoteId i; recurringInvoiceId := recurringInvoiceId i;
     paymentMethod := paymentMethod i; paymentMethodId := paymentMethodId i;
     paymentDetails := paymentDetails i; notes := notes i;
     currency := currency i; dueDate := dueDate i; totalHT := totalHT i;
     totalVAT := totalVAT i; totalTTC := totalTTC i; status := s;
     isActive := isActive i; createdAt := createdAt i |}.
End Invoice.

Module ReceiptItem.
Record t := {
  id : Id;
  receiptId : Id;
  invoiceItemId : Id;
  amountPaid : Number
}.
End ReceiptItem.

Module Receipt.
Record t := {
  id : Id;
  invoiceId : Id;
  totalPaid : Number;
  paymentMethodId : option Id;
  paymentMethod : option string;
  paymentDetails : option string;
  createdAt : DateTime
}.
End Receipt.

Module Quote.
Record t := {
  id : Id;
  number : Z;
  clientId : Id;
  companyId : Id;
  status : QuoteStatus;
  isActive : bool
}.

Definition with_status (s : QuoteStatus) (q : t) : t :=
  {| id := id q; number := number q; clientId := clientId q;
     companyId := companyId q; status := s; isActive := isActive q |}.
End Quote.

Module Signature.
Record t := {
  id : Id;
  quoteId : Id;
  isActive : bool;
  otpCode : option string;
  otpUsed : bool;
  signedAt : option DateTime;
  expiresAt : DateTime
}.

Definition with_isActive (b : bool) (s : t) : t :=
  {| id := id s; quoteId := quoteId s; isActive := b; otpCode := otpCode s;
     otpUsed := otpUsed s; signedAt := signedAt s; expiresAt := expiresAt s |}.

Definition with_otp (code : string) (expires : DateTime) (s : t) : t :=
  {| id := id s; quoteId := quoteId s; isActive := isActive s;
     otpCode := Some code; otpUsed := false; signedAt := signedAt s;
     expiresAt := expires |}.

Definition with_signed (at_ : DateTime) (s : t) : t :=
  {| id := id s; quoteId := quoteId s; isActive := isActive s;
     otpCode := otpCode s; otpUsed := true; signedAt := Some at_;
     expiresAt := expiresAt s |}.
End Signature.

Module MailTemplate.
Record t := {
  type : string;
  companyId : Id;
  subject : string;
  body : string
}.
End MailTemplate.

Module Webhook.
Record t := {
  id : Id;
  url : string;
  type : WebhookType;
  secret : option string;
  events : list WebhookEvent;
  companyId : Id
}.
End Webhook.

Module InvitationCode.
Record t := {
  id : Id;
  code : string;
  createdById : Id;
  expiresAt : option DateTime;
  usedAt : option DateTime;
  usedById : option Id
}.
End InvitationCode.

Module User.
Record t := {
  id : Id;
  email : string
}.
End User.

(** The tables read or written by the embedded services. *)
Record Db := {
  company : list Company.t;
  client : list Client.t;
  invoice : list Invoice.t;
  invoiceItem : list InvoiceItem.t;
  receipt : list Receipt.t;
  receiptItem : list ReceiptItem.t;
  quote : list Quote.t;
  signature : list Signature.t;
  mailTemplate : list MailTemplate.t;
  webhook : list Webhook.t;
  invitationCode : list InvitationCode.t;
  user : list User.t
}.

(** ** Views, payloads and the host environment *)

(** An invoice with the relations named by Prisma's [include]. *)
Module InvoiceView.
Record t := {
  invoice : Invoice.t;
  items : list InvoiceItem.t;
  client : option Client.t;
  company : option Company.t
}.
End InvoiceView.

Module ReceiptView.
Record t := {
  receipt : Receipt.t;
  items : list ReceiptItem.t
}.
End ReceiptView.

(** The objects handed to the webhook dispatcher by the embedded services. *)
Inductive Payload :=
| InvoicePayload (invoice : InvoiceView.t) (client : option Client.t)
    (company : option Company.t)
| ClientPayload (client : Client.t)
| ReceiptPayload (receipt : ReceiptView.t) (invoice : InvoiceView.t)
    (client : option Client.t) (company : option Company.t)
| SignatureCreatedPayload (quoteId signatureId : Id)
    (contactEmail : option string)
| SignatureOtpPayload (signatureId quoteId : Id) (clientEmail otpCode : string)
| SignatureCompletedPayload (signatureId quoteId : Id) (signedAt : DateTime).

Inductive Exception :=
| BadRequestException (message : string)
| NotFoundException (message : string)
| PrismaError (message : string)
| HostError (message : string).

Inductive Result (A : Type) :=
| Ok (a : A)
| Throw (e : Exception).
Arguments Ok {A} a.
Arguments Throw {A} e.

Definition is_ok {A} (r : Result A) : bool :=
  match r with
  | Ok _ => true
  | Throw _ => false
  end.

Inductive Month :=
| Jan | Feb | Mar | Apr | May | Jun | Jul | Aug | Sep | Oct | Nov | Dec.

(** The value of [Date.prototype.getMonth], 0 to 11. *)
Definition monthIndex (m : Month) : nat :=
  match m with
  | Jan => 0 | Feb => 1 | Mar => 2 | Apr => 3 | May => 4 | Jun => 5
  | Jul => 6 | Aug => 7 | Sep => 8 | Oct => 9 | Nov => 10 | Dec => 11
  end%nat.

Definition DeliveryResult := bool.

(** [WebhookDriver] interface; the driver classes themselves are not part of
    the sources at hand, so each driver is a value of this interface. The
    answer of the remote endpoint is folded into [send]: [Throw] is a
    rejected promise. *)
Module WebhookDriver.
Record t := {
  supports : WebhookType -> bool;
  send : string -> WebhookEvent -> Payload -> option string ->
         Result DeliveryResult
}.
End WebhookDriver.

Module MailOptions.
Record t := {
  from : option string;
  to : string;
  subject : string;
  html : string
}.
End MailOptions.

(** [ISigningProvider]: a provider may or may not carry a [requestSignature]
    function. *)
Module SigningProvider.
Record t := {
  requestSignature : option (Id -> Result string)
}.
End SigningProvider.

Record Host := {
  now : DateTime;
  getFullYear : DateTime -> Z;
  getMonth : DateTime -> Month;
  newDate : Z -> Z -> Z -> Z -> Z -> Z -> Z -> DateTime;
  env : string -> option string;
  randomOtp : string;
  replacePlaceholders : string -> (string -> option string) -> string;
  smtp : MailOptions.t -> bool;
  signingProvider : option SigningProvider.t;
  DiscordDriver : WebhookDriver.t;
  GenericDriver : WebhookDriver.t;
  MattermostDriver : WebhookDriver.t;
  RocketChatDriver : WebhookDriver.t;
  SlackDriver : WebhookDriver.t;
  TeamsDriver : WebhookDriver.t;
  ZapierDriver : WebhookDriver.t
}.

Inductive LogSink := AppLogger | NestLogger.

Record LogEntry := {
  sink : LogSink;
  level : LogLevel;
  category : string;
  message : string
}.

Record Delivery := {
  d_webhook : Webhook.t;
  d_event : WebhookEvent;
  d_payload : Payload;
  d_outcome : Result DeliveryResult
}.

Record World := {
  db : Db;
  logs : list LogEntry;
  outbox : list Delivery;
  mailbox : list MailOptions.t;
  cuid : nat;
  host : Host
}.

Definition with_db (d : Db) (w : World) : World :=
  {| db := d; logs := logs w; outbox := outbox w; mailbox := mailbox w;
     cuid := cuid w; host := host w |}.

Definition with_logs (l : list LogEntry) (w : World) : World :=
  {| db := db w; logs := l; outbox := outbox w; mailbox := mailbox w;
     cuid := cuid w; host := host w |}.

Definition with_outbox (o : list Delivery) (w : World) : World :=
  {| db := db w; logs := logs w; outbox := o; mailbox := mailbox w;
     cuid := cuid w; host := host w |}.

Definition with_mailbox (m : list MailOptions.t) (w : World) : World :=
  {| db := db w; logs := logs w; outbox := outbox w; mailbox := m;
     cuid := cuid w; host := host w |}.

Definition with_cuid (n : nat) (w : World) : World :=
  {| db := db w; logs := logs w; outbox := outbox w; mailbox := mailbox w;
     cuid := n; host := host w |}.

Definition with_client (t : list Client.t) (d : Db) : Db :=
  {| company := company d; client := t; invoice := invoice d;
     invoiceItem := invoiceItem d; receipt := receipt d;
     receiptItem := receiptItem d; quote := quote d;
     signature := signature d; mailTemplate := mailTemplate d;
     webhook := webhook d; invitationCode := invitationCode d;
     user := user d |}.

Definition with_invoice (t : list Invoice.t) (d : Db) : Db :=
  {| company := company d; client := client d; invoice := t;
     invoiceItem := invoiceItem d; receipt := receipt d;
     receiptItem := receiptItem d; quote := quote d;
     signature := signature d; mailTemplate := mailTemplate d;
     webhook := webhook d; invitationCode := invitationCode d;
     user := user d |}.

Definition with_invoiceItem (t : list InvoiceItem.t) (d : Db) : Db :=
  {| company := company d; client := client d; invoice := invoice d;
     invoiceItem := t; receipt := receipt d;
     receiptItem := receiptItem d; quote := quote d;
     signature := signature d; mailTemplate := mailTemplate d;
     webhook := webhook d; invitationCode := invitationCode d;
     user := user d |}.

Definition with_receipt (t : list Receipt.t) (d : Db) : Db :=
  {| company := company d; client := client d; invoice := invoice d;
     invoiceItem := invoiceItem d; receipt := t;
     receiptItem := receiptItem d; quote := quote d;
     signature := signature d; mailTemplate := mailTemplate d;
     webhook := webhook d; invitationCode := invitationCode d;
     user := user d |}.

Definition with_receiptItem (t : list ReceiptItem.t) (d : Db) : Db :=
  {| company := company d; client := client d; invoice := invoice d;
     invoiceItem := invoiceItem d; receipt := receipt d;
     receiptItem := t; quote := quote d;
     signature := signature d; mailTemplate := mailTemplate d;
     webhook := webhook d; invitationCode := invitationCode d;
     user := user d |}.

Definition with_quote (t : list Quote.t) (d : Db) : Db :=
  {| company := company d; client := client d; invoice := invoice d;
     invoiceItem := invoiceItem d; receipt := receipt d;
     receiptItem := receiptItem d; quote := t;
     signature := signature d; mailTemplate := mailTemplate d;
     webhook := webhook d; invitationCode := invitationCode d;
     user := user d |}.

Definition with_signature (t : list Signature.t) (d : Db) : Db :=
  {| company := company d; client := client d; invoice := invoice d;
     invoiceItem := invoiceItem d; receipt := receipt d;
     receiptItem := receiptItem d; quote := quote d;
     signature := t; mailTemplate := mailTemplate d;
     webhook := webhook d; invitationCode := invitationCode d;
     user := user d |}.

(** ** The monad of service methods *)

Definition M (A : Type) : Type := World -> Result A * World.

Definition ret {A} (a : A) : M A := fun w => (Ok a, w).

Definition bind {A B} (c : M A) (k : A -> M B) : M B :=
  fun w =>
    match c w with
    | (Ok a, w1) => k a w1
    | (Throw e, w1) => (Throw e, w1)
    end.

Definition throw {A} (e : Exception) : M A := fun w => (Throw e, w).

(** [try { c } catch (error) { h error }] *)
Definition try_catch {A} (c : M A) (h : Exception -> M A) : M A :=
  fun w =>
    match c w with
    | (Ok a, w1) => (Ok a, w1)
    | (Throw e, w1) => h e w1
    end.

Declare Scope monad_scope.
Delimit Scope monad_scope with monad.
Notation "x <- c ;; k" := (bind c (fun x => k))
  (at level 61, c at next level, right associativity) : monad_scope.
Notation "c ;; k" := (bind c (fun _ => k))
  (at level 61, right associativity) : monad_scope.
Local Open Scope monad_scope.

Definition gets {A} (f : World -> A) : M A := fun w => (Ok (f w), w).

Definition modify (f : World -> World) : M unit := fun w => (Ok tt, f w).

Definition modifyDb (f : Db -> Db) : M unit :=
  modify (fun w => with_db (f (db w)) w).

(** [logger.info], [logger.warn], [logger.error] of the application logger,
    and the methods of Nest's [Logger]; the entry is appended to the log. *)
Definition log (s : LogSink) (l : LogLevel) (cat msg : string) : M unit :=
  modify (fun w =>
    with_logs (logs w ++ [{| sink := s; level := l; category := cat;
                             message := msg |}]) w).

(** The identifier generator behind [@default(cuid())] and [randomUUID()]. *)
Definition genId (n : nat) : Id :=
  ("c" ++ NilEmpty.string_of_uint (Nat.to_uint n))%string.

Definition newId : M Id :=
  fun w => (Ok (genId (cuid w)), with_cuid (S (cuid w)) w).

(** ** Prisma operations on a table *)

Section Table.
Context {R : Type} (key : R -> Id).

Definition findUnique (k : Id) (t : list R) : option R :=
  find (fun r => String.eqb (key r) k) t.

Definition findFirst (p : R -> bool) (t : list R) : option R := find p t.

Definition findMany (p : R -> bool) (t : list R) : list R := filter p t.

Definition update (k : Id) (f : R -> R) (t : list R) : list R :=
  map (fun r => if String.eqb (key r) k then f r else r) t.

Definition updateMany (p : R -> bool) (f : R -> R) (t : list R) : list R :=
  map (fun r => if p r then f r else r) t.

Definition deleteMany (p : R -> bool) (t : list R) : list R :=
  filter (fun r => negb (p r)) t.

Definition delete (k : Id) (t : list R) : list R :=
  deleteMany (fun r => String.eqb (key r) k) t.

(** [create] is refused when the primary key is already taken. *)
Definition create (r : R) (t : list R) : option (list R) :=
  if existsb (fun x => String.eqb (key x) (key r)) t then None
  else Some (t ++ [r]).
End Table.

Definition unique_violation {A} : M A :=
  throw (PrismaError "Unique constraint failed on the fields: (`id`)").

Definition liftResult {A} (r : Result A) : M A := fun w => (r, w).

Fixpoint mapM {A B} (f : A -> M B) (l : list A) : M (list B) :=
  match l with
  | [] => ret []
  | a :: r => (b <- f a ;; bs <- mapM f r ;; ret (b :: bs))
  end.

(** [Promise.all] over promises that have all been started: the array of
    the values when every promise is fulfilled, the rejection otherwise.
    Among several rejections the model keeps the one of the earliest array
    position. *)
Fixpoint Promise_all {A} (l : list (Result A)) : Result (list A) :=
  match l with
  | [] => Ok []
  | Ok a :: r =>
      match Promise_all r with
      | Ok rs => Ok (a :: rs)
      | Throw e => Throw e
      end
  | Throw e :: _ => Throw e
  end.

(** A transaction: when the body throws, the store is rolled back. Prisma
    runs a write with nested writes inside one. *)
Definition transaction {A} (c : M A) : M A :=
  fun w =>
    match c w with
    | (Ok a, w1) => (Ok a, w1)
    | (Throw e, w1) => (Throw e, with_db (db w) w1)
    end.

(** ** WebhooksService and WebhookDispatcherService *)

Module WebhooksService.

Definition drivers (h : Host) : list WebhookDriver.t :=
  [ DiscordDriver h; GenericDriver h; MattermostDriver h;
    RocketChatDriver h; SlackDriver h; TeamsDriver h; ZapierDriver h ].

Definition getDriver (type : WebhookType) : M WebhookDriver.t :=
  h <- gets host ;;
  match find (fun d => WebhookDriver.supports d type) (drivers h) with
  | None =>
      log NestLogger WARN "WebhooksService"
        ("No webhook driver found for type: " ++ type
           ++ ", using GenericDriver as fallback")%string ;;
      ret (GenericDriver h)
  | Some driver => ret driver
  end.

(** The body of the callback mapped over the webhooks: the driver is chosen
    and its [send] is called; the settled promise is the value. *)
Definition deliver (event : WebhookEvent) (payload : Payload)
    (webhook : Webhook.t) : M (Result DeliveryResult) :=
  driver <- getDriver (Webhook.type webhook) ;;
  let outcome :=
    WebhookDriver.send driver (Webhook.url webhook) event payload
      (Webhook.secret webhook) in
  modify (fun w =>
    with_outbox (outbox w ++ [{| d_webhook := webhook; d_event := event;
                                 d_payload := payload;
                                 d_outcome := outcome |}]) w) ;;
  ret outcome.

Definition send (webhooks : list Webhook.t) (event : WebhookEvent)
    (payload : Payload) : M (list DeliveryResult) :=
  settled <- mapM (deliver event payload) webhooks ;;
  results <- liftResult (Promise_all settled) ;;
  log AppLogger INFO "webhook" ("Webhooks sent for event: " ++ event)%string ;;
  ret results.

End WebhooksService.

Module WebhookDispatcherService.

(** [payload?.company?.id || payload?.companyId || null] *)
Definition payload_companyId (p : Payload) : option Id :=
  match p with
  | InvoicePayload _ _ (Some c) | ReceiptPayload _ _ _ (Some c) =>
      if truthy (Some (Company.id c)) then Some (Company.id c) else None
  | _ => None
  end.

Definition dispatch (event : WebhookEvent) (payload : Payload) : M unit :=
  let companyId := payload_companyId payload in
  webhooks <- gets (fun w =>
    findMany (fun wh =>
      existsb (String.eqb event) (Webhook.events wh)
      && match companyId with
         | Some c => String.eqb (Webhook.companyId wh) c
         | None => true
         end) (webhook (db w))) ;;
  try_catch
    (WebhooksService.send webhooks event payload ;;
     log AppLogger INFO "webhook-dispatcher" "Webhook dispatched")
    (fun error =>
       log AppLogger ERROR "webhook-dispatcher" "Error dispatching webhook" ;;
       throw error).

End WebhookDispatcherService.

(** ** CronService *)

Module CronService.

Definition runScheduledTasks : M unit :=
  try_catch
    (log AppLogger INFO "cron" "Scheduled tasks executed")
    (fun error =>
       log AppLogger ERROR "cron" "Error executing scheduled tasks" ;;
       throw error).

End CronService.

(** ** InvitationsService *)

Module InvitationsService.

Record CanRegister := {
  allowed : bool;
  requiresCode : bool;
  message : option string
}.

Definition canRegister (invitationCode' : option string) : M CanRegister :=
  userCount <- gets (fun w => List.length (user (db w))) ;;
  if Nat.eqb userCount 0 then
    ret {| allowed := true; requiresCode := false; message := None |}
  else if negb (truthy invitationCode') then
    ret {| allowed := false; requiresCode := true;
           message := Some "An invitation code is required to register" |}
  else
    invitation <- gets (fun w =>
      match invitationCode' with
      | Some code =>
          findUnique InvitationCode.code code (invitationCode (db w))
      | None => None
      end) ;;
    match invitation with
    | None =>
        ret {| allowed := false; requiresCode := true;
               message := Some "Invalid invitation code" |}
    | Some invitation =>
        match InvitationCode.usedAt invitation with
        | Some _ =>
            ret {| allowed := false; requiresCode := true;
                   message :=
                     Some "This invitation code has already been used" |}
        | None =>
            current <- gets (fun w => now (host w)) ;;
            if match InvitationCode.expiresAt invitation with
               | Some e => e <? current
               | None => false
               end
            then
              ret {| allowed := false; requiresCode := true;
                     message := Some "This invitation code has expired" |}
            else
              ret {| allowed := true; requiresCode := true;
                     message := None |}
        end
    end.

End InvitationsService.

(** ** Prisma model delegates *)

(** A table of the store together with its primary key. *)
Record Table (R : Type) := {
  rows : Db -> list R;
  with_rows : list R -> Db -> Db;
  pk : R -> Id
}.
Arguments rows {R} _ _.
Arguments with_rows {R} _ _ _.
Arguments pk {R} _ _.

Definition clientT : Table Client.t :=
  {| rows := client; with_rows := with_client; pk := Client.id |}.
Definition invoiceT : Table Invoice.t :=
  {| rows := invoice; with_rows := with_invoice; pk := Invoice.id |}.
Definition invoiceItemT : Table InvoiceItem.t :=
  {| rows := invoiceItem; with_rows := with_invoiceItem;
     pk := InvoiceItem.id |}.
Definition receiptT : Table Receipt.t :=
  {| rows := receipt; with_rows := with_receipt; pk := Receipt.id |}.
Definition receiptItemT : Table ReceiptItem.t :=
  {| rows := receiptItem; with_rows := with_receiptItem;
     pk := ReceiptItem.id |}.
Definition quoteT : Table Quote.t :=
  {| rows := quote; with_rows := with_quote; pk := Quote.id |}.
Definition signatureT : Table Signature.t :=
  {| rows := signature; with_rows := with_signature; pk := Signature.id |}.

Section Delegate.
Context {R : Type} (T : Table R).

Definition prismaFindUnique (k : Id) : M (option R) :=
  gets (fun w => findUnique (pk T) k (rows T (db w))).

Definition prismaFindMany (p : R -> bool) : M (list R) :=
  gets (fun w => findMany p (rows T (db w))).

(** [create] returns the created row. *)
Definition prismaCreate (r : R) : M R :=
  t <- gets (fun w => rows T (db w)) ;;
  match create (pk T) r t with
  | None => unique_violation
  | Some t' => modifyDb (with_rows T t') ;; ret r
  end.

(** [update] returns the updated row and throws when there is none. *)
Definition prismaUpdate (k : Id) (f : R -> R) : M R :=
  row <- prismaFindUnique k ;;
  match row with
  | None => throw (PrismaError "Record to update not found.")
  | Some r =>
      modifyDb (fun d => with_rows T (update (pk T) k f (rows T d)) d) ;;
      ret (f r)
  end.

Definition prismaUpdateMany (p : R -> bool) (f : R -> R) : M unit :=
  modifyDb (fun d => with_rows T (updateMany p f (rows T d)) d).

Definition prismaDeleteMany (p : R -> bool) : M unit :=
  modifyDb (fun d => with_rows T (deleteMany p (rows T d)) d).

(** [delete] throws when there is no row with the key. *)
Definition prismaDelete (k : Id) : M unit :=
  row <- prismaFindUnique k ;;
  match row with
  | None => throw (PrismaError "Record to delete does not exist.")
  | Some _ =>
      modifyDb (fun d => with_rows T (delete (pk T) k (rows T d)) d)
  end.
End Delegate.

(** [include: { items: true, client: true, company: true }] *)
Definition includeInvoice (inv : Invoice.t) : M InvoiceView.t :=
  gets (fun w =>
    {| InvoiceView.invoice := inv;
       InvoiceView.items :=
         findMany (fun it =>
           String.eqb (InvoiceItem.invoiceId it) (Invoice.id inv))
           (invoiceItem (db w));
       InvoiceView.client :=
         findUnique Client.id (Invoice.clientId inv) (client (db w));
       InvoiceView.company :=
         findUnique Company.id (Invoice.companyId inv) (company (db w)) |}).

(** ** ClientsService *)

Module ClientsService.

Definition deleteClient (id : Id) : M Client.t :=
  existingClient <- prismaFindUnique clientT id ;;
  match existingClient with
  | None =>
      log AppLogger ERROR "client" "Client not found" ;;
      throw (BadRequestException "Client not found")
  | Some existingClient =>
      deletedClient <-
        prismaUpdate clientT id (Client.with_isActive false) ;;
      log AppLogger INFO "client" "Client deleted" ;;
      try_catch
        (WebhookDispatcherService.dispatch "CLIENT_DELETED"
           (ClientPayload existingClient))
        (fun error =>
           log AppLogger ERROR "client"
             "Failed to dispatch CLIENT_DELETED webhook") ;;
      ret deletedClient
  end.

End ClientsService.

(** ** InvoicesService *)

Module InvoiceItemDto.
Record t := {
  id : option Id;
  description : string;
  quantity : Number;
  unitPrice : Number;
  vatRate : option Number;
  type : string;
  order : option Number
}.
End InvoiceItemDto.

Module CreateInvoiceDto.
Record t := {
  clientId : Id;
  quoteId : option Id;
  recurringInvoiceId : option Id;
  notes : option string;
  paymentMethod : option string;
  paymentMethodId : option Id;
  paymentDetails : option string;
  currency : option Currency;
  dueDate : option DateTime;
  items : list InvoiceItemDto.t
}.
End CreateInvoiceDto.

Module EditInvoicesDto.
Record t := {
  id : option Id;
  clientId : Id;
  quoteId : option Id;
  recurringInvoiceId : option Id;
  notes : option string;
  paymentMethod : option string;
  paymentMethodId : option Id;
  paymentDetails : option string;
  currency : option Currency;
  dueDate : option DateTime;
  items : list InvoiceItemDto.t
}.
End EditInvoicesDto.

(** [a || b || c] where [c] is a column that is never null. *)
Definition or_default (a b : option string) (c : string) : string :=
  match or_else a b with
  | Some x => if truthy (Some x) then x else c
  | None => c
  end.

(** Prisma leaves a column alone when the value given for it is
    [undefined]. *)
Definition set_if_given {A} (given : option A) (old : option A) : option A :=
  match given with
  | Some x => Some x
  | None => old
  end.

Module InvoicesService.

Local Open Scope number_scope.

(** The three [items.reduce] calls of [createInvoice] and [editInvoice]. *)
Definition reduce_totalHT (items : list InvoiceItemDto.t) : Number :=
  fold_left (fun sum item =>
    sum + InvoiceItemDto.quantity item * InvoiceItemDto.unitPrice item)
    items 0.

Definition reduce_totalVAT (items : list InvoiceItemDto.t) : Number :=
  fold_left (fun sum item =>
    sum + InvoiceItemDto.quantity item * InvoiceItemDto.unitPrice item
          * or_zero (InvoiceItemDto.vatRate item) / 100)
    items 0.

Definition reduce_totalTTC (items : list InvoiceItemDto.t) : Number :=
  fold_left (fun sum item =>
    sum + InvoiceItemDto.quantity item * InvoiceItemDto.unitPrice item
          * (1 + or_zero (InvoiceItemDto.vatRate item) / 100))
    items 0.

(** [!!(company.exemptVat && (company.country || '').toUpperCase() === 'FRANCE')] *)
Definition isVatExemptFrance (company : Company.t) : bool :=
  Company.exemptVat company
  && String.eqb
       (toUpperCase (match Company.country company with
                     | Some c => c
                     | None => ""%string
                     end)) "FRANCE".

(** The row built from one submitted item by [create] and by [updateMany]. *)
Definition itemData (exempt : bool) (i : InvoiceItemDto.t)
    (invoiceId id : Id) : InvoiceItem.t :=
  {| InvoiceItem.id := id;
     InvoiceItem.invoiceId := invoiceId;
     InvoiceItem.description := InvoiceItemDto.description i;
     InvoiceItem.quantity := InvoiceItemDto.quantity i;
     InvoiceItem.unitPrice := InvoiceItemDto.unitPrice i;
     InvoiceItem.vatRate :=
       if exempt then 0 else or_zero (InvoiceItemDto.vatRate i);
     InvoiceItem.type := InvoiceItemDto.type i;
     InvoiceItem.order := or_zero (InvoiceItemDto.order i) |}.

Definition createItem (exempt : bool) (invoiceId : Id)
    (i : InvoiceItemDto.t) : M InvoiceItem.t :=
  id <- newId ;;
  prismaCreate invoiceItemT (itemData exempt i invoiceId id).

Definition fortnight : Z := (14 * 24 * 60 * 60 * 1000)%Z.

(** The [data] object handed to [prisma.invoice.create]. The defaults of
    the schema, which is not among the sources at hand, are taken to be
    [status = UNPAID], [isActive = true] and [createdAt = now()]. *)
Definition invoiceData (body : CreateInvoiceDto.t) (company : Company.t)
    (client : Client.t) (current : DateTime)
    (totalHT totalVAT totalTTC : Number) (id : Id) : Invoice.t :=
  {| Invoice.id := id;
     Invoice.clientId := CreateInvoiceDto.clientId body;
     Invoice.companyId := Company.id company;
     Invoice.quoteId := CreateInvoiceDto.quoteId body;
     Invoice.recurringInvoiceId := CreateInvoiceDto.recurringInvoiceId body;
     Invoice.paymentMethod := CreateInvoiceDto.paymentMethod body;
     Invoice.paymentMethodId := CreateInvoiceDto.paymentMethodId body;
     Invoice.paymentDetails := CreateInvoiceDto.paymentDetails body;
     Invoice.notes := CreateInvoiceDto.notes body;
     Invoice.currency :=
       or_default (CreateInvoiceDto.currency body)
         (Client.currency client) (Company.currency company);
     Invoice.dueDate :=
       match CreateInvoiceDto.dueDate body with
       | Some d => d
       | None => (current + fortnight)%Z
       end;
     Invoice.totalHT := totalHT;
     Invoice.totalVAT := totalVAT;
     Invoice.totalTTC := totalTTC;
     Invoice.status := UNPAID;
     Invoice.isActive := true;
     Invoice.createdAt := current |}.

(** [prisma.invoice.create] with its nested [items: { create: [...] }] and
    its [include]. *)
Definition createInvoiceRecord (exempt : bool)
    (items : list InvoiceItemDto.t) (data : Id -> Invoice.t) :
    M InvoiceView.t :=
  transaction
    (id <- newId ;;
     row <- prismaCreate invoiceT (data id) ;;
     mapM (createItem exempt id) items ;;
     includeInvoice row).

Definition createInvoice (body : CreateInvoiceDto.t) : M InvoiceView.t :=
  let items := CreateInvoiceDto.items body in
  company <- gets (fun w => findFirst (fun _ => true) (company (db w))) ;;
  match company with
  | None =>
      log AppLogger ERROR "invoice"
        "No company found. Please create a company first." ;;
      throw (BadRequestException
               "No company found. Please create a company first.")
  | Some company =>
      client <- prismaFindUnique clientT (CreateInvoiceDto.clientId body) ;;
      match client with
      | None =>
          log AppLogger ERROR "invoice" "Client not found" ;;
          throw (BadRequestException "Client not found")
      | Some client =>
          let totalHT := reduce_totalHT items in
          let totalVAT := reduce_totalVAT items in
          let totalTTC := reduce_totalTTC items in
          let exempt := isVatExemptFrance company in
          let totalVAT := if exempt then 0 else totalVAT in
          let totalTTC := if exempt then totalHT else totalTTC in
          current <- gets (fun w => now (host w)) ;;
          invoice <-
            createInvoiceRecord exempt items
              (invoiceData body company client current
                 totalHT totalVAT totalTTC) ;;
          log AppLogger INFO "invoice" "Invoice created" ;;
          try_catch
            (WebhookDispatcherService.dispatch "INVOICE_CREATED"
               (InvoicePayload invoice (Some client) (Some company)))
            (fun error =>
               log AppLogger ERROR "invoice"
                 "Failed to dispatch INVOICE_CREATED webhook") ;;
          ret invoice
      end
  end.

(** [updateMany: { where: { id }, data }] nested under one invoice. *)
Definition updateItem (exempt : bool) (invoiceId : Id)
    (i : InvoiceItemDto.t) : M unit :=
  match InvoiceItemDto.id i with
  | Some iid =>
      prismaUpdateMany invoiceItemT
        (fun it => String.eqb (InvoiceItem.invoiceId it) invoiceId
                   && String.eqb (InvoiceItem.id it) iid)
        (fun it => itemData exempt i (InvoiceItem.invoiceId it)
                     (InvoiceItem.id it))
  | None => ret tt
  end.

Definition hasId (i : InvoiceItemDto.t) : bool :=
  truthy (InvoiceItemDto.id i).

Definition incomingItemIds (items : list InvoiceItemDto.t) : list Id :=
  flat_map (fun i => match InvoiceItemDto.id i with
                     | Some iid => [iid]
                     | None => []
                     end) (filter hasId items).

Definition includes (ids : list Id) (id : Id) : bool :=
  existsb (String.eqb id) ids.

(** The [data] object handed to [prisma.invoice.update], as the row it
    turns the stored row [old] into. *)
Definition editedInvoice (body : EditInvoicesDto.t) (company : Company.t)
    (client : Client.t) (existingInvoice : Invoice.t) (current : DateTime)
    (totalHT totalVAT totalTTC : Number) (old : Invoice.t) : Invoice.t :=
  {| Invoice.id := Invoice.id old;
     Invoice.clientId :=
       if truthy (Some (EditInvoicesDto.clientId body))
       then EditInvoicesDto.clientId body
       else Invoice.clientId existingInvoice;
     Invoice.companyId := Invoice.companyId old;
     Invoice.quoteId :=
       or_else (EditInvoicesDto.quoteId body)
         (Invoice.quoteId existingInvoice);
     Invoice.recurringInvoiceId :=
       set_if_given (EditInvoicesDto.recurringInvoiceId body)
         (Invoice.recurringInvoiceId old);
     Invoice.paymentMethod :=
       or_else (EditInvoicesDto.paymentMethod body)
         (Invoice.paymentMethod existingInvoice);
     Invoice.paymentMethodId :=
       or_else (EditInvoicesDto.paymentMethodId body)
         (Invoice.paymentMethodId existingInvoice);
     Invoice.paymentDetails :=
       or_else (EditInvoicesDto.paymentDetails body)
         (Invoice.paymentDetails existingInvoice);
     Invoice.notes :=
       set_if_given (EditInvoicesDto.notes body) (Invoice.notes old);
     Invoice.currency :=
       or_default (EditInvoicesDto.currency body)
         (Client.currency client) (Company.currency company);
     Invoice.dueDate :=
       match EditInvoicesDto.dueDate body with
       | Some d => d
       | None => (current + fortnight)%Z
       end;
     Invoice.totalHT := totalHT;
     Invoice.totalVAT := totalVAT;
     Invoice.totalTTC := totalTTC;
     Invoice.status := Invoice.status old;
     Invoice.isActive := Invoice.isActive old;
     Invoice.createdAt := Invoice.createdAt old |}.

(** [prisma.invoice.update] with its nested [deleteMany], [updateMany] and
    [create] on the items, and its [include]. *)
Definition updateInvoiceRecord (exempt : bool) (id : Id)
    (itemIdsToDelete : list Id) (items : list InvoiceItemDto.t)
    (data : Invoice.t -> Invoice.t) : M InvoiceView.t :=
  transaction
    (prismaDeleteMany invoiceItemT
       (fun it => String.eqb (InvoiceItem.invoiceId it) id
                  && includes itemIdsToDelete (InvoiceItem.id it)) ;;
     mapM (updateItem exempt id) (filter hasId items) ;;
     mapM (createItem exempt id) (filter (fun i => negb (hasId i)) items) ;;
     row <- prismaUpdate invoiceT id data ;;
     includeInvoice row).

Definition editInvoice (body : EditInvoicesDto.t) : M InvoiceView.t :=
  let items := EditInvoicesDto.items body in
  match EditInvoicesDto.id body with
  | None | Some EmptyString =>
      log AppLogger ERROR "invoice" "Invoice ID is required for editing" ;;
      throw (BadRequestException "Invoice ID is required for editing")
  | Some id =>
  company <- gets (fun w => findFirst (fun _ => true) (company (db w))) ;;
  match company with
  | None =>
      log AppLogger ERROR "invoice"
        "No company found. Please create a company first." ;;
      throw (BadRequestException
               "No company found. Please create a company first.")
  | Some company =>
  client <- prismaFindUnique clientT (EditInvoicesDto.clientId body) ;;
  match client with
  | None =>
      log AppLogger ERROR "invoice" "Client not found" ;;
      throw (BadRequestException "Client not found")
  | Some client =>
  existingInvoice <- prismaFindUnique invoiceT id ;;
  match existingInvoice with
  | None =>
      log AppLogger ERROR "invoice" "Invoice not found" ;;
      throw (BadRequestException "Invoice not found")
  | Some existingInvoice =>
      existingItems <- prismaFindMany invoiceItemT
        (fun it => String.eqb (InvoiceItem.invoiceId it) id) ;;
      let existingItemIds := map InvoiceItem.id existingItems in
      let incoming := incomingItemIds items in
      let itemIdsToDelete :=
        filter (fun x => negb (includes incoming x)) existingItemIds in
      let totalHT := reduce_totalHT items in
      let totalVAT := reduce_totalVAT items in
      let totalTTC := reduce_totalTTC items in
      let exempt := isVatExemptFrance company in
      let totalVAT := if exempt then 0 else totalVAT in
      let totalTTC := if exempt then totalHT else totalTTC in
      current <- gets (fun w => now (host w)) ;;
      updateInvoice <-
        updateInvoiceRecord exempt id itemIdsToDelete items
          (editedInvoice body company client existingInvoice current
             totalHT totalVAT totalTTC) ;;
      log AppLogger INFO "invoice" "Invoice updated" ;;
      try_catch
        (WebhookDispatcherService.dispatch "INVOICE_UPDATED"
           (InvoicePayload updateInvoice
              (InvoiceView.client updateInvoice)
              (InvoiceView.company updateInvoice)))
        (fun error =>
           log AppLogger ERROR "invoice"
             "Failed to dispatch INVOICE_UPDATED webhook") ;;
      ret updateInvoice
  end end end end.

Definition deleteInvoice (id : Id) : M Invoice.t :=
  existingInvoice <- prismaFindUnique invoiceT id ;;
  match existingInvoice with
  | None =>
      log AppLogger ERROR "invoice" "Invoice not found" ;;
      throw (BadRequestException "Invoice not found")
  | Some existingInvoice =>
      existingView <- includeInvoice existingInvoice ;;
      deletedInvoice <-
        prismaUpdate invoiceT id (Invoice.with_isActive false) ;;
      log AppLogger INFO "invoice" "Invoice deleted" ;;
      try_catch
        (WebhookDispatcherService.dispatch "INVOICE_DELETED"
           (InvoicePayload existingView
              (InvoiceView.client existingView)
              (InvoiceView.company existingView)))
        (fun error =>
           log AppLogger ERROR "invoice"
             "Failed to dispatch INVOICE_DELETED webhook") ;;
      ret deletedInvoice
  end.

End InvoicesService.

(** ** ReceiptsService *)

Module ReceiptItemDto.
Record t := {
  invoiceItemId : Id;
  amountPaid : Number
}.
End ReceiptItemDto.

Module CreateReceiptDto.
Record t := {
  invoiceId : Id;
  items : list ReceiptItemDto.t;
  paymentMethodId : option Id;
  paymentMethod : option string;
  paymentDetails : option string
}.
End CreateReceiptDto.

Module EditReceiptDto.
Record t := {
  id : Id;
  items : list ReceiptItemDto.t;
  paymentMethodId : option Id;
  paymentMethod : option string;
  paymentDetails : option string
}.
End EditReceiptDto.

Module ReceiptsService.

Local Open Scope number_scope.

(** [include: { items: true }] on a receipt. *)
Definition includeReceipt (r : Receipt.t) : M ReceiptView.t :=
  gets (fun w =>
    {| ReceiptView.receipt := r;
       ReceiptView.items :=
         findMany (fun it =>
           String.eqb (ReceiptItem.receiptId it) (Receipt.id r))
           (receiptItem (db w)) |}).

(** [include: { invoice: { include: { client: true, company: true } } }];
    the invoice items are not part of this view. *)
Definition includeInvoiceOfReceipt (r : Receipt.t) :
    M (option InvoiceView.t) :=
  gets (fun w =>
    match findUnique Invoice.id (Receipt.invoiceId r) (invoice (db w)) with
    | Some inv =>
        Some {| InvoiceView.invoice := inv;
                InvoiceView.items := [];
                InvoiceView.client :=
                  findUnique Client.id (Invoice.clientId inv)
                    (client (db w));
                InvoiceView.company :=
                  findUnique Company.id (Invoice.companyId inv)
                    (company (db w)) |}
    | None => None
    end).

(** [body.items.reduce((sum, item) => sum + +item.amountPaid, 0)] *)
Definition reduce_amountPaid (items : list ReceiptItemDto.t) : Number :=
  fold_left (fun sum item => sum + ReceiptItemDto.amountPaid item) items 0.

(** [receipts.reduce((sum, receipt) => sum + receipt.totalPaid, 0)] *)
Definition reduce_totalPaid (receipts : list Receipt.t) : Number :=
  fold_left (fun sum receipt => sum + Receipt.totalPaid receipt) receipts 0.

Definition checkInvoiceAfterReceipt (invoiceId : Id) : M unit :=
  invoice <- prismaFindUnique invoiceT invoiceId ;;
  match invoice with
  | None =>
      log AppLogger ERROR "receipt" "Invoice not found" ;;
      throw (BadRequestException "Invoice not found")
  | Some invoice =>
      if InvoiceStatus_eqb (Invoice.status invoice) UNPAID then
        receipts <- prismaFindMany receiptT
          (fun r => String.eqb (Receipt.invoiceId r) invoiceId) ;;
        let totalPaid := reduce_totalPaid receipts in
        if totalPaid >= Invoice.totalTTC invoice then
          prismaUpdate invoiceT invoiceId (Invoice.with_status PAID) ;;
          ret tt
        else
          prismaUpdate invoiceT invoiceId (Invoice.with_status UNPAID) ;;
          ret tt
      else ret tt
  end.

Definition createReceiptItem (receiptId : Id) (item : ReceiptItemDto.t) :
    M ReceiptItem.t :=
  id <- newId ;;
  prismaCreate receiptItemT
    {| ReceiptItem.id := id;
       ReceiptItem.receiptId := receiptId;
       ReceiptItem.invoiceItemId := ReceiptItemDto.invoiceItemId item;
       ReceiptItem.amountPaid := ReceiptItemDto.amountPaid item |}.

Definition createReceipt (body : CreateReceiptDto.t) : M ReceiptView.t :=
  invoice <- prismaFindUnique invoiceT (CreateReceiptDto.invoiceId body) ;;
  match invoice with
  | None =>
      log AppLogger ERROR "receipt" "Invoice not found" ;;
      throw (BadRequestException "Invoice not found")
  | Some invoice =>
      invoice <- includeInvoice invoice ;;
      current <- gets (fun w => now (host w)) ;;
      receipt <- transaction
        (id <- newId ;;
         row <- prismaCreate receiptT
           {| Receipt.id := id;
              Receipt.invoiceId := CreateReceiptDto.invoiceId body;
              Receipt.totalPaid :=
                reduce_amountPaid (CreateReceiptDto.items body);
              Receipt.paymentMethodId :=
                CreateReceiptDto.paymentMethodId body;
              Receipt.paymentMethod := CreateReceiptDto.paymentMethod body;
              Receipt.paymentDetails :=
                CreateReceiptDto.paymentDetails body;
              Receipt.createdAt := current |} ;;
         mapM (createReceiptItem id) (CreateReceiptDto.items body) ;;
         includeReceipt row) ;;
      checkInvoiceAfterReceipt
        (Invoice.id (InvoiceView.invoice invoice)) ;;
      try_catch
        (WebhookDispatcherService.dispatch "RECEIPT_CREATED"
           (ReceiptPayload receipt invoice (InvoiceView.client invoice)
              (InvoiceView.company invoice)))
        (fun error =>
           log NestLogger ERROR "ReceiptsService"
             "Failed to dispatch RECEIPT_CREATED webhook") ;;
      log AppLogger INFO "receipt" "Receipt created" ;;
      ret receipt
  end.

(** Reading [updatedReceipt.invoice.client] when the relation is missing is
    a [TypeError], raised inside the [try] block. *)
Definition dispatchForReceipt (event : WebhookEvent)
    (receipt : ReceiptView.t) (invoice : option InvoiceView.t) : M unit :=
  match invoice with
  | Some invoice =>
      WebhookDispatcherService.dispatch event
        (ReceiptPayload receipt invoice (InvoiceView.client invoice)
           (InvoiceView.company invoice))
  | None =>
      throw (HostError "TypeError: Cannot read properties of null")
  end.

Definition editReceipt (body : EditReceiptDto.t) : M ReceiptView.t :=
  existingReceipt <- prismaFindUnique receiptT (EditReceiptDto.id body) ;;
  match existingReceipt with
  | None =>
      log AppLogger ERROR "receipt" "Receipt not found" ;;
      throw (BadRequestException "Receipt not found")
  | Some existingReceipt =>
      updated <- transaction
        (prismaDeleteMany receiptItemT
           (fun it => String.eqb (ReceiptItem.receiptId it)
                        (Receipt.id existingReceipt)) ;;
         mapM (createReceiptItem (Receipt.id existingReceipt))
           (EditReceiptDto.items body) ;;
         row <- prismaUpdate receiptT (Receipt.id existingReceipt)
           (fun old =>
              {| Receipt.id := Receipt.id old;
                 Receipt.invoiceId := Receipt.invoiceId old;
                 Receipt.totalPaid :=
                   reduce_amountPaid (EditReceiptDto.items body);
                 Receipt.paymentMethodId :=
                   set_if_given (EditReceiptDto.paymentMethodId body)
                     (Receipt.paymentMethodId old);
                 Receipt.paymentMethod :=
                   set_if_given (EditReceiptDto.paymentMethod body)
                     (Receipt.paymentMethod old);
                 Receipt.paymentDetails :=
                   set_if_given (EditReceiptDto.paymentDetails body)
                     (Receipt.paymentDetails old);
                 Receipt.createdAt := Receipt.createdAt old |}) ;;
         view <- includeReceipt row ;;
         inv <- includeInvoiceOfReceipt row ;;
         ret (view, inv)) ;;
      let updatedReceipt := fst updated in
      checkInvoiceAfterReceipt (Receipt.invoiceId existingReceipt) ;;
      try_catch
        (dispatchForReceipt "RECEIPT_UPDATED" updatedReceipt (snd updated))
        (fun error =>
           log NestLogger ERROR "ReceiptsService"
             "Failed to dispatch RECEIPT_UPDATED webhook") ;;
      log AppLogger INFO "receipt" "Receipt updated" ;;
      ret updatedReceipt
  end.

Definition deleteReceipt (id : Id) : M string :=
  existingReceipt <- prismaFindUnique receiptT id ;;
  match existingReceipt with
  | None =>
      log AppLogger ERROR "receipt" "Receipt not found" ;;
      throw (BadRequestException "Receipt not found")
  | Some existingReceipt =>
      view <- includeReceipt existingReceipt ;;
      inv <- includeInvoiceOfReceipt existingReceipt ;;
      prismaDeleteMany receiptItemT
        (fun it => String.eqb (ReceiptItem.receiptId it) id) ;;
      prismaDelete receiptT id ;;
      checkInvoiceAfterReceipt (Receipt.invoiceId existingReceipt) ;;
      try_catch
        (dispatchForReceipt "RECEIPT_DELETED" view inv)
        (fun error =>
           log NestLogger ERROR "ReceiptsService"
             "Failed to dispatch RECEIPT_DELETED webhook") ;;
      log AppLogger INFO "receipt" "Receipt deleted" ;;
      ret "Receipt deleted successfully"%string
  end.

End ReceiptsService.

(** ** MailService *)

Module MailService.

Definition sendMail (options : MailOptions.t) : M unit :=
  h <- gets host ;;
  let mailOptions :=
    {| MailOptions.from :=
         match MailOptions.from options with
         | Some f => Some f
         | None => or_else (env h "SMTP_FROM") (env h "SMTP_USER")
         end;
       MailOptions.to := MailOptions.to options;
       MailOptions.subject := MailOptions.subject options;
       MailOptions.html := MailOptions.html options |} in
  modify (fun w => with_mailbox (mailbox w ++ [mailOptions]) w) ;;
  if smtp h mailOptions then ret tt
  else
    log AppLogger ERROR "mail"
      "Failed to send email. Please check your SMTP configuration." ;;
    throw (HostError
             "Failed to send email. Please check your SMTP configuration.").

End MailService.

(** ** SignaturesService *)

(** Modelled from the spec: the Prisma schema is not among the sources at
    hand. A signature is created active ([isActive] defaults to [true]),
    as the lookups with [isActive: true] that [generateOTPCode] and
    [signQuote] make on a signature just created presuppose. *)
Definition Signature_isActive_default : bool := true.

Definition opt_eqb (a : option string) (b : string) : bool :=
  match a with
  | Some x => String.eqb x b
  | None => false
  end.

Definition string_of_Z (n : Z) : string :=
  NilEmpty.string_of_int (Z.to_int n).

Module SignaturesService.

Definition thirtyDays : Z := 30 * 24 * 60 * 60 * 1000.
Definition fifteenMinutes : Z := 15 * 60 * 1000.

Definition hasRequestSignature (provider : option SigningProvider.t) : bool :=
  match provider with
  | Some p =>
      match SigningProvider.requestSignature p with
      | Some _ => true
      | None => false
      end
  | None => false
  end.

Definition sendSignatureEmailWithProvider (provider : SigningProvider.t)
    (quoteId : Id) : M string :=
  match SigningProvider.requestSignature provider with
  | Some requestSignature => liftResult (requestSignature quoteId)
  | None => ret ""%string
  end.

(** [quote.client.contactEmail] when the quote has a client with a
    non-empty e-mail address. *)
Definition contactEmailOf (clientId : Id) : M (option string) :=
  client <- prismaFindUnique clientT clientId ;;
  match client with
  | Some c =>
      if truthy (Client.contactEmail c) then ret (Client.contactEmail c)
      else ret None
  | None => ret None
  end.

Definition sendSignatureEmail (quoteId : Id) : M string :=
  provider <- gets (fun w => signingProvider (host w)) ;;
  if hasRequestSignature provider then
    match provider with
    | Some p => sendSignatureEmailWithProvider p quoteId
    | None => ret ""%string
    end
  else
    current <- gets (fun w => now (host w)) ;;
    quote <- prismaFindUnique quoteT quoteId ;;
    match quote with
    | None => throw (PrismaError "Foreign key constraint violated")
    | Some quote =>
    id <- newId ;;
    signature <- prismaCreate signatureT
      {| Signature.id := id;
         Signature.quoteId := quoteId;
         Signature.isActive := Signature_isActive_default;
         Signature.otpCode := None;
         Signature.otpUsed := false;
         Signature.signedAt := None;
         Signature.expiresAt := current + thirtyDays |} ;;
    contactEmail <- contactEmailOf (Quote.clientId quote) ;;
    match contactEmail with
    | None =>
        log AppLogger ERROR "signature"
          "Quote not found or client information is missing." ;;
        throw (BadRequestException
                 "Quote not found or client information is missing.")
    | Some contactEmail =>
    prismaUpdateMany signatureT
      (fun s => String.eqb (Signature.quoteId s)
                  (Signature.quoteId signature)
                && Signature.isActive s
                && negb (String.eqb (Signature.id s)
                           (Signature.id signature)))
      (Signature.with_isActive false) ;;
    company <- gets (fun w =>
      findUnique Company.id (Quote.companyId quote) (company (db w))) ;;
    match company with
    | None => throw (HostError "TypeError: Cannot read properties of null")
    | Some company =>
    mailTemplate <- gets (fun w =>
      findFirst (fun t =>
        String.eqb (MailTemplate.type t) "SIGNATURE_REQUEST"
        && String.eqb (MailTemplate.companyId t) (Company.id company))
        (mailTemplate (db w))) ;;
    match mailTemplate with
    | None =>
        log AppLogger ERROR "signature"
          "Email template for signature request not found." ;;
        throw (BadRequestException
                 "Email template for signature request not found.")
    | Some mailTemplate =>
    h <- gets host ;;
    let appUrl := match env h "APP_URL" with
                  | Some u => u
                  | None => "undefined"%string
                  end in
    let envVariables := fun key : string =>
      if String.eqb key "APP_URL" then env h "APP_URL"
      else if String.eqb key "SIGNATURE_URL" then
        Some (appUrl ++ "/signature/" ++ Signature.id signature)%string
      else if String.eqb key "SIGNATURE_ID" then Some (Signature.id signature)
      else if String.eqb key "SIGNATURE_NUMBER" then
        Some (string_of_Z (Quote.number quote))
      else None in
    let mailOptions :=
      {| MailOptions.from := or_else (env h "SMTP_FROM") (env h "SMTP_USER");
         MailOptions.to := contactEmail;
         MailOptions.subject :=
           replacePlaceholders h (MailTemplate.subject mailTemplate)
             envVariables;
         MailOptions.html :=
           replacePlaceholders h (MailTemplate.body mailTemplate)
             envVariables |} in
    try_catch (MailService.sendMail mailOptions)
      (fun error =>
         log AppLogger ERROR "signature" "Failed to send signature email" ;;
         throw (BadRequestException
           "Failed to send signature email. Please check your SMTP configuration.")) ;;
    log AppLogger INFO "signature" "Signature email sent" ;;
    ret (Signature.id signature)
    end end end end.

Definition createSignature (quoteId : Id) : M string :=
  quote <- prismaFindUnique quoteT quoteId ;;
  contactEmail <-
    match quote with
    | Some q => contactEmailOf (Quote.clientId q)
    | None => ret None
    end ;;
  match quote, contactEmail with
  | Some quote, Some contactEmail =>
      signatureId <-
        try_catch (sendSignatureEmail (Quote.id quote))
          (fun error =>
             log AppLogger ERROR "signature" "Failed to create signature." ;;
             throw error) ;;
      prismaUpdate quoteT quoteId (Quote.with_status Q_SENT) ;;
      try_catch
        (WebhookDispatcherService.dispatch "SIGNATURE_CREATED"
           (SignatureCreatedPayload (Quote.id quote) signatureId
              (Some contactEmail)))
        (fun error =>
           log AppLogger ERROR ""
             "Failed to dispatch SIGNATURE_CREATED webhook") ;;
      log AppLogger INFO "signature" "Signature created" ;;
      ret signatureId
  | _, _ =>
      log AppLogger ERROR "signature"
        "Quote not found or client information is missing." ;;
      throw (BadRequestException
               "Quote not found or client information is missing.")
  end.

Definition sendOtpToUser (email otpCode : string) : M bool :=
  signature <- gets (fun w =>
    findFirst (fun s => opt_eqb (Signature.otpCode s) otpCode
                        && negb (Signature.otpUsed s)
                        && Signature.isActive s) (signature (db w))) ;;
  match signature with
  | None =>
      log AppLogger ERROR "signature"
        "Signature not found or OTP code is invalid." ;;
      throw (BadRequestException
               "Signature not found or OTP code is invalid.")
  | Some signature =>
  company <- gets (fun w =>
    match findUnique Quote.id (Signature.quoteId signature)
            (quote (db w)) with
    | Some q => findUnique Company.id (Quote.companyId q) (company (db w))
    | None => None
    end) ;;
  match company with
  | None => throw (HostError "TypeError: Cannot read properties of null")
  | Some company =>
  mailTemplate <- gets (fun w =>
    findFirst (fun t =>
      String.eqb (MailTemplate.type t) "VERIFICATION_CODE"
      && String.eqb (MailTemplate.companyId t) (Company.id company))
      (mailTemplate (db w))) ;;
  match mailTemplate with
  | None =>
      log AppLogger ERROR "signature"
        "Email template for OTP code not found." ;;
      throw (BadRequestException "Email template for OTP code not found.")
  | Some mailTemplate =>
  h <- gets host ;;
  let envVariables := fun key : string =>
    if String.eqb key "OTP_CODE" then
      Some (substring 0 4 otpCode ++ "-" ++ substring 4 4 otpCode)%string
    else None in
  let mailOptions :=
    {| MailOptions.from := None;
       MailOptions.to := email;
       MailOptions.subject :=
         replacePlaceholders h (MailTemplate.subject mailTemplate)
           envVariables;
       MailOptions.html :=
         replacePlaceholders h (MailTemplate.body mailTemplate)
           envVariables |} in
  try_catch (MailService.sendMail mailOptions)
    (fun error =>
       log AppLogger ERROR "signature" "Failed to send OTP email" ;;
       throw (BadRequestException
         "Failed to send OTP email. Please check your SMTP configuration.")) ;;
  log AppLogger INFO "signature" "OTP email sent" ;;
  ret true
  end end end.

Definition generateOTPCode (signatureId : Id) : M string :=
  signature <- gets (fun w =>
    findFirst (fun s => String.eqb (Signature.id s) signatureId
                        && Signature.isActive s) (signature (db w))) ;;
  contactEmail <-
    match signature with
    | Some s =>
        quote <- prismaFindUnique quoteT (Signature.quoteId s) ;;
        match quote with
        | Some q => contactEmailOf (Quote.clientId q)
        | None => ret None
        end
    | None => ret None
    end ;;
  match signature, contactEmail with
  | Some signature, Some contactEmail =>
      otpCode <- gets (fun w => randomOtp (host w)) ;;
      current <- gets (fun w => now (host w)) ;;
      prismaUpdate signatureT signatureId
        (Signature.with_otp otpCode (current + fifteenMinutes)) ;;
      sendOtpToUser contactEmail otpCode ;;
      try_catch
        (WebhookDispatcherService.dispatch "SIGNATURE_OTP_GENERATED"
           (SignatureOtpPayload signatureId (Signature.quoteId signature)
              contactEmail otpCode))
        (fun error =>
           log AppLogger ERROR ""
             "Failed to dispatch SIGNATURE_OTP_GENERATED webhook") ;;
      log AppLogger INFO "signature" "OTP code generated" ;;
      ret "OTP code generated successfully."%string
  | _, _ =>
      log AppLogger ERROR "signature"
        "Quote not found or client information is missing." ;;
      throw (BadRequestException
               "Quote not found or client information is missing.")
  end.

(** The [where] clause of [signQuote]. *)
Definition signable (signatureId : Id) (otpCode : string) (current : DateTime)
    (s : Signature.t) : bool :=
  String.eqb (Signature.id s) signatureId
  && opt_eqb (Signature.otpCode s) otpCode
  && negb (Signature.otpUsed s)
  && Signature.isActive s
  && (current <=? Signature.expiresAt s).

Definition signQuote (signatureId : Id) (otpCode : string) : M string :=
  current <- gets (fun w => now (host w)) ;;
  signature <- gets (fun w =>
    findFirst (signable signatureId otpCode current) (signature (db w))) ;;
  match signature with
  | None =>
      log AppLogger ERROR "signature" "Invalid or expired OTP code." ;;
      throw (BadRequestException "Invalid or expired OTP code.")
  | Some signature =>
      prismaUpdate signatureT (Signature.id signature)
        (Signature.with_signed current) ;;
      prismaUpdate quoteT (Signature.quoteId signature)
        (Quote.with_status Q_SIGNED) ;;
      try_catch
        (WebhookDispatcherService.dispatch "SIGNATURE_COMPLETED"
           (SignatureCompletedPayload signatureId
              (Signature.quoteId signature) current))
        (fun error =>
           log AppLogger ERROR ""
             "Failed to dispatch SIGNATURE_COMPLETED webhook") ;;
      log AppLogger INFO "signature" "Quote signed" ;;
      ret "Quote signed successfully."%string
  end.

End SignaturesService.

(** ** StatsService *)

(** [Number(x.toFixed(2))], also written [+x.toFixed(2)]. [toFixed] prints
    NaN and the infinities by name and a magnitude from [1e21] on in full,
    so that these are read back unchanged. Below, with [v] the real number
    that the double stands for, it prints the sign of a negative [v] and
    the integer [n] for which [n / 100] is nearest to the magnitude of [v],
    the larger one on a tie, with a point before the last two digits; read
    back, this is the double nearest to [n / 100], or a zero with the sign
    printed. *)
Definition toFixed2 (x : Number) : Number :=
  match x with
  | S754_finite s m e =>
      let v := Qabs (Num.exact x) in
      if Qle_bool (inject_Z (10 ^ 21)) v then x
      else
        match Qfloor (v * inject_Z 100 + (1 # 2))%Q with
        | Zpos n => Num.ratio (if s then Zneg n else Zpos n) 100
        | _ => S754_zero s
        end
  | S754_zero _ => S754_zero false
  | S754_infinity _ | S754_nan => x
  end.

(** [orderBy: { createdAt: 'asc' }] as a stable insertion sort on the
    storage order. *)
Fixpoint insertByCreatedAt (r : Receipt.t) (l : list Receipt.t) :
    list Receipt.t :=
  match l with
  | [] => [r]
  | x :: rest =>
      if Receipt.createdAt r <? Receipt.createdAt x then r :: l
      else x :: insertByCreatedAt r rest
  end.

Definition orderByCreatedAt (l : list Receipt.t) : list Receipt.t :=
  fold_right insertByCreatedAt [] (rev l).

Fixpoint update_nth {A} (n : nat) (f : A -> A) (l : list A) : list A :=
  match n, l with
  | _, [] => []
  | O, x :: r => f x :: r
  | S k, x :: r => x :: update_nth k f r
  end.

Module StatsService.

Local Open Scope number_scope.

Record MonthStat := {
  month : nat;
  invoiced : Number;
  revenue : Number;
  deposits : Number
}.

Definition CurrencyMonthsMap := list (Currency * list MonthStat).

(** [Array.from({ length: 12 }).map((_, i) => ({ month: i + 1, ... }))] *)
Definition emptyMonths : list MonthStat :=
  map (fun i => {| month := i + 1; invoiced := 0; revenue := 0;
                   deposits := 0 |}) (seq 0 12).

Definition has (currency : Currency) (m : CurrencyMonthsMap) : bool :=
  existsb (fun e => String.eqb (fst e) currency) m.

Definition ensureCurrency (currency : Currency) (m : CurrencyMonthsMap) :
    CurrencyMonthsMap :=
  if has currency m then m else m ++ [(currency, emptyMonths)].

(** [monthsByCurrency.get(currency)!.months[monthIndex]] updated in place. *)
Definition updateMonth (f : MonthStat -> MonthStat) (currency : Currency)
    (monthIndex : nat) (m : CurrencyMonthsMap) : CurrencyMonthsMap :=
  map (fun e =>
         if String.eqb (fst e) currency
         then (fst e, update_nth monthIndex f (snd e))
         else e) m.

Definition addInvoiced (x : Number) (s : MonthStat) : MonthStat :=
  {| month := month s; invoiced := invoiced s + x; revenue := revenue s;
     deposits := deposits s |}.

Definition addRevenue (x : Number) (s : MonthStat) : MonthStat :=
  {| month := month s; invoiced := invoiced s; revenue := revenue s + x;
     deposits := deposits s |}.

Definition addDeposits (x : Number) (s : MonthStat) : MonthStat :=
  {| month := month s; invoiced := invoiced s; revenue := revenue s;
     deposits := deposits s + x |}.

Definition roundStat (s : MonthStat) : MonthStat :=
  {| month := month s; invoiced := toFixed2 (invoiced s);
     revenue := toFixed2 (revenue s); deposits := toFixed2 (deposits s) |}.

(** [new Date(year, 0, 1)] and [new Date(year, 11, 31, 23, 59, 59, 999)] *)
Definition startOfYear (h : Host) (year : Z) : DateTime :=
  newDate h year 0 1 0 0 0 0.
Definition endOfYear (h : Host) (year : Z) : DateTime :=
  newDate h year 11 31 23 59 59 999.

(** [createdAt: { gte: startOfYear, lte: endOfYear }] *)
Definition inYear (h : Host) (year : Z) (t : DateTime) : bool :=
  ((startOfYear h year <=? t) && (t <=? endOfYear h year))%Z.

(** [include: { receipts: { orderBy: { createdAt: 'asc' } } }] *)
Definition receiptsAsc (d : Db) (inv : Invoice.t) : list Receipt.t :=
  orderByCreatedAt
    (findMany (fun r => String.eqb (Receipt.invoiceId r) (Invoice.id inv))
       (receipt d)).

(** [where: { isActive: true, receipts: { some: {} } }] *)
Definition invoicesWithReceipts (d : Db) : list Invoice.t :=
  findMany (fun inv =>
    Invoice.isActive inv
    && existsb (fun r => String.eqb (Receipt.invoiceId r) (Invoice.id inv))
         (receipt d)) (invoice d).

(** The inner loop over [inv.receipts]: the date of the receipt at which
    [cumulative] first reaches the total, if any. *)
Fixpoint paidDate (totalTTC cumulative : Number) (receipts : list Receipt.t) :
    option DateTime :=
  match receipts with
  | [] => None
  | r :: rest =>
      let cumulative := cumulative + Receipt.totalPaid r in
      if cumulative >= totalTTC then Some (Receipt.createdAt r)
      else paidDate totalTTC cumulative rest
  end.

Definition paidInvoices (d : Db) : list (Invoice.t * DateTime) :=
  flat_map (fun inv =>
    match paidDate (Invoice.totalTTC inv) 0 (receiptsAsc d inv) with
    | Some date => [(inv, date)]
    | None => []
    end) (invoicesWithReceipts d).

(** The net amount of a receipt: each item's [amountPaid / (1 + vat / 100)]
    with [vat = invItem?.vatRate || 0], the VAT rate of the invoice item it
    refers to. *)
Definition netOfReceipt (d : Db) (r : Receipt.t) : Number :=
  fold_left (fun sum item =>
    let invItem :=
      find (fun ii =>
        String.eqb (InvoiceItem.invoiceId ii) (Receipt.invoiceId r)
        && String.eqb (InvoiceItem.id ii) (ReceiptItem.invoiceItemId item))
        (invoiceItem d) in
    let vat := or_zero (option_map InvoiceItem.vatRate invItem) in
    sum + ReceiptItem.amountPaid item / (1 + vat / 100))
    (findMany (fun it => String.eqb (ReceiptItem.receiptId it) (Receipt.id r))
       (receiptItem d)) 0.

Definition stepInvoiced (h : Host) (m : CurrencyMonthsMap) (inv : Invoice.t) :
    CurrencyMonthsMap :=
  let currency := Invoice.currency inv in
  let monthIndex := monthIndex (getMonth h (Invoice.createdAt inv)) in
  updateMonth (addInvoiced (Invoice.totalTTC inv)) currency monthIndex
    (ensureCurrency currency m).

Definition stepRevenue (h : Host) (d : Db) (m : CurrencyMonthsMap)
    (r : Receipt.t) : CurrencyMonthsMap :=
  match findUnique Invoice.id (Receipt.invoiceId r) (invoice d) with
  | Some inv =>
      let currency := Invoice.currency inv in
      if negb (truthy (Some currency)) then m
      else
        updateMonth (addRevenue (netOfReceipt d r)) currency
          (monthIndex (getMonth h (Receipt.createdAt r)))
          (ensureCurrency currency m)
  | None => m
  end.

Definition stepDeposits (h : Host) (year : Z) (m : CurrencyMonthsMap)
    (p : Invoice.t * DateTime) : CurrencyMonthsMap :=
  let paidDate := snd p in
  if negb (getFullYear h paidDate =? year)%Z then m
  else
    let currency := Invoice.currency (fst p) in
    updateMonth (addDeposits (Invoice.totalTTC (fst p))) currency
      (monthIndex (getMonth h paidDate)) (ensureCurrency currency m).

Definition getMonthlyStats (year : Z) : M CurrencyMonthsMap :=
  company <- gets (fun w => findFirst (fun _ => true) (company (db w))) ;;
  match company with
  | None =>
      log AppLogger ERROR "stats"
        "No company found. Please create a company first." ;;
      throw (BadRequestException
               "No company found. Please create a company first.")
  | Some _ =>
      h <- gets host ;;
      d <- gets db ;;
      let invoicesInYear :=
        findMany (fun inv => Invoice.isActive inv
                             && inYear h year (Invoice.createdAt inv))
          (invoice d) in
      let receiptsInYear :=
        findMany (fun r => inYear h year (Receipt.createdAt r)) (receipt d) in
      let monthsByCurrency : CurrencyMonthsMap := [] in
      let monthsByCurrency :=
        fold_left (stepInvoiced h) invoicesInYear monthsByCurrency in
      let monthsByCurrency :=
        fold_left (stepRevenue h d) receiptsInYear monthsByCurrency in
      let monthsByCurrency :=
        fold_left (stepDeposits h year) (paidInvoices d) monthsByCurrency in
      ret (map (fun e => (fst e, map roundStat (snd e))) monthsByCurrency)
  end.

End StatsService.

(** ** A concrete host for the runs

    The theorems hold for every host. The concrete runs below use a host in
    the UTC time zone with the proleptic Gregorian calendar, an SMTP server
    that accepts every mail, no signing plugin, and drivers that answer to
    the type of their name and always deliver. *)

Module Utc.

Definition msPerDay : Z := 86400000.

Definition daysFromCivil (y m d : Z) : Z :=
  let y := if m <=? 2 then y - 1 else y in
  let era := y / 400 in
  let yoe := y - era * 400 in
  let doy := (153 * (if 2 <? m then m - 3 else m + 9) + 2) / 5 + d - 1 in
  let doe := yoe * 365 + yoe / 4 - yoe / 100 + doy in
  era * 146097 + doe - 719468.

Definition civilFromDays (z : Z) : Z * Z * Z :=
  let z := z + 719468 in
  let era := z / 146097 in
  let doe := z - era * 146097 in
  let yoe := (doe - doe / 1460 + doe / 36524 - doe / 146096) / 365 in
  let y := yoe + era * 400 in
  let doy := doe - (365 * yoe + yoe / 4 - yoe / 100) in
  let mp := (5 * doy + 2) / 153 in
  let d := doy - (153 * mp + 2) / 5 + 1 in
  let m := if mp <? 10 then mp + 3 else mp - 9 in
  (if m <=? 2 then y + 1 else y, m, d).

Definition monthOfNumber (m : Z) : Month :=
  match m with
  | 1 => Jan | 2 => Feb | 3 => Mar | 4 => Apr | 5 => May | 6 => Jun
  | 7 => Jul | 8 => Aug | 9 => Sep | 10 => Oct | 11 => Nov | _ => Dec
  end.

Definition getFullYear (t : DateTime) : Z :=
  fst (fst (civilFromDays (t / msPerDay))).

Definition getMonth (t : DateTime) : Month :=
  monthOfNumber (snd (fst (civilFromDays (t / msPerDay)))).

(** The [Date] constructor takes a year from 0 to 99 for a year of the
    twentieth century. *)
Definition newDate (y monthIndex d hh mm ss ms : Z) : DateTime :=
  let y := if (0 <=? y) && (y <=? 99) then 1900 + y else y in
  daysFromCivil y (monthIndex + 1) d * msPerDay
  + hh * 3600000 + mm * 60000 + ss * 1000 + ms.

End Utc.

Definition namedDriver (type : WebhookType) : WebhookDriver.t :=
  {| WebhookDriver.supports := fun t => String.eqb t type;
     WebhookDriver.send := fun _ _ _ _ => Ok true |}.

Definition utcHost (clock : DateTime) : Host :=
  {| now := clock;
     getFullYear := Utc.getFullYear;
     getMonth := Utc.getMonth;
     newDate := Utc.newDate;
     env := fun _ => None;
     randomOtp := "12345678";
     replacePlaceholders := fun s _ => s;
     smtp := fun _ => true;
     signingProvider := None;
     DiscordDriver := namedDriver "DISCORD";
     GenericDriver := namedDriver "GENERIC";
     MattermostDriver := namedDriver "MATTERMOST";
     RocketChatDriver := namedDriver "ROCKETCHAT";
     SlackDriver := namedDriver "SLACK";
     TeamsDriver := namedDriver "TEAMS";
     ZapierDriver := namedDriver "ZAPIER" |}.

Definition emptyDb : Db :=
  {| company := []; client := []; invoice := []; invoiceItem := [];
     receipt := []; receiptItem := []; quote := []; signature := [];
     mailTemplate := []; webhook := []; invitationCode := []; user := [] |}.

Definition worldOf (d : Db) (clock : DateTime) : World :=
  {| db := d; logs := []; outbox := []; mailbox := []; cuid := 0%nat;
     host := utcHost clock |}.

(** 2024-03-05T12:00:00Z *)
Definition noon_5_March_2024 : DateTime := Utc.newDate 2024 2 5 12 0 0 0.

(** ** Notions used in the statements *)

(** The driver [getDriver] settles on. *)
Definition selectDriver (h : Host) (type : WebhookType) : WebhookDriver.t :=
  match find (fun d => WebhookDriver.supports d type)
          (WebhooksService.drivers h) with
  | Some d => d
  | None => GenericDriver h
  end.

(** The deliveries [send] attempts for a list of webhooks. *)
Definition deliveriesOf (h : Host) (event : WebhookEvent) (payload : Payload)
    (webhooks : list Webhook.t) : list Delivery :=
  map (fun wh =>
    {| d_webhook := wh; d_event := event; d_payload := payload;
       d_outcome :=
         WebhookDriver.send (selectDriver h (Webhook.type wh))
           (Webhook.url wh) event payload (Webhook.secret wh) |}) webhooks.

(** Two worlds that differ at most in their log. *)
Definition same_but_logs (w w' : World) : Prop :=
  db w' = db w /\ host w' = host w /\ outbox w' = outbox w
  /\ mailbox w' = mailbox w /\ cuid w' = cuid w.


(** Two worlds that differ at most in their traces (log and outbox). *)
Definition effects_only (w w' : World) : Prop :=
  db w' = db w /\ host w' = host w /\ mailbox w' = mailbox w
  /\ cuid w' = cuid w.

(** The entry [runScheduledTasks] emits. *)
Definition cronEntry : LogEntry :=
  {| sink := AppLogger; level := INFO; category := "cron";
     message := "Scheduled tasks executed" |}.

(** An invitation code that is supplied, exists, has not been used and has
    no expiry date earlier than the current time. *)
Definition validInvitation (w : World) (code : option string) : Prop :=
  exists c inv,
    code = Some c /\ c <> ""%string
    /\ findUnique InvitationCode.code c (invitationCode (db w)) = Some inv
    /\ InvitationCode.usedAt inv = None
    /\ (forall e, InvitationCode.expiresAt inv = Some e ->
                  ~ (e < now (host w))).

(** What keeps a code from being accepted. *)
Inductive Refusal := Missing | Invalid | AlreadyUsed | Expired.

Definition refusalMessage (r : Refusal) : string :=
  match r with
  | Missing => "An invitation code is required to register"
  | Invalid => "Invalid invitation code"
  | AlreadyUsed => "This invitation code has already been used"
  | Expired => "This invitation code has expired"
  end.

Definition refused (w : World) (code : option string) (r : Refusal) : Prop :=
  match r with
  | Missing => code = None \/ code = Some ""%string
  | Invalid =>
      exists c, code = Some c /\ c <> ""%string
        /\ findUnique InvitationCode.code c (invitationCode (db w)) = None
  | AlreadyUsed =>
      exists c inv, code = Some c /\ c <> ""%string
        /\ findUnique InvitationCode.code c (invitationCode (db w)) = Some inv
        /\ InvitationCode.usedAt inv <> None
  | Expired =>
      exists c inv e, code = Some c /\ c <> ""%string
        /\ findUnique InvitationCode.code c (invitationCode (db w)) = Some inv
        /\ InvitationCode.usedAt inv = None
        /\ InvitationCode.expiresAt inv = Some e /\ e < now (host w)
  end.

(** Two invoices that agree on every column but [isActive]. *)
Definition Invoice_same_but_isActive (a b : Invoice.t) : Prop :=
  Invoice.id b = Invoice.id a
  /\ Invoice.clientId b = Invoice.clientId a
  /\ Invoice.companyId b = Invoice.companyId a
  /\ Invoice.quoteId b = Invoice.quoteId a
  /\ Invoice.recurringInvoiceId b = Invoice.recurringInvoiceId a
  /\ Invoice.paymentMethod b = Invoice.paymentMethod a
  /\ Invoice.paymentMethodId b = Invoice.paymentMethodId a
  /\ Invoice.paymentDetails b = Invoice.paymentDetails a
  /\ Invoice.notes b = Invoice.notes a
  /\ Invoice.currency b = Invoice.currency a
  /\ Invoice.dueDate b = Invoice.dueDate a
  /\ Invoice.totalHT b = Invoice.totalHT a
  /\ Invoice.totalVAT b = Invoice.totalVAT a
  /\ Invoice.totalTTC b = Invoice.totalTTC a
  /\ Invoice.status b = Invoice.status a
  /\ Invoice.createdAt b = Invoice.createdAt a.

(** Two clients that agree on every column but [isActive]. *)
Definition Client_same_but_isActive (a b : Client.t) : Prop :=
  Client.id b = Client.id a
  /\ Client.type b = Client.type a
  /\ Client.name b = Client.name a
  /\ Client.legalId b = Client.legalId a
  /\ Client.contactFirstname b = Client.contactFirstname a
  /\ Client.contactLastname b = Client.contactLastname a
  /\ Client.contactEmail b = Client.contactEmail a
  /\ Client.contactPhone b = Client.contactPhone a
  /\ Client.address b = Client.address a
  /\ Client.postalCode b = Client.postalCode a
  /\ Client.city b = Client.city a
  /\ Client.country b = Client.country a
  /\ Client.currency b = Client.currency a.

(** The row with key [k] went from active or not to inactive, nothing else
    changed in it, and every other row is the same, at the same place. *)
Definition soft_deleted {R} (key : R -> Id) (isActive : R -> bool)
    (same : R -> R -> Prop) (k : Id) (before after : list R) : Prop :=
  Forall2 (fun old new =>
    if String.eqb (key old) k
    then isActive new = false /\ same old new
    else new = old) before after.

(** The store [d'] has the tables of [d], the [invoice] table aside. *)
Definition same_tables_but_invoice (d d' : Db) : Prop :=
  company d' = company d /\ client d' = client d
  /\ invoiceItem d' = invoiceItem d /\ receipt d' = receipt d
  /\ receiptItem d' = receiptItem d /\ quote d' = quote d
  /\ signature d' = signature d /\ mailTemplate d' = mailTemplate d
  /\ webhook d' = webhook d /\ invitationCode d' = invitationCode d
  /\ user d' = user d.

(** The store [d'] has the tables of [d], the [client] table aside. *)
Definition same_tables_but_client (d d' : Db) : Prop :=
  company d' = company d /\ invoice d' = invoice d
  /\ invoiceItem d' = invoiceItem d /\ receipt d' = receipt d
  /\ receiptItem d' = receiptItem d /\ quote d' = quote d
  /\ signature d' = signature d /\ mailTemplate d' = mailTemplate d
  /\ webhook d' = webhook d /\ invitationCode d' = invitationCode d
  /\ user d' = user d.

(** The rows [createItem] appends for a list of submitted items when the
    identifier generator stands at [n]. *)
Fixpoint itemRows (exempt : bool) (invoiceId : Id) (n : nat)
    (items : list InvoiceItemDto.t) : list InvoiceItem.t :=
  match items with
  | [] => []
  | i :: r =>
      InvoicesService.itemData exempt i invoiceId (genId n)
        :: itemRows exempt invoiceId (S n) r
  end.

(** The [data] object [createInvoice] builds in a given world. *)
Definition createData (body : CreateInvoiceDto.t) (company : Company.t)
    (client : Client.t) (w : World) : Id -> Invoice.t :=
  let items := CreateInvoiceDto.items body in
  let exempt := InvoicesService.isVatExemptFrance company in
  InvoicesService.invoiceData body company client (now (host w))
    (InvoicesService.reduce_totalHT items)
    (if exempt then 0%num else InvoicesService.reduce_totalVAT items)
    (if exempt then InvoicesService.reduce_totalHT items
     else InvoicesService.reduce_totalTTC items).

Definition logged (cat msg : string) (l : LogLevel) (w : World) : World :=
  with_logs (logs w ++ [{| sink := AppLogger; level := l; category := cat;
                           message := msg |}]) w.

(** The guarded dispatch that ends [createInvoice]. *)
Definition dispatchCreated (view : InvoiceView.t) (client : Client.t)
    (company : Company.t) : M unit :=
  try_catch
    (WebhookDispatcherService.dispatch "INVOICE_CREATED"
       (InvoicePayload view (Some client) (Some company)))
    (fun _ =>
       log AppLogger ERROR "invoice"
         "Failed to dispatch INVOICE_CREATED webhook").

(** The numbers of a list added up as doubles, one after the other in the
    order of the list, starting from [from]. *)
Definition added_up (from : Number) (l : list Number) : Number :=
  fold_left Num.add l from.

(** The sum of [f] over a list: the values added up as doubles in the
    order of the list, starting from 0. Each addition rounds, so the
    result depends on the order and need not be the exact sum. *)
Definition sum_over {A} (f : A -> Number) (l : list A) : Number :=
  added_up 0%num (map f l).

(** The exact sum of the real numbers that the values of [f] stand for. *)
Definition exact_sum {A} (f : A -> Number) (l : list A) : Q :=
  fold_right (fun x acc => (Num.exact (f x) + acc)%Q) 0%Q l.

(** [quantity * unitPrice] of a submitted item. *)
Definition lineHT (i : InvoiceItemDto.t) : Number :=
  (InvoiceItemDto.quantity i * InvoiceItemDto.unitPrice i)%num.

(** [quantity * unitPrice * vatRate / 100] of a submitted item, a missing
    rate counting as 0. *)
Definition lineVAT (i : InvoiceItemDto.t) : Number :=
  (InvoiceItemDto.quantity i * InvoiceItemDto.unitPrice i
   * or_zero (InvoiceItemDto.vatRate i) / 100)%num.

(** [quantity * unitPrice * (1 + vatRate / 100)] of a submitted item, a
    missing rate counting as 0. *)
Definition lineTTC (i : InvoiceItemDto.t) : Number :=
  (InvoiceItemDto.quantity i * InvoiceItemDto.unitPrice i
   * (1 + or_zero (InvoiceItemDto.vatRate i) / 100))%num.

(** The company has [exemptVat] set and its country reads FRANCE, whatever
    the case of the letters. *)
Definition exemptFrance (co : Company.t) : Prop :=
  Company.exemptVat co = true
  /\ exists c, Company.country co = Some c /\ toUpperCase c = "FRANCE"%string.

(** The two operations that write the totals of an invoice. *)
Inductive InvoiceWrite :=
| CreateInvoice (body : CreateInvoiceDto.t)
| EditInvoice (body : EditInvoicesDto.t).

Definition runInvoiceWrite (op : InvoiceWrite) : M InvoiceView.t :=
  match op with
  | CreateInvoice body => InvoicesService.createInvoice body
  | EditInvoice body => InvoicesService.editInvoice body
  end.

Definition submittedItems (op : InvoiceWrite) : list InvoiceItemDto.t :=
  match op with
  | CreateInvoice body => CreateInvoiceDto.items body
  | EditInvoice body => EditInvoicesDto.items body
  end.

(** Referential integrity of [InvoiceItem.invoiceId]. *)
Definition fk_invoiceItem (d : Db) : Prop :=
  forall it, In it (invoiceItem d) ->
    exists inv,
      findUnique Invoice.id (InvoiceItem.invoiceId it) (invoice d) = Some inv.

(** The items stored for an invoice. *)
Definition storedItems (d : Db) (invoiceId : Id) : list InvoiceItem.t :=
  findMany (fun it => String.eqb (InvoiceItem.invoiceId it) invoiceId)
    (invoiceItem d).

(** What the nested [updateMany] entries of [editInvoice] make of a row. *)
Definition rowUpdate (exempt : bool) (invoiceId : Id) (r : InvoiceItem.t)
    (i : InvoiceItemDto.t) : InvoiceItem.t :=
  match InvoiceItemDto.id i with
  | Some iid =>
      if String.eqb (InvoiceItem.invoiceId r) invoiceId
         && String.eqb (InvoiceItem.id r) iid
      then InvoicesService.itemData exempt i (InvoiceItem.invoiceId r)
             (InvoiceItem.id r)
      else r
  | None => r
  end.

Definition rowUpdates (exempt : bool) (invoiceId : Id)
    (l : list InvoiceItemDto.t) (r : InvoiceItem.t) : InvoiceItem.t :=
  fold_left (rowUpdate exempt invoiceId) l r.

(** The identifiers [editInvoice] hands to the nested [deleteMany]. *)
Definition itemIdsToDelete (id : Id) (items : list InvoiceItemDto.t)
    (d : Db) : list Id :=
  filter (fun x =>
    negb (InvoicesService.includes (InvoicesService.incomingItemIds items) x))
    (map InvoiceItem.id (storedItems d id)).

(** The [data] object [editInvoice] builds in a given world. *)
Definition editData (body : EditInvoicesDto.t) (company : Company.t)
    (client : Client.t) (existing : Invoice.t) (w : World) :
    Invoice.t -> Invoice.t :=
  let items := EditInvoicesDto.items body in
  let exempt := InvoicesService.isVatExemptFrance company in
  InvoicesService.editedInvoice body company client existing (now (host w))
    (InvoicesService.reduce_totalHT items)
    (if exempt then 0%num else InvoicesService.reduce_totalVAT items)
    (if exempt then InvoicesService.reduce_totalHT items
     else InvoicesService.reduce_totalTTC items).

(** ** Concrete data for the runs *)

Definition acme : Company.t :=
  {| Company.id := "co1"; Company.name := "ACME";
     Company.exemptVat := true; Company.country := Some "France";
     Company.currency := "EUR" |}.

Definition dupont : Client.t :=
  {| Client.id := "cl1"; Client.type := COMPANY; Client.name := "Dupont SA";
     Client.legalId := Some "552100554";
     Client.contactFirstname := None; Client.contactLastname := None;
     Client.contactEmail := Some "contact@dupont.example";
     Client.contactPhone := None; Client.address := None;
     Client.postalCode := None; Client.city := None;
     Client.country := Some "France"; Client.currency := None;
     Client.isActive := true |}.

Definition hook : Webhook.t :=
  {| Webhook.id := "wh1"; Webhook.url := "https://hooks.example/in";
     Webhook.type := "SLACK"; Webhook.secret := None;
     Webhook.events := ["INVOICE_CREATED"; "RECEIPT_CREATED"];
     Webhook.companyId := "co1" |}.

Definition baseDb : Db :=
  {| company := [acme]; client := [dupont]; invoice := [];
     invoiceItem := []; receipt := []; receiptItem := []; quote := [];
     signature := []; mailTemplate := []; webhook := [hook];
     invitationCode := []; user := [] |}.

Definition baseWorld : World := worldOf baseDb noon_5_March_2024.

Definition design : InvoiceItemDto.t :=
  {| InvoiceItemDto.id := None; InvoiceItemDto.description := "Design";
     InvoiceItemDto.quantity := 2; InvoiceItemDto.unitPrice := 150;
     InvoiceItemDto.vatRate := Some 20%num; InvoiceItemDto.type := "SERVICE";
     InvoiceItemDto.order := None |}.

Definition hosting : InvoiceItemDto.t :=
  {| InvoiceItemDto.id := None; InvoiceItemDto.description := "Hosting";
     InvoiceItemDto.quantity := 12;
     InvoiceItemDto.unitPrice := Num.decimal 45 1;
     InvoiceItemDto.vatRate := None; InvoiceItemDto.type := "PRODUCT";
     InvoiceItemDto.order := Some 1%num |}.

Definition newInvoice : CreateInvoiceDto.t :=
  {| CreateInvoiceDto.clientId := "cl1"; CreateInvoiceDto.quoteId := None;
     CreateInvoiceDto.recurringInvoiceId := None;
     CreateInvoiceDto.notes := Some "Thank you";
     CreateInvoiceDto.paymentMethod := None;
     CreateInvoiceDto.paymentMethodId := None;
     CreateInvoiceDto.paymentDetails := None;
     CreateInvoiceDto.currency := None; CreateInvoiceDto.dueDate := None;
     CreateInvoiceDto.items := [design; hosting] |}.

(** A company that charges VAT, and an invoice of one line: 1 x 0.1 at
    10 %. *)
Definition globex : Company.t :=
  {| Company.id := "co1"; Company.name := "Globex";
     Company.exemptVat := false; Company.country := Some "Belgium";
     Company.currency := "EUR" |}.

Definition vatDb : Db :=
  {| company := [globex]; client := [dupont]; invoice := [];
     invoiceItem := []; receipt := []; receiptItem := []; quote := [];
     signature := []; mailTemplate := []; webhook := [hook];
     invitationCode := []; user := [] |}.

Definition vatWorld : World := worldOf vatDb noon_5_March_2024.

Definition oneTenth : CreateInvoiceDto.t :=
  {| CreateInvoiceDto.clientId := "cl1"; CreateInvoiceDto.quoteId := None;
     CreateInvoiceDto.recurringInvoiceId := None;
     CreateInvoiceDto.notes := None;
     CreateInvoiceDto.paymentMethod := None;
     CreateInvoiceDto.paymentMethodId := None;
     CreateInvoiceDto.paymentDetails := None;
     CreateInvoiceDto.currency := None; CreateInvoiceDto.dueDate := None;
     CreateInvoiceDto.items :=
       [{| InvoiceItemDto.id := None; InvoiceItemDto.description := "Stamp";
           InvoiceItemDto.quantity := 1;
           InvoiceItemDto.unitPrice := Num.decimal 1 1;
           InvoiceItemDto.vatRate := Some 10%num;
           InvoiceItemDto.type := "PRODUCT";
           InvoiceItemDto.order := None |}] |}.

(** The three operations on receipts that re-examine an invoice. *)
Inductive ReceiptOp :=
| CreateReceipt (body : CreateReceiptDto.t)
| EditReceipt (body : EditReceiptDto.t)
| DeleteReceipt (id : Id).

Definition runReceiptOp (op : ReceiptOp) : M unit :=
  match op with
  | CreateReceipt body => bind (ReceiptsService.createReceipt body)
                            (fun _ => ret tt)
  | EditReceipt body => bind (ReceiptsService.editReceipt body)
                          (fun _ => ret tt)
  | DeleteReceipt id => bind (ReceiptsService.deleteReceipt id)
                          (fun _ => ret tt)
  end.

(** The invoice a receipt operation is about. *)
Definition invoiceOfOp (op : ReceiptOp) (d : Db) : option Id :=
  match op with
  | CreateReceipt body => Some (CreateReceiptDto.invoiceId body)
  | EditReceipt body =>
      option_map Receipt.invoiceId
        (findUnique Receipt.id (EditReceiptDto.id body) (receipt d))
  | DeleteReceipt id =>
      option_map Receipt.invoiceId (findUnique Receipt.id id (receipt d))
  end.

(** The receipts of an invoice. *)
Definition receiptsOf (d : Db) (invoiceId : Id) : list Receipt.t :=
  findMany (fun r => String.eqb (Receipt.invoiceId r) invoiceId) (receipt d).

(** The status [checkInvoiceAfterReceipt] leaves an invoice with. *)
Definition checkedStatus (inv : Invoice.t) (receipts : list Receipt.t) :
    InvoiceStatus :=
  if InvoiceStatus_eqb (Invoice.status inv) UNPAID then
    if (ReceiptsService.reduce_totalPaid receipts >= Invoice.totalTTC inv)%num
    then PAID else UNPAID
  else Invoice.status inv.

Definition invoice1 : Invoice.t :=
  {| Invoice.id := "inv1"; Invoice.clientId := "cl1";
     Invoice.companyId := "co1"; Invoice.quoteId := None;
     Invoice.recurringInvoiceId := None; Invoice.paymentMethod := None;
     Invoice.paymentMethodId := None; Invoice.paymentDetails := None;
     Invoice.notes := None; Invoice.currency := "EUR";
     Invoice.dueDate := noon_5_March_2024 + InvoicesService.fortnight;
     Invoice.totalHT := 354; Invoice.totalVAT := 0;
     Invoice.totalTTC := 354; Invoice.status := UNPAID;
     Invoice.isActive := true; Invoice.createdAt := noon_5_March_2024 |}.

Definition item1 : InvoiceItem.t :=
  {| InvoiceItem.id := "it1"; InvoiceItem.invoiceId := "inv1";
     InvoiceItem.description := "Design"; InvoiceItem.quantity := 2;
     InvoiceItem.unitPrice := 177; InvoiceItem.vatRate := 0;
     InvoiceItem.type := "SERVICE"; InvoiceItem.order := 0 |}.

Definition invoicedDb : Db :=
  with_invoiceItem [item1] (with_invoice [invoice1] baseDb).

Definition invoicedWorld : World := worldOf invoicedDb noon_5_March_2024.

Definition fullPayment : CreateReceiptDto.t :=
  {| CreateReceiptDto.invoiceId := "inv1";
     CreateReceiptDto.items :=
       [{| ReceiptItemDto.invoiceItemId := "it1";
           ReceiptItemDto.amountPaid := 354 |}];
     CreateReceiptDto.paymentMethodId := None;
     CreateReceiptDto.paymentMethod := Some "BANK_TRANSFER";
     CreateReceiptDto.paymentDetails := None |}.

(** An UNPAID invoice of 0.9 with receipts of 0.2 and 0.5, and a payment of
    0.2 more. *)
Definition invoice3 : Invoice.t :=
  {| Invoice.id := "inv3"; Invoice.clientId := "cl1";
     Invoice.companyId := "co1"; Invoice.quoteId := None;
     Invoice.recurringInvoiceId := None; Invoice.paymentMethod := None;
     Invoice.paymentMethodId := None; Invoice.paymentDetails := None;
     Invoice.notes := None; Invoice.currency := "EUR";
     Invoice.dueDate := noon_5_March_2024 + InvoicesService.fortnight;
     Invoice.totalHT := Num.decimal 9 1; Invoice.totalVAT := 0;
     Invoice.totalTTC := Num.decimal 9 1; Invoice.status := UNPAID;
     Invoice.isActive := true; Invoice.createdAt := noon_5_March_2024 |}.

Definition item3 : InvoiceItem.t :=
  {| InvoiceItem.id := "it3"; InvoiceItem.invoiceId := "inv3";
     InvoiceItem.description := "Stickers"; InvoiceItem.quantity := 9;
     InvoiceItem.unitPrice := Num.decimal 1 1; InvoiceItem.vatRate := 0;
     InvoiceItem.type := "PRODUCT"; InvoiceItem.order := 0 |}.

Definition receiptOf (id : Id) (invoiceId : Id) (amount : Number) :
    Receipt.t :=
  {| Receipt.id := id; Receipt.invoiceId := invoiceId;
     Receipt.totalPaid := amount; Receipt.paymentMethodId := None;
     Receipt.paymentMethod := Some "CASH"; Receipt.paymentDetails := None;
     Receipt.createdAt := noon_5_March_2024 |}.

Definition partPaidDb : Db :=
  with_receipt [receiptOf "r31" "inv3" (Num.decimal 2 1);
                receiptOf "r32" "inv3" (Num.decimal 5 1)]
    (with_invoiceItem [item3] (with_invoice [invoice3] baseDb)).

Definition partPaidWorld : World := worldOf partPaidDb noon_5_March_2024.

Definition lastTwoTenths : CreateReceiptDto.t :=
  {| CreateReceiptDto.invoiceId := "inv3";
     CreateReceiptDto.items :=
       [{| ReceiptItemDto.invoiceItemId := "it3";
           ReceiptItemDto.amountPaid := Num.decimal 2 1 |}];
     CreateReceiptDto.paymentMethodId := None;
     CreateReceiptDto.paymentMethod := Some "CASH";
     CreateReceiptDto.paymentDetails := None |}.

(** A computation all of whose runs, completed or thrown, relate the final
    world to the initial one by [P]. *)
Definition preserves {A} (P : World -> World -> Prop) (c : M A) : Prop :=
  forall w r w', c w = (r, w') -> P w w'.

(** The [quote] table is the same in both worlds. *)
Definition same_quotes (w w' : World) : Prop :=
  quote (db w') = quote (db w).

(** The signatures of a quote that are active. *)
Definition activeSignatures (d : Db) (quoteId : Id) : list Signature.t :=
  findMany (fun s => String.eqb (Signature.quoteId s) quoteId
                     && Signature.isActive s) (signature d).

(** The row [sendSignatureEmail] creates on its fallback path. *)
Definition newSignature (quoteId : Id) (w : World) : Signature.t :=
  {| Signature.id := genId (cuid w);
     Signature.quoteId := quoteId;
     Signature.isActive := Signature_isActive_default;
     Signature.otpCode := None;
     Signature.otpUsed := false;
     Signature.signedAt := None;
     Signature.expiresAt := now (host w) + SignaturesService.thirtyDays |}.

(** What the [updateMany] of [sendSignatureEmail] makes of an older row. *)
Definition superseded (quoteId : Id) (s : Signature.t) : Signature.t :=
  if String.eqb (Signature.quoteId s) quoteId && Signature.isActive s
  then Signature.with_isActive false s else s.

(** The operations of [SignaturesService] that a client of the service can
    chain on the quotes. *)
Inductive SignatureOp :=
| CreateSignature (quoteId : Id)
| GenerateOTPCode (signatureId : Id)
| SignQuote (signatureId : Id) (otpCode : string).

Definition runSignatureOp (op : SignatureOp) : M unit :=
  match op with
  | CreateSignature quoteId =>
      bind (SignaturesService.createSignature quoteId) (fun _ => ret tt)
  | GenerateOTPCode signatureId =>
      bind (SignaturesService.generateOTPCode signatureId) (fun _ => ret tt)
  | SignQuote signatureId otpCode =>
      bind (SignaturesService.signQuote signatureId otpCode)
        (fun _ => ret tt)
  end.

(** A sequence of operations, each run in the state the previous one left,
    whether it completed or threw. *)
Fixpoint runSignatureOps (ops : list SignatureOp) (w : World) : World :=
  match ops with
  | [] => w
  | op :: rest => runSignatureOps rest (snd (runSignatureOp op w))
  end.

(** What one signature operation can do to the [quote] table. *)
Definition quote_step (t t' : list Quote.t) : Prop :=
  t' = t
  \/ exists k s, (s = Q_SENT \/ s = Q_SIGNED)
                 /\ t' = update Quote.id k (Quote.with_status s) t.

Definition statusOfQuote (d : Db) (quoteId : Id) : option QuoteStatus :=
  option_map Quote.status (findUnique Quote.id quoteId (quote d)).

Definition signedQuote : Quote.t :=
  {| Quote.id := "q1"; Quote.number := 7; Quote.clientId := "cl1";
     Quote.companyId := "co1"; Quote.status := Q_SIGNED;
     Quote.isActive := true |}.

Definition signatureRequest : MailTemplate.t :=
  {| MailTemplate.type := "SIGNATURE_REQUEST";
     MailTemplate.companyId := "co1";
     MailTemplate.subject := "Please sign quote {{SIGNATURE_NUMBER}}";
     MailTemplate.body := "Sign here: {{SIGNATURE_URL}}" |}.

Definition olderSignature : Signature.t :=
  {| Signature.id := "s0"; Signature.quoteId := "q1";
     Signature.isActive := true; Signature.otpCode := Some "11112222";
     Signature.otpUsed := true;
     Signature.signedAt := Some (noon_5_March_2024 - 3600000);
     Signature.expiresAt := noon_5_March_2024 + 900000 |}.

Definition signedDb : Db :=
  {| company := [acme]; client := [dupont]; invoice := [];
     invoiceItem := []; receipt := []; receiptItem := [];
     quote := [signedQuote]; signature := [olderSignature];
     mailTemplate := [signatureRequest]; webhook := [hook];
     invitationCode := []; user := [] |}.

Definition signedWorld : World := worldOf signedDb noon_5_March_2024.

(** The store is the same in both worlds. *)
Definition same_db (w w' : World) : Prop := db w' = db w.

(** ** Notions for the monthly statistics *)

Inductive Field := Invoiced | Revenue | Deposits.

Definition Field_eqb (a b : Field) : bool :=
  match a, b with
  | Invoiced, Invoiced | Revenue, Revenue | Deposits, Deposits => true
  | _, _ => false
  end.

Definition getField (f : Field) (s : StatsService.MonthStat) : Number :=
  match f with
  | Invoiced => StatsService.invoiced s
  | Revenue => StatsService.revenue s
  | Deposits => StatsService.deposits s
  end.

Definition addField (f : Field) (x : Number) :
    StatsService.MonthStat -> StatsService.MonthStat :=
  match f with
  | Invoiced => StatsService.addInvoiced x
  | Revenue => StatsService.addRevenue x
  | Deposits => StatsService.addDeposits x
  end.

(** [monthsByCurrency.get(currency)] *)
Definition lookupCurrency (c : Currency) (m : StatsService.CurrencyMonthsMap) :
    option (Currency * list StatsService.MonthStat) :=
  find (fun e => String.eqb (fst e) c) m.

(** The value held for a currency and a month index, 0 when there is no
    entry. *)
Definition fieldAt (f : Field) (c : Currency) (i : nat)
    (m : StatsService.CurrencyMonthsMap) : Number :=
  match lookupCurrency c m with
  | Some e =>
      match nth_error (snd e) i with
      | Some s => getField f s
      | None => 0%num
      end
  | None => 0%num
  end.

(** The twelve entries of a currency carry the months 1 to 12 in order. *)
Definition months_ok (ms : list StatsService.MonthStat) : Prop :=
  map StatsService.month ms = map S (seq 0 12).

Definition map_ok (m : StatsService.CurrencyMonthsMap) : Prop :=
  NoDup (map fst m) /\ Forall (fun e => months_ok (snd e)) m.

(** One accumulation step: the currency is ensured and the month updated. *)
Definition bump (f : Field) (x : Number) (c : Currency) (i : nat)
    (m : StatsService.CurrencyMonthsMap) : StatsService.CurrencyMonthsMap :=
  StatsService.updateMonth (addField f x) c i
    (StatsService.ensureCurrency c m).

(** An active invoice created in the requested year, in the given currency
    and month. *)
Definition invoicedIn (h : Host) (year : Z) (c : Currency) (mo : Month)
    (inv : Invoice.t) : bool :=
  Invoice.isActive inv
  && StatsService.inYear h year (Invoice.createdAt inv)
  && String.eqb (Invoice.currency inv) c
  && Nat.eqb (monthIndex (getMonth h (Invoice.createdAt inv)))
       (monthIndex mo).

(** The cumulative sum of [totalPaid] over the first [k] receipts, added
    up as doubles in the order of the list. *)
Definition paidUpTo (k : nat) (receipts : list Receipt.t) : Number :=
  sum_over Receipt.totalPaid (firstn k receipts).

(** [r] is the first receipt of the list at which the cumulative sum, as
    the doubles add up, compares [>=] to the total. *)
Definition first_reaching (total : Number) (receipts : list Receipt.t)
    (r : Receipt.t) : Prop :=
  exists k,
    nth_error receipts k = Some r
    /\ (paidUpTo (S k) receipts >= total)%num = true
    /\ forall j, (j < k)%nat ->
         (paidUpTo (S j) receipts >= total)%num = false.

(** An active invoice in the given currency whose receipts, in ascending
    order of creation, first reach its total at a receipt dated in the
    requested year and the given month. *)
Definition depositedIn (h : Host) (d : Db) (year : Z) (c : Currency)
    (mo : Month) (inv : Invoice.t) : bool :=
  Invoice.isActive inv
  && existsb (fun r => String.eqb (Receipt.invoiceId r) (Invoice.id inv))
       (receipt d)
  && String.eqb (Invoice.currency inv) c
  && match StatsService.paidDate (Invoice.totalTTC inv) 0%num
             (StatsService.receiptsAsc d inv) with
     | Some t =>
         (getFullYear h t =? year)
         && Nat.eqb (monthIndex (getMonth h t)) (monthIndex mo)
     | None => false
     end.

(** An accumulation step reads off an element at most one currency, month
    index and amount. *)
Definition applyKey (f : Field) (k : option (Currency * nat * Number))
    (m : StatsService.CurrencyMonthsMap) : StatsService.CurrencyMonthsMap :=
  match k with
  | Some (c, i, x) => bump f x c i m
  | None => m
  end.

(** The amounts that the elements of a list add to a currency and a month
    index, in the order of the list. *)
Definition contributions {A} (key : A -> option (Currency * nat * Number))
    (c : Currency) (i : nat) (L : list A) : list Number :=
  flat_map (fun a =>
    match key a with
    | Some (c0, i0, x) => if String.eqb c0 c && Nat.eqb i0 i then [x] else []
    | None => []
    end) L.

Definition keyInvoiced (h : Host) (inv : Invoice.t) :
    option (Currency * nat * Number) :=
  Some (Invoice.currency inv,
        monthIndex (getMonth h (Invoice.createdAt inv)),
        Invoice.totalTTC inv).

Definition keyRevenue (h : Host) (d : Db) (r : Receipt.t) :
    option (Currency * nat * Number) :=
  match findUnique Invoice.id (Receipt.invoiceId r) (invoice d) with
  | Some inv =>
      if negb (truthy (Some (Invoice.currency inv))) then None
      else Some (Invoice.currency inv,
                 monthIndex (getMonth h (Receipt.createdAt r)),
                 StatsService.netOfReceipt d r)
  | None => None
  end.

Definition keyDeposits (h : Host) (year : Z) (p : Invoice.t * DateTime) :
    option (Currency * nat * Number) :=
  if negb (getFullYear h (snd p) =? year) then None
  else Some (Invoice.currency (fst p),
             monthIndex (getMonth h (snd p)),
             Invoice.totalTTC (fst p)).

(** The map [getMonthlyStats] holds before it rounds. *)
Definition monthsBeforeRounding (h : Host) (d : Db) (year : Z) :
    StatsService.CurrencyMonthsMap :=
  fold_left (StatsService.stepDeposits h year) (StatsService.paidInvoices d)
    (fold_left (StatsService.stepRevenue h d)
       (findMany (fun r => StatsService.inYear h year (Receipt.createdAt r))
          (receipt d))
       (fold_left (StatsService.stepInvoiced h)
          (findMany (fun inv =>
             Invoice.isActive inv
             && StatsService.inYear h year (Invoice.createdAt inv))
             (invoice d)) [])).

(** [a] was created no later than [b]. *)
Definition createdBefore (a b : Receipt.t) : Prop :=
  Receipt.createdAt a <= Receipt.createdAt b.

(** The rounding applied to every entry of the result. *)
Definition rounded (e : Currency * list StatsService.MonthStat) :
    Currency * list StatsService.MonthStat :=
  (fst e, map StatsService.roundStat (snd e)).

(** An invoice whose total has more than two decimals:
    19.99 at 5.5 % VAT is 21.08945. *)
Definition invoice2 : Invoice.t :=
  {| Invoice.id := "inv2"; Invoice.clientId := "cl1";
     Invoice.companyId := "co1"; Invoice.quoteId := None;
     Invoice.recurringInvoiceId := None; Invoice.paymentMethod := None;
     Invoice.paymentMethodId := None; Invoice.paymentDetails := None;
     Invoice.notes := None; Invoice.currency := "EUR";
     Invoice.dueDate := noon_5_March_2024 + InvoicesService.fortnight;
     Invoice.totalHT := Num.decimal 1999 2;
     Invoice.totalVAT := Num.decimal 109945 5;
     Invoice.totalTTC := Num.decimal 2108945 5; Invoice.status := UNPAID;
     Invoice.isActive := true; Invoice.createdAt := noon_5_March_2024 |}.

Definition receipt2 : Receipt.t :=
  {| Receipt.id := "r2"; Receipt.invoiceId := "inv2";
     Receipt.totalPaid := Num.decimal 2109 2; Receipt.paymentMethodId := None;
     Receipt.paymentMethod := Some "CASH"; Receipt.paymentDetails := None;
     Receipt.createdAt := noon_5_March_2024 + 86400000 |}.

Definition statsDb : Db :=
  with_receipt [receipt2] (with_invoice [invoice2] baseDb).

Definition statsWorld : World := worldOf statsDb noon_5_March_2024.

(** The [invoiced] value reported for a currency and a month. *)
Definition reportedInvoiced (year : Z) (c : Currency) (mo : Month)
    (w : World) : option Number :=
  match fst (StatsService.getMonthlyStats year w) with
  | Ok res =>
      match lookupCurrency c res with
      | Some e =>
          option_map StatsService.invoiced
            (nth_error (snd e) (monthIndex mo))
      | None => None
      end
  | Throw _ => None
  end.
(** * Further methods of the services

    The methods below belong to the same service classes as the ones above;
    a module named after a class with the suffix [2] holds them. *)

Definition with_invitationCode (t : list InvitationCode.t) (d : Db) : Db :=
  {| company := company d; client := client d; invoice := invoice d;
     invoiceItem := invoiceItem d; receipt := receipt d;
     receiptItem := receiptItem d; quote := quote d;
     signature := signature d; mailTemplate := mailTemplate d;
     webhook := webhook d; invitationCode := t; user := user d |}.

Definition invitationCodeT : Table InvitationCode.t :=
  {| rows := invitationCode; with_rows := with_invitationCode;
     pk := InvitationCode.id |}.

(** ** InvitationsService: using and deleting a code *)

Module InvitationsService2.

(** [data: { usedAt: new Date(), usedById: userId }] *)
Definition with_used (at_ : DateTime) (userId : Id) (i : InvitationCode.t) :
    InvitationCode.t :=
  {| InvitationCode.id := InvitationCode.id i;
     InvitationCode.code := InvitationCode.code i;
     InvitationCode.createdById := InvitationCode.createdById i;
     InvitationCode.expiresAt := InvitationCode.expiresAt i;
     InvitationCode.usedAt := Some at_;
     InvitationCode.usedById := Some userId |}.

Definition useInvitation (code : string) (userId : Id) :
    M InvitationCode.t :=
  invitation <- gets (fun w =>
    findUnique InvitationCode.code code (invitationCode (db w))) ;;
  match invitation with
  | None =>
      log AppLogger WARN "invitation" "Invitation code not found" ;;
      throw (NotFoundException "Invitation code not found")
  | Some invitation =>
      match InvitationCode.usedAt invitation with
      | Some _ =>
          log AppLogger WARN "invitation" "Invitation code already used" ;;
          throw (BadRequestException
                   "This invitation code has already been used")
      | None =>
          current <- gets (fun w => now (host w)) ;;
          if match InvitationCode.expiresAt invitation with
             | Some e => e <? current
             | None => false
             end
          then
            log AppLogger WARN "invitation" "Invitation code expired" ;;
            throw (BadRequestException "This invitation code has expired")
          else
            log AppLogger INFO "invitation" "Invitation code used" ;;
            current <- gets (fun w => now (host w)) ;;
            prismaUpdate invitationCodeT (InvitationCode.id invitation)
              (with_used current userId)
      end
  end.

(** The [where] clause of [deleteInvitation]:
    [{ id, createdById: userId, usedAt: null }]. *)
Definition deletable (id userId : Id) (i : InvitationCode.t) : bool :=
  String.eqb (InvitationCode.id i) id
  && String.eqb (InvitationCode.createdById i) userId
  && match InvitationCode.usedAt i with
     | None => true
     | Some _ => false
     end.

(** The value is the [success] field of the object returned. *)
Definition deleteInvitation (id userId : Id) : M bool :=
  invitation <- gets (fun w =>
    findFirst (deletable id userId) (invitationCode (db w))) ;;
  match invitation with
  | None =>
      log AppLogger WARN "invitation"
        "Invitation not found or already used" ;;
      throw (NotFoundException "Invitation not found or already used")
  | Some _ =>
      prismaDelete invitationCodeT id ;;
      log AppLogger INFO "invitation" "Invitation deleted" ;;
      ret true
  end.

End InvitationsService2.

(** ** ClientsService: creating and editing a client *)

(** A string is the UTF-8 encoding of the JavaScript string. A character
    is a byte that is no continuation byte, together with the continuation
    bytes (those from 128 to 191) that follow it. *)
Definition isContinuation (c : ascii) : bool :=
  let n := nat_of_ascii c in
  Nat.leb 128 n && Nat.leb n 191.

(** The characters of a string, in order. *)
Fixpoint chars (s : string) : list string :=
  match s with
  | EmptyString => []
  | String c r =>
      match chars r with
      | String d t :: ts =>
          if isContinuation d then String c (String d t) :: ts
          else String c EmptyString :: String d t :: ts
      | ts => String c EmptyString :: ts
      end
  end.

(** The UTF-8 encoding of a code point. *)
Definition utf8 (cp : N) : string :=
  let byte (n : N) := String (ascii_of_N n) EmptyString in
  let continuation (n : N) := byte (128 + n mod 64)%N in
  (if cp <? 128 then byte cp
   else if cp <? 2048 then byte (192 + cp / 64) ++ continuation cp
   else if cp <? 65536 then
     byte (224 + cp / 4096) ++ continuation (cp / 64) ++ continuation cp
   else
     byte (240 + cp / 262144) ++ continuation (cp / 4096)
       ++ continuation (cp / 64) ++ continuation cp)%N%string.

(** The code points that [trim] and [parseInt] take for white space: the
    WhiteSpace and LineTerminator productions of ECMAScript, that is tab,
    line feed, vertical tab, form feed, carriage return, space, no-break
    space, the other space separators of Unicode, the line and paragraph
    separators and the byte order mark. *)
Definition whiteSpaceCodes : list N :=
  [0x9; 0xA; 0xB; 0xC; 0xD; 0x20; 0xA0; 0x1680;
   0x2000; 0x2001; 0x2002; 0x2003; 0x2004; 0x2005; 0x2006; 0x2007;
   0x2008; 0x2009; 0x200A; 0x2028; 0x2029; 0x202F; 0x205F; 0x3000;
   0xFEFF]%N.

Definition isWhiteSpace (ch : string) : bool :=
  existsb (fun cp => String.eqb ch (utf8 cp)) whiteSpaceCodes.

Fixpoint dropWhile {A} (p : A -> bool) (l : list A) : list A :=
  match l with
  | [] => []
  | a :: r => if p a then dropWhile p r else l
  end.

(** The white space that [parseInt] skips at the start. *)
Definition trimStart (s : string) : string :=
  String.concat "" (dropWhile isWhiteSpace (chars s)).

(** [String.prototype.trim]: the white space is removed at both ends. *)
Definition trim (s : string) : string :=
  String.concat ""
    (rev (dropWhile isWhiteSpace
            (rev (dropWhile isWhiteSpace (chars s))))).

(** [!x || (x as string).trim() === ''] *)
Definition missing (x : option string) : bool :=
  negb (truthy x)
  || match x with
     | Some s => String.eqb (trim s) ""
     | None => true
     end.

(** ** Paged listings *)

(** [parseInt(s, 10)]: white space at the start is skipped, a sign is read,
    then the longest run of decimal digits. [None] stands for [NaN], the
    answer when no digit is found. The value is the integer read; as a
    JavaScript number it is exact below [2^53]. *)
Definition isDigit (c : ascii) : bool :=
  let n := nat_of_ascii c in
  Nat.leb 48 n && Nat.leb n 57.

Fixpoint readDigits (s : string) (acc : option Z) : option Z :=
  match s with
  | EmptyString => acc
  | String c r =>
      if isDigit c then
        readDigits r
          (Some (10 * match acc with Some a => a | None => 0 end
                 + Z.of_nat (nat_of_ascii c - 48)))
      else acc
  end.

Definition parseInt (s : string) : option Z :=
  match trimStart s with
  | String "-" r => option_map Z.opp (readDigits r None)
  | String "+" r => readDigits r None
  | r => readDigits r None
  end.

(** [parseInt(page, 10) || 1]: [NaN] and [0] are falsy. *)
Definition pageNumberOf (page : string) : Z :=
  match parseInt page with
  | None | Some 0 => 1
  | Some n => n
  end.

Definition pageSize : Z := 10.

(** [skip] and [take] of [findMany]. Prisma refuses a negative [skip]. *)
Definition skipTake {R} (skip take : Z) (l : list R) : M (list R) :=
  if skip <? 0 then
    throw (PrismaError
             "Invalid value for skip argument: Value can only be positive")
  else ret (firstn (Z.to_nat take) (skipn (Z.to_nat skip) l)).

(** [Math.ceil(total / pageSize)] *)
Definition pageCountOf (total : Z) : Z :=
  Qceiling (inject_Z total / inject_Z pageSize).

(** The payload of [createClient] and [editClientsInfo]. The DTO class is
    not among the sources at hand: its fields are the columns of the row
    that a payload can carry, each of them optional. *)
Module EditClientsDto.
Record t := {
  id : option Id;
  type : option ClientType;
  name : option string;
  legalId : option string;
  contactFirstname : option string;
  contactLastname : option string;
  contactEmail : option string;
  contactPhone : option string;
  address : option string;
  postalCode : option string;
  city : option string;
  country : option string;
  currency : option Currency
}.
End EditClientsDto.

Module ClientsService2.

Section Schema.
(** The defaults of the [type] and [isActive] columns; the Prisma schema is
    not among the sources at hand. *)
Variable Client_type_default : ClientType.
Variable Client_isActive_default : bool.

(** [(data as any).type || 'COMPANY'] *)
Definition typeOf (t : option ClientType) : ClientType :=
  match t with
  | Some t => t
  | None => COMPANY
  end.

Definition refuse {A} (message : string) : M A :=
  log AppLogger ERROR "client" message ;;
  throw (BadRequestException message).

(** The checks that [createClient] and [editClientsInfo] make on the
    payload, by the type of the client. *)
Definition validate (type : ClientType) (data : EditClientsDto.t) : M unit :=
  match type with
  | INDIVIDUAL =>
      if missing (EditClientsDto.contactFirstname data) then
        refuse "First name is required for individual clients"
      else if missing (EditClientsDto.contactLastname data) then
        refuse "Last name is required for individual clients"
      else ret tt
  | COMPANY =>
      if missing (EditClientsDto.name data) then
        refuse "Company name is required for company clients"
      else if missing (EditClientsDto.legalId data) then
        refuse "SIRET/SIREN (legalId) is required for company clients"
      else ret tt
  end.

(** The [data] object handed to [prisma.client.create], as the row it
    creates under the identifier [id]: an individual gets the empty name,
    a company gets no contact names. *)
Definition clientData (data : EditClientsDto.t) (id : Id) : Client.t :=
  let individual :=
    match typeOf (EditClientsDto.type data) with
    | INDIVIDUAL => true
    | COMPANY => false
    end in
  {| Client.id := id;
     Client.type :=
       match EditClientsDto.type data with
       | Some t => t
       | None => Client_type_default
       end;
     Client.name :=
       if individual then ""%string
       else match EditClientsDto.name data with
            | Some n => n
            | None => ""%string
            end;
     Client.legalId := EditClientsDto.legalId data;
     Client.contactFirstname :=
       if individual then EditClientsDto.contactFirstname data else None;
     Client.contactLastname :=
       if individual then EditClientsDto.contactLastname data else None;
     Client.contactEmail := EditClientsDto.contactEmail data;
     Client.contactPhone := EditClientsDto.contactPhone data;
     Client.address := EditClientsDto.address data;
     Client.postalCode := EditClientsDto.postalCode data;
     Client.city := EditClientsDto.city data;
     Client.country := EditClientsDto.country data;
     Client.currency := EditClientsDto.currency data;
     Client.isActive := Client_isActive_default |}.

Definition createClient (editClientsDto : EditClientsDto.t) : M Client.t :=
  let data := editClientsDto in
  let type := typeOf (EditClientsDto.type data) in
  validate type data ;;
  id <- newId ;;
  newClient <- prismaCreate clientT (clientData data id) ;;
  log AppLogger INFO "client" "Client created" ;;
  try_catch
    (WebhookDispatcherService.dispatch "CLIENT_CREATED"
       (ClientPayload newClient))
    (fun error =>
       log AppLogger ERROR "client"
         "Failed to dispatch CLIENT_CREATED webhook") ;;
  ret newClient.

End Schema.

(** The [data] object handed to [prisma.client.update],
    [{ ...editClientsDto, isActive: true }], as the row it turns the stored
    row [old] into. *)
Definition editedClient (dto : EditClientsDto.t) (old : Client.t) :
    Client.t :=
  {| Client.id :=
       match EditClientsDto.id dto with
       | Some i => i
       | None => Client.id old
       end;
     Client.type :=
       match EditClientsDto.type dto with
       | Some t => t
       | None => Client.type old
       end;
     Client.name :=
       match EditClientsDto.name dto with
       | Some n => n
       | None => Client.name old
       end;
     Client.legalId :=
       set_if_given (EditClientsDto.legalId dto) (Client.legalId old);
     Client.contactFirstname :=
       set_if_given (EditClientsDto.contactFirstname dto)
         (Client.contactFirstname old);
     Client.contactLastname :=
       set_if_given (EditClientsDto.contactLastname dto)
         (Client.contactLastname old);
     Client.contactEmail :=
       set_if_given (EditClientsDto.contactEmail dto)
         (Client.contactEmail old);
     Client.contactPhone :=
       set_if_given (EditClientsDto.contactPhone dto)
         (Client.contactPhone old);
     Client.address :=
       set_if_given (EditClientsDto.address dto) (Client.address old);
     Client.postalCode :=
       set_if_given (EditClientsDto.postalCode dto) (Client.postalCode old);
     Client.city := set_if_given (EditClientsDto.city dto) (Client.city old);
     Client.country :=
       set_if_given (EditClientsDto.country dto) (Client.country old);
     Client.currency :=
       set_if_given (EditClientsDto.currency dto) (Client.currency old);
     Client.isActive := true |}.

Definition editClientsInfo (editClientsDto : EditClientsDto.t) :
    M Client.t :=
  match EditClientsDto.id editClientsDto with
  | None | Some EmptyString =>
      refuse "Client ID is required for editing"
  | Some id =>
      existingClient <- prismaFindUnique clientT id ;;
      match existingClient with
      | None => refuse "Client not found"
      | Some existingClient =>
          let data := editClientsDto in
          (* data.type || existingClient.type || 'COMPANY' *)
          let type :=
            match EditClientsDto.type data with
            | Some t => t
            | None => Client.type existingClient
            end in
          validate type data ;;
          updatedClient <-
            prismaUpdate clientT id (editedClient editClientsDto) ;;
          log AppLogger INFO "client" "Client updated" ;;
          try_catch
            (WebhookDispatcherService.dispatch "CLIENT_UPDATED"
               (ClientPayload updatedClient))
            (fun error =>
               log AppLogger ERROR "client"
                 "Failed to dispatch CLIENT_UPDATED webhook") ;;
          ret updatedClient
      end
  end.

(** [getClients]. The order [orderBy: { name: 'asc' }] gives is that of the
    collation of the database, a parameter here. *)
Record ClientsPage := {
  pageCount : Z;
  clients : list Client.t
}.

Section Ordering.
Variable orderByNameAsc : list Client.t -> list Client.t.

Definition getClients (page : string) : M ClientsPage :=
  let pageNumber := pageNumberOf page in
  let skip := (pageNumber - 1) * pageSize in
  all <- gets (fun w => client (db w)) ;;
  clients <- skipTake skip pageSize (orderByNameAsc all) ;;
  totalClients <- gets (fun w => Z.of_nat (List.length (client (db w)))) ;;
  ret {| pageCount := pageCountOf totalClients; clients := clients |}.

End Ordering.

End ClientsService2.

(** ** InvoicesService: the paged listing *)

Module InvoicesService2.

Record InvoicesPage (Row : Type) := {
  pageCount : Z;
  invoices : list Row
}.
Arguments pageCount {Row} _.
Arguments invoices {Row} _.

(** The table of payment methods is only read by [getInvoices]; it is a
    parameter here, as is the order that [orderBy: { createdAt: 'desc' }]
    gives to invoices created at the same time. *)
Section Store.
Variable PaymentMethod : Type.
Variable paymentMethod_findUnique : Id -> option PaymentMethod.
Variable orderByCreatedAtDesc : list Invoice.t -> list Invoice.t.

(** [pm ?? inv.paymentMethod]: the object of the table when there is one,
    the text column otherwise. *)
Inductive PaymentMethodField :=
| PaymentMethodObject (pm : PaymentMethod)
| PaymentMethodText (text : option string).

Record InvoiceWithPM := {
  view : InvoiceView.t;
  paymentMethod : PaymentMethodField
}.

Definition attachPaymentMethod (inv : InvoiceView.t) : InvoiceWithPM :=
  let text :=
    PaymentMethodText (Invoice.paymentMethod (InvoiceView.invoice inv)) in
  match Invoice.paymentMethodId (InvoiceView.invoice inv) with
  | Some id =>
      if truthy (Some id) then
        match paymentMethod_findUnique id with
        | Some pm =>
            {| view := inv; paymentMethod := PaymentMethodObject pm |}
        | None => {| view := inv; paymentMethod := text |}
        end
      else {| view := inv; paymentMethod := text |}
  | None => {| view := inv; paymentMethod := text |}
  end.

Definition getInvoices (page : string) : M (InvoicesPage InvoiceWithPM) :=
  let pageNumber := pageNumberOf page in
  let skip := (pageNumber - 1) * pageSize in
  active <- gets (fun w => findMany Invoice.isActive (invoice (db w))) ;;
  rows <- skipTake skip pageSize (orderByCreatedAtDesc active) ;;
  invoices <- mapM includeInvoice rows ;;
  totalInvoices <- gets (fun w => Z.of_nat (List.length (invoice (db w)))) ;;
  let invoicesWithPM := map attachPaymentMethod invoices in
  ret {| pageCount := pageCountOf totalInvoices;
         invoices := invoicesWithPM |}.

End Store.

End InvoicesService2.

(** ** ReceiptsService: a receipt for the whole of an invoice *)

Module ReceiptsService2.

Local Open Scope number_scope.

(** [(item.quantity * item.unitPrice * (1 + item.vatRate / 100)).toFixed(2)],
    read back as a number by the [+item.amountPaid] of [createReceipt]. *)
Definition amountOf (item : InvoiceItem.t) : Number :=
  toFixed2 (InvoiceItem.quantity item * InvoiceItem.unitPrice item
            * (1 + InvoiceItem.vatRate item / 100)).

Definition receiptOfInvoice (invoice : InvoiceView.t) : CreateReceiptDto.t :=
  {| CreateReceiptDto.invoiceId := Invoice.id (InvoiceView.invoice invoice);
     CreateReceiptDto.items :=
       map (fun item =>
              {| ReceiptItemDto.invoiceItemId := InvoiceItem.id item;
                 ReceiptItemDto.amountPaid := amountOf item |})
         (InvoiceView.items invoice);
     CreateReceiptDto.paymentMethodId :=
       or_else (Invoice.paymentMethodId (InvoiceView.invoice invoice)) None;
     CreateReceiptDto.paymentMethod :=
       or_else (Invoice.paymentMethod (InvoiceView.invoice invoice))
         (Some ""%string);
     CreateReceiptDto.paymentDetails :=
       or_else (Invoice.paymentDetails (InvoiceView.invoice invoice))
         (Some ""%string) |}.

Definition createReceiptFromInvoice (invoiceId : Id) : M ReceiptView.t :=
  invoice <- prismaFindUnique invoiceT invoiceId ;;
  match invoice with
  | None =>
      log AppLogger ERROR "receipt" "Invoice not found" ;;
      throw (BadRequestException "Invoice not found")
  | Some invoice =>
      invoice <- includeInvoice invoice ;;
      newReceipt <- ReceiptsService.createReceipt (receiptOfInvoice invoice) ;;
      try_catch
        (WebhookDispatcherService.dispatch "RECEIPT_CREATED_FROM_INVOICE"
           (ReceiptPayload newReceipt invoice (InvoiceView.client invoice)
              (InvoiceView.company invoice)))
        (fun error =>
           log NestLogger ERROR "ReceiptsService"
             "Failed to dispatch RECEIPT_CREATED_FROM_INVOICE webhook") ;;
      log AppLogger INFO "receipt" "Receipt created from invoice" ;;
      ret newReceipt
  end.

End ReceiptsService2.

(** ** StatsService: the statistics of a range of years *)

Module StatsService2.

Local Open Scope number_scope.

Record YearStat := {
  year : Z;
  invoiced : Number;
  revenue : Number;
  deposits : Number
}.

Definition CurrencyYearsMap := list (Currency * list YearStat).

(** [for (let y = startYear; y <= endYear; y++) yearsArray.push(...)] *)
Definition yearsArray (startYear endYear : Z) : list YearStat :=
  map (fun i => {| year := startYear + Z.of_nat i; invoiced := 0;
                   revenue := 0; deposits := 0 |})
    (seq 0 (Z.to_nat (endYear - startYear + 1))).

Definition has (currency : Currency) (m : CurrencyYearsMap) : bool :=
  existsb (fun e => String.eqb (fst e) currency) m.

Definition ensureCurrencyYears (startYear endYear : Z) (currency : Currency)
    (m : CurrencyYearsMap) : CurrencyYearsMap :=
  if has currency m then m
  else m ++ [(currency, yearsArray startYear endYear)].

(** [years.find(e => e.year === y)!] updated in place; [None] when there
    is no such entry, where the code reads a property of [undefined]. *)
Fixpoint updateYear (f : YearStat -> YearStat) (y : Z)
    (years : list YearStat) : option (list YearStat) :=
  match years with
  | [] => None
  | e :: r =>
      if (year e =? y)%Z then Some (f e :: r)
      else option_map (cons e) (updateYear f y r)
  end.

(** [yearsByCurrency.get(currency)!.years], updated as above. *)
Fixpoint updateEntry (f : YearStat -> YearStat) (currency : Currency)
    (y : Z) (m : CurrencyYearsMap) : option CurrencyYearsMap :=
  match m with
  | [] => None
  | e :: r =>
      if String.eqb (fst e) currency
      then option_map (fun years => (fst e, years) :: r)
             (updateYear f y (snd e))
      else option_map (cons e) (updateEntry f currency y r)
  end.

Definition addInvoiced (x : Number) (s : YearStat) : YearStat :=
  {| year := year s; invoiced := invoiced s + x; revenue := revenue s;
     deposits := deposits s |}.

Definition addRevenue (x : Number) (s : YearStat) : YearStat :=
  {| year := year s; invoiced := invoiced s; revenue := revenue s + x;
     deposits := deposits s |}.

Definition addDeposits (x : Number) (s : YearStat) : YearStat :=
  {| year := year s; invoiced := invoiced s; revenue := revenue s;
     deposits := deposits s + x |}.

Definition roundStat (s : YearStat) : YearStat :=
  {| year := year s; invoiced := toFixed2 (invoiced s);
     revenue := toFixed2 (revenue s); deposits := toFixed2 (deposits s) |}.

(** [createdAt: { gte: startDate, lte: endDate }] *)
Definition inRange (h : Host) (startYear endYear : Z) (t : DateTime) : bool :=
  ((StatsService.startOfYear h startYear <=? t)
   && (t <=? StatsService.endOfYear h endYear))%Z.

Definition stepInvoiced (h : Host) (startYear endYear : Z)
    (m : CurrencyYearsMap) (inv : Invoice.t) : option CurrencyYearsMap :=
  let currency := Invoice.currency inv in
  updateEntry (addInvoiced (Invoice.totalTTC inv)) currency
    (getFullYear h (Invoice.createdAt inv))
    (ensureCurrencyYears startYear endYear currency m).

Definition stepRevenue (h : Host) (d : Db) (startYear endYear : Z)
    (m : CurrencyYearsMap) (r : Receipt.t) : option CurrencyYearsMap :=
  match findUnique Invoice.id (Receipt.invoiceId r) (invoice d) with
  | Some inv =>
      let currency := Invoice.currency inv in
      if negb (truthy (Some currency)) then Some m
      else
        updateEntry (addRevenue (StatsService.netOfReceipt d r)) currency
          (getFullYear h (Receipt.createdAt r))
          (ensureCurrencyYears startYear endYear currency m)
  | None => Some m
  end.

Definition stepDeposits (h : Host) (startYear endYear : Z)
    (m : CurrencyYearsMap) (p : Invoice.t * DateTime) :
    option CurrencyYearsMap :=
  let py := getFullYear h (snd p) in
  if ((py <? startYear) || (endYear <? py))%Z then Some m
  else
    let currency := Invoice.currency (fst p) in
    updateEntry (addDeposits (Invoice.totalTTC (fst p))) currency py
      (ensureCurrencyYears startYear endYear currency m).

(** A [for ... of] loop whose body can fail. *)
Fixpoint forEach {A} (step : CurrencyYearsMap -> A -> option CurrencyYearsMap)
    (l : list A) (m : CurrencyYearsMap) : option CurrencyYearsMap :=
  match l with
  | [] => Some m
  | a :: r =>
      match step m a with
      | Some m' => forEach step r m'
      | None => None
      end
  end.

(** The three loops, one after the other. *)
Definition accumulate (h : Host) (d : Db) (startYear endYear : Z) :
    option CurrencyYearsMap :=
  let invoicesInRange :=
    findMany (fun inv => Invoice.isActive inv
                         && inRange h startYear endYear
                              (Invoice.createdAt inv))
      (invoice d) in
  let receiptsInRange :=
    findMany (fun r => inRange h startYear endYear (Receipt.createdAt r))
      (receipt d) in
  match forEach (stepInvoiced h startYear endYear) invoicesInRange [] with
  | Some m =>
      match forEach (stepRevenue h d startYear endYear) receiptsInRange m
      with
      | Some m =>
          forEach (stepDeposits h startYear endYear)
            (StatsService.paidInvoices d) m
      | None => None
      end
  | None => None
  end.

Definition getYearlyStats (startYear endYear : Z) : M CurrencyYearsMap :=
  company <- gets (fun w => findFirst (fun _ => true) (company (db w))) ;;
  match company with
  | None =>
      log AppLogger ERROR "stats"
        "No company found. Please create a company first." ;;
      throw (BadRequestException
               "No company found. Please create a company first.")
  | Some _ =>
      h <- gets host ;;
      d <- gets db ;;
      match accumulate h d startYear endYear with
      | Some yearsByCurrency =>
          ret (map (fun e => (fst e, map roundStat (snd e)))
                 yearsByCurrency)
      | None =>
          throw (HostError
                   "TypeError: Cannot read properties of undefined")
      end
  end.

End StatsService2.

(** ** Notions used in the further statements *)

(** The world [w] when the clock of the host reads [t]. *)
Definition with_now (t : DateTime) (w : World) : World :=
  {| db := db w; logs := logs w; outbox := outbox w; mailbox := mailbox w;
     cuid := cuid w;
     host :=
       {| now := t;
          getFullYear := getFullYear (host w);
          getMonth := getMonth (host w);
          newDate := newDate (host w);
          env := env (host w);
          randomOtp := randomOtp (host w);
          replacePlaceholders := replacePlaceholders (host w);
          smtp := smtp (host w);
          signingProvider := signingProvider (host w);
          DiscordDriver := DiscordDriver (host w);
          GenericDriver := GenericDriver (host w);
          MattermostDriver := MattermostDriver (host w);
          RocketChatDriver := RocketChatDriver (host w);
          SlackDriver := SlackDriver (host w);
          TeamsDriver := TeamsDriver (host w);
          ZapierDriver := ZapierDriver (host w) |} |}.

(** The store [d'] has the tables of [d], the [invitationCode] table
    aside. *)
Definition same_tables_but_invitationCode (d d' : Db) : Prop :=
  company d' = company d /\ client d' = client d /\ invoice d' = invoice d
  /\ invoiceItem d' = invoiceItem d /\ receipt d' = receipt d
  /\ receiptItem d' = receiptItem d /\ quote d' = quote d
  /\ signature d' = signature d /\ mailTemplate d' = mailTemplate d
  /\ webhook d' = webhook d /\ user d' = user d.

(** A code that [useInvitation] can consume at the current time: the first
    row carrying it is unused and not past its expiry date. *)
Definition usable (w : World) (code : string) (inv : InvitationCode.t) :
    Prop :=
  findUnique InvitationCode.code code (invitationCode (db w)) = Some inv
  /\ InvitationCode.usedAt inv = None
  /\ (forall e, InvitationCode.expiresAt inv = Some e ->
                ~ (e < now (host w))).

Definition alice : User.t := {| User.id := "u1"; User.email := "a@x.example" |}.

Definition openCode : InvitationCode.t :=
  {| InvitationCode.id := "i1"; InvitationCode.code := "A1B2C3";
     InvitationCode.createdById := "u1";
     InvitationCode.expiresAt := Some (noon_5_March_2024 + 86400000);
     InvitationCode.usedAt := None; InvitationCode.usedById := None |}.

Definition invitedDb : Db :=
  {| company := [acme]; client := [dupont]; invoice := [];
     invoiceItem := []; receipt := []; receiptItem := []; quote := [];
     signature := []; mailTemplate := []; webhook := [hook];
     invitationCode := [openCode]; user := [alice] |}.

Definition invitedWorld : World := worldOf invitedDb noon_5_March_2024.

(** The webhooks of the table that [dispatch] selects for an event and a
    payload. *)
Definition subscribed (event : WebhookEvent) (payload : Payload)
    (wh : Webhook.t) : Prop :=
  In event (Webhook.events wh)
  /\ forall c, WebhookDispatcherService.payload_companyId payload = Some c ->
               Webhook.companyId wh = c.

(** ** Notions for the revenue of a month *)

(** The VAT rate that applies to an item of a receipt: the rate of the item
    of the receipt's invoice it refers to; 0 when there is none, or when
    that rate is a zero or NaN. *)
Definition vatOfReceiptItem (d : Db) (r : Receipt.t) (item : ReceiptItem.t) :
    Number :=
  match find (fun ii =>
          String.eqb (InvoiceItem.invoiceId ii) (Receipt.invoiceId r)
          && String.eqb (InvoiceItem.id ii) (ReceiptItem.invoiceItemId item))
          (invoiceItem d) with
  | Some ii =>
      match InvoiceItem.vatRate ii with
      | S754_zero _ | S754_nan => 0%num
      | rate => rate
      end
  | None => 0%num
  end.

(** The amount of a receipt without VAT: the sum over its items, added up
    as doubles in the order of the store, of
    [amountPaid / (1 + vatRate / 100)]. *)
Definition netAmount (d : Db) (r : Receipt.t) : Number :=
  sum_over (fun item =>
    (ReceiptItem.amountPaid item / (1 + vatOfReceiptItem d r item / 100))%num)
    (filter (fun it => String.eqb (ReceiptItem.receiptId it) (Receipt.id r))
       (receiptItem d)).

(** A receipt created in the requested year and the given month, for an
    invoice of the given currency. *)
Definition receiptIn (h : Host) (d : Db) (year : Z) (c : Currency)
    (mo : Month) (r : Receipt.t) : bool :=
  StatsService.inYear h year (Receipt.createdAt r)
  && match findUnique Invoice.id (Receipt.invoiceId r) (invoice d) with
     | Some inv =>
         truthy (Some (Invoice.currency inv))
         && String.eqb (Invoice.currency inv) c
     | None => false
     end
  && Nat.eqb (monthIndex (getMonth h (Receipt.createdAt r)))
       (monthIndex mo).

Definition item2 : InvoiceItem.t :=
  {| InvoiceItem.id := "it2"; InvoiceItem.invoiceId := "inv2";
     InvoiceItem.description := "Licence"; InvoiceItem.quantity := 1;
     InvoiceItem.unitPrice := Num.decimal 1999 2;
     InvoiceItem.vatRate := Num.decimal 55 1; InvoiceItem.type := "PRODUCT";
     InvoiceItem.order := 0 |}.

Definition receiptItem2 : ReceiptItem.t :=
  {| ReceiptItem.id := "ri2"; ReceiptItem.receiptId := "r2";
     ReceiptItem.invoiceItemId := "it2";
     ReceiptItem.amountPaid := Num.decimal 2109 2 |}.

Definition revenueWorld : World :=
  worldOf (with_receiptItem [receiptItem2] (with_invoiceItem [item2] statsDb))
    noon_5_March_2024.

(** ** Notions for the one-time codes of signatures *)

(** Two worlds with the same store and the same host. *)
Definition same_store (w w' : World) : Prop :=
  (db w', host w') = (db w, host w).

Definition verificationCode : MailTemplate.t :=
  {| MailTemplate.type := "VERIFICATION_CODE";
     MailTemplate.companyId := "co1";
     MailTemplate.subject := "Your code";
     MailTemplate.body := "Code: {{OTP_CODE}}" |}.

Definition sentQuote : Quote.t :=
  {| Quote.id := "q1"; Quote.number := 7; Quote.clientId := "cl1";
     Quote.companyId := "co1"; Quote.status := Q_SENT;
     Quote.isActive := true |}.

Definition pendingSignature : Signature.t :=
  {| Signature.id := "s1"; Signature.quoteId := "q1";
     Signature.isActive := true; Signature.otpCode := None;
     Signature.otpUsed := false; Signature.signedAt := None;
     Signature.expiresAt := noon_5_March_2024 + SignaturesService.thirtyDays |}.

Definition pendingDb : Db :=
  {| company := [acme]; client := [dupont]; invoice := [];
     invoiceItem := []; receipt := []; receiptItem := [];
     quote := [sentQuote]; signature := [pendingSignature];
     mailTemplate := [signatureRequest; verificationCode];
     webhook := [hook]; invitationCode := []; user := [] |}.

Definition pendingWorld : World := worldOf pendingDb noon_5_March_2024.

(** ** Notions for the items of an edited invoice *)

(** The stored items whose id the payload names. *)
Definition keptItems (items : list InvoiceItemDto.t)
    (stored : list InvoiceItem.t) : list InvoiceItem.t :=
  filter (fun it =>
    InvoicesService.includes (InvoicesService.incomingItemIds items)
      (InvoiceItem.id it)) stored.

(** The entries of the payload that carry no id. *)
Definition newEntries (items : list InvoiceItemDto.t) :
    list InvoiceItemDto.t :=
  filter (fun i => negb (InvoicesService.hasId i)) items.

Definition item1b : InvoiceItem.t :=
  {| InvoiceItem.id := "it1b"; InvoiceItem.invoiceId := "inv1";
     InvoiceItem.description := "Travel"; InvoiceItem.quantity := 1;
     InvoiceItem.unitPrice := 40; InvoiceItem.vatRate := 0;
     InvoiceItem.type := "SERVICE"; InvoiceItem.order := 1 |}.

Definition twoItemsWorld : World :=
  worldOf (with_invoiceItem [item1; item1b] (with_invoice [invoice1] baseDb))
    noon_5_March_2024.

(** Keeps [it1] with a new price, drops [it1b], adds a line. *)
Definition editOfInvoice1 : EditInvoicesDto.t :=
  {| EditInvoicesDto.id := Some "inv1"; EditInvoicesDto.clientId := "cl1";
     EditInvoicesDto.quoteId := None;
     EditInvoicesDto.recurringInvoiceId := None;
     EditInvoicesDto.notes := None; EditInvoicesDto.paymentMethod := None;
     EditInvoicesDto.paymentMethodId := None;
     EditInvoicesDto.paymentDetails := None;
     EditInvoicesDto.currency := None; EditInvoicesDto.dueDate := None;
     EditInvoicesDto.items :=
       [ {| InvoiceItemDto.id := Some "it1";
            InvoiceItemDto.description := "Design";
            InvoiceItemDto.quantity := 2;
            InvoiceItemDto.unitPrice := 180;
            InvoiceItemDto.vatRate := Some 20%num;
            InvoiceItemDto.type := "SERVICE";
            InvoiceItemDto.order := None |};
         hosting ] |}.

(** ** Notions for the clients *)

(** A value that is present and has a character that is not white space. *)
Definition filled (x : option string) : Prop :=
  exists s ch, x = Some s /\ In ch (chars s) /\ isWhiteSpace ch = false.

(** The payload is for an individual. *)
Definition forIndividual (dto : EditClientsDto.t) : bool :=
  match EditClientsDto.type dto with
  | Some INDIVIDUAL => true
  | _ => false
  end.

(** The optional text columns of a client, each with the payload field
    that carries it. *)
Definition clientColumns :
    list ((EditClientsDto.t -> option string) * (Client.t -> option string)) :=
  [ (EditClientsDto.legalId, Client.legalId);
    (EditClientsDto.contactFirstname, Client.contactFirstname);
    (EditClientsDto.contactLastname, Client.contactLastname);
    (EditClientsDto.contactEmail, Client.contactEmail);
    (EditClientsDto.contactPhone, Client.contactPhone);
    (EditClientsDto.address, Client.address);
    (EditClientsDto.postalCode, Client.postalCode);
    (EditClientsDto.city, Client.city);
    (EditClientsDto.country, Client.country);
    (EditClientsDto.currency, Client.currency) ].

Definition newCompanyClient : EditClientsDto.t :=
  {| EditClientsDto.id := None; EditClientsDto.type := None;
     EditClientsDto.name := Some "Martin SARL";
     EditClientsDto.legalId := Some "81234567800015";
     EditClientsDto.contactFirstname := Some "Jeanne";
     EditClientsDto.contactLastname := None;
     EditClientsDto.contactEmail := Some "jeanne@martin.example";
     EditClientsDto.contactPhone := None; EditClientsDto.address := None;
     EditClientsDto.postalCode := None; EditClientsDto.city := None;
     EditClientsDto.country := None; EditClientsDto.currency := None |}.

(** A new e-mail address for the client [cl1], with the fields that the
    validation asks for. *)
Definition editOfDupont : EditClientsDto.t :=
  {| EditClientsDto.id := Some "cl1"; EditClientsDto.type := None;
     EditClientsDto.name := Some "Dupont SA";
     EditClientsDto.legalId := Some "552100554";
     EditClientsDto.contactFirstname := None;
     EditClientsDto.contactLastname := None;
     EditClientsDto.contactEmail := Some "billing@dupont.example";
     EditClientsDto.contactPhone := None; EditClientsDto.address := None;
     EditClientsDto.postalCode := None; EditClientsDto.city := None;
     EditClientsDto.country := None; EditClientsDto.currency := None |}.

(** ** Notions for the receipts *)

(** The rows [createReceiptItem] appends for the items of a payload when
    the identifier generator stands at [n]. *)
Fixpoint receiptItemRows (receiptId : Id) (n : nat)
    (items : list ReceiptItemDto.t) : list ReceiptItem.t :=
  match items with
  | [] => []
  | i :: r =>
      {| ReceiptItem.id := genId n;
         ReceiptItem.receiptId := receiptId;
         ReceiptItem.invoiceItemId := ReceiptItemDto.invoiceItemId i;
         ReceiptItem.amountPaid := ReceiptItemDto.amountPaid i |}
        :: receiptItemRows receiptId (S n) r
  end.

(** The row [createReceipt] creates under the identifier [id]. *)
Definition receiptRow (body : CreateReceiptDto.t) (id : Id)
    (current : DateTime) : Receipt.t :=
  {| Receipt.id := id;
     Receipt.invoiceId := CreateReceiptDto.invoiceId body;
     Receipt.totalPaid :=
       ReceiptsService.reduce_amountPaid (CreateReceiptDto.items body);
     Receipt.paymentMethodId := CreateReceiptDto.paymentMethodId body;
     Receipt.paymentMethod := CreateReceiptDto.paymentMethod body;
     Receipt.paymentDetails := CreateReceiptDto.paymentDetails body;
     Receipt.createdAt := current |}.

(** The items stored for a receipt. *)
Definition itemsOfReceipt (d : Db) (receiptId : Id) : list ReceiptItem.t :=
  findMany (fun it => String.eqb (ReceiptItem.receiptId it) receiptId)
    (receiptItem d).

(** The store [d'] has the tables of [d], the [invoice], [receipt] and
    [receiptItem] tables aside. *)
Definition same_tables_but_receipts (d d' : Db) : Prop :=
  company d' = company d /\ client d' = client d
  /\ invoiceItem d' = invoiceItem d /\ quote d' = quote d
  /\ signature d' = signature d /\ mailTemplate d' = mailTemplate d
  /\ webhook d' = webhook d /\ invitationCode d' = invitationCode d
  /\ user d' = user d.

(** The total of a stored line with its VAT, as the doubles multiply. *)
Definition lineTotal (item : InvoiceItem.t) : Number :=
  (InvoiceItem.quantity item * InvoiceItem.unitPrice item
   * (1 + InvoiceItem.vatRate item / 100))%num.

(** The view [include: { items, client, company }] gives of a stored
    invoice. *)
Definition viewOfInvoice (d : Db) (inv : Invoice.t) : InvoiceView.t :=
  {| InvoiceView.invoice := inv;
     InvoiceView.items := storedItems d (Invoice.id inv);
     InvoiceView.client :=
       findUnique Client.id (Invoice.clientId inv) (client d);
     InvoiceView.company :=
       findUnique Company.id (Invoice.companyId inv) (company d) |}.

(** An invoice of one line, 1 x 0.5 at 15 %. *)
Definition invoiceOf (id : Id) (total : Number) : Invoice.t :=
  {| Invoice.id := id; Invoice.clientId := "cl1";
     Invoice.companyId := "co1"; Invoice.quoteId := None;
     Invoice.recurringInvoiceId := None; Invoice.paymentMethod := None;
     Invoice.paymentMethodId := None; Invoice.paymentDetails := None;
     Invoice.notes := None; Invoice.currency := "EUR";
     Invoice.dueDate := noon_5_March_2024 + InvoicesService.fortnight;
     Invoice.totalHT := total; Invoice.totalVAT := 0;
     Invoice.totalTTC := total; Invoice.status := UNPAID;
     Invoice.isActive := true; Invoice.createdAt := noon_5_March_2024 |}.

Definition lineOf (id invoiceId : Id) (quantity unitPrice vatRate : Number) :
    InvoiceItem.t :=
  {| InvoiceItem.id := id; InvoiceItem.invoiceId := invoiceId;
     InvoiceItem.description := "Item"; InvoiceItem.quantity := quantity;
     InvoiceItem.unitPrice := unitPrice; InvoiceItem.vatRate := vatRate;
     InvoiceItem.type := "PRODUCT"; InvoiceItem.order := 0 |}.

Definition halfWorld : World :=
  worldOf
    (with_invoiceItem [lineOf "it4" "inv4" 1 (Num.decimal 5 1) 15]
       (with_invoice [invoiceOf "inv4" (Num.decimal 575 3)] baseDb))
    noon_5_March_2024.

(** An invoice of 26.59 in two lines, 1 x 19.99 and 3 x 2.2, without
    VAT. *)
Definition invoice5 : Invoice.t := invoiceOf "inv5" (Num.decimal 2659 2).

Definition centsWorld : World :=
  worldOf
    (with_invoiceItem
       [lineOf "it51" "inv5" 1 (Num.decimal 1999 2) 0;
        lineOf "it52" "inv5" 3 (Num.decimal 22 1) 0]
       (with_invoice [invoice5] baseDb))
    noon_5_March_2024.

(** What a receipt item says: its receipt, the line it pays and the
    amount. *)
Definition paidLine (it : ReceiptItem.t) : Id * Id * Number :=
  (ReceiptItem.receiptId it, ReceiptItem.invoiceItemId it,
   ReceiptItem.amountPaid it).

(** Every stored receipt item belongs to a stored receipt, as the foreign
    key of [ReceiptItem.receiptId] demands. *)
Definition itemsHaveReceipts (d : Db) : Prop :=
  forall it, In it (receiptItem d) ->
    findUnique Receipt.id (ReceiptItem.receiptId it) (receipt d) <> None.

(** What [editReceipt] makes of the receipt row. *)
Definition editedReceipt (body : EditReceiptDto.t) (old : Receipt.t) :
    Receipt.t :=
  {| Receipt.id := Receipt.id old;
     Receipt.invoiceId := Receipt.invoiceId old;
     Receipt.totalPaid :=
       ReceiptsService.reduce_amountPaid (EditReceiptDto.items body);
     Receipt.paymentMethodId :=
       set_if_given (EditReceiptDto.paymentMethodId body)
         (Receipt.paymentMethodId old);
     Receipt.paymentMethod :=
       set_if_given (EditReceiptDto.paymentMethod body)
         (Receipt.paymentMethod old);
     Receipt.paymentDetails :=
       set_if_given (EditReceiptDto.paymentDetails body)
         (Receipt.paymentDetails old);
     Receipt.createdAt := Receipt.createdAt old |}.

(** What a submitted receipt item says, for the receipt [receiptId]. *)
Definition submittedLine (receiptId : Id) (i : ReceiptItemDto.t) :
    Id * Id * Number :=
  (receiptId, ReceiptItemDto.invoiceItemId i, ReceiptItemDto.amountPaid i).

(** An edit of the receipt of [revenueWorld] down to a part payment. *)
Definition partPayment : EditReceiptDto.t :=
  {| EditReceiptDto.id := "r2";
     EditReceiptDto.items :=
       [{| ReceiptItemDto.invoiceItemId := "it2";
           ReceiptItemDto.amountPaid := 10 |}];
     EditReceiptDto.paymentMethodId := None;
     EditReceiptDto.paymentMethod := None;
     EditReceiptDto.paymentDetails := None |}.

(** ** Notions for the paged listings *)

(** The strings of [pages] ask for the pages [1] to [count], in order. *)
Definition pagesUpTo (count : nat) (pages : list string) : Prop :=
  map pageNumberOf pages = map Z.of_nat (seq 1 count).

(** The rows that [size] = 10 a page gives to page [n] of a list. *)
Definition pageOf {R} (n : Z) (l : list R) : list R :=
  firstn 10 (skipn (Z.to_nat ((n - 1) * 10)) l).

(** The clients a call of [getClients] lists. *)
Definition clientsListed (orderByNameAsc : list Client.t -> list Client.t)
    (page : string) (w : World) : list Client.t :=
  match fst (ClientsService2.getClients orderByNameAsc page w) with
  | Ok r => ClientsService2.clients r
  | Throw _ => []
  end.

(** The invoice rows a call of [getInvoices] lists. *)
Definition invoicesListed {PaymentMethod : Type}
    (paymentMethod_findUnique : Id -> option PaymentMethod)
    (orderByCreatedAtDesc : list Invoice.t -> list Invoice.t)
    (page : string) (w : World) : list Invoice.t :=
  match fst (InvoicesService2.getInvoices PaymentMethod
               paymentMethod_findUnique orderByCreatedAtDesc page w) with
  | Ok r =>
      map (fun row =>
             InvoiceView.invoice (InvoicesService2.view PaymentMethod row))
        (InvoicesService2.invoices r)
  | Throw _ => []
  end.

(** Insertion sorts for the concrete runs: clients by name in the order of
    the character codes, invoices by date, latest first. *)
Fixpoint insertByName (c : Client.t) (l : list Client.t) : list Client.t :=
  match l with
  | [] => [c]
  | x :: r =>
      if String.leb (Client.name c) (Client.name x) then c :: l
      else x :: insertByName c r
  end.

Definition sortByName (l : list Client.t) : list Client.t :=
  fold_right insertByName [] l.

Fixpoint insertByDateDesc (i : Invoice.t) (l : list Invoice.t) :
    list Invoice.t :=
  match l with
  | [] => [i]
  | x :: r =>
      if (Invoice.createdAt x <=? Invoice.createdAt i)%Z then i :: l
      else x :: insertByDateDesc i r
  end.

Definition sortByDateDesc (l : list Invoice.t) : list Invoice.t :=
  fold_right insertByDateDesc [] l.

(** A store whose only invoice has been deleted. *)
Definition deletedInvoiceWorld : World :=
  worldOf (with_invoice [Invoice.with_isActive false invoice1] invoicedDb)
    noon_5_March_2024.

(** ** Notions for the statistics of a range of years *)

(** The years [startYear] to [endYear]. *)
Definition yearsOf (startYear endYear : Z) : list Z :=
  map (fun i => startYear + Z.of_nat i)
    (seq 0 (Z.to_nat (endYear - startYear + 1))).

Definition getFieldY (f : Field) (s : StatsService2.YearStat) : Number :=
  match f with
  | Invoiced => StatsService2.invoiced s
  | Revenue => StatsService2.revenue s
  | Deposits => StatsService2.deposits s
  end.

Definition addFieldY (f : Field) (x : Number) :
    StatsService2.YearStat -> StatsService2.YearStat :=
  match f with
  | Invoiced => StatsService2.addInvoiced x
  | Revenue => StatsService2.addRevenue x
  | Deposits => StatsService2.addDeposits x
  end.

(** The value an array of years holds for a year, 0 without an entry. *)
Definition yearValue (f : Field) (y : Z) (years : list StatsService2.YearStat) :
    Number :=
  match find (fun s => StatsService2.year s =? y) years with
  | Some s => getFieldY f s
  | None => 0%num
  end.

(** The value held for a currency and a year, 0 without an entry. *)
Definition valueAt (f : Field) (c : Currency) (y : Z)
    (m : StatsService2.CurrencyYearsMap) : Number :=
  match find (fun e => String.eqb (fst e) c) m with
  | Some e => yearValue f y (snd e)
  | None => 0%num
  end.

(** One entry per currency, each with the years of the range in order. *)
Definition years_ok (startYear endYear : Z)
    (m : StatsService2.CurrencyYearsMap) : Prop :=
  NoDup (map fst m)
  /\ Forall (fun e => map StatsService2.year (snd e)
                      = yearsOf startYear endYear) m.

(** An accumulation step reads off an element at most one currency, year
    and amount. *)
Definition applyKeyY (startYear endYear : Z) (f : Field)
    (k : option (Currency * Z * Number))
    (m : StatsService2.CurrencyYearsMap) :
    option StatsService2.CurrencyYearsMap :=
  match k with
  | Some (c, y, x) =>
      StatsService2.updateEntry (addFieldY f x) c y
        (StatsService2.ensureCurrencyYears startYear endYear c m)
  | None => Some m
  end.

(** The amounts that the elements of a list add to a currency and a year,
    in the order of the list. *)
Definition contributionsY {A} (key : A -> option (Currency * Z * Number))
    (c : Currency) (y : Z) (L : list A) : list Number :=
  flat_map (fun a =>
    match key a with
    | Some (c0, y0, x) => if String.eqb c0 c && (y0 =? y) then [x] else []
    | None => []
    end) L.

Definition keyInvoicedY (h : Host) (inv : Invoice.t) :
    option (Currency * Z * Number) :=
  Some (Invoice.currency inv, getFullYear h (Invoice.createdAt inv),
        Invoice.totalTTC inv).

Definition keyRevenueY (h : Host) (d : Db) (r : Receipt.t) :
    option (Currency * Z * Number) :=
  match findUnique Invoice.id (Receipt.invoiceId r) (invoice d) with
  | Some inv =>
      if negb (truthy (Some (Invoice.currency inv))) then None
      else Some (Invoice.currency inv, getFullYear h (Receipt.createdAt r),
                 StatsService.netOfReceipt d r)
  | None => None
  end.

Definition keyDepositsY (h : Host) (startYear endYear : Z)
    (p : Invoice.t * DateTime) : option (Currency * Z * Number) :=
  if (getFullYear h (snd p) <? startYear)
     || (endYear <? getFullYear h (snd p))
  then None
  else Some (Invoice.currency (fst p), getFullYear h (snd p),
             Invoice.totalTTC (fst p)).

(** An active invoice created in the range, in the given currency and
    year. *)
Definition invoicedInYear (h : Host) (startYear endYear : Z) (c : Currency)
    (y : Z) (inv : Invoice.t) : bool :=
  Invoice.isActive inv
  && StatsService2.inRange h startYear endYear (Invoice.createdAt inv)
  && String.eqb (Invoice.currency inv) c
  && (getFullYear h (Invoice.createdAt inv) =? y).

(** A receipt created in the range and the given year, for an invoice of
    the given currency. *)
Definition receiptInYear (h : Host) (d : Db) (startYear endYear : Z)
    (c : Currency) (y : Z) (r : Receipt.t) : bool :=
  StatsService2.inRange h startYear endYear (Receipt.createdAt r)
  && match findUnique Invoice.id (Receipt.invoiceId r) (invoice d) with
     | Some inv =>
         truthy (Some (Invoice.currency inv))
         && String.eqb (Invoice.currency inv) c
     | None => false
     end
  && (getFullYear h (Receipt.createdAt r) =? y).

(** An active invoice in the given currency whose receipts, in ascending
    order of creation, first reach its total at a receipt dated in the
    given year. *)
Definition depositedInYear (h : Host) (d : Db) (c : Currency) (y : Z)
    (inv : Invoice.t) : bool :=
  Invoice.isActive inv
  && existsb (fun r => String.eqb (Receipt.invoiceId r) (Invoice.id inv))
       (receipt d)
  && String.eqb (Invoice.currency inv) c
  && match StatsService.paidDate (Invoice.totalTTC inv) 0%num
             (StatsService.receiptsAsc d inv) with
     | Some t => getFullYear h t =? y
     | None => false
     end.

(** The rounding applied to every entry of the result. *)
Definition roundedY (e : Currency * list StatsService2.YearStat) :
    Currency * list StatsService2.YearStat :=
  (fst e, map StatsService2.roundStat (snd e)).

(** ** Notions for the receipt of a new invoice *)

(** Every stored invoice item and every stored receipt belongs to a stored
    invoice, as their foreign keys demand. *)
Definition belongToInvoices (d : Db) : Prop :=
  (forall it, In it (invoiceItem d) ->
     findUnique Invoice.id (InvoiceItem.invoiceId it) (invoice d) <> None)
  /\ (forall r, In r (receipt d) ->
        findUnique Invoice.id (Receipt.invoiceId r) (invoice d) <> None).

(** The total with VAT of a submitted line, as the doubles multiply, with
    the rate that [createInvoice] stores for it: 0 under the French
    exemption, and a missing rate counts 0. *)
Definition submittedTotal (exempt : bool) (i : InvoiceItemDto.t) : Number :=
  (InvoiceItemDto.quantity i * InvoiceItemDto.unitPrice i
   * (1 + (if exempt then 0 else or_zero (InvoiceItemDto.vatRate i)) / 100))
  %num.

(** An invoice of one line, 3 x 1.1 without a VAT rate. *)
Definition threeTimes : CreateInvoiceDto.t :=
  {| CreateInvoiceDto.clientId := "cl1"; CreateInvoiceDto.quoteId := None;
     CreateInvoiceDto.recurringInvoiceId := None;
     CreateInvoiceDto.notes := None;
     CreateInvoiceDto.paymentMethod := None;
     CreateInvoiceDto.paymentMethodId := None;
     CreateInvoiceDto.paymentDetails := None;
     CreateInvoiceDto.currency := None; CreateInvoiceDto.dueDate := None;
     CreateInvoiceDto.items :=
       [{| InvoiceItemDto.id := None; InvoiceItemDto.description := "Pens";
           InvoiceItemDto.quantity := 3;
           InvoiceItemDto.unitPrice := Num.decimal 11 1;
           InvoiceItemDto.vatRate := None;
           InvoiceItemDto.type := "PRODUCT";
           InvoiceItemDto.order := None |}] |}.
(** * Properties *)

(** ** Running the monad *)

Ltac run :=
  unfold bind, ret, gets, modify, modifyDb, throw, try_catch, liftResult, log;
  simpl.

Lemma find_first_match {A} (p : A -> bool) (l : list A) (x : A) :
  find p l = Some x ->
  exists l1 l2, l = l1 ++ x :: l2 /\ p x = true
                /\ Forall (fun y => p y = false) l1.
Proof.
  induction l as [|a l IH]; simpl; [discriminate|].
  destruct (p a) eqn:E; intros H.
  - inversion H; subst. exists [], l. auto.
  - destruct (IH H) as (l1 & l2 & -> & Hx & Hl).
    exists (a :: l1), l2. auto.
Qed.

Lemma find_no_match {A} (p : A -> bool) (l : list A) :
  find p l = None -> Forall (fun y => p y = false) l.
Proof.
  induction l as [|a l IH]; simpl; [constructor|].
  destruct (p a) eqn:E; [discriminate|]. auto.
Qed.

(** ** WebhooksService *)

Arguments WebhooksService.drivers : simpl never.

Lemma bind_ok {A B} (c : M A) (k : A -> M B) (w w1 : World) (a : A) :
  c w = (Ok a, w1) -> bind c k w = k a w1.
Proof. unfold bind. now intros ->. Qed.

(** A run whose result is [Ok] is a pair of a value and a world. *)
Lemma completes (A : Type) (r : Result A * World) :
  is_ok (fst r) = true -> exists a w', r = (Ok a, w').
Proof.
  destruct r as [[a|e] w']; cbn; [eauto|discriminate].
Defined.

Lemma bind_throw {A B} (c : M A) (k : A -> M B) (w w1 : World) e :
  c w = (Throw e, w1) -> bind c k w = (Throw e, w1).
Proof. unfold bind. now intros ->. Qed.

Lemma getDriver_run (type : WebhookType) (w : World) :
  exists w',
    WebhooksService.getDriver type w = (Ok (selectDriver (host w) type), w')
    /\ same_but_logs w w'.
Proof.
  unfold WebhooksService.getDriver, selectDriver, bind, gets.
  cbv beta iota.
  destruct (find _ (WebhooksService.drivers (host w))).
  - eexists. split; [reflexivity|]. repeat split.
  - unfold log, modify, ret, bind. cbv beta iota.
    eexists. split; [reflexivity|]. repeat split.
Qed.

Lemma deliver_run (event : WebhookEvent) (payload : Payload)
    (wh : Webhook.t) (w : World) :
  exists w',
    WebhooksService.deliver event payload wh w
      = (Ok (WebhookDriver.send (selectDriver (host w) (Webhook.type wh))
               (Webhook.url wh) event payload (Webhook.secret wh)), w')
    /\ outbox w' = outbox w ++ deliveriesOf (host w) event payload [wh]
    /\ db w' = db w /\ host w' = host w
    /\ mailbox w' = mailbox w /\ cuid w' = cuid w.
Proof.
  destruct (getDriver_run (Webhook.type wh) w)
    as (w1 & E1 & Hdb & Hh & Ho & Hm & Hc).
  unfold WebhooksService.deliver.
  rewrite (bind_ok _ _ _ _ _ E1).
  unfold bind, modify, ret. cbv beta iota.
  eexists. split; [reflexivity|].
  cbn. rewrite Ho. repeat split; assumption.
Qed.

Lemma deliver_all_run (event : WebhookEvent) (payload : Payload)
    (webhooks : list Webhook.t) (w : World) :
  exists w',
    mapM (WebhooksService.deliver event payload) webhooks w
      = (Ok (map d_outcome (deliveriesOf (host w) event payload webhooks)),
         w')
    /\ outbox w' = outbox w ++ deliveriesOf (host w) event payload webhooks
    /\ db w' = db w /\ host w' = host w
    /\ mailbox w' = mailbox w /\ cuid w' = cuid w.
Proof.
  revert w. induction webhooks as [|wh whs IH]; intros w.
  - exists w. cbn. rewrite app_nil_r. repeat split.
  - destruct (deliver_run event payload wh w)
      as (w1 & E1 & Ho & Hdb & Hh & Hm & Hc).
    destruct (IH w1) as (w3 & E3 & Ho3 & Hdb3 & Hh3 & Hm3 & Hc3).
    rewrite Hh in E3, Ho3.
    exists w3. split.
    + cbn [mapM]. rewrite (bind_ok _ _ _ _ _ E1).
      rewrite (bind_ok _ _ _ _ _ E3). reflexivity.
    + rewrite Ho3, Ho, <- app_assoc.
      repeat split; congruence.
Qed.

Lemma deliveriesOf_webhooks h event payload webhooks :
  map d_webhook (deliveriesOf h event payload webhooks) = webhooks.
Proof.
  unfold deliveriesOf. rewrite map_map. cbn. apply map_id.
Qed.

Lemma Promise_all_length {A} (l : list (Result A)) (rs : list A) :
  Promise_all l = Ok rs -> map Ok rs = l.
Proof.
  revert rs. induction l as [|[a|e] l IH]; simpl; intros rs H.
  - inversion H. reflexivity.
  - destruct (Promise_all l); [|discriminate].
    inversion H; subst. simpl. f_equal. auto.
  - discriminate.
Qed.

Lemma Promise_all_fulfilled {A} (l : list (Result A)) :
  Forall (fun r => is_ok r = true) l -> exists rs, Promise_all l = Ok rs.
Proof.
  induction 1 as [|[a|e] l Hx Hl [rs IH]]; simpl.
  - eauto.
  - rewrite IH. eauto.
  - discriminate.
Qed.

Lemma send_run (webhooks : list Webhook.t) (event : WebhookEvent)
    (payload : Payload) (w : World) :
  exists w',
    WebhooksService.send webhooks event payload w
      = (Promise_all
           (map d_outcome (deliveriesOf (host w) event payload webhooks)),
         w')
    /\ outbox w' = outbox w ++ deliveriesOf (host w) event payload webhooks
    /\ db w' = db w /\ host w' = host w
    /\ mailbox w' = mailbox w /\ cuid w' = cuid w.
Proof.
  destruct (deliver_all_run event payload webhooks w)
    as (w1 & E & Ho & Hdb & Hh & Hm & Hc).
  unfold WebhooksService.send. rewrite (bind_ok _ _ _ _ _ E).
  unfold liftResult, bind, log, modify, ret. cbv beta iota.
  destruct (Promise_all _) as [rs|e].
  - eexists. split; [reflexivity|]. cbn. repeat split; assumption.
  - eexists. split; [reflexivity|]. repeat split; assumption.
Qed.

(** C6. Driver selection is total: [getDriver] never throws and yields the
    first registered driver that supports the type, or the generic driver
    when none does; [send] calls a driver once for every webhook of its
    input, in order, and when it returns it returns one result per webhook
    (it returns whenever every delivery is fulfilled). *)
Theorem webhook_driver_selection_total :
  forall (webhooks : list Webhook.t) (event : WebhookEvent)
         (payload : Payload) (w : World),
    (forall type, exists d w',
        WebhooksService.getDriver type w = (Ok d, w')
        /\ ((exists l1 l2,
               WebhooksService.drivers (host w) = l1 ++ d :: l2
               /\ WebhookDriver.supports d type = true
               /\ Forall (fun x => WebhookDriver.supports x type = false) l1)
            \/ (Forall (fun x => WebhookDriver.supports x type = false)
                  (WebhooksService.drivers (host w))
                /\ d = GenericDriver (host w))))
    /\ exists deliveries,
        outbox (snd (WebhooksService.send webhooks event payload w))
          = outbox w ++ deliveries
        /\ map d_webhook deliveries = webhooks
        /\ (forall results,
              fst (WebhooksService.send webhooks event payload w) = Ok results
              -> map Ok results = map d_outcome deliveries
                 /\ List.length results = List.length webhooks)
        /\ (Forall (fun d => is_ok (d_outcome d) = true) deliveries
            -> exists results,
                 fst (WebhooksService.send webhooks event payload w)
                   = Ok results).
Proof.
  intros webhooks event payload w. split.
  - intros type.
    destruct (getDriver_run type w) as (w' & E & _).
    eexists _, w'. split; [exact E|]. unfold selectDriver.
    destruct (find _ (WebhooksService.drivers (host w))) eqn:F.
    + left. apply find_first_match in F. exact F.
    + right. split; [apply find_no_match in F; exact F|reflexivity].
  - destruct (send_run webhooks event payload w) as (w1 & E & Ho & _).
    exists (deliveriesOf (host w) event payload webhooks).
    rewrite E. cbn [fst snd].
    split; [exact Ho|].
    split; [apply deliveriesOf_webhooks|].
    split.
    + intros results P. apply Promise_all_length in P.
      split; [exact P|].
      transitivity (List.length
        (map d_webhook (deliveriesOf (host w) event payload webhooks))).
      * rewrite <- (length_map Ok results), P. now rewrite !length_map.
      * now rewrite deliveriesOf_webhooks.
    + intros Hall. apply Promise_all_fulfilled.
      clear -Hall. induction Hall; cbn; auto.
Qed.

Lemma dispatch_run (event : WebhookEvent) (payload : Payload) (w : World) :
  exists r w',
    WebhookDispatcherService.dispatch event payload w = (r, w')
    /\ effects_only w w'.
Proof.
  unfold WebhookDispatcherService.dispatch.
  unfold bind at 1. unfold gets at 1. cbv beta iota.
  match goal with
  | |- context [WebhooksService.send ?whs _ _] =>
      destruct (send_run whs event payload w)
        as (w1 & E & Ho & Hdb & Hh & Hm & Hc)
  end.
  unfold try_catch. unfold bind at 1. rewrite E.
  destruct (Promise_all _) as [rs|e].
  - unfold log, modify. eexists _, _. split; [reflexivity|].
    repeat split; assumption.
  - unfold bind, log, modify, throw. cbv beta iota.
    eexists _, _. split; [reflexivity|]. repeat split; assumption.
Qed.

(** A dispatch wrapped in [try]/[catch] with a logging handler always
    completes, and touches only the traces. *)
Lemma try_dispatch_run (event : WebhookEvent) (payload : Payload)
    (s : LogSink) (l : LogLevel) (cat msg : string) (w : World) :
  exists w',
    try_catch (WebhookDispatcherService.dispatch event payload)
      (fun _ => log s l cat msg) w = (Ok tt, w')
    /\ effects_only w w'.
Proof.
  destruct (dispatch_run event payload w) as (r & w1 & E & H).
  unfold try_catch. rewrite E. destruct r as [[]|e].
  - eauto.
  - unfold log, modify. eexists. split; [reflexivity|].
    destruct H as (? & ? & ? & ?). repeat split; assumption.
Qed.

(** Steps over a guarded dispatch in the goal. *)
Ltac step_dispatch w' E H :=
  match goal with
  | |- context [bind (try_catch (WebhookDispatcherService.dispatch ?e ?p)
                        (fun _ => log ?s ?l ?c ?m)) _ ?w0] =>
      destruct (try_dispatch_run e p s l c m w0) as (w' & E & H);
      rewrite (bind_ok _ _ _ _ _ E)
  end.

(** ** CronService *)

(** C7. [runScheduledTasks] is a stub: whatever the state, it completes,
    leaves the store and everything else but the log unchanged, and its
    only effect is one log entry, which does not depend on any record. *)
Theorem runScheduledTasks_only_logs :
  forall w : World,
    fst (CronService.runScheduledTasks w) = Ok tt
    /\ db (snd (CronService.runScheduledTasks w)) = db w
    /\ logs (snd (CronService.runScheduledTasks w)) = logs w ++ [cronEntry]
    /\ outbox (snd (CronService.runScheduledTasks w)) = outbox w
    /\ mailbox (snd (CronService.runScheduledTasks w)) = mailbox w
    /\ cuid (snd (CronService.runScheduledTasks w)) = cuid w
    /\ host (snd (CronService.runScheduledTasks w)) = host w.
Proof.
  intros w. unfold CronService.runScheduledTasks. run. repeat split.
Qed.

(** ** InvitationsService *)

Lemma truthy_spec (s : option string) :
  truthy s = true <-> exists c, s = Some c /\ c <> ""%string.
Proof.
  destruct s as [[|a r]|]; simpl; split; try discriminate.
  - intros (c & H & Hc). inversion H; subst. now elim Hc.
  - intros _. eexists. split; [reflexivity|discriminate].
  - reflexivity.
  - intros (c & H & _). discriminate.
Qed.

(** C8. [canRegister] never writes. With no user it allows the
    registration and requires no code, whatever code is supplied. With at
    least one user it requires a code and allows the registration exactly
    when the supplied code exists, is unused and is not expired; otherwise
    the message tells whether the code was missing, invalid, already used
    or expired. *)
Theorem canRegister_decides :
  forall (code : option string) (w : World),
  exists r,
    InvitationsService.canRegister code w = (Ok r, w)
    /\ (user (db w) = [] ->
        InvitationsService.allowed r = true
        /\ InvitationsService.requiresCode r = false)
    /\ (user (db w) <> [] ->
        InvitationsService.requiresCode r = true
        /\ (InvitationsService.allowed r = true <-> validInvitation w code)
        /\ (InvitationsService.allowed r = false ->
            exists why, refused w code why
              /\ InvitationsService.message r = Some (refusalMessage why))).
Proof.
  intros code w. unfold InvitationsService.canRegister.
  unfold bind at 1, gets at 1. cbv beta iota.
  destruct (user (db w)) as [|u us] eqn:U; cbn [List.length Nat.eqb].
  - eexists. split; [reflexivity|]. split; [auto|]. intros H; now elim H.
  - destruct (truthy code) eqn:T; cbn [negb].
    + apply truthy_spec in T. destruct T as (c & -> & Hc).
      unfold bind at 1, gets at 1. cbv beta iota.
      destruct (findUnique InvitationCode.code c (invitationCode (db w)))
        as [inv|] eqn:F.
      * destruct (InvitationCode.usedAt inv) as [t|] eqn:Used.
        { eexists. split; [reflexivity|]. split; [discriminate|].
          intros _. cbn. split; [reflexivity|]. split.
          - split; [discriminate|].
            intros (c' & inv' & E & _ & F' & U' & _).
            inversion E; subst c'. congruence.
          - intros _. exists AlreadyUsed. split; [|reflexivity].
            exists c, inv. repeat split; auto. congruence. }
        unfold bind at 1, gets at 1. cbv beta iota.
        destruct (InvitationCode.expiresAt inv) as [e|] eqn:Ex.
        { destruct (e <? now (host w)) eqn:L.
          - apply Z.ltb_lt in L.
            eexists. split; [reflexivity|]. split; [discriminate|].
            intros _. cbn. split; [reflexivity|]. split.
            + split; [discriminate|].
              intros (c' & inv' & E & _ & F' & _ & HE).
              inversion E; subst c'. rewrite F in F'.
              inversion F'; subst inv'. now elim (HE e Ex).
            + intros _. exists Expired. split; [|reflexivity].
              exists c, inv, e. repeat split; auto.
          - apply Z.ltb_ge in L.
            eexists. split; [reflexivity|]. split; [discriminate|].
            intros _. cbn. split; [reflexivity|]. split.
            + split; [|reflexivity]. intros _.
              exists c, inv. repeat split; auto.
              intros e' He'. rewrite Ex in He'. inversion He'; subst. lia.
            + discriminate. }
        eexists. split; [reflexivity|]. split; [discriminate|].
        intros _. cbn. split; [reflexivity|]. split.
        { split; [|reflexivity]. intros _.
          exists c, inv. repeat split; auto.
          intros e' He'. congruence. }
        discriminate.
      * eexists. split; [reflexivity|]. split; [discriminate|].
        intros _. cbn. split; [reflexivity|]. split.
        { split; [discriminate|].
          intros (c' & inv' & E & _ & F' & _).
          inversion E; subst c'. congruence. }
        intros _. exists Invalid. split; [|reflexivity].
        exists c. auto.
    + eexists. split; [reflexivity|]. split; [discriminate|].
      intros _. cbn. split; [reflexivity|]. split.
      * split; [discriminate|].
        intros (c' & inv' & E & Hc & _).
        assert (truthy code = true) as T'
          by (apply truthy_spec; eauto).
        congruence.
      * intros _. exists Missing. split; [|reflexivity].
        destruct code as [[|a r]|]; cbn in *; auto; discriminate.
Qed.

(** ** Delegates *)

Lemma prismaFindUnique_run {R} (T : Table R) (k : Id) (w : World) :
  prismaFindUnique T k w = (Ok (findUnique (pk T) k (rows T (db w))), w).
Proof. reflexivity. Qed.

Lemma prismaUpdate_run {R} (T : Table R) (k : Id) (f : R -> R) (w : World)
    (r : R) :
  findUnique (pk T) k (rows T (db w)) = Some r ->
  prismaUpdate T k f w
    = (Ok (f r),
       with_db (with_rows T (update (pk T) k f (rows T (db w))) (db w)) w).
Proof.
  intros H. unfold prismaUpdate.
  rewrite (bind_ok _ _ _ _ _ (prismaFindUnique_run T k w)), H.
  reflexivity.
Qed.

Lemma prismaUpdate_missing {R} (T : Table R) (k : Id) (f : R -> R)
    (w : World) :
  findUnique (pk T) k (rows T (db w)) = None ->
  prismaUpdate T k f w
    = (Throw (PrismaError "Record to update not found."), w).
Proof.
  intros H. unfold prismaUpdate.
  rewrite (bind_ok _ _ _ _ _ (prismaFindUnique_run T k w)), H.
  reflexivity.
Qed.

Lemma findUnique_key {R} (key : R -> Id) (k : Id) (t : list R) (r : R) :
  findUnique key k t = Some r -> key r = k.
Proof.
  unfold findUnique. intros H. apply find_some in H.
  now apply String.eqb_eq.
Qed.

Lemma findUnique_In {R} (key : R -> Id) (k : Id) (t : list R) (r : R) :
  findUnique key k t = Some r -> In r t.
Proof. unfold findUnique. intros H. now apply find_some in H. Qed.

Lemma findUnique_update {R} (key : R -> Id) (k : Id) (f : R -> R)
    (t : list R) :
  (forall r, key (f r) = key r) ->
  findUnique key k (update key k f t) = option_map f (findUnique key k t).
Proof.
  intros Hk. unfold findUnique, update.
  induction t as [|a t IH]; cbn; [reflexivity|].
  destruct (String.eqb (key a) k) eqn:E.
  - now rewrite Hk, E.
  - now rewrite E.
Qed.

Lemma findUnique_update_other {R} (key : R -> Id) (k k' : Id) (f : R -> R)
    (t : list R) :
  (forall r, key (f r) = key r) -> k' <> k ->
  findUnique key k' (update key k f t) = findUnique key k' t.
Proof.
  intros Hk Hne. unfold findUnique, update.
  induction t as [|a t IH]; cbn; [reflexivity|].
  destruct (String.eqb (key a) k) eqn:E.
  - rewrite Hk. apply String.eqb_eq in E.
    destruct (String.eqb (key a) k') eqn:E'.
    + apply String.eqb_eq in E'. congruence.
    + exact IH.
  - destruct (String.eqb (key a) k'); [reflexivity|exact IH].
Qed.

Lemma update_soft_deleted {R} (key : R -> Id) (isActive : R -> bool)
    (same : R -> R -> Prop) (f : R -> R) (k : Id) (t : list R) :
  (forall r, isActive (f r) = false /\ same r (f r)) ->
  soft_deleted key isActive same k t (update key k f t).
Proof.
  intros H. unfold soft_deleted, update.
  induction t as [|a t IH]; cbn; constructor; auto.
  destruct (String.eqb (key a) k); auto.
Qed.

(** ** Soft deletion of invoices and clients *)

(** C10. [deleteInvoice] and [deleteClient] are soft deletes. On an
    existing id the operation completes; the row is still in its table, at
    its place, with [isActive] false and every other column as before; all
    other rows and all other tables, the related items among them, are
    unchanged. On an unknown id it throws [BadRequestException] and the
    store is unchanged. *)
Theorem delete_is_soft :
  forall (id : Id) (w : World),
    (forall inv,
        findUnique Invoice.id id (invoice (db w)) = Some inv ->
        exists w',
          InvoicesService.deleteInvoice id w
            = (Ok (Invoice.with_isActive false inv), w')
          /\ soft_deleted Invoice.id Invoice.isActive
               Invoice_same_but_isActive id
               (invoice (db w)) (invoice (db w'))
          /\ findUnique Invoice.id id (invoice (db w'))
               = Some (Invoice.with_isActive false inv)
          /\ same_tables_but_invoice (db w) (db w'))
    /\ (findUnique Invoice.id id (invoice (db w)) = None ->
        exists w',
          InvoicesService.deleteInvoice id w
            = (Throw (BadRequestException "Invoice not found"), w')
          /\ db w' = db w)
    /\ (forall c,
        findUnique Client.id id (client (db w)) = Some c ->
        exists w',
          ClientsService.deleteClient id w
            = (Ok (Client.with_isActive false c), w')
          /\ soft_deleted Client.id Client.isActive
               Client_same_but_isActive id
               (client (db w)) (client (db w'))
          /\ findUnique Client.id id (client (db w'))
               = Some (Client.with_isActive false c)
          /\ same_tables_but_client (db w) (db w'))
    /\ (findUnique Client.id id (client (db w)) = None ->
        exists w',
          ClientsService.deleteClient id w
            = (Throw (BadRequestException "Client not found"), w')
          /\ db w' = db w).
Proof.
  intros id w. repeat split.
  - intros inv F. unfold InvoicesService.deleteInvoice.
    rewrite (bind_ok _ _ _ _ _ (prismaFindUnique_run invoiceT id w)).
    cbn [rows pk invoiceT]. rewrite F.
    unfold bind at 1, includeInvoice at 1, gets at 1. cbv beta iota.
    rewrite (bind_ok _ _ _ _ _
               (prismaUpdate_run invoiceT id _ w inv F)).
    unfold bind at 1, log at 1, modify at 1. cbv beta iota.
    step_dispatch w' E H. destruct H as (Hdb & _). unfold ret.
    exists w'. split; [reflexivity|].
    rewrite Hdb. cbn [db with_db with_logs with_rows invoiceT rows pk
                      invoice with_invoice].
    split; [|split].
    + apply update_soft_deleted. intros r. split; [reflexivity|].
      repeat split.
    + rewrite findUnique_update by reflexivity. now rewrite F.
    + repeat split.
  - intros F. unfold InvoicesService.deleteInvoice.
    rewrite (bind_ok _ _ _ _ _ (prismaFindUnique_run invoiceT id w)).
    cbn [rows pk invoiceT]. rewrite F.
    eexists. split; reflexivity.
  - intros c F. unfold ClientsService.deleteClient.
    rewrite (bind_ok _ _ _ _ _ (prismaFindUnique_run clientT id w)).
    cbn [rows pk clientT]. rewrite F.
    rewrite (bind_ok _ _ _ _ _
               (prismaUpdate_run clientT id _ w c F)).
    unfold bind at 1, log at 1, modify at 1. cbv beta iota.
    step_dispatch w' E H. destruct H as (Hdb & _). unfold ret.
    exists w'. split; [reflexivity|].
    rewrite Hdb. cbn [db with_db with_logs with_rows clientT rows pk
                      client with_client].
    split; [|split].
    + apply update_soft_deleted. intros r. split; [reflexivity|].
      repeat split.
    + rewrite findUnique_update by reflexivity. now rewrite F.
    + repeat split.
  - intros F. unfold ClientsService.deleteClient.
    rewrite (bind_ok _ _ _ _ _ (prismaFindUnique_run clientT id w)).
    cbn [rows pk clientT]. rewrite F.
    eexists. split; reflexivity.
Qed.

(** ** Creation of rows *)

Lemma newId_run (w : World) :
  newId w = (Ok (genId (cuid w)), with_cuid (S (cuid w)) w).
Proof. reflexivity. Qed.

Lemma create_spec {R} (key : R -> Id) (r : R) (t t' : list R) :
  create key r t = Some t' ->
  findUnique key (key r) t = None /\ t' = t ++ [r].
Proof.
  unfold create, findUnique. destruct (existsb _ t) eqn:E; [discriminate|].
  intros H. inversion H; subst. split; [|reflexivity].
  destruct (find _ t) eqn:F; [|reflexivity].
  apply find_some in F. destruct F as [Hin Hk].
  assert (existsb (fun x => String.eqb (key x) (key r)) t = true)
    by (apply existsb_exists; eauto).
  congruence.
Qed.

Lemma prismaCreate_run {R} (T : Table R) (r : R) (w : World) :
  prismaCreate T r w =
    match create (pk T) r (rows T (db w)) with
    | None =>
        (Throw (PrismaError
                  "Unique constraint failed on the fields: (`id`)"), w)
    | Some t' => (Ok r, with_db (with_rows T t' (db w)) w)
    end.
Proof.
  unfold prismaCreate, bind, gets. cbv beta iota.
  destruct (create _ _ _); reflexivity.
Qed.

Lemma createItems_run (exempt : bool) (invoiceId : Id)
    (items : list InvoiceItemDto.t) :
  forall (w : World) r w',
    mapM (InvoicesService.createItem exempt invoiceId) items w = (r, w') ->
    logs w' = logs w /\ outbox w' = outbox w /\ mailbox w' = mailbox w
    /\ host w' = host w
    /\ forall rows, r = Ok rows ->
         rows = itemRows exempt invoiceId (cuid w) items
         /\ db w' = with_invoiceItem (invoiceItem (db w) ++ rows) (db w).
Proof.
  induction items as [|i items IH]; intros w r w' H.
  - cbn in H. injection H as <- <-. repeat split; auto.
    + now injection H as <-.
    + injection H as <-. cbn. rewrite app_nil_r.
      destruct (db w); reflexivity.
  - cbn [mapM] in H. unfold InvoicesService.createItem at 1 in H.
    unfold bind at 1 in H. unfold bind at 1 in H.
    rewrite newId_run in H. rewrite prismaCreate_run in H.
    cbn [rows pk invoiceItemT db with_cuid] in H.
    destruct (create _ _ _) as [t'|] eqn:C.
    + apply create_spec in C. destruct C as [_ ->].
      unfold bind at 1 in H.
      match type of H with
      | context [mapM _ items ?w1] =>
          destruct (mapM (InvoicesService.createItem exempt invoiceId)
                      items w1) as [r1 w2] eqn:E1;
          specialize (IH _ _ _ E1)
      end.
      cbn [logs outbox mailbox host cuid db with_db with_cuid with_rows
           invoiceItemT] in IH.
      destruct IH as (Hl & Ho & Hm & Hh & IH).
      destruct r1 as [rows1|e]; injection H as <- <-.
      * repeat split; auto.
        -- injection H as <-. cbn [itemRows]. f_equal.
           now destruct (IH rows1 eq_refl).
        -- injection H as <-. destruct (IH rows1 eq_refl) as [_ ->].
           cbn. now rewrite <- app_assoc.
      * repeat split; auto; discriminate.
    + injection H as <- <-. repeat split; auto; discriminate.
Qed.

Lemma createInvoiceRecord_run (exempt : bool) (items : list InvoiceItemDto.t)
    (data : Id -> Invoice.t) (w : World) r w' :
  InvoicesService.createInvoiceRecord exempt items data w = (r, w') ->
  logs w' = logs w /\ outbox w' = outbox w /\ mailbox w' = mailbox w
  /\ host w' = host w
  /\ (forall e, r = Throw e -> db w' = db w)
  /\ (forall view, r = Ok view ->
        let id := genId (cuid w) in
        findUnique Invoice.id (Invoice.id (data id)) (invoice (db w)) = None
        /\ db w' =
             with_invoiceItem
               (invoiceItem (db w) ++ itemRows exempt id (S (cuid w)) items)
               (with_invoice (invoice (db w) ++ [data id]) (db w))
        /\ view =
             {| InvoiceView.invoice := data id;
                InvoiceView.items :=
                  findMany (fun it =>
                    String.eqb (InvoiceItem.invoiceId it)
                      (Invoice.id (data id))) (invoiceItem (db w'));
                InvoiceView.client :=
                  findUnique Client.id (Invoice.clientId (data id))
                    (client (db w));
                InvoiceView.company :=
                  findUnique Company.id (Invoice.companyId (data id))
                    (company (db w)) |}).
Proof.
  unfold InvoicesService.createInvoiceRecord, transaction.
  unfold bind at 1. rewrite newId_run.
  unfold bind at 1. rewrite prismaCreate_run.
  cbn [rows pk invoiceT db with_cuid].
  destruct (create _ _ _) as [t'|] eqn:C.
  - apply create_spec in C. destruct C as [Fresh ->].
    unfold bind at 1.
    match goal with
    | |- context [mapM _ items ?w1] =>
        destruct (mapM (InvoicesService.createItem exempt (genId (cuid w)))
                    items w1) as [r1 w2] eqn:E1;
        pose proof (createItems_run _ _ _ _ _ _ E1) as
          (Hl & Ho & Hm & Hh & Hrows)
    end.
    cbn [logs outbox mailbox host cuid db with_db with_cuid with_rows
         invoiceT] in Hl, Ho, Hm, Hh, Hrows.
    destruct r1 as [rows|e].
    + destruct (Hrows rows eq_refl) as [-> Hdb].
      unfold includeInvoice, gets. intros H. injection H as <- <-.
      do 4 (split; [assumption|]).
      split; [discriminate|].
      intros view H. injection H as <-. cbn zeta.
      split; [exact Fresh|]. split; [exact Hdb|].
      rewrite Hdb. reflexivity.
    + intros H. injection H as <- <-. cbn [logs outbox mailbox host db with_db].
      repeat split; auto; discriminate.
  - intros H. injection H as <- <-. repeat split; auto; discriminate.
Qed.

Lemma dispatch_outbox (event : WebhookEvent) (payload : Payload) (w : World) :
  exists webhooks,
    outbox (snd (WebhookDispatcherService.dispatch event payload w))
      = outbox w ++ deliveriesOf (host w) event payload webhooks.
Proof.
  unfold WebhookDispatcherService.dispatch.
  unfold bind at 1. unfold gets at 1. cbv beta iota.
  match goal with
  | |- context [WebhooksService.send ?whs _ _] =>
      exists whs;
      destruct (send_run whs event payload w)
        as (w1 & E & Ho & Hdb & Hh & Hm & Hc)
  end.
  unfold try_catch. unfold bind at 1. rewrite E.
  destruct (Promise_all _) as [rs|e].
  - unfold log, modify. cbn. exact Ho.
  - unfold bind, log, modify, throw. cbn. exact Ho.
Qed.

Lemma deliveriesOf_event h event payload webhooks :
  Forall (fun d => d_event d = event /\ d_payload d = payload)
    (deliveriesOf h event payload webhooks).
Proof.
  unfold deliveriesOf. induction webhooks; cbn; constructor; auto.
Qed.

(** ** InvoicesService.createInvoice *)

Lemma findFirst_any {A} (l : list A) :
  findFirst (fun _ => true) l = hd_error l.
Proof. destruct l; reflexivity. Qed.

Lemma createInvoice_run (body : CreateInvoiceDto.t) (w : World) :
  match hd_error (company (db w)) with
  | None =>
      InvoicesService.createInvoice body w =
        (Throw (BadRequestException
                  "No company found. Please create a company first."),
         logged "invoice" "No company found. Please create a company first."
           ERROR w)
  | Some co =>
      match findUnique Client.id (CreateInvoiceDto.clientId body)
              (client (db w)) with
      | None =>
          InvoicesService.createInvoice body w =
            (Throw (BadRequestException "Client not found"),
             logged "invoice" "Client not found" ERROR w)
      | Some cl =>
          match InvoicesService.createInvoiceRecord
                  (InvoicesService.isVatExemptFrance co)
                  (CreateInvoiceDto.items body) (createData body co cl w) w
          with
          | (Throw e, w1) =>
              InvoicesService.createInvoice body w = (Throw e, w1)
          | (Ok view, w1) =>
              InvoicesService.createInvoice body w =
                (Ok view,
                 snd (dispatchCreated view cl co
                        (logged "invoice" "Invoice created" INFO w1)))
          end
      end
  end.
Proof.
  destruct (hd_error (company (db w))) as [co|] eqn:Hco.
  2:{ unfold InvoicesService.createInvoice.
      unfold bind at 1, gets at 1. cbv beta iota.
      rewrite findFirst_any, Hco. reflexivity. }
  destruct (findUnique Client.id _ (client (db w))) as [cl|] eqn:Hcl.
  2:{ unfold InvoicesService.createInvoice.
      unfold bind at 1, gets at 1. cbv beta iota.
      rewrite findFirst_any, Hco.
      rewrite (bind_ok _ _ _ _ _ (prismaFindUnique_run clientT _ w)).
      cbn [rows pk clientT]. rewrite Hcl. reflexivity. }
  destruct (InvoicesService.createInvoiceRecord _ _ _ w) as [[view|e] w1]
    eqn:E.
  - unfold InvoicesService.createInvoice.
    unfold bind at 1, gets at 1. cbv beta iota.
    rewrite findFirst_any, Hco.
    rewrite (bind_ok _ _ _ _ _ (prismaFindUnique_run clientT _ w)).
    cbn [rows pk clientT]. rewrite Hcl.
    unfold bind at 1, gets at 1. cbv beta iota.
    fold (createData body co cl w).
    rewrite (bind_ok _ _ _ _ _ E).
    unfold bind at 1, log at 1, modify at 1. cbv beta iota.
    fold (logged "invoice" "Invoice created" INFO w1).
    fold (dispatchCreated view cl co).
    destruct (try_dispatch_run "INVOICE_CREATED"
                (InvoicePayload view (Some cl) (Some co)) AppLogger ERROR
                "invoice" "Failed to dispatch INVOICE_CREATED webhook"
                (logged "invoice" "Invoice created" INFO w1))
      as (w2 & E2 & _).
    fold (dispatchCreated view cl co) in E2.
    rewrite (bind_ok _ _ _ _ _ E2). rewrite E2. reflexivity.
  - unfold InvoicesService.createInvoice.
    unfold bind at 1, gets at 1. cbv beta iota.
    rewrite findFirst_any, Hco.
    rewrite (bind_ok _ _ _ _ _ (prismaFindUnique_run clientT _ w)).
    cbn [rows pk clientT]. rewrite Hcl.
    unfold bind at 1, gets at 1. cbv beta iota.
    fold (createData body co cl w).
    rewrite (bind_throw _ _ _ _ _ E). reflexivity.
Qed.

Lemma findUnique_app_fresh {R} (key : R -> Id) (t : list R) (r : R) :
  findUnique key (key r) t = None ->
  findUnique key (key r) (t ++ [r]) = Some r.
Proof.
  unfold findUnique. intros H.
  induction t as [|a t IH]; cbn in *.
  - now rewrite String.eqb_refl.
  - destruct (String.eqb (key a) (key r)); [discriminate|auto].
Qed.

Lemma dispatchCreated_run (view : InvoiceView.t) (cl : Client.t)
    (co : Company.t) (w : World) :
  let payload := InvoicePayload view (Some cl) (Some co) in
  let r := WebhookDispatcherService.dispatch "INVOICE_CREATED" payload w in
  dispatchCreated view cl co w =
    (Ok tt,
     match fst r with
     | Ok _ => snd r
     | Throw _ =>
         logged "invoice" "Failed to dispatch INVOICE_CREATED webhook" ERROR
           (snd r)
     end)
  /\ effects_only w (snd r)
  /\ exists webhooks,
       outbox (snd r)
         = outbox w ++ deliveriesOf (host w) "INVOICE_CREATED" payload
                         webhooks.
Proof.
  cbn zeta. unfold dispatchCreated, try_catch.
  destruct (dispatch_run "INVOICE_CREATED"
              (InvoicePayload view (Some cl) (Some co)) w)
    as (r & w1 & E & H).
  pose proof (dispatch_outbox "INVOICE_CREATED"
                (InvoicePayload view (Some cl) (Some co)) w) as Ho.
  rewrite E in *. cbn [fst snd] in *.
  split; [|split; assumption].
  destruct r as [[]|e]; reflexivity.
Qed.

(** C5. [createInvoice] validates before it writes: without a company, or
    with a client id that resolves to no client, it throws
    [BadRequestException], and whenever it throws the store is unchanged
    and nothing has been dispatched. When it succeeds the invoice is
    written first, with nothing dispatched so far; the [INVOICE_CREATED]
    deliveries are made afterwards from the state that holds the invoice,
    and carry the invoice returned; the guarded dispatch always completes
    and does not touch the store, and when the dispatch throws the failure
    is logged. *)
Theorem createInvoice_validates_then_dispatches :
  forall (body : CreateInvoiceDto.t) (w : World),
    (company (db w) = [] ->
     exists w',
       InvoicesService.createInvoice body w =
         (Throw (BadRequestException
                   "No company found. Please create a company first."), w')
       /\ db w' = db w /\ outbox w' = outbox w)
    /\ (company (db w) <> [] ->
        findUnique Client.id (CreateInvoiceDto.clientId body)
          (client (db w)) = None ->
        exists w',
          InvoicesService.createInvoice body w =
            (Throw (BadRequestException "Client not found"), w')
          /\ db w' = db w /\ outbox w' = outbox w)
    /\ (forall e w',
          InvoicesService.createInvoice body w = (Throw e, w') ->
          db w' = db w /\ outbox w' = outbox w)
    /\ (forall view w',
          InvoicesService.createInvoice body w = (Ok view, w') ->
          exists co cl w1,
            hd_error (company (db w)) = Some co
            /\ findUnique Client.id (CreateInvoiceDto.clientId body)
                 (client (db w)) = Some cl
            /\ InvoicesService.createInvoiceRecord
                 (InvoicesService.isVatExemptFrance co)
                 (CreateInvoiceDto.items body) (createData body co cl w) w
               = (Ok view, w1)
            /\ findUnique Invoice.id (Invoice.id (InvoiceView.invoice view))
                 (invoice (db w)) = None
            /\ findUnique Invoice.id (Invoice.id (InvoiceView.invoice view))
                 (invoice (db w1)) = Some (InvoiceView.invoice view)
            /\ outbox w1 = outbox w
            /\ dispatchCreated view cl co
                 (logged "invoice" "Invoice created" INFO w1) = (Ok tt, w')
            /\ db w' = db w1
            /\ (exists deliveries,
                  outbox w' = outbox w1 ++ deliveries
                  /\ Forall (fun d =>
                       d_event d = "INVOICE_CREATED"%string
                       /\ d_payload d =
                            InvoicePayload view (Some cl) (Some co))
                       deliveries)
            /\ (forall e w2,
                  WebhookDispatcherService.dispatch "INVOICE_CREATED"
                    (InvoicePayload view (Some cl) (Some co))
                    (logged "invoice" "Invoice created" INFO w1)
                    = (Throw e, w2) ->
                  w' = logged "invoice"
                         "Failed to dispatch INVOICE_CREATED webhook" ERROR
                         w2)).
Proof.
  intros body w. pose proof (createInvoice_run body w) as R.
  split; [|split; [|split]].
  - intros Hc. rewrite Hc in R. cbn [hd_error] in R. rewrite R.
    eexists. split; [reflexivity|]. split; reflexivity.
  - intros Hc Hcl. destruct (company (db w)) as [|co cs]; [now elim Hc|].
    cbn [hd_error] in R. rewrite Hcl in R. rewrite R.
    eexists. split; [reflexivity|]. split; reflexivity.
  - intros e w' H.
    destruct (hd_error (company (db w))) as [co|].
    2:{ rewrite R in H. injection H as _ <-. split; reflexivity. }
    destruct (findUnique Client.id _ (client (db w))) as [cl|].
    2:{ rewrite R in H. injection H as _ <-. split; reflexivity. }
    destruct (InvoicesService.createInvoiceRecord _ _ _ w)
      as [[view|e1] w1] eqn:E; rewrite R in H; [discriminate|].
    injection H as _ <-.
    apply createInvoiceRecord_run in E.
    destruct E as (_ & Ho & _ & _ & Hdb & _). split; eauto.
  - intros view w' H.
    destruct (hd_error (company (db w))) as [co|];
      [|rewrite R in H; discriminate].
    destruct (findUnique Client.id _ (client (db w))) as [cl|];
      [|rewrite R in H; discriminate].
    destruct (InvoicesService.createInvoiceRecord _ _ _ w)
      as [[view1|e1] w1] eqn:E; rewrite R in H; [|discriminate].
    injection H as <- <-.
    exists co, cl, w1.
    pose proof (createInvoiceRecord_run _ _ _ _ _ _ E)
      as (_ & Ho & _ & _ & _ & Hok).
    destruct (Hok view1 eq_refl) as (Fresh & Hdb & Hview).
    assert (InvoiceView.invoice view1
            = createData body co cl w (genId (cuid w))) as Hrow
      by (rewrite Hview; reflexivity).
    destruct (dispatchCreated_run view1 cl co
                (logged "invoice" "Invoice created" INFO w1))
      as (D & (Hdb2 & _) & (whs & Hout)).
    cbn zeta in D, Hdb2, Hout.
    split; [reflexivity|]. split; [reflexivity|]. split; [exact E|].
    split; [rewrite Hrow; exact Fresh|].
    split.
    { rewrite Hrow, Hdb. cbn [invoice with_invoiceItem with_invoice].
      now apply findUnique_app_fresh. }
    split; [exact Ho|].
    rewrite D. cbn [snd].
    split; [reflexivity|].
    destruct (WebhookDispatcherService.dispatch _ _ _) as [[[]|e] w2];
      cbn [fst snd] in *.
    + split; [exact Hdb2|]. split; [|discriminate].
      eexists. split; [exact Hout|]. apply deliveriesOf_event.
    + split; [exact Hdb2|]. split.
      * eexists. split; [exact Hout|]. apply deliveriesOf_event.
      * intros e' w2' H. now injection H as _ <-.
Qed.

(** ** Totals *)

Lemma fold_left_sum {A} (f : A -> Number) (l : list A) (a : Number) :
  fold_left (fun s x => (s + f x)%num) l a = added_up a (map f l).
Proof.
  revert a. unfold added_up.
  induction l as [|x l IH]; intros a; cbn [fold_left map]; [reflexivity|].
  apply IH.
Qed.

Lemma reduce_totalHT_sum (items : list InvoiceItemDto.t) :
  InvoicesService.reduce_totalHT items = sum_over lineHT items.
Proof. apply (fold_left_sum lineHT). Qed.

Lemma reduce_totalVAT_sum (items : list InvoiceItemDto.t) :
  InvoicesService.reduce_totalVAT items = sum_over lineVAT items.
Proof. apply (fold_left_sum lineVAT). Qed.

Lemma reduce_totalTTC_sum (items : list InvoiceItemDto.t) :
  InvoicesService.reduce_totalTTC items = sum_over lineTTC items.
Proof. apply (fold_left_sum lineTTC). Qed.

Lemma toUpperCase_empty : toUpperCase "" <> "FRANCE"%string.
Proof. discriminate. Qed.

Lemma isVatExemptFrance_spec (co : Company.t) :
  InvoicesService.isVatExemptFrance co = true <-> exemptFrance co.
Proof.
  unfold InvoicesService.isVatExemptFrance, exemptFrance.
  rewrite andb_true_iff, String.eqb_eq.
  destruct (Company.country co) as [c|]; split.
  - intros [H1 H2]. eauto.
  - intros [H1 (c' & H2 & H3)]. inversion H2; subst. auto.
  - intros [_ H]. now apply toUpperCase_empty in H.
  - intros [_ (c' & H & _)]. discriminate.
Qed.

(** ** InvoicesService.editInvoice *)

Lemma updateItem_run (exempt : bool) (id : Id) (i : InvoiceItemDto.t)
    (w : World) :
  exists w',
    InvoicesService.updateItem exempt id i w = (Ok tt, w')
    /\ invoiceItem (db w')
         = map (fun r => rowUpdate exempt id r i) (invoiceItem (db w))
    /\ invoice (db w') = invoice (db w).
Proof.
  unfold InvoicesService.updateItem, rowUpdate.
  destruct (InvoiceItemDto.id i) as [iid|].
  - eexists. split; [reflexivity|]. split; reflexivity.
  - exists w. split; [reflexivity|]. split; [|reflexivity].
    now rewrite map_id.
Qed.

Lemma updateItems_run (exempt : bool) (id : Id)
    (l : list InvoiceItemDto.t) :
  forall w : World,
  exists w',
    mapM (InvoicesService.updateItem exempt id) l w
      = (Ok (map (fun _ => tt) l), w')
    /\ invoiceItem (db w')
         = map (rowUpdates exempt id l) (invoiceItem (db w))
    /\ invoice (db w') = invoice (db w).
Proof.
  induction l as [|i l IH]; intros w.
  - exists w. split; [reflexivity|]. split; [|reflexivity].
    cbn. now rewrite map_id.
  - destruct (updateItem_run exempt id i w) as (w1 & E1 & Hi1 & Hv1).
    destruct (IH w1) as (w2 & E2 & Hi2 & Hv2).
    exists w2. split; [|split].
    + cbn [mapM map]. rewrite (bind_ok _ _ _ _ _ E1).
      rewrite (bind_ok _ _ _ _ _ E2). reflexivity.
    + rewrite Hi2, Hi1, map_map. reflexivity.
    + congruence.
Qed.

Lemma itemRows_exempt (id : Id) (items : list InvoiceItemDto.t) :
  forall n,
    Forall (fun it => InvoiceItem.vatRate it = 0%num
                      /\ InvoiceItem.invoiceId it = id)
      (itemRows true id n items).
Proof.
  induction items as [|i items IH]; intros n; cbn; constructor; auto.
Qed.

Lemma rowUpdate_keys exempt id r i :
  InvoiceItem.id (rowUpdate exempt id r i) = InvoiceItem.id r
  /\ InvoiceItem.invoiceId (rowUpdate exempt id r i)
       = InvoiceItem.invoiceId r.
Proof.
  unfold rowUpdate. destruct (InvoiceItemDto.id i); [|auto].
  destruct (_ && _); auto.
Qed.

Lemma rowUpdates_keys exempt id l :
  forall r,
    InvoiceItem.id (rowUpdates exempt id l r) = InvoiceItem.id r
    /\ InvoiceItem.invoiceId (rowUpdates exempt id l r)
         = InvoiceItem.invoiceId r.
Proof.
  unfold rowUpdates.
  induction l as [|i l IH]; intros r; cbn; [auto|].
  destruct (IH (rowUpdate exempt id r i)) as [-> ->].
  apply rowUpdate_keys.
Qed.

(** Under the exemption a row of the invoice that some entry of the nested
    [updateMany] addresses ends with a zero rate. *)
Lemma rowUpdates_exempt (id : Id) (l : list InvoiceItemDto.t) :
  forall r,
    InvoiceItem.invoiceId r = id ->
    (InvoiceItem.vatRate r = 0%num
     \/ exists i, In i l /\ InvoiceItemDto.id i = Some (InvoiceItem.id r)) ->
    InvoiceItem.vatRate (rowUpdates true id l r) = 0%num.
Proof.
  unfold rowUpdates.
  induction l as [|i l IH]; intros r Hid H; cbn.
  - destruct H as [H|(i & [] & _)]. exact H.
  - destruct (rowUpdate_keys true id r i) as [Hk1 Hk2].
    apply IH; [congruence|].
    destruct H as [H|(j & [<-|Hj] & Hjid)].
    + left. unfold rowUpdate.
      destruct (InvoiceItemDto.id i); [|exact H].
      destruct (_ && _); [reflexivity|exact H].
    + left. unfold rowUpdate. rewrite Hjid, Hid, !String.eqb_refl.
      reflexivity.
    + right. exists j. rewrite Hk1. auto.
Qed.

Lemma includes_In (ids : list Id) (x : Id) :
  InvoicesService.includes ids x = true <-> In x ids.
Proof.
  unfold InvoicesService.includes. rewrite existsb_exists. split.
  - intros (y & Hy & E). apply String.eqb_eq in E. now subst.
  - intros H. exists x. split; [exact H|apply String.eqb_refl].
Qed.

Lemma incomingItemIds_In (items : list InvoiceItemDto.t) (x : Id) :
  In x (InvoicesService.incomingItemIds items) ->
  exists i, In i (filter InvoicesService.hasId items)
            /\ InvoiceItemDto.id i = Some x.
Proof.
  unfold InvoicesService.incomingItemIds. rewrite in_flat_map.
  intros (i & Hi & Hx). exists i. split; [exact Hi|].
  destruct (InvoiceItemDto.id i); cbn in Hx; [|contradiction].
  destruct Hx as [->|[]]. reflexivity.
Qed.

Lemma transaction_ok {A} (c : M A) (w w' : World) (a : A) :
  transaction c w = (Ok a, w') -> c w = (Ok a, w').
Proof.
  unfold transaction. destruct (c w) as [[a1|e] w1]; intros H.
  - exact H.
  - discriminate.
Qed.

Lemma updateInvoiceRecord_run (exempt : bool) (id : Id) (del : list Id)
    (items : list InvoiceItemDto.t) (data : Invoice.t -> Invoice.t)
    (w : World) (view : InvoiceView.t) (w' : World) :
  InvoicesService.updateInvoiceRecord exempt id del items data w
    = (Ok view, w') ->
  exists row n,
    findUnique Invoice.id id (invoice (db w)) = Some row
    /\ InvoiceView.invoice view = data row
    /\ invoice (db w') = update Invoice.id id data (invoice (db w))
    /\ invoiceItem (db w') =
         map (rowUpdates exempt id (filter InvoicesService.hasId items))
           (deleteMany (fun it =>
              String.eqb (InvoiceItem.invoiceId it) id
              && InvoicesService.includes del (InvoiceItem.id it))
              (invoiceItem (db w)))
         ++ itemRows exempt id n
              (filter (fun i => negb (InvoicesService.hasId i)) items).
Proof.
  unfold InvoicesService.updateInvoiceRecord. intros H.
  apply transaction_ok in H.
  unfold bind at 1 in H. unfold prismaDeleteMany at 1, modifyDb, modify in H.
  cbv beta iota in H.
  match type of H with
  | context [bind (mapM (InvoicesService.updateItem _ _) _) _ ?wa] =>
      destruct (updateItems_run exempt id
                  (filter InvoicesService.hasId items) wa)
        as (wb & Eb & Hib & Hvb)
  end.
  rewrite (bind_ok _ _ _ _ _ Eb) in H.
  cbn [db with_db rows with_rows invoiceItemT invoiceItem invoice
       with_invoiceItem] in Hib, Hvb.
  destruct (mapM (InvoicesService.createItem exempt id)
              (filter (fun i => negb (InvoicesService.hasId i)) items) wb)
    as [rc wc] eqn:Ec.
  pose proof (createItems_run _ _ _ _ _ _ Ec) as (_ & _ & _ & _ & Hrows).
  unfold bind at 1 in H. rewrite Ec in H.
  destruct rc as [rows|e]; [|discriminate].
  destruct (Hrows rows eq_refl) as [-> Hdbc].
  destruct (findUnique Invoice.id id (invoice (db wc))) as [row|] eqn:F.
  - rewrite (bind_ok _ _ _ _ _ (prismaUpdate_run invoiceT id data wc row F))
      in H.
    unfold includeInvoice, gets in H. injection H as <- <-.
    assert (invoice (db wc) = invoice (db w)) as Hv
      by (rewrite Hdbc; cbn; exact Hvb).
    exists row, (cuid wb).
    split; [now rewrite <- Hv|]. split; [reflexivity|].
    cbn [db with_db rows with_rows invoiceT invoice invoiceItem
         with_invoice pk].
    split; [now rewrite Hv|].
    rewrite Hdbc. cbn [invoiceItem with_invoiceItem]. now rewrite Hib.
  - rewrite (bind_throw _ _ _ _ _
               (prismaUpdate_missing invoiceT id data wc F)) in H.
    discriminate.
Qed.

Lemma editInvoice_run (body : EditInvoicesDto.t) (w : World)
    (view : InvoiceView.t) (w' : World) :
  InvoicesService.editInvoice body w = (Ok view, w') ->
  exists id co cl ex w1,
    EditInvoicesDto.id body = Some id
    /\ hd_error (company (db w)) = Some co
    /\ findUnique Client.id (EditInvoicesDto.clientId body) (client (db w))
         = Some cl
    /\ findUnique Invoice.id id (invoice (db w)) = Some ex
    /\ InvoicesService.updateInvoiceRecord
         (InvoicesService.isVatExemptFrance co) id
         (itemIdsToDelete id (EditInvoicesDto.items body) (db w))
         (EditInvoicesDto.items body) (editData body co cl ex w) w
       = (Ok view, w1)
    /\ db w' = db w1.
Proof.
  unfold InvoicesService.editInvoice. intros H.
  destruct (EditInvoicesDto.id body) as [[|a id']|] eqn:Hid;
    [discriminate| |discriminate].
  unfold bind at 1, gets at 1 in H. cbv beta iota in H.
  rewrite findFirst_any in H.
  destruct (hd_error (company (db w))) as [co|] eqn:Hco; [|discriminate].
  rewrite (bind_ok _ _ _ _ _ (prismaFindUnique_run clientT _ w)) in H.
  cbn [rows pk clientT] in H.
  destruct (findUnique Client.id _ (client (db w))) as [cl|] eqn:Hcl;
    [|discriminate].
  rewrite (bind_ok _ _ _ _ _ (prismaFindUnique_run invoiceT _ w)) in H.
  cbn [rows pk invoiceT] in H.
  destruct (findUnique Invoice.id _ (invoice (db w))) as [ex|] eqn:Hex;
    [|discriminate].
  unfold bind at 1, prismaFindMany at 1, gets at 1 in H. cbv beta iota in H.
  unfold bind at 1, gets at 1 in H. cbv beta iota in H.
  cbn [rows invoiceItemT] in H.
  fold (storedItems (db w) (String a id')) in H.
  fold (itemIdsToDelete (String a id') (EditInvoicesDto.items body) (db w))
    in H.
  match type of H with
  | context [bind (InvoicesService.updateInvoiceRecord ?x1 ?x2 ?x3 ?x4 ?x5)
               _ ?w0] =>
      destruct (InvoicesService.updateInvoiceRecord x1 x2 x3 x4 x5 w0)
        as [[view1|e] w1] eqn:E
  end.
  - rewrite (bind_ok _ _ _ _ _ E) in H.
    unfold bind at 1, log at 1, modify at 1 in H. cbv beta iota in H.
    match type of H with
    | context [bind (try_catch (WebhookDispatcherService.dispatch ?e ?p)
                       (fun _ => log ?s ?l ?c ?m)) _ ?w0] =>
        destruct (try_dispatch_run e p s l c m w0) as (w2 & E2 & Hdb & _);
        rewrite (bind_ok _ _ _ _ _ E2) in H
    end.
    unfold ret in H. injection H as <- <-.
    exists (String a id'), co, cl, ex, w1.
    unfold editData. repeat split; auto.
  - rewrite (bind_throw _ _ _ _ _ E) in H. discriminate.
Qed.

Lemma dispatchCreated_db (view : InvoiceView.t) (cl : Client.t)
    (co : Company.t) (w : World) :
  db (snd (dispatchCreated view cl co w)) = db w.
Proof.
  destruct (dispatchCreated_run view cl co w) as (D & (Hdb & _) & _).
  cbn zeta in D, Hdb. rewrite D. cbn [snd].
  destruct (fst _); exact Hdb.
Qed.

(** The totals the two writes store, as functions of the submitted items. *)
Lemma written_totals (exempt : bool) (items : list InvoiceItemDto.t)
    (co : Company.t) (tHT tVAT tTTC : Number) :
  exempt = InvoicesService.isVatExemptFrance co ->
  tHT = InvoicesService.reduce_totalHT items ->
  tVAT = (if exempt then 0%num else InvoicesService.reduce_totalVAT items) ->
  tTTC = (if exempt then InvoicesService.reduce_totalHT items
          else InvoicesService.reduce_totalTTC items) ->
  tHT = sum_over lineHT items
  /\ (~ exemptFrance co ->
      tVAT = sum_over lineVAT items /\ tTTC = sum_over lineTTC items)
  /\ (exemptFrance co -> tVAT = 0%num /\ tTTC = tHT).
Proof.
  intros -> -> -> ->.
  pose proof (isVatExemptFrance_spec co) as S.
  split; [apply reduce_totalHT_sum|].
  destruct (InvoicesService.isVatExemptFrance co).
  - split.
    + intros N. elim N. now apply S.
    + intros _. split; reflexivity.
  - split.
    + intros _. split; [apply reduce_totalVAT_sum|apply reduce_totalTTC_sum].
    + intros E. apply S in E. discriminate.
Qed.

(** C1, as the code has it. For every invoice written by [createInvoice]
    or recomputed by [editInvoice], the stored row carries the totals as
    the three [reduce] calls add them up in binary64, line after line from
    0, every product, quotient and sum rounded: [totalHT] is the sum of
    [quantity * unitPrice]; outside the French exemption [totalVAT] is
    the sum of [quantity * unitPrice * vatRate / 100] and [totalTTC] the
    sum of [quantity * unitPrice * (1 + vatRate / 100)], a missing rate
    counting as 0 -- a sum of its own, not [totalHT + totalVAT]; under
    the exemption [totalVAT] is 0, [totalTTC] is [totalHT] and every item
    stored for the invoice has the rate 0. *)
Theorem invoice_totals_are_rounded_sums :
  forall (op : InvoiceWrite) (w : World) (view : InvoiceView.t)
         (w' : World),
    fk_invoiceItem (db w) ->
    runInvoiceWrite op w = (Ok view, w') ->
    exists co,
      hd_error (company (db w)) = Some co
      /\ findUnique Invoice.id (Invoice.id (InvoiceView.invoice view))
           (invoice (db w')) = Some (InvoiceView.invoice view)
      /\ Invoice.totalHT (InvoiceView.invoice view)
         = sum_over lineHT (submittedItems op)
      /\ (~ exemptFrance co ->
          Invoice.totalVAT (InvoiceView.invoice view)
          = sum_over lineVAT (submittedItems op)
          /\ Invoice.totalTTC (InvoiceView.invoice view)
             = sum_over lineTTC (submittedItems op))
      /\ (exemptFrance co ->
          Invoice.totalVAT (InvoiceView.invoice view) = 0%num
          /\ Invoice.totalTTC (InvoiceView.invoice view)
             = Invoice.totalHT (InvoiceView.invoice view)
          /\ Forall (fun it => InvoiceItem.vatRate it = 0%num)
               (storedItems (db w')
                  (Invoice.id (InvoiceView.invoice view)))).
Proof.
  intros [body|body] w view w' FK H; cbn [runInvoiceWrite submittedItems] in *.
  - pose proof (createInvoice_run body w) as R.
    destruct (hd_error (company (db w))) as [co|];
      [|rewrite R in H; discriminate].
    destruct (findUnique Client.id _ (client (db w))) as [cl|];
      [|rewrite R in H; discriminate].
    destruct (InvoicesService.createInvoiceRecord _ _ _ w)
      as [[view1|e1] w1] eqn:E; rewrite R in H; [|discriminate].
    injection H as <- <-.
    rewrite dispatchCreated_db. cbn [db logged with_logs].
    pose proof (createInvoiceRecord_run _ _ _ _ _ _ E)
      as (_ & _ & _ & _ & _ & Hok).
    destruct (Hok view1 eq_refl) as (Fresh & Hdb & Hview).
    set (id := genId (cuid w)) in *.
    assert (InvoiceView.invoice view1 = createData body co cl w id) as Hrow
      by (rewrite Hview; reflexivity).
    destruct (written_totals (InvoicesService.isVatExemptFrance co)
                (CreateInvoiceDto.items body) co
                (Invoice.totalHT (createData body co cl w id))
                (Invoice.totalVAT (createData body co cl w id))
                (Invoice.totalTTC (createData body co cl w id))
                eq_refl eq_refl eq_refl eq_refl) as (T1 & T2 & T4).
    exists co. rewrite Hrow.
    split; [reflexivity|]. split.
    { rewrite Hdb. cbn [invoice with_invoiceItem with_invoice].
      now apply findUnique_app_fresh. }
    split; [exact T1|]. split; [exact T2|].
    intros Ex. destruct (T4 Ex) as [V0 TT].
    split; [exact V0|]. split; [exact TT|].
    apply isVatExemptFrance_spec in Ex.
    unfold storedItems, findMany. rewrite Hdb, Ex.
    cbn [invoiceItem with_invoiceItem]. rewrite filter_app.
    apply Forall_app. split.
    + apply Forall_forall. intros it Hit. apply filter_In in Hit.
      destruct Hit as [Hin Heq]. apply String.eqb_eq in Heq.
      destruct (FK it Hin) as [inv' Hinv'].
      rewrite Heq in Hinv'. congruence.
    + apply Forall_forall. intros it Hit. apply filter_In in Hit.
      destruct Hit as [Hin _].
      pose proof (itemRows_exempt id (CreateInvoiceDto.items body)
                    (S (cuid w))) as Hall.
      rewrite Forall_forall in Hall. destruct (Hall it Hin) as [-> _].
      reflexivity.
  - apply editInvoice_run in H.
    destruct H as (id & co & cl & ex & w1 & Hid & Hco & Hcl & Hex & E & Hdb).
    apply updateInvoiceRecord_run in E.
    destruct E as (row & n & Hrow & Hview & Hinv & Hitems).
    destruct (written_totals (InvoicesService.isVatExemptFrance co)
                (EditInvoicesDto.items body) co
                (Invoice.totalHT (editData body co cl ex w row))
                (Invoice.totalVAT (editData body co cl ex w row))
                (Invoice.totalTTC (editData body co cl ex w row))
                eq_refl eq_refl eq_refl eq_refl) as (T1 & T2 & T4).
    exists co. rewrite Hview, Hdb.
    assert (Invoice.id (editData body co cl ex w row) = id) as Hkey.
    { cbn. now apply findUnique_key in Hrow. }
    rewrite Hkey.
    split; [exact Hco|]. split.
    { rewrite Hinv, findUnique_update by reflexivity. now rewrite Hrow. }
    split; [exact T1|]. split; [exact T2|].
    intros Ex. destruct (T4 Ex) as [V0 TT].
    split; [exact V0|]. split; [exact TT|].
    apply isVatExemptFrance_spec in Ex.
    unfold storedItems, findMany. rewrite Hitems, Ex, filter_app.
    apply Forall_app. split.
    + apply Forall_forall. intros it Hit. apply filter_In in Hit.
      destruct Hit as [Hin Heq]. apply String.eqb_eq in Heq.
      apply in_map_iff in Hin. destruct Hin as (r & <- & Hr).
      unfold deleteMany in Hr. apply filter_In in Hr.
      destruct Hr as [Hr Hkeep].
      destruct (rowUpdates_keys true id
                  (filter InvoicesService.hasId (EditInvoicesDto.items body))
                  r) as [Hk1 Hk2].
      rewrite Hk2 in Heq.
      rewrite rowUpdates_exempt; [reflexivity|exact Heq|].
      right. apply incomingItemIds_In. apply includes_In.
      rewrite Heq, String.eqb_refl in Hkeep. cbn [andb] in Hkeep.
      destruct (InvoicesService.includes
                  (InvoicesService.incomingItemIds
                     (EditInvoicesDto.items body)) (InvoiceItem.id r))
        eqn:Inc; [reflexivity|].
      exfalso.
      assert (InvoicesService.includes
                (itemIdsToDelete id (EditInvoicesDto.items body) (db w))
                (InvoiceItem.id r) = true) as Hdel.
      { apply includes_In. unfold itemIdsToDelete.
        apply filter_In. split.
        - apply in_map. unfold storedItems, findMany.
          apply filter_In. split; [exact Hr|].
          rewrite Heq. apply String.eqb_refl.
        - now rewrite Inc. }
      rewrite Hdel in Hkeep. discriminate.
    + apply Forall_forall. intros it Hit. apply filter_In in Hit.
      destruct Hit as [Hin _].
      pose proof (itemRows_exempt id
                    (filter (fun i => negb (InvoicesService.hasId i))
                       (EditInvoicesDto.items body)) n) as Hall.
      rewrite Forall_forall in Hall. destruct (Hall it Hin) as [-> _].
      reflexivity.
Qed.

Lemma invoice_totals_are_rounded_sums_witness :
  exists view w',
    runInvoiceWrite (CreateInvoice newInvoice) baseWorld = (Ok view, w')
    /\ exists co,
      hd_error (company (db baseWorld)) = Some co
      /\ findUnique Invoice.id (Invoice.id (InvoiceView.invoice view))
           (invoice (db w')) = Some (InvoiceView.invoice view)
      /\ Invoice.totalHT (InvoiceView.invoice view)
         = sum_over lineHT (submittedItems (CreateInvoice newInvoice))
      /\ (~ exemptFrance co ->
          Invoice.totalVAT (InvoiceView.invoice view)
          = sum_over lineVAT (submittedItems (CreateInvoice newInvoice))
          /\ Invoice.totalTTC (InvoiceView.invoice view)
             = sum_over lineTTC (submittedItems (CreateInvoice newInvoice)))
      /\ (exemptFrance co ->
          Invoice.totalVAT (InvoiceView.invoice view) = 0%num
          /\ Invoice.totalTTC (InvoiceView.invoice view)
             = Invoice.totalHT (InvoiceView.invoice view)
          /\ Forall (fun it => InvoiceItem.vatRate it = 0%num)
               (storedItems (db w')
                  (Invoice.id (InvoiceView.invoice view)))).
Proof.
  destruct (completes _ (runInvoiceWrite (CreateInvoice newInvoice) baseWorld))
    as (view & w' & E); [vm_compute; reflexivity|].
  exists view, w'. split; [exact E|].
  apply (invoice_totals_are_rounded_sums (CreateInvoice newInvoice) baseWorld).
  - intros it [].
  - exact E.
Defined.

(** C1 as stated fails: for one line of 1 x 0.1 at 10 % in a company that
    charges VAT, [createInvoice] stores [totalHT] 0.1, [totalVAT] 0.01 and
    [totalTTC] 0.11000000000000001, which is not [totalHT + totalVAT],
    be it added as doubles (0.11) or as real numbers. *)
Lemma totalTTC_is_not_totalHT_plus_totalVAT :
  exists view,
    fst (InvoicesService.createInvoice oneTenth vatWorld) = Ok view
    /\ findUnique Invoice.id (Invoice.id (InvoiceView.invoice view))
         (invoice (db (snd (InvoicesService.createInvoice oneTenth
                              vatWorld))))
       = Some (InvoiceView.invoice view)
    /\ Invoice.totalHT (InvoiceView.invoice view) = Num.decimal 1 1
    /\ Invoice.totalVAT (InvoiceView.invoice view) = Num.decimal 1 2
    /\ Invoice.totalTTC (InvoiceView.invoice view)
       = Num.decimal 11000000000000001 17
    /\ (Invoice.totalHT (InvoiceView.invoice view)
        + Invoice.totalVAT (InvoiceView.invoice view))%num
       = Num.decimal 11 2
    /\ Num.eqb (Invoice.totalTTC (InvoiceView.invoice view))
         (Invoice.totalHT (InvoiceView.invoice view)
          + Invoice.totalVAT (InvoiceView.invoice view))%num = false
    /\ ~ (Num.exact (Invoice.totalTTC (InvoiceView.invoice view))
          == Num.exact (Invoice.totalHT (InvoiceView.invoice view))
             + Num.exact (Invoice.totalVAT (InvoiceView.invoice view)))%Q.
Proof.
  eexists. split; [vm_compute; reflexivity|].
  repeat split; try (vm_compute; reflexivity).
  vm_compute. discriminate.
Qed.

(** ** ReceiptsService *)

Lemma InvoiceStatus_eqb_eq (a b : InvoiceStatus) :
  InvoiceStatus_eqb a b = true <-> a = b.
Proof. destruct a, b; cbn; split; congruence. Qed.

Lemma with_status_same (inv : Invoice.t) :
  Invoice.with_status (Invoice.status inv) inv = inv.
Proof. destruct inv; reflexivity. Qed.

Lemma update_same {R} (key : R -> Id) (k : Id) (f : R -> R) (t : list R) :
  (forall r, In r t -> key r = k -> f r = r) -> update key k f t = t.
Proof.
  unfold update. induction t as [|a t IH]; cbn; intros H; [reflexivity|].
  rewrite IH by (intros; apply H; auto).
  destruct (String.eqb (key a) k) eqn:E; [|reflexivity].
  apply String.eqb_eq in E. now rewrite H by auto.
Qed.

(** [checkInvoiceAfterReceipt] on an existing invoice completes, rewrites
    at most the status of the rows with that id, and reads the receipts as
    they are when it runs. *)
Lemma checkInvoice_run (invoiceId : Id) (inv : Invoice.t) (w : World) :
  findUnique Invoice.id invoiceId (invoice (db w)) = Some inv ->
  exists w',
    ReceiptsService.checkInvoiceAfterReceipt invoiceId w = (Ok tt, w')
    /\ receipt (db w') = receipt (db w)
    /\ findUnique Invoice.id invoiceId (invoice (db w'))
         = Some (Invoice.with_status
                   (checkedStatus inv (receiptsOf (db w) invoiceId)) inv).
Proof.
  intros F. unfold ReceiptsService.checkInvoiceAfterReceipt, checkedStatus.
  rewrite (bind_ok _ _ _ _ _ (prismaFindUnique_run invoiceT invoiceId w)).
  cbn [rows pk invoiceT]. rewrite F.
  destruct (InvoiceStatus_eqb (Invoice.status inv) UNPAID) eqn:S.
  - unfold bind at 1, prismaFindMany at 1, gets at 1. cbv beta iota.
    cbn [rows receiptT]. fold (receiptsOf (db w) invoiceId).
    destruct (_ >= _)%num.
    + rewrite (bind_ok _ _ _ _ _
                 (prismaUpdate_run invoiceT invoiceId _ w inv F)).
      eexists. split; [reflexivity|]. split; [reflexivity|].
      cbn [db with_db rows with_rows invoiceT invoice with_invoice pk].
      rewrite findUnique_update by reflexivity. now rewrite F.
    + rewrite (bind_ok _ _ _ _ _
                 (prismaUpdate_run invoiceT invoiceId _ w inv F)).
      eexists. split; [reflexivity|]. split; [reflexivity|].
      cbn [db with_db rows with_rows invoiceT invoice with_invoice pk].
      rewrite findUnique_update by reflexivity. now rewrite F.
  - exists w. split; [reflexivity|]. split; [reflexivity|].
    now rewrite with_status_same.
Qed.

Lemma createReceiptItems_frame (receiptId : Id)
    (items : list ReceiptItemDto.t) :
  forall (w : World) r w',
    mapM (ReceiptsService.createReceiptItem receiptId) items w = (r, w') ->
    invoice (db w') = invoice (db w) /\ receipt (db w') = receipt (db w).
Proof.
  induction items as [|i items IH]; intros w r w' H.
  - cbn in H. injection H as _ <-. auto.
  - cbn [mapM] in H. unfold ReceiptsService.createReceiptItem at 1 in H.
    unfold bind at 1 in H. unfold bind at 1 in H.
    rewrite newId_run in H. rewrite prismaCreate_run in H.
    cbn [rows pk receiptItemT db with_cuid] in H.
    destruct (create _ _ _) as [t'|].
    + unfold bind at 1 in H.
      match type of H with
      | context [mapM _ items ?w1] =>
          destruct (mapM (ReceiptsService.createReceiptItem receiptId)
                      items w1) as [r1 w2] eqn:E1;
          specialize (IH _ _ _ E1)
      end.
      cbn [db with_db with_cuid with_rows receiptItemT invoice receipt
           with_receiptItem] in IH.
      destruct r1; injection H as _ <-; exact IH.
    + injection H as _ <-. auto.
Qed.

(** A guarded dispatch for a receipt always completes, and touches only
    the traces. *)
Lemma try_dispatchForReceipt_run (event : WebhookEvent)
    (receipt : ReceiptView.t) (inv : option InvoiceView.t)
    (s : LogSink) (l : LogLevel) (cat msg : string) (w : World) :
  exists w',
    try_catch (ReceiptsService.dispatchForReceipt event receipt inv)
      (fun _ => log s l cat msg) w = (Ok tt, w')
    /\ effects_only w w'.
Proof.
  unfold ReceiptsService.dispatchForReceipt. destruct inv as [v|].
  - apply try_dispatch_run.
  - eexists. split; [reflexivity|]. repeat split.
Qed.

Lemma createReceipt_run (body : CreateReceiptDto.t) (w : World)
    (view : ReceiptView.t) (w' : World) (inv : Invoice.t) :
  ReceiptsService.createReceipt body w = (Ok view, w') ->
  findUnique Invoice.id (CreateReceiptDto.invoiceId body) (invoice (db w))
    = Some inv ->
  findUnique Invoice.id (CreateReceiptDto.invoiceId body) (invoice (db w'))
    = Some (Invoice.with_status
              (checkedStatus inv
                 (receiptsOf (db w') (CreateReceiptDto.invoiceId body))) inv).
Proof.
  intros H F. unfold ReceiptsService.createReceipt in H.
  rewrite (bind_ok _ _ _ _ _ (prismaFindUnique_run invoiceT _ w)) in H.
  cbn [rows pk invoiceT] in H. rewrite F in H.
  unfold bind at 1, includeInvoice at 1, gets at 1 in H. cbv beta iota in H.
  unfold bind at 1, gets at 1 in H. cbv beta iota in H.
  match type of H with
  | context [bind (transaction ?c) _ ?w0] =>
      destruct (transaction c w0) as [[rv|e] w1] eqn:T
  end.
  2:{ rewrite (bind_throw _ _ _ _ _ T) in H. discriminate. }
  rewrite (bind_ok _ _ _ _ _ T) in H.
  assert (invoice (db w1) = invoice (db w)) as Hinv.
  { apply transaction_ok in T.
    unfold bind at 1 in T. rewrite newId_run in T.
    unfold bind at 1 in T. rewrite prismaCreate_run in T.
    cbn [rows pk receiptT db with_cuid] in T.
    destruct (create _ _ _) as [t'|]; [|discriminate].
    unfold bind at 1 in T.
    match type of T with
    | context [mapM ?f ?l ?wa] =>
        destruct (mapM f l wa) as [r1 wb] eqn:E1;
        apply createReceiptItems_frame in E1; destruct E1 as [E1 _]
    end.
    destruct r1; [|discriminate].
    unfold ReceiptsService.includeReceipt, gets in T. injection T as _ <-.
    rewrite E1. reflexivity. }
  cbn [InvoiceView.invoice] in H.
  rewrite (findUnique_key _ _ _ _ F) in H.
  rewrite <- Hinv in F.
  destruct (checkInvoice_run _ _ _ F) as (w2 & E2 & Hr2 & Hf2).
  rewrite (bind_ok _ _ _ _ _ E2) in H.
  match type of H with
  | context [bind (try_catch (WebhookDispatcherService.dispatch ?e ?p)
                     (fun _ => log ?s ?l ?c ?m)) _ ?w0] =>
      destruct (try_dispatch_run e p s l c m w0) as (w3 & E3 & Hdb3 & _);
      rewrite (bind_ok _ _ _ _ _ E3) in H
  end.
  unfold bind, log, modify, ret in H. injection H as _ <-.
  cbn [db with_logs]. unfold receiptsOf in *. rewrite Hdb3, Hf2, Hr2.
  reflexivity.
Qed.

Lemma editReceipt_run (body : EditReceiptDto.t) (w : World)
    (view : ReceiptView.t) (w' : World) (ex : Receipt.t) (inv : Invoice.t) :
  ReceiptsService.editReceipt body w = (Ok view, w') ->
  findUnique Receipt.id (EditReceiptDto.id body) (receipt (db w)) = Some ex ->
  findUnique Invoice.id (Receipt.invoiceId ex) (invoice (db w)) = Some inv ->
  findUnique Invoice.id (Receipt.invoiceId ex) (invoice (db w'))
    = Some (Invoice.with_status
              (checkedStatus inv (receiptsOf (db w') (Receipt.invoiceId ex)))
              inv).
Proof.
  intros H Fr F. unfold ReceiptsService.editReceipt in H.
  rewrite (bind_ok _ _ _ _ _ (prismaFindUnique_run receiptT _ w)) in H.
  cbn [rows pk receiptT] in H. rewrite Fr in H.
  match type of H with
  | context [bind (transaction ?c) _ ?w0] =>
      destruct (transaction c w0) as [[rv|e] w1] eqn:T
  end.
  2:{ rewrite (bind_throw _ _ _ _ _ T) in H. discriminate. }
  rewrite (bind_ok _ _ _ _ _ T) in H.
  assert (invoice (db w1) = invoice (db w)) as Hinv.
  { apply transaction_ok in T.
    unfold bind at 1 in T.
    unfold prismaDeleteMany at 1, modifyDb, modify in T.
    cbv beta iota in T.
    unfold bind at 1 in T.
    match type of T with
    | context [mapM ?f ?l ?wa] =>
        destruct (mapM f l wa) as [r1 wb] eqn:E1;
        apply createReceiptItems_frame in E1; destruct E1 as [E1 _]
    end.
    destruct r1; [|discriminate].
    cbn [db with_db rows with_rows receiptItemT invoice with_receiptItem]
      in E1.
    destruct (findUnique Receipt.id (Receipt.id ex) (receipt (db wb)))
      as [row|] eqn:Fb.
    - rewrite (bind_ok _ _ _ _ _
                 (prismaUpdate_run receiptT (Receipt.id ex) _ wb row Fb))
        in T.
      unfold bind, ReceiptsService.includeReceipt,
        ReceiptsService.includeInvoiceOfReceipt, gets, ret in T.
      injection T as _ <-.
      cbn [db with_db rows with_rows receiptT invoice with_receipt].
      exact E1.
    - rewrite (bind_throw _ _ _ _ _
                 (prismaUpdate_missing receiptT (Receipt.id ex) _ wb Fb))
        in T.
      discriminate. }
  rewrite <- Hinv in F.
  destruct (checkInvoice_run _ _ _ F) as (w2 & E2 & Hr2 & Hf2).
  rewrite (bind_ok _ _ _ _ _ E2) in H.
  match type of H with
  | context [bind (try_catch (ReceiptsService.dispatchForReceipt ?e ?r ?i)
                     (fun _ => log ?s ?l ?c ?m)) _ ?w0] =>
      destruct (try_dispatchForReceipt_run e r i s l c m w0)
        as (w3 & E3 & Hdb3 & _);
      rewrite (bind_ok _ _ _ _ _ E3) in H
  end.
  unfold bind, log, modify, ret in H. injection H as _ <-.
  cbn [db with_logs]. unfold receiptsOf in *. rewrite Hdb3, Hf2, Hr2.
  reflexivity.
Qed.

Lemma deleteReceipt_run (id : Id) (w : World) (msg : string) (w' : World)
    (ex : Receipt.t) (inv : Invoice.t) :
  ReceiptsService.deleteReceipt id w = (Ok msg, w') ->
  findUnique Receipt.id id (receipt (db w)) = Some ex ->
  findUnique Invoice.id (Receipt.invoiceId ex) (invoice (db w)) = Some inv ->
  findUnique Invoice.id (Receipt.invoiceId ex) (invoice (db w'))
    = Some (Invoice.with_status
              (checkedStatus inv (receiptsOf (db w') (Receipt.invoiceId ex)))
              inv)
  /\ receipt (db w') = delete Receipt.id id (receipt (db w)).
Proof.
  intros H Fr F. unfold ReceiptsService.deleteReceipt in H.
  rewrite (bind_ok _ _ _ _ _ (prismaFindUnique_run receiptT _ w)) in H.
  cbn [rows pk receiptT] in H. rewrite Fr in H.
  unfold bind at 1, ReceiptsService.includeReceipt at 1, gets at 1 in H.
  cbv beta iota in H.
  unfold bind at 1, ReceiptsService.includeInvoiceOfReceipt at 1, gets at 1
    in H.
  cbv beta iota in H.
  unfold bind at 1, prismaDeleteMany at 1, modifyDb, modify in H.
  cbv beta iota in H.
  match type of H with
  | context [bind (prismaDelete receiptT id) _ ?w0] =>
      assert (prismaDelete receiptT id w0
              = (Ok tt,
                 with_db (with_receipt (delete Receipt.id id (receipt (db w)))
                            (db w0)) w0)) as D
  end.
  { unfold prismaDelete.
    rewrite (bind_ok _ _ _ _ _ (prismaFindUnique_run receiptT id _)).
    cbn [db with_db rows with_rows receiptT receiptItemT receipt
         with_receiptItem pk].
    rewrite Fr. reflexivity. }
  rewrite (bind_ok _ _ _ _ _ D) in H.
  match type of H with
  | context [bind (ReceiptsService.checkInvoiceAfterReceipt _) _ ?w0] =>
      assert (findUnique Invoice.id (Receipt.invoiceId ex) (invoice (db w0))
              = Some inv) as F0 by exact F;
      destruct (checkInvoice_run _ _ _ F0) as (w2 & E2 & Hr2 & Hf2)
  end.
  rewrite (bind_ok _ _ _ _ _ E2) in H.
  match type of H with
  | context [bind (try_catch (ReceiptsService.dispatchForReceipt ?e ?r ?i)
                     (fun _ => log ?s ?l ?c ?m)) _ ?w0] =>
      destruct (try_dispatchForReceipt_run e r i s l c m w0)
        as (w3 & E3 & Hdb3 & _);
      rewrite (bind_ok _ _ _ _ _ E3) in H
  end.
  unfold bind, log, modify, ret in H. injection H as _ <-.
  cbn [db with_logs]. unfold receiptsOf in *. rewrite Hdb3, Hf2, Hr2.
  split; reflexivity.
Qed.

Lemma reduce_totalPaid_sum (receipts : list Receipt.t) :
  ReceiptsService.reduce_totalPaid receipts
  = sum_over Receipt.totalPaid receipts.
Proof. apply (fold_left_sum Receipt.totalPaid). Qed.

Lemma checkedStatus_spec (inv : Invoice.t) (receipts : list Receipt.t) :
  (Invoice.status inv = UNPAID ->
   (checkedStatus inv receipts = PAID
    <-> (sum_over Receipt.totalPaid receipts >= Invoice.totalTTC inv)%num
        = true)
   /\ (checkedStatus inv receipts = UNPAID
       <-> (sum_over Receipt.totalPaid receipts >= Invoice.totalTTC inv)%num
           = false))
  /\ (Invoice.status inv <> UNPAID ->
      checkedStatus inv receipts = Invoice.status inv).
Proof.
  unfold checkedStatus. rewrite reduce_totalPaid_sum. split.
  - intros ->. cbn [InvoiceStatus_eqb].
    destruct (_ >= _)%num; split; split; congruence.
  - intros N. destruct (InvoiceStatus_eqb (Invoice.status inv) UNPAID) eqn:E.
    + apply InvoiceStatus_eqb_eq in E. contradiction.
    + reflexivity.
Qed.

(** C2, as the code has it. After [createReceipt], [editReceipt] or
    [deleteReceipt] completes for an invoice, the invoice row is as before
    up to its status. If the status was UNPAID it is PAID exactly when the
    [totalPaid] of the receipts the invoice then has, added up in binary64
    from 0 in the order the store returns them, compare [>=] to
    [totalTTC], and UNPAID otherwise -- the rounded sum decides, which can
    fall short of a total that the exact sum reaches; any other status is
    left as it was, so that deleting a receipt never moves a PAID invoice
    back to UNPAID. *)
Theorem receipt_operations_settle_by_rounded_sum :
  forall (op : ReceiptOp) (w w' : World) (invoiceId : Id) (inv : Invoice.t),
    runReceiptOp op w = (Ok tt, w') ->
    invoiceOfOp op (db w) = Some invoiceId ->
    findUnique Invoice.id invoiceId (invoice (db w)) = Some inv ->
    exists inv',
      findUnique Invoice.id invoiceId (invoice (db w')) = Some inv'
      /\ inv' = Invoice.with_status (Invoice.status inv') inv
      /\ (Invoice.status inv = UNPAID ->
          (Invoice.status inv' = PAID
           <-> (sum_over Receipt.totalPaid (receiptsOf (db w') invoiceId)
                >= Invoice.totalTTC inv)%num = true)
          /\ (Invoice.status inv' = UNPAID
              <-> (sum_over Receipt.totalPaid (receiptsOf (db w') invoiceId)
                   >= Invoice.totalTTC inv)%num = false))
      /\ (Invoice.status inv <> UNPAID ->
          Invoice.status inv' = Invoice.status inv).
Proof.
  intros op w w' invoiceId inv H Hop F.
  assert (findUnique Invoice.id invoiceId (invoice (db w'))
          = Some (Invoice.with_status
                    (checkedStatus inv (receiptsOf (db w') invoiceId)) inv))
    as R.
  { destruct op as [body|body|id]; cbn [runReceiptOp invoiceOfOp] in *.
    - injection Hop as <-.
      destruct (ReceiptsService.createReceipt body w) as [[v|e] w1] eqn:E.
      + rewrite (bind_ok _ _ _ _ _ E) in H. injection H as <-.
        eapply createReceipt_run; eauto.
      + rewrite (bind_throw _ _ _ _ _ E) in H. discriminate.
    - destruct (findUnique Receipt.id _ (receipt (db w))) as [ex|] eqn:Fr;
        [|discriminate].
      injection Hop as <-.
      destruct (ReceiptsService.editReceipt body w) as [[v|e] w1] eqn:E.
      + rewrite (bind_ok _ _ _ _ _ E) in H. injection H as <-.
        eapply editReceipt_run; eauto.
      + rewrite (bind_throw _ _ _ _ _ E) in H. discriminate.
    - destruct (findUnique Receipt.id _ (receipt (db w))) as [ex|] eqn:Fr;
        [|discriminate].
      injection Hop as <-.
      destruct (ReceiptsService.deleteReceipt id w) as [[v|e] w1] eqn:E.
      + rewrite (bind_ok _ _ _ _ _ E) in H. injection H as <-.
        eapply deleteReceipt_run; eauto.
      + rewrite (bind_throw _ _ _ _ _ E) in H. discriminate. }
  eexists. split; [exact R|].
  split; [reflexivity|]. cbn [Invoice.status Invoice.with_status].
  apply checkedStatus_spec.
Qed.

Lemma receipt_operations_settle_by_rounded_sum_witness :
  exists w' inv',
    runReceiptOp (CreateReceipt fullPayment) invoicedWorld = (Ok tt, w')
    /\ findUnique Invoice.id "inv1" (invoice (db w')) = Some inv'
    /\ inv' = Invoice.with_status (Invoice.status inv') invoice1
    /\ (Invoice.status invoice1 = UNPAID ->
        (Invoice.status inv' = PAID
         <-> (sum_over Receipt.totalPaid (receiptsOf (db w') "inv1")
              >= Invoice.totalTTC invoice1)%num = true)
        /\ (Invoice.status inv' = UNPAID
            <-> (sum_over Receipt.totalPaid (receiptsOf (db w') "inv1")
                 >= Invoice.totalTTC invoice1)%num = false))
    /\ (Invoice.status invoice1 <> UNPAID ->
        Invoice.status inv' = Invoice.status invoice1).
Proof.
  destruct (completes _ (runReceiptOp (CreateReceipt fullPayment)
                           invoicedWorld))
    as ([] & w' & E); [vm_compute; reflexivity|].
  destruct (receipt_operations_settle_by_rounded_sum
              (CreateReceipt fullPayment) invoicedWorld w' "inv1" invoice1 E)
    as (inv' & H); [reflexivity|vm_compute; reflexivity|].
  exists w', inv'. split; [exact E|exact H].
Defined.

(** C2 as stated fails: an UNPAID invoice of 0.9 has receipts of 0.2 and
    0.5, and [createReceipt] adds one of 0.2. The three [totalPaid] add up
    to 0.9 exactly, as decimals and as the real numbers the stored doubles
    stand for, which reaches [totalTTC]; yet the invoice stays UNPAID,
    because the doubles add up to 0.8999999999999999. *)
Lemma exact_sum_reaches_total_yet_unpaid :
  let w' := snd (ReceiptsService.createReceipt lastTwoTenths partPaidWorld) in
  option_map Invoice.status
    (findUnique Invoice.id "inv3" (invoice (db partPaidWorld)))
  = Some UNPAID
  /\ is_ok (fst (ReceiptsService.createReceipt lastTwoTenths partPaidWorld))
     = true
  /\ map Receipt.totalPaid (receiptsOf (db w') "inv3")
     = [Num.decimal 2 1; Num.decimal 5 1; Num.decimal 2 1]
  /\ option_map Invoice.totalTTC
       (findUnique Invoice.id "inv3" (invoice (db w')))
     = Some (Num.decimal 9 1)
  /\ (Num.exact (Num.decimal 9 1)
      <= exact_sum Receipt.totalPaid (receiptsOf (db w') "inv3"))%Q
  /\ sum_over Receipt.totalPaid (receiptsOf (db w') "inv3")
     = Num.decimal 8999999999999999 16
  /\ option_map Invoice.status
       (findUnique Invoice.id "inv3" (invoice (db w')))
     = Some UNPAID.
Proof.
  cbv zeta. repeat split; try (vm_compute; reflexivity).
  vm_compute. discriminate.
Qed.

(** ** Frame reasoning *)

Section Preserves.
Variable P : World -> World -> Prop.
Hypothesis P_refl : forall w, P w w.
Hypothesis P_trans : forall a b c, P a b -> P b c -> P a c.

Lemma preserves_ret {A} (a : A) : preserves P (ret a).
Proof. intros w r w' H. injection H as _ <-. apply P_refl. Qed.

Lemma preserves_throw {A} (e : Exception) : preserves P (@throw A e).
Proof. intros w r w' H. injection H as _ <-. apply P_refl. Qed.

Lemma preserves_gets {A} (f : World -> A) : preserves P (gets f).
Proof. intros w r w' H. injection H as _ <-. apply P_refl. Qed.

Lemma preserves_liftResult {A} (x : Result A) : preserves P (liftResult x).
Proof. intros w r w' H. injection H as _ <-. apply P_refl. Qed.

Lemma preserves_modify (f : World -> World) :
  (forall w, P w (f w)) -> preserves P (modify f).
Proof. intros Hf w r w' H. injection H as _ <-. apply Hf. Qed.

Lemma preserves_bind {A B} (c : M A) (k : A -> M B) :
  preserves P c -> (forall a, preserves P (k a)) -> preserves P (bind c k).
Proof.
  intros Hc Hk w r w' H. unfold bind in H.
  destruct (c w) as [[a|e] w1] eqn:E.
  - eapply P_trans; [eapply Hc; exact E|eapply Hk; exact H].
  - injection H as _ <-. eapply Hc; exact E.
Qed.

Lemma preserves_try_catch {A} (c : M A) (h : Exception -> M A) :
  preserves P c -> (forall e, preserves P (h e)) ->
  preserves P (try_catch c h).
Proof.
  intros Hc Hh w r w' H. unfold try_catch in H.
  destruct (c w) as [[a|e] w1] eqn:E.
  - injection H as _ <-. eapply Hc; exact E.
  - eapply P_trans; [eapply Hc; exact E|eapply Hh; exact H].
Qed.

Lemma preserves_mapM {A B} (f : A -> M B) (l : list A) :
  (forall a, preserves P (f a)) -> preserves P (mapM f l).
Proof.
  intros Hf. induction l as [|a l IH]; cbn [mapM].
  - apply preserves_ret.
  - apply preserves_bind; [apply Hf|]. intros b.
    apply preserves_bind; [apply IH|]. intros bs. apply preserves_ret.
Qed.
End Preserves.

Lemma same_quotes_refl (w : World) : same_quotes w w.
Proof. reflexivity. Qed.

Lemma same_quotes_trans (a b c : World) :
  same_quotes a b -> same_quotes b c -> same_quotes a c.
Proof. unfold same_quotes. congruence. Qed.

Lemma quotes_log s l c m : preserves same_quotes (log s l c m).
Proof. apply preserves_modify. reflexivity. Qed.

Lemma quotes_newId : preserves same_quotes newId.
Proof. intros w r w' H. injection H as _ <-. reflexivity. Qed.

Lemma quotes_modifyDb (f : Db -> Db) :
  (forall d, quote (f d) = quote d) -> preserves same_quotes (modifyDb f).
Proof.
  intros Hf. apply preserves_modify. intros w. unfold same_quotes.
  cbn. apply Hf.
Qed.

Create HintDb frame.
#[local] Hint Resolve same_quotes_refl quotes_log quotes_newId : frame.

(** Decomposes a frame goal along the structure of the computation. *)
Ltac frame_by Hrefl Htrans :=
  repeat
    (first
       [ solve [auto with frame]
       | apply (preserves_bind _ Htrans); [|intros ?]
       | apply (preserves_try_catch _ Htrans); [|intros ?]
       | apply (preserves_mapM _ Hrefl Htrans); intros ?
       | apply (preserves_ret _ Hrefl)
       | apply (preserves_throw _ Hrefl)
       | apply (preserves_gets _ Hrefl)
       | apply (preserves_liftResult _ Hrefl)
       | apply quotes_modifyDb; intros ?; reflexivity
       | apply preserves_modify; intros ?; reflexivity
       | match goal with
         | |- preserves _ (match ?x with _ => _ end) => destruct x
         end ]).

Ltac frame_quotes := frame_by same_quotes_refl same_quotes_trans.

Lemma quotes_prismaCreate_signature (s : Signature.t) :
  preserves same_quotes (prismaCreate signatureT s).
Proof. unfold prismaCreate, unique_violation, prismaFindUnique. frame_quotes. Qed.

Lemma quotes_prismaUpdate_signature (k : Id) f :
  preserves same_quotes (prismaUpdate signatureT k f).
Proof. unfold prismaUpdate, prismaFindUnique. frame_quotes. Qed.

Lemma quotes_send webhooks event payload :
  preserves same_quotes (WebhooksService.send webhooks event payload).
Proof.
  intros w r w' H.
  destruct (send_run webhooks event payload w) as (w1 & E & _ & Hdb & _).
  rewrite E in H. injection H as _ <-. unfold same_quotes. now rewrite Hdb.
Qed.

Lemma quotes_dispatch event payload :
  preserves same_quotes (WebhookDispatcherService.dispatch event payload).
Proof.
  intros w r w' H.
  destruct (dispatch_run event payload w) as (r1 & w1 & E & Hdb & _).
  rewrite E in H. injection H as _ <-. unfold same_quotes. now rewrite Hdb.
Qed.

Lemma quotes_sendMail o : preserves same_quotes (MailService.sendMail o).
Proof.
  unfold MailService.sendMail. frame_quotes.
Qed.

#[local] Hint Resolve quotes_prismaCreate_signature
  quotes_prismaUpdate_signature quotes_dispatch quotes_sendMail : frame.

Lemma quotes_contactEmailOf k :
  preserves same_quotes (SignaturesService.contactEmailOf k).
Proof.
  unfold SignaturesService.contactEmailOf, prismaFindUnique. frame_quotes.
Qed.
#[local] Hint Resolve quotes_contactEmailOf : frame.

Lemma quotes_sendSignatureEmail q :
  preserves same_quotes (SignaturesService.sendSignatureEmail q).
Proof.
  unfold SignaturesService.sendSignatureEmail,
    SignaturesService.sendSignatureEmailWithProvider, prismaFindUnique,
    prismaUpdateMany.
  frame_quotes.
Qed.

Lemma quotes_sendOtpToUser email otp :
  preserves same_quotes (SignaturesService.sendOtpToUser email otp).
Proof. unfold SignaturesService.sendOtpToUser. frame_quotes. Qed.
#[local] Hint Resolve quotes_sendSignatureEmail quotes_sendOtpToUser : frame.

Lemma quotes_generateOTPCode sid :
  preserves same_quotes (SignaturesService.generateOTPCode sid).
Proof.
  unfold SignaturesService.generateOTPCode, prismaFindUnique. frame_quotes.
Qed.

(** ** SignaturesService and the status of quotes *)

Lemma contactEmailOf_run (k : Id) (w : World) :
  exists x, SignaturesService.contactEmailOf k w = (Ok x, w).
Proof.
  unfold SignaturesService.contactEmailOf.
  rewrite (bind_ok _ _ _ _ _ (prismaFindUnique_run clientT k w)).
  destruct (findUnique _ _ _) as [c|]; [|eexists; reflexivity].
  destruct (truthy _); eexists; reflexivity.
Qed.

Lemma createSignature_quotes (q : Id) (w : World) r w' :
  SignaturesService.createSignature q w = (r, w') ->
  (forall sid, r = Ok sid ->
     exists row, findUnique Quote.id q (quote (db w)) = Some row
       /\ quote (db w')
          = update Quote.id q (Quote.with_status Q_SENT) (quote (db w)))
  /\ (forall e, r = Throw e -> quote (db w') = quote (db w)).
Proof.
  unfold SignaturesService.createSignature. intros H.
  rewrite (bind_ok _ _ _ _ _ (prismaFindUnique_run quoteT q w)) in H.
  cbn [rows pk quoteT] in H.
  destruct (findUnique Quote.id q (quote (db w))) as [row|] eqn:F.
  2:{ unfold bind at 1, ret at 1 in H. unfold bind, log, modify, throw in H.
      injection H as <- <-. split; [discriminate|reflexivity]. }
  destruct (contactEmailOf_run (Quote.clientId row) w) as (x & Ex).
  rewrite (bind_ok _ _ _ _ _ Ex) in H.
  destruct x as [email|].
  2:{ unfold bind, log, modify, throw in H.
      injection H as <- <-. split; [discriminate|reflexivity]. }
  match type of H with
  | context [bind (try_catch ?c ?h) _ ?w0] =>
      destruct (try_catch c h w0) as [[sid|e] w1] eqn:S;
      assert (same_quotes w0 w1) as Q1
  end.
  1,3: eapply (preserves_try_catch _ same_quotes_trans); [| |exact S];
       [apply quotes_sendSignatureEmail|intros ?; frame_quotes].
  - rewrite (bind_ok _ _ _ _ _ S) in H. unfold same_quotes in Q1.
    assert (findUnique Quote.id q (quote (db w1)) = Some row) as F1
      by (now rewrite Q1).
    rewrite (bind_ok _ _ _ _ _
               (prismaUpdate_run quoteT q _ w1 row F1)) in H.
    match type of H with
    | context [bind (try_catch (WebhookDispatcherService.dispatch ?e ?p)
                       (fun _ => log ?s ?l ?c ?m)) _ ?w0] =>
        destruct (try_dispatch_run e p s l c m w0) as (w2 & E2 & Hdb2 & _);
        rewrite (bind_ok _ _ _ _ _ E2) in H
    end.
    unfold bind, log, modify, ret in H. injection H as <- <-.
    split; [|discriminate].
    intros sid' _. exists row. split; [reflexivity|].
    cbn [db with_logs]. rewrite Hdb2.
    cbn [db with_db rows with_rows quoteT quote with_quote pk].
    now rewrite Q1.
  - rewrite (bind_throw _ _ _ _ _ S) in H. injection H as <- <-.
    split; [discriminate|]. intros _ _. exact Q1.
Qed.

Lemma signQuote_quotes (sid : Id) (otp : string) (w : World) r w' :
  SignaturesService.signQuote sid otp w = (r, w') ->
  (forall msg, r = Ok msg ->
     exists s row,
       findFirst (SignaturesService.signable sid otp (now (host w)))
         (signature (db w)) = Some s
       /\ findUnique Quote.id (Signature.quoteId s) (quote (db w)) = Some row
       /\ quote (db w')
          = update Quote.id (Signature.quoteId s)
              (Quote.with_status Q_SIGNED) (quote (db w)))
  /\ (forall e, r = Throw e -> quote (db w') = quote (db w))
  /\ (findFirst (SignaturesService.signable sid otp (now (host w)))
        (signature (db w)) = None ->
      r = Throw (BadRequestException "Invalid or expired OTP code.")).
Proof.
  unfold SignaturesService.signQuote. intros H.
  unfold bind at 1, gets at 1 in H. cbv beta iota in H.
  unfold bind at 1, gets at 1 in H. cbv beta iota in H.
  destruct (findFirst _ (signature (db w))) as [s|] eqn:F.
  2:{ unfold bind, log, modify, throw in H. injection H as <- <-.
      split; [discriminate|]. split; reflexivity. }
  match type of H with
  | context [bind (prismaUpdate signatureT ?k ?f) _ ?w0] =>
      destruct (prismaUpdate signatureT k f w0) as [[s1|e] w1] eqn:U;
      pose proof (quotes_prismaUpdate_signature k f _ _ _ U) as Q1
  end.
  2:{ rewrite (bind_throw _ _ _ _ _ U) in H. injection H as <- <-.
      split; [discriminate|]. split; [intros _ _; exact Q1|discriminate]. }
  rewrite (bind_ok _ _ _ _ _ U) in H. unfold same_quotes in Q1.
  destruct (findUnique Quote.id (Signature.quoteId s) (quote (db w1)))
    as [row|] eqn:Fq.
  - rewrite (bind_ok _ _ _ _ _
               (prismaUpdate_run quoteT _ _ w1 row Fq)) in H.
    match type of H with
    | context [bind (try_catch (WebhookDispatcherService.dispatch ?e ?p)
                       (fun _ => log ?s ?l ?c ?m)) _ ?w0] =>
        destruct (try_dispatch_run e p s l c m w0) as (w2 & E2 & Hdb2 & _);
        rewrite (bind_ok _ _ _ _ _ E2) in H
    end.
    unfold bind, log, modify, ret in H. injection H as <- <-.
    split; [|split; discriminate].
    intros msg _. exists s, row. split; [reflexivity|].
    split; [now rewrite <- Q1|].
    cbn [db with_logs]. rewrite Hdb2.
    cbn [db with_db rows with_rows quoteT quote with_quote pk].
    now rewrite Q1.
  - rewrite (bind_throw _ _ _ _ _
               (prismaUpdate_missing quoteT _ _ w1 Fq)) in H.
    injection H as <- <-.
    split; [discriminate|]. split; [intros _ _; exact Q1|discriminate].
Qed.

Lemma runSignatureOp_quote_step (op : SignatureOp) (w : World) :
  quote_step (quote (db w)) (quote (db (snd (runSignatureOp op w)))).
Proof.
  destruct op as [q|sid|sid otp]; cbn [runSignatureOp].
  - destruct (SignaturesService.createSignature q w) as [[x|e] w1] eqn:E;
      pose proof (createSignature_quotes _ _ _ _ E) as [Hok Hthrow].
    + rewrite (bind_ok _ _ _ _ _ E). cbn [snd ret].
      destruct (Hok x eq_refl) as (row & _ & ->).
      right. exists q, Q_SENT. auto.
    + rewrite (bind_throw _ _ _ _ _ E). cbn [snd]. left. eauto.
  - destruct (SignaturesService.generateOTPCode sid w) as [[x|e] w1] eqn:E;
      pose proof (quotes_generateOTPCode _ _ _ _ E) as Q.
    + rewrite (bind_ok _ _ _ _ _ E). cbn [snd ret]. left. exact Q.
    + rewrite (bind_throw _ _ _ _ _ E). cbn [snd]. left. exact Q.
  - destruct (SignaturesService.signQuote sid otp w) as [[x|e] w1] eqn:E;
      pose proof (signQuote_quotes _ _ _ _ _ E) as (Hok & Hthrow & _).
    + rewrite (bind_ok _ _ _ _ _ E). cbn [snd ret].
      destruct (Hok x eq_refl) as (s & row & _ & _ & ->).
      right. exists (Signature.quoteId s), Q_SIGNED. auto.
    + rewrite (bind_throw _ _ _ _ _ E). cbn [snd]. left. eauto.
Qed.

Lemma quote_step_status (t t' : list Quote.t) (k : Id) (q : Quote.t) :
  quote_step t t' ->
  findUnique Quote.id k t = Some q ->
  exists q',
    findUnique Quote.id k t' = Some q'
    /\ (Quote.status q' = Quote.status q
        \/ Quote.status q' = Q_SENT \/ Quote.status q' = Q_SIGNED).
Proof.
  intros [->|(k' & s & Hs & ->)] F.
  - exists q. auto.
  - destruct (String.eqb k k') eqn:E.
    + apply String.eqb_eq in E. subst k'.
      rewrite findUnique_update by reflexivity. rewrite F.
      eexists. split; [reflexivity|]. cbn. destruct Hs; auto.
    + apply String.eqb_neq in E.
      rewrite findUnique_update_other by (auto || reflexivity).
      exists q. auto.
Qed.

Lemma runSignatureOps_status (ops : list SignatureOp) :
  forall (w : World) (k : Id) (q : Quote.t),
    findUnique Quote.id k (quote (db w)) = Some q ->
    exists q',
      findUnique Quote.id k (quote (db (runSignatureOps ops w))) = Some q'
      /\ (Quote.status q' = Quote.status q
          \/ Quote.status q' = Q_SENT \/ Quote.status q' = Q_SIGNED).
Proof.
  induction ops as [|op ops IH]; intros w k q F; cbn [runSignatureOps].
  - exists q. auto.
  - destruct (quote_step_status _ _ k q (runSignatureOp_quote_step op w) F)
      as (q1 & F1 & H1).
    destruct (IH _ k q1 F1) as (q2 & F2 & H2).
    exists q2. split; [exact F2|].
    destruct H2 as [H2|H2]; [rewrite H2; exact H1|auto].
Qed.

(** C3, as the code has it. [createSignature], when it completes, leaves
    the quote with status SENT whatever its status was; [signQuote]
    completes only when an active signature with the given id and the
    matching, unused, unexpired OTP code exists, and then leaves the quote
    of that signature with status SIGNED; without such a signature it
    throws and the quotes are unchanged. Over any sequence of the
    operations a quote keeps its status or takes the status SENT or SIGNED:
    no sequence moves a quote to DRAFT. *)
Theorem signature_operations_on_quote_status :
  forall w : World,
    (forall quoteId sid w',
        SignaturesService.createSignature quoteId w = (Ok sid, w') ->
        exists before,
          statusOfQuote (db w) quoteId = Some before
          /\ statusOfQuote (db w') quoteId = Some Q_SENT)
    /\ (forall signatureId otpCode msg w',
          SignaturesService.signQuote signatureId otpCode w = (Ok msg, w') ->
          exists s,
            In s (signature (db w))
            /\ Signature.id s = signatureId
            /\ Signature.otpCode s = Some otpCode
            /\ Signature.otpUsed s = false
            /\ Signature.isActive s = true
            /\ now (host w) <= Signature.expiresAt s
            /\ statusOfQuote (db w') (Signature.quoteId s) = Some Q_SIGNED)
    /\ (forall signatureId otpCode,
          findFirst
            (SignaturesService.signable signatureId otpCode (now (host w)))
            (signature (db w)) = None ->
          fst (SignaturesService.signQuote signatureId otpCode w)
            = Throw (BadRequestException "Invalid or expired OTP code.")
          /\ quote (db (snd (SignaturesService.signQuote signatureId otpCode
                               w))) = quote (db w))
    /\ (forall ops quoteId before,
          statusOfQuote (db w) quoteId = Some before ->
          exists after,
            statusOfQuote (db (runSignatureOps ops w)) quoteId = Some after
            /\ (after = before \/ after = Q_SENT \/ after = Q_SIGNED)
            /\ (before <> Q_DRAFT -> after <> Q_DRAFT)).
Proof.
  intros w. split; [|split; [|split]].
  - intros q sid w' H.
    destruct (createSignature_quotes _ _ _ _ H) as [Hok _].
    destruct (Hok sid eq_refl) as (row & F & Ht).
    exists (Quote.status row). unfold statusOfQuote.
    rewrite Ht, findUnique_update by reflexivity. rewrite F. auto.
  - intros sid otp msg w' H.
    destruct (signQuote_quotes _ _ _ _ _ H) as (Hok & _ & _).
    destruct (Hok msg eq_refl) as (s & row & Fs & Fq & Ht).
    exists s. unfold findFirst in Fs. apply find_some in Fs.
    destruct Fs as [Hin Hs]. unfold SignaturesService.signable in Hs.
    repeat rewrite andb_true_iff in Hs.
    destruct Hs as ((((H1 & H2) & H3) & H4) & H5).
    apply String.eqb_eq in H1. apply negb_true_iff in H3.
    apply Z.leb_le in H5.
    unfold opt_eqb in H2.
    destruct (Signature.otpCode s) as [c|] eqn:Hc; [|discriminate].
    apply String.eqb_eq in H2. subst c.
    repeat (split; [assumption || reflexivity|]).
    unfold statusOfQuote.
    rewrite Ht, findUnique_update by reflexivity. now rewrite Fq.
  - intros sid otp F.
    destruct (SignaturesService.signQuote sid otp w) as [r w'] eqn:H.
    destruct (signQuote_quotes _ _ _ _ _ H) as (_ & Hthrow & Hnone).
    cbn [fst snd]. pose proof (Hnone F) as ->. split; [reflexivity|].
    eapply Hthrow. reflexivity.
  - intros ops q before F. unfold statusOfQuote in *.
    destruct (findUnique Quote.id q (quote (db w))) as [row|] eqn:Fq;
      [|discriminate].
    cbn in F. injection F as <-.
    destruct (runSignatureOps_status ops w q row Fq) as (row' & F' & Hs).
    exists (Quote.status row'). rewrite F'. split; [reflexivity|].
    split; [exact Hs|].
    intros N D. destruct Hs as [Hs|[Hs|Hs]]; congruence.
Qed.

(** C3 as stated fails: on a SIGNED quote [createSignature] completes and
    leaves the quote with status SENT. *)
Lemma createSignature_reopens_signed_quote :
  statusOfQuote (db signedWorld) "q1" = Some Q_SIGNED
  /\ is_ok (fst (SignaturesService.createSignature "q1" signedWorld)) = true
  /\ statusOfQuote
       (db (snd (SignaturesService.createSignature "q1" signedWorld))) "q1"
     = Some Q_SENT
  /\ runSignatureOps [CreateSignature "q1"] signedWorld
     = snd (SignaturesService.createSignature "q1" signedWorld).
Proof.
  split; [reflexivity|]. split; [vm_compute; reflexivity|].
  split; [vm_compute; reflexivity|].
  cbn [runSignatureOps runSignatureOp].
  destruct (completes _ (SignaturesService.createSignature "q1" signedWorld))
    as (sid & w' & E); [vm_compute; reflexivity|].
  rewrite (bind_ok _ _ _ _ _ E), E. reflexivity.
Qed.

(** The signing path is reachable: after a signature request and an OTP
    request on the same quote, [signQuote] with the code that was sent
    completes and the quote is SIGNED. *)
Example signQuote_completes_after_otp :
  let w := runSignatureOps [CreateSignature "q1"; GenerateOTPCode "c0"]
             signedWorld in
  statusOfQuote (db w) "q1" = Some Q_SENT
  /\ fst (SignaturesService.signQuote "c0" "12345678" w)
     = Ok "Quote signed successfully."
  /\ statusOfQuote
       (db (snd (SignaturesService.signQuote "c0" "12345678" w))) "q1"
     = Some Q_SIGNED.
Proof.
  cbv zeta. split; [vm_compute; reflexivity|].
  split; vm_compute; reflexivity.
Qed.

(** ** One active signature per quote *)

Lemma same_db_refl (w : World) : same_db w w.
Proof. reflexivity. Qed.

Lemma same_db_trans (a b c : World) :
  same_db a b -> same_db b c -> same_db a c.
Proof. unfold same_db. congruence. Qed.

Lemma db_sendMail o : preserves same_db (MailService.sendMail o).
Proof.
  unfold MailService.sendMail, log. frame_by same_db_refl same_db_trans.
Qed.

Lemma supersede_table (q : Id) (t : list Signature.t) (new : Signature.t) :
  findUnique Signature.id (Signature.id new) t = None ->
  updateMany
    (fun s => String.eqb (Signature.quoteId s) q && Signature.isActive s
              && negb (String.eqb (Signature.id s) (Signature.id new)))
    (Signature.with_isActive false) (t ++ [new])
  = map (superseded q) t ++ [new].
Proof.
  intros Fresh. apply find_no_match in Fresh.
  unfold updateMany. rewrite map_app. f_equal.
  - apply map_ext_in. intros s Hs. rewrite Forall_forall in Fresh.
    rewrite (Fresh s Hs). cbn [negb]. rewrite andb_true_r. reflexivity.
  - cbn. rewrite String.eqb_refl. cbn [negb]. now rewrite andb_false_r.
Qed.

Lemma superseded_inactive (q : Id) (t : list Signature.t) :
  filter (fun s => String.eqb (Signature.quoteId s) q && Signature.isActive s)
    (map (superseded q) t) = [].
Proof.
  induction t as [|s t IH]; cbn; [reflexivity|].
  unfold superseded at 1 2.
  destruct (String.eqb (Signature.quoteId s) q) eqn:E; cbn [andb].
  - destruct (Signature.isActive s) eqn:A; cbn; rewrite E; cbn.
    + exact IH.
    + rewrite A. exact IH.
  - rewrite E. exact IH.
Qed.

(** C9. When [sendSignatureEmail] completes on the fallback path (no
    signing provider with a [requestSignature] function), it returns the
    id of a signature that did not exist before; the table holds the older
    rows, those of the quote that were active now inactive and the others
    as they were, followed by the new row; and the active signatures of
    the quote are exactly the new one. *)
Theorem sendSignatureEmail_leaves_one_active :
  forall (quoteId : Id) (w : World) (sid : string) (w' : World),
    SignaturesService.hasRequestSignature (signingProvider (host w)) = false ->
    SignaturesService.sendSignatureEmail quoteId w = (Ok sid, w') ->
    sid = Signature.id (newSignature quoteId w)
    /\ findUnique Signature.id sid (signature (db w)) = None
    /\ signature (db w')
       = map (superseded quoteId) (signature (db w))
           ++ [newSignature quoteId w]
    /\ activeSignatures (db w') quoteId = [newSignature quoteId w].
Proof.
  intros q w sid w' Hp H.
  unfold SignaturesService.sendSignatureEmail in H.
  unfold bind at 1, gets at 1 in H. cbv beta iota in H. rewrite Hp in H.
  unfold bind at 1, gets at 1 in H. cbv beta iota in H.
  rewrite (bind_ok _ _ _ _ _ (prismaFindUnique_run quoteT q w)) in H.
  destruct (findUnique (pk quoteT) q (rows quoteT (db w))) as [row|];
    [|discriminate].
  unfold bind at 1 in H. rewrite newId_run in H.
  unfold bind at 1 in H. rewrite prismaCreate_run in H.
  fold (newSignature q w) in H.
  cbn [rows pk signatureT db with_cuid] in H.
  destruct (create Signature.id (newSignature q w) (signature (db w)))
    as [t'|] eqn:C; [|discriminate].
  apply create_spec in C. destruct C as [Fresh ->].
  match type of H with
  | context [bind (SignaturesService.contactEmailOf ?k) _ ?w0] =>
      destruct (contactEmailOf_run k w0) as (x & Ex);
      rewrite (bind_ok _ _ _ _ _ Ex) in H
  end.
  destruct x as [email|]; [|discriminate].
  unfold bind at 1, prismaUpdateMany at 1, modifyDb, modify in H.
  cbv beta iota in H.
  cbn [db with_db rows with_rows signatureT signature with_signature
       with_cuid Signature.quoteId Signature.id newSignature] in H.
  fold (newSignature q w) in H.
  unfold bind at 1, gets at 1 in H. cbv beta iota in H.
  match type of H with
  | context [match ?c with Some _ => _ | None => throw _ end ?w0] =>
      destruct c as [co|]; [|discriminate]
  end.
  unfold bind at 1, gets at 1 in H. cbv beta iota in H.
  match type of H with
  | context [match ?c with Some _ => _ | None => _ end ?w0] =>
      destruct c as [mt|]; [|discriminate]
  end.
  unfold bind at 1, gets at 1 in H. cbv beta iota in H.
  match type of H with
  | context [bind (try_catch ?c ?h) _ ?w0] =>
      destruct (try_catch c h w0) as [[u|e] w1] eqn:S;
      assert (same_db w0 w1) as D
  end.
  1,3: eapply (preserves_try_catch _ same_db_trans); [| |exact S];
       [apply db_sendMail
       |intros ?; unfold log; frame_by same_db_refl same_db_trans].
  2:{ rewrite (bind_throw _ _ _ _ _ S) in H. discriminate. }
  rewrite (bind_ok _ _ _ _ _ S) in H.
  unfold bind, log, modify, ret in H. injection H as <- <-.
  unfold same_db in D. cbn [db with_db with_logs] in D.
  unfold activeSignatures, findMany. cbn [db with_logs]. rewrite D.
  cbn [signature with_signature].
  pose proof (supersede_table q (signature (db w)) (newSignature q w))
    as T.
  cbn [Signature.id newSignature] in T, Fresh |- *.
  rewrite T by exact Fresh.
  split; [reflexivity|]. split; [exact Fresh|]. split; [reflexivity|].
  rewrite filter_app, superseded_inactive. cbn.
  rewrite String.eqb_refl. reflexivity.
Qed.

Lemma sendSignatureEmail_leaves_one_active_witness :
  exists sid w',
    SignaturesService.sendSignatureEmail "q1" signedWorld = (Ok sid, w')
    /\ sid = Signature.id (newSignature "q1" signedWorld)
    /\ findUnique Signature.id sid (signature (db signedWorld)) = None
    /\ signature (db w')
       = map (superseded "q1") (signature (db signedWorld))
           ++ [newSignature "q1" signedWorld]
    /\ activeSignatures (db w') "q1" = [newSignature "q1" signedWorld].
Proof.
  destruct (completes _ (SignaturesService.sendSignatureEmail "q1"
                           signedWorld))
    as (sid & w' & E); [vm_compute; reflexivity|].
  exists sid, w'. split; [exact E|].
  apply (sendSignatureEmail_leaves_one_active "q1" signedWorld sid w');
    [reflexivity|exact E].
Defined.

(** ** StatsService *)

Lemma monthIndex_lt (mo : Month) : (monthIndex mo < 12)%nat.
Proof. destruct mo; cbn; lia. Qed.

Lemma getField_addField (f g : Field) (x : Number)
    (s : StatsService.MonthStat) :
  getField g (addField f x s)
  = if Field_eqb f g then (getField g s + x)%num else getField g s.
Proof. destruct f, g; reflexivity. Qed.

Lemma month_addField (f : Field) (x : Number) (s : StatsService.MonthStat) :
  StatsService.month (addField f x s) = StatsService.month s.
Proof. destruct f; reflexivity. Qed.

Lemma nth_error_update_nth {A} (g : A -> A) (l : list A) :
  forall i j,
    nth_error (update_nth i g l) j
    = if Nat.eqb i j then option_map g (nth_error l j) else nth_error l j.
Proof.
  induction l as [|a l IH]; intros [|i] [|j]; cbn; try reflexivity.
  - now destruct (Nat.eqb i j).
  - apply IH.
Qed.

Lemma map_update_nth {A B} (p : A -> B) (g : A -> A) (l : list A) :
  (forall a, p (g a) = p a) ->
  forall i, map p (update_nth i g l) = map p l.
Proof.
  intros Hg. induction l as [|a l IH]; intros [|i]; cbn; try reflexivity.
  - now rewrite Hg.
  - now rewrite IH.
Qed.

Lemma find_append {A} (p : A -> bool) (l l' : list A) :
  find p (l ++ l')
  = match find p l with
    | Some x => Some x
    | None => find p l'
    end.
Proof.
  induction l as [|a l IH]; cbn; [reflexivity|].
  destruct (p a); [reflexivity|exact IH].
Qed.

Lemma has_lookup (c : Currency) (m : StatsService.CurrencyMonthsMap) :
  StatsService.has c m = false <-> lookupCurrency c m = None.
Proof.
  unfold StatsService.has, lookupCurrency.
  induction m as [|e m IH]; cbn; [tauto|].
  destruct (String.eqb _ c); cbn; [split; discriminate|exact IH].
Qed.

Lemma lookup_fst (c : Currency) (m : StatsService.CurrencyMonthsMap) e :
  lookupCurrency c m = Some e -> fst e = c /\ In e m.
Proof.
  unfold lookupCurrency. intros H. apply find_some in H.
  destruct H as [Hin H]. apply String.eqb_eq in H. auto.
Qed.

Lemma lookup_ensure (c c' : Currency) (m : StatsService.CurrencyMonthsMap) :
  lookupCurrency c' (StatsService.ensureCurrency c m)
  = match lookupCurrency c' m with
    | Some e => Some e
    | None =>
        if String.eqb c c' then Some (c, StatsService.emptyMonths) else None
    end.
Proof.
  unfold StatsService.ensureCurrency.
  destruct (StatsService.has c m) eqn:H.
  - destruct (lookupCurrency c' m) eqn:L; [reflexivity|].
    destruct (String.eqb c c') eqn:E; [|reflexivity].
    apply String.eqb_eq in E. subst c'.
    apply has_lookup in L. congruence.
  - unfold lookupCurrency. rewrite find_append.
    match goal with |- context [find ?p m] => destruct (find p m) end;
      reflexivity.
Qed.

Lemma lookup_updateMonth (g : StatsService.MonthStat -> StatsService.MonthStat)
    (c c' : Currency) (i : nat) (m : StatsService.CurrencyMonthsMap) :
  lookupCurrency c' (StatsService.updateMonth g c i m)
  = option_map
      (fun e => if String.eqb (fst e) c
                then (fst e, update_nth i g (snd e)) else e)
      (lookupCurrency c' m).
Proof.
  unfold lookupCurrency, StatsService.updateMonth.
  induction m as [|e m IH]; cbn; [reflexivity|].
  destruct (String.eqb _ c) eqn:E; cbn [fst].
  - destruct (String.eqb _ c') eqn:E'; cbn; [now rewrite E|exact IH].
  - destruct (String.eqb _ c') eqn:E'; cbn; [now rewrite E|exact IH].
Qed.

Lemma emptyMonths_ok : months_ok StatsService.emptyMonths.
Proof. reflexivity. Qed.

Lemma emptyMonths_field (f : Field) (i : nat) :
  match nth_error StatsService.emptyMonths i with
  | Some s => getField f s
  | None => 0%num
  end = 0%num.
Proof.
  do 12 (destruct i as [|i]; [destruct f; reflexivity|]).
  destruct i; reflexivity.
Qed.

Lemma months_ok_nth (ms : list StatsService.MonthStat) (i : nat) :
  months_ok ms -> (i < 12)%nat ->
  exists s, nth_error ms i = Some s /\ StatsService.month s = S i.
Proof.
  unfold months_ok. intros H Hi.
  assert (nth_error (map StatsService.month ms) i = Some (S i)) as N.
  { rewrite H. rewrite nth_error_map.
    rewrite (nth_error_nth' _ 0%nat) by (rewrite length_seq; exact Hi).
    rewrite seq_nth by exact Hi. reflexivity. }
  rewrite nth_error_map in N.
  destruct (nth_error ms i) as [s|]; [|discriminate].
  exists s. split; [reflexivity|]. cbn in N. congruence.
Qed.

Lemma fieldAt_bump (f g : Field) (x : Number) (c c' : Currency)
    (i i' : nat) (m : StatsService.CurrencyMonthsMap) :
  map_ok m -> (i < 12)%nat ->
  fieldAt g c' i' (bump f x c i m)
  = if Field_eqb f g && (String.eqb c c' && Nat.eqb i i')
    then (fieldAt g c' i' m + x)%num else fieldAt g c' i' m.
Proof.
  intros [_ Hok] Hi. unfold fieldAt, bump.
  rewrite lookup_updateMonth, lookup_ensure.
  destruct (lookupCurrency c' m) as [e|] eqn:L; cbn [option_map].
  - destruct (lookup_fst _ _ _ L) as [Hc Hin].
    rewrite Forall_forall in Hok. pose proof (Hok e Hin) as Hms.
    destruct e as [c0 ms]. cbn [fst snd] in *. subst c0.
    rewrite (String.eqb_sym c' c).
    destruct (String.eqb c c') eqn:E; cbn [snd andb];
      [|now rewrite andb_false_r].
    rewrite nth_error_update_nth.
    destruct (Nat.eqb i i') eqn:N; [|now rewrite andb_false_r].
    apply Nat.eqb_eq in N. subst i'.
    destruct (months_ok_nth _ i Hms Hi) as (s & -> & _).
    cbn [option_map]. rewrite getField_addField, andb_true_r. reflexivity.
  - destruct (String.eqb c c') eqn:E; cbn [andb option_map];
      [|now rewrite andb_false_r].
    cbn [fst]. rewrite String.eqb_refl. cbn [snd].
    rewrite nth_error_update_nth.
    destruct (Nat.eqb i i') eqn:N.
    + apply Nat.eqb_eq in N. subst i'.
      destruct (months_ok_nth _ i emptyMonths_ok Hi) as (s & Hs & _).
      pose proof (emptyMonths_field g i) as Z0. rewrite Hs in *.
      cbn [option_map]. rewrite getField_addField, andb_true_r, Z0.
      reflexivity.
    + rewrite andb_false_r. apply emptyMonths_field.
Qed.

Lemma map_fst_updateMonth g c i (m : StatsService.CurrencyMonthsMap) :
  map fst (StatsService.updateMonth g c i m) = map fst m.
Proof.
  unfold StatsService.updateMonth. rewrite map_map. apply map_ext.
  intros e. now destruct (String.eqb _ c).
Qed.

Lemma has_In (c : Currency) (m : StatsService.CurrencyMonthsMap) :
  StatsService.has c m = true <-> In c (map fst m).
Proof.
  unfold StatsService.has. rewrite existsb_exists, in_map_iff. split.
  - intros (e & He & E). apply String.eqb_eq in E. eauto.
  - intros (e & E & He). exists e. split; [exact He|].
    destruct e as [c0 ms]. cbn [fst] in *. subst c0.
    apply String.eqb_refl.
Qed.

Lemma map_ok_bump (f : Field) (x : Number) (c : Currency) (i : nat)
    (m : StatsService.CurrencyMonthsMap) :
  map_ok m -> map_ok (bump f x c i m).
Proof.
  intros [Hnd Hok]. unfold bump, map_ok.
  rewrite map_fst_updateMonth.
  assert (map_ok (StatsService.ensureCurrency c m)) as [Hnd' Hok'].
  { unfold StatsService.ensureCurrency.
    destruct (StatsService.has c m) eqn:H; [split; assumption|].
    split.
    - rewrite map_app. cbn. apply NoDup_app_remove_l with (l := []).
      cbn. apply Permutation_NoDup with (l := c :: map fst m).
      + apply Permutation_cons_append.
      + constructor; [|exact Hnd].
        intros Hin. apply has_In in Hin. congruence.
    - apply Forall_app. split; [exact Hok|].
      constructor; [apply emptyMonths_ok|constructor]. }
  split; [exact Hnd'|].
  unfold StatsService.updateMonth. apply Forall_map.
  eapply Forall_impl; [|exact Hok'].
  intros e He. destruct (String.eqb _ c); [|exact He].
  cbn [snd]. unfold months_ok in *.
  rewrite map_update_nth; [exact He|].
  intros s. apply month_addField.
Qed.

Lemma fold_left_ext {A B} (f g : A -> B -> A) (l : list B) :
  (forall a b, f a b = g a b) ->
  forall a, fold_left f l a = fold_left g l a.
Proof.
  intros H. induction l as [|b l IH]; intros a; cbn; [reflexivity|].
  now rewrite H, IH.
Qed.

Lemma map_ok_applyKey (f : Field) k (m : StatsService.CurrencyMonthsMap) :
  map_ok m -> map_ok (applyKey f k m).
Proof.
  destruct k as [[[c i] x]|]; cbn [applyKey]; [apply map_ok_bump|auto].
Qed.

Lemma added_up_app (v : Number) (l l' : list Number) :
  added_up v (l ++ l') = added_up (added_up v l) l'.
Proof. apply fold_left_app. Qed.

(** After a loop, the value held for a currency and a month is the value
    held before with the amounts of the elements for that currency and
    month added to it one after the other. *)
Lemma fold_applyKey {A} (f : Field)
    (key : A -> option (Currency * nat * Number)) (L : list A) :
  (forall a c i x, key a = Some (c, i, x) -> (i < 12)%nat) ->
  forall m,
    map_ok m ->
    map_ok (fold_left (fun m a => applyKey f (key a) m) L m)
    /\ forall g c' i',
         fieldAt g c' i' (fold_left (fun m a => applyKey f (key a) m) L m)
         = if Field_eqb f g
           then added_up (fieldAt g c' i' m) (contributions key c' i' L)
           else fieldAt g c' i' m.
Proof.
  intros Hkey. induction L as [|a L IH]; intros m Hm; cbn [fold_left].
  - split; [exact Hm|]. intros g c' i'. cbn.
    now destruct (Field_eqb f g).
  - destruct (IH (applyKey f (key a) m) (map_ok_applyKey f _ m Hm))
      as [Hok Hsum].
    split; [exact Hok|]. intros g c' i'.
    rewrite Hsum. unfold contributions. cbn [flat_map].
    fold (contributions key c' i' L). rewrite added_up_app.
    pose proof (Hkey a) as Ha.
    destruct (key a) as [[[c i] x]|]; cbn [applyKey].
    + rewrite fieldAt_bump by eauto.
      destruct (Field_eqb f g); cbn [andb]; [|reflexivity].
      destruct (String.eqb c c' && Nat.eqb i i'); reflexivity.
    + now destruct (Field_eqb f g).
Qed.

Lemma stepInvoiced_key h m inv :
  StatsService.stepInvoiced h m inv = applyKey Invoiced (keyInvoiced h inv) m.
Proof. reflexivity. Qed.

Lemma stepRevenue_key h d m r :
  StatsService.stepRevenue h d m r = applyKey Revenue (keyRevenue h d r) m.
Proof.
  unfold StatsService.stepRevenue, keyRevenue.
  destruct (findUnique _ _ _) as [inv|]; [|reflexivity].
  destruct (negb _); reflexivity.
Qed.

Lemma stepDeposits_key h year m p :
  StatsService.stepDeposits h year m p
  = applyKey Deposits (keyDeposits h year p) m.
Proof.
  unfold StatsService.stepDeposits, keyDeposits.
  destruct (negb _); reflexivity.
Qed.

Lemma keyInvoiced_lt h a c i x :
  keyInvoiced h a = Some (c, i, x) -> (i < 12)%nat.
Proof. intros H. injection H as _ <- _. apply monthIndex_lt. Qed.

Lemma keyRevenue_lt h d a c i x :
  keyRevenue h d a = Some (c, i, x) -> (i < 12)%nat.
Proof.
  unfold keyRevenue. destruct (findUnique _ _ _); [|discriminate].
  destruct (negb _); [discriminate|].
  intros H. injection H as _ <- _. apply monthIndex_lt.
Qed.

Lemma keyDeposits_lt h y a c i x :
  keyDeposits h y a = Some (c, i, x) -> (i < 12)%nat.
Proof.
  unfold keyDeposits. destruct (negb _); [discriminate|].
  intros H. injection H as _ <- _. apply monthIndex_lt.
Qed.

Lemma map_ok_nil : map_ok [].
Proof. split; constructor. Qed.

Lemma In_fst_ensureCurrency (c c' : Currency)
    (m : StatsService.CurrencyMonthsMap) :
  In c' (map fst (StatsService.ensureCurrency c m))
  <-> In c' (map fst m) \/ c' = c.
Proof.
  unfold StatsService.ensureCurrency.
  destruct (StatsService.has c m) eqn:H.
  - apply has_In in H. split; [auto|]. intros [?| ->]; assumption.
  - rewrite map_app, in_app_iff. cbn. intuition congruence.
Qed.

Lemma In_fst_applyKey (f : Field) k (c' : Currency)
    (m : StatsService.CurrencyMonthsMap) :
  In c' (map fst (applyKey f k m))
  <-> In c' (map fst m) \/ exists i x, k = Some (c', i, x).
Proof.
  destruct k as [[[c i] x]|]; cbn [applyKey].
  - unfold bump. rewrite map_fst_updateMonth, In_fst_ensureCurrency.
    split; (intros [H|H]; [now left|right]).
    + subst c'. eauto.
    + destruct H as (? & ? & H). now injection H.
  - split; [auto|]. intros [H|(? & ? & H)]; [exact H|discriminate].
Qed.

(** The currencies of the map after a loop are those it had and those of
    the elements gone through. *)
Lemma In_fst_fold_applyKey {A} (f : Field)
    (key : A -> option (Currency * nat * Number)) (c' : Currency)
    (L : list A) :
  forall m,
    In c' (map fst (fold_left (fun m a => applyKey f (key a) m) L m))
    <-> In c' (map fst m)
        \/ exists a i x, In a L /\ key a = Some (c', i, x).
Proof.
  induction L as [|a L IH]; intros m; cbn [fold_left].
  - split; [auto|]. intros [H|(? & ? & ? & [] & _)]. exact H.
  - rewrite IH, In_fst_applyKey. split.
    + intros [[H|(i & x & H)]|(b & i & x & Hb & H)]; [now left| |].
      * right. exists a, i, x. cbn. auto.
      * right. exists b, i, x. cbn. auto.
    + intros [H|(b & i & x & [<-|Hb] & H)]; [now left; left| |].
      * left. right. eauto.
      * right. eauto.
Qed.

(** Every currency of an active invoice created in the requested year has
    an entry. *)
Lemma monthsBeforeRounding_currencies (h : Host) (d : Db) (year : Z)
    (inv : Invoice.t) :
  In inv (invoice d) ->
  Invoice.isActive inv = true ->
  StatsService.inYear h year (Invoice.createdAt inv) = true ->
  In (Invoice.currency inv) (map fst (monthsBeforeRounding h d year)).
Proof.
  intros Hin Ha Hy. unfold monthsBeforeRounding.
  set (L1 := findMany _ (invoice d)).
  set (L2 := findMany _ (receipt d)).
  rewrite (fold_left_ext _ _ L1 (stepInvoiced_key h)).
  rewrite (fold_left_ext _ _ L2 (stepRevenue_key h d)).
  rewrite (fold_left_ext _ _ _ (stepDeposits_key h year)).
  apply In_fst_fold_applyKey. left.
  apply In_fst_fold_applyKey. left.
  apply In_fst_fold_applyKey. right.
  exists inv, (monthIndex (getMonth h (Invoice.createdAt inv))),
    (Invoice.totalTTC inv).
  split; [|reflexivity].
  unfold L1, findMany. apply filter_In. split; [exact Hin|].
  now rewrite Ha, Hy.
Qed.

(** The values accumulated before the rounding. *)
Lemma monthsBeforeRounding_fields (h : Host) (d : Db) (year : Z) :
  map_ok (monthsBeforeRounding h d year)
  /\ forall c i,
       fieldAt Invoiced c i (monthsBeforeRounding h d year)
       = added_up 0%num
           (contributions (keyInvoiced h) c i
              (findMany (fun inv =>
                 Invoice.isActive inv
                 && StatsService.inYear h year (Invoice.createdAt inv))
                 (invoice d)))
       /\ fieldAt Deposits c i (monthsBeforeRounding h d year)
          = added_up 0%num
              (contributions (keyDeposits h year) c i
                 (StatsService.paidInvoices d)).
Proof.
  unfold monthsBeforeRounding.
  set (L1 := findMany _ (invoice d)).
  set (L2 := findMany _ (receipt d)).
  rewrite (fold_left_ext _ _ L1 (stepInvoiced_key h)).
  rewrite (fold_left_ext _ _ L2 (stepRevenue_key h d)).
  rewrite (fold_left_ext _ _ _ (stepDeposits_key h year)).
  destruct (fold_applyKey Invoiced (keyInvoiced h) L1 (keyInvoiced_lt h)
              [] map_ok_nil) as [Ok1 S1].
  destruct (fold_applyKey Revenue (keyRevenue h d) L2 (keyRevenue_lt h d)
              _ Ok1) as [Ok2 S2].
  destruct (fold_applyKey Deposits (keyDeposits h year)
              (StatsService.paidInvoices d) (keyDeposits_lt h year)
              _ Ok2) as [Ok3 S3].
  split; [exact Ok3|]. intros c i. split.
  - rewrite S3, S2, S1. reflexivity.
  - rewrite S3, S2, S1. reflexivity.
Qed.

Lemma invoiced_sum (h : Host) (year : Z) (c : Currency) (mo : Month)
    (L : list Invoice.t) :
  contributions (keyInvoiced h) c (monthIndex mo)
    (findMany (fun inv =>
       Invoice.isActive inv
       && StatsService.inYear h year (Invoice.createdAt inv)) L)
  = map Invoice.totalTTC (filter (invoicedIn h year c mo) L).
Proof.
  unfold findMany, contributions, keyInvoiced, invoicedIn.
  induction L as [|a L IH]; cbn [filter flat_map map]; [reflexivity|].
  destruct (Invoice.isActive a
            && StatsService.inYear h year (Invoice.createdAt a));
    cbn [andb flat_map]; [|exact IH].
  destruct (String.eqb (Invoice.currency a) c); cbn [andb]; [|exact IH].
  destruct (Nat.eqb _ _); cbn [app map]; now rewrite IH.
Qed.

Lemma deposits_sum (h : Host) (d : Db) (year : Z) (c : Currency)
    (mo : Month) :
  contributions (keyDeposits h year) c (monthIndex mo)
    (StatsService.paidInvoices d)
  = map Invoice.totalTTC (filter (depositedIn h d year c mo) (invoice d)).
Proof.
  unfold StatsService.paidInvoices, StatsService.invoicesWithReceipts,
    findMany, contributions.
  induction (invoice d) as [|a L IH]; cbn [filter flat_map map];
    [reflexivity|].
  unfold depositedIn at 1.
  destruct (Invoice.isActive a && existsb _ (receipt d)); cbn [andb];
    [|exact IH].
  cbn [flat_map].
  destruct (StatsService.paidDate _ _ _) as [t|];
    [|rewrite andb_false_r; cbn [app]; exact IH].
  cbn [app flat_map]. unfold keyDeposits at 1. cbn [fst snd].
  destruct (getFullYear h t =? year); cbn [negb andb].
  - destruct (String.eqb _ c); cbn [andb]; [|exact IH].
    destruct (Nat.eqb _ _); cbn [app map]; now rewrite IH.
  - rewrite andb_false_r. exact IH.
Qed.

Lemma paidDate_reaching (total : Number) (rs : list Receipt.t) :
  forall (acc : Number) (t : DateTime),
    StatsService.paidDate total acc rs = Some t
    <-> exists k r,
          nth_error rs k = Some r /\ t = Receipt.createdAt r
          /\ (added_up acc (map Receipt.totalPaid (firstn (S k) rs))
              >= total)%num = true
          /\ forall j, (j < k)%nat ->
               (added_up acc (map Receipt.totalPaid (firstn (S j) rs))
                >= total)%num = false.
Proof.
  induction rs as [|r0 rs IH]; intros acc t; cbn [StatsService.paidDate].
  - split; [discriminate|]. intros (k & r & H & _). now destruct k.
  - assert (forall k,
              added_up acc (map Receipt.totalPaid (firstn (S k) (r0 :: rs)))
              = added_up (acc + Receipt.totalPaid r0)%num
                  (map Receipt.totalPaid (firstn k rs))) as Hup
      by reflexivity.
    destruct (acc + Receipt.totalPaid r0 >= total)%num eqn:B.
    + split.
      * intros H. injection H as <-. exists 0%nat, r0.
        split; [reflexivity|]. split; [reflexivity|]. split.
        -- rewrite Hup. exact B.
        -- intros j Hj. lia.
      * intros (k & r & Hn & -> & _ & Hmin).
        destruct k as [|k]; [cbn in Hn; congruence|].
        exfalso. specialize (Hmin 0%nat ltac:(lia)).
        rewrite Hup in Hmin. cbn in Hmin. congruence.
    + rewrite IH. split.
      * intros (k & r & Hn & -> & Hr & Hmin). exists (S k), r.
        split; [exact Hn|]. split; [reflexivity|]. split.
        -- now rewrite Hup.
        -- intros [|j] Hj.
           ++ rewrite Hup. exact B.
           ++ rewrite Hup. apply Hmin. lia.
      * intros (k & r & Hn & -> & Hr & Hmin).
        destruct k as [|k].
        -- exfalso. rewrite Hup in Hr. cbn in Hr. congruence.
        -- exists k, r. split; [exact Hn|]. split; [reflexivity|]. split.
           ++ now rewrite <- Hup.
           ++ intros j Hj. rewrite <- Hup. apply Hmin. lia.
Qed.

Lemma paidDate_first_reaching (total : Number) (rs : list Receipt.t)
    (t : DateTime) :
  StatsService.paidDate total 0%num rs = Some t
  <-> exists r, first_reaching total rs r /\ t = Receipt.createdAt r.
Proof.
  rewrite paidDate_reaching. unfold first_reaching, paidUpTo, sum_over.
  split.
  - intros (k & r & Hn & Ht & Hr & Hmin). exists r. split; [|exact Ht].
    exists k. auto.
  - intros (r & (k & Hn & Hr & Hmin) & Ht). exists k, r. auto.
Qed.

Lemma insertByCreatedAt_perm (r : Receipt.t) (l : list Receipt.t) :
  Permutation (insertByCreatedAt r l) (r :: l).
Proof.
  induction l as [|x l IH]; cbn; [reflexivity|].
  destruct (Receipt.createdAt r <? Receipt.createdAt x); [reflexivity|].
  rewrite IH. apply perm_swap.
Qed.

Lemma insertByCreatedAt_sorted (r : Receipt.t) (l : list Receipt.t) :
  StronglySorted createdBefore l ->
  StronglySorted createdBefore (insertByCreatedAt r l).
Proof.
  induction 1 as [|x l Hs IH Hx]; cbn.
  - constructor; constructor.
  - destruct (Receipt.createdAt r <? Receipt.createdAt x) eqn:L.
    + apply Z.ltb_lt in L. constructor.
      * constructor; assumption.
      * constructor; [unfold createdBefore; lia|].
        eapply Forall_impl; [|exact Hx].
        unfold createdBefore. intros a Ha. lia.
    + apply Z.ltb_ge in L. constructor; [exact IH|].
      eapply Permutation_Forall.
      * symmetry. apply insertByCreatedAt_perm.
      * constructor; [exact L|exact Hx].
Qed.

Lemma orderByCreatedAt_sorted_perm (l : list Receipt.t) :
  Permutation (orderByCreatedAt l) l
  /\ StronglySorted createdBefore (orderByCreatedAt l).
Proof.
  unfold orderByCreatedAt. split.
  - rewrite (Permutation_rev l) at 2.
    induction (rev l) as [|x r IH]; cbn; [reflexivity|].
    rewrite insertByCreatedAt_perm. now constructor.
  - induction (rev l) as [|x r IH]; cbn; [constructor|].
    now apply insertByCreatedAt_sorted.
Qed.

Lemma lookup_In_NoDup (m : StatsService.CurrencyMonthsMap) e :
  NoDup (map fst m) -> In e m -> lookupCurrency (fst e) m = Some e.
Proof.
  unfold lookupCurrency. destruct e as [c ms]. cbn [fst].
  induction m as [|[c0 ms0] m IH]; intros Hnd Hin; [contradiction|].
  cbn in *. inversion Hnd as [|? ? Hnot Hnd']; subst.
  destruct (String.eqb c0 c) eqn:E.
  - apply String.eqb_eq in E. subst c0.
    destruct Hin as [Heq|Hin]; [exact (f_equal Some Heq)|].
    elim Hnot. apply in_map_iff. exists (c, ms). auto.
  - destruct Hin as [Heq|Hin].
    + injection Heq as -> _. now rewrite String.eqb_refl in E.
    + auto.
Qed.

Lemma getMonthlyStats_run (year : Z) (w : World) res w' :
  StatsService.getMonthlyStats year w = (Ok res, w') ->
  w' = w
  /\ res = map rounded (monthsBeforeRounding (host w) (db w) year).
Proof.
  unfold StatsService.getMonthlyStats.
  unfold bind at 1, gets at 1. cbv beta iota.
  destruct (findFirst _ (company (db w))); [|discriminate].
  unfold bind, gets, ret. intros H. injection H as <- <-.
  split; reflexivity.
Qed.

(** C4, as the code has it. The result of [getMonthlyStats] has one entry
    per currency, and every currency of an active invoice created in the
    requested year has one. For every entry and month the [invoiced] value
    is the [totalTTC] of the active invoices of that currency created in
    that month of the requested year, added up in binary64 from 0 in the
    order of the store and then rounded to two decimals by [toFixed]; the
    [deposits] value is, in the same way, the rounded sum of [totalTTC]
    over the active invoices of that currency whose receipts, taken in
    ascending order of creation, first bring the running binary64 sum of
    their [totalPaid] to compare [>=] to the total at a receipt dated in
    that month of the requested year. *)
Theorem monthly_stats_rounded_sums :
  forall (year : Z) (w : World) res (w' : World),
    StatsService.getMonthlyStats year w = (Ok res, w') ->
    w' = w
    /\ NoDup (map fst res)
    /\ (forall inv,
          In inv (invoice (db w)) ->
          Invoice.isActive inv = true ->
          StatsService.inYear (host w) year (Invoice.createdAt inv) = true ->
          In (Invoice.currency inv) (map fst res))
    /\ (forall c months,
          In (c, months) res ->
          forall mo : Month,
          exists s,
            nth_error months (monthIndex mo) = Some s
            /\ StatsService.month s = S (monthIndex mo)
            /\ StatsService.invoiced s
               = toFixed2
                   (sum_over Invoice.totalTTC
                      (filter (invoicedIn (host w) year c mo)
                         (invoice (db w))))
            /\ StatsService.deposits s
               = toFixed2
                   (sum_over Invoice.totalTTC
                      (filter (depositedIn (host w) (db w) year c mo)
                         (invoice (db w)))))
    /\ (forall inv t,
          StatsService.paidDate (Invoice.totalTTC inv) 0%num
            (StatsService.receiptsAsc (db w) inv) = Some t
          <-> exists r,
                first_reaching (Invoice.totalTTC inv)
                  (StatsService.receiptsAsc (db w) inv) r
                /\ t = Receipt.createdAt r)
    /\ (forall inv,
          Permutation (StatsService.receiptsAsc (db w) inv)
            (receiptsOf (db w) (Invoice.id inv))
          /\ StronglySorted createdBefore
               (StatsService.receiptsAsc (db w) inv)).
Proof.
  intros year w res w' H.
  apply getMonthlyStats_run in H. destruct H as [-> ->].
  destruct (monthsBeforeRounding_fields (host w) (db w) year)
    as [[Hnd Hok] Hf].
  set (m := monthsBeforeRounding (host w) (db w) year) in *.
  split; [reflexivity|]. split.
  { rewrite map_map. cbn [rounded fst]. exact Hnd. }
  split.
  { intros inv Hin Ha Hy. rewrite map_map. cbn [rounded fst].
    now apply monthsBeforeRounding_currencies. }
  split.
  { intros c months Hin mo.
    apply in_map_iff in Hin. destruct Hin as (e & He & Hin).
    unfold rounded in He. injection He as <- <-.
    rewrite Forall_forall in Hok.
    destruct (months_ok_nth _ (monthIndex mo) (Hok e Hin)
                (monthIndex_lt mo)) as (s & Hs & Hmonth).
    exists (StatsService.roundStat s).
    rewrite nth_error_map, Hs. split; [reflexivity|].
    split; [exact Hmonth|].
    destruct (Hf (fst e) (monthIndex mo)) as [HI HD].
    unfold fieldAt in HI, HD.
    rewrite (lookup_In_NoDup m e Hnd Hin), Hs in HI, HD.
    cbn [getField] in HI, HD. cbn [StatsService.roundStat
      StatsService.invoiced StatsService.deposits].
    unfold sum_over. split; f_equal.
    - rewrite HI. f_equal. apply invoiced_sum.
    - rewrite HD. f_equal. apply deposits_sum. }
  split.
  { intros inv t. apply paidDate_first_reaching. }
  intros inv. apply orderByCreatedAt_sorted_perm.
Qed.

Lemma monthly_stats_rounded_sums_witness :
  exists res,
    StatsService.getMonthlyStats 2024 statsWorld = (Ok res, statsWorld)
    /\ NoDup (map fst res)
    /\ (forall c months,
          In (c, months) res ->
          forall mo : Month,
          exists s,
            nth_error months (monthIndex mo) = Some s
            /\ StatsService.month s = S (monthIndex mo)
            /\ StatsService.invoiced s
               = toFixed2
                   (sum_over Invoice.totalTTC
                      (filter (invoicedIn (host statsWorld) 2024 c mo)
                         (invoice (db statsWorld))))
            /\ StatsService.deposits s
               = toFixed2
                   (sum_over Invoice.totalTTC
                      (filter
                         (depositedIn (host statsWorld) (db statsWorld)
                            2024 c mo)
                         (invoice (db statsWorld))))).
Proof.
  destruct (completes _ (StatsService.getMonthlyStats 2024 statsWorld))
    as (res & w' & E); [vm_compute; reflexivity|].
  destruct (monthly_stats_rounded_sums 2024 statsWorld res w' E)
    as (-> & Hnd & _ & Hsum & _).
  exists res. split; [exact E|]. split; [exact Hnd|exact Hsum].
Defined.

(** C4 as stated fails: the invoice of 21.08945 created in March 2024 is
    the only one of its month and currency, and the [invoiced] value
    reported for March is 21.09, which is not the sum of the [totalTTC]
    of the month. *)
Lemma monthly_invoiced_is_rounded :
  sum_over Invoice.totalTTC
    (filter (invoicedIn (host statsWorld) 2024 "EUR" Mar)
       (invoice (db statsWorld))) = Num.decimal 2108945 5
  /\ exact_sum Invoice.totalTTC
       (filter (invoicedIn (host statsWorld) 2024 "EUR" Mar)
          (invoice (db statsWorld)))
     = Num.exact (Num.decimal 2108945 5)
  /\ exists v,
       reportedInvoiced 2024 "EUR" Mar statsWorld = Some v
       /\ v = Num.decimal 2109 2
       /\ Num.eqb v (Num.decimal 2108945 5) = false
       /\ ~ (Num.exact v == Num.exact (Num.decimal 2108945 5))%Q.
Proof.
  split; [vm_compute; reflexivity|].
  split; [vm_compute; reflexivity|].
  eexists. split; [vm_compute; reflexivity|].
  split; [vm_compute; reflexivity|].
  split; [vm_compute; reflexivity|].
  vm_compute. discriminate.
Qed.

(** * Further properties *)

(** ** InvitationsService: using and deleting a code *)

Lemma findUnique_map {R} (key : R -> Id) (g : R -> R) (k : Id) (t : list R) :
  (forall r, key (g r) = key r) ->
  findUnique key k (map g t) = option_map g (findUnique key k t).
Proof.
  intros Hk. unfold findUnique.
  induction t as [|a t IH]; cbn; [reflexivity|].
  rewrite Hk. destruct (String.eqb (key a) k); [reflexivity|exact IH].
Qed.

Lemma find_map_none {R} (p : R -> bool) (g : R -> R) (t : list R) :
  (forall r, In r t -> p (g r) = false) -> find p (map g t) = None.
Proof.
  induction t as [|a t IH]; cbn; intros H; [reflexivity|].
  rewrite (H a) by auto. apply IH. auto.
Qed.

Lemma findUnique_NoDup {R} (key : R -> Id) (t : list R) (r : R) :
  NoDup (map key t) -> In r t -> findUnique key (key r) t = Some r.
Proof.
  unfold findUnique. induction t as [|a t IH]; cbn; intros N H; [easy|].
  inversion N as [|? ? Hn Ht]; subst.
  destruct H as [->|H].
  - now rewrite String.eqb_refl.
  - destruct (String.eqb (key a) (key r)) eqn:E; [|auto].
    apply String.eqb_eq in E. elim Hn. rewrite E. now apply in_map.
Qed.

Lemma useInvitation_ok (code : string) (userId : Id) (w : World)
    (inv : InvitationCode.t) :
  NoDup (map InvitationCode.id (invitationCode (db w))) ->
  usable w code inv ->
  InvitationsService2.useInvitation code userId w
  = (Ok (InvitationsService2.with_used (now (host w)) userId inv),
     with_db
       (with_invitationCode
          (update InvitationCode.id (InvitationCode.id inv)
             (InvitationsService2.with_used (now (host w)) userId)
             (invitationCode (db w))) (db w))
       (logged "invitation" "Invitation code used" INFO w)).
Proof.
  intros N (F & U & E). unfold InvitationsService2.useInvitation.
  unfold bind at 1, gets at 1. cbv beta iota. rewrite F, U.
  unfold bind at 1, gets at 1. cbv beta iota.
  assert (match InvitationCode.expiresAt inv with
          | Some e => e <? now (host w)
          | None => false
          end = false) as ->.
  { destruct (InvitationCode.expiresAt inv) as [e|]; [|reflexivity].
    apply Z.ltb_ge. specialize (E e eq_refl). lia. }
  unfold bind at 1, log at 1, modify at 1. cbv beta iota.
  unfold bind at 1, gets at 1. cbv beta iota.
  apply findUnique_In in F.
  rewrite (prismaUpdate_run invitationCodeT _ _ _ inv)
    by (cbn; now apply findUnique_NoDup).
  reflexivity.
Qed.

(** A completed [useInvitation] consumed a usable code. *)
Lemma useInvitation_completed (code : string) (userId : Id) (w : World)
    (row : InvitationCode.t) (w' : World) :
  InvitationsService2.useInvitation code userId w = (Ok row, w') ->
  exists inv, usable w code inv.
Proof.
  unfold InvitationsService2.useInvitation.
  unfold bind at 1, gets at 1. cbv beta iota.
  destruct (findUnique InvitationCode.code code (invitationCode (db w)))
    as [inv|] eqn:F; [|discriminate].
  destruct (InvitationCode.usedAt inv) eqn:U; [discriminate|].
  unfold bind at 1, gets at 1. cbv beta iota.
  destruct (InvitationCode.expiresAt inv) as [e|] eqn:X.
  - destruct (e <? now (host w)) eqn:L; [discriminate|].
    intros _. exists inv. repeat split; auto.
    intros e' He'. rewrite X in He'. injection He' as <-.
    apply Z.ltb_ge in L. lia.
  - intros _. exists inv. repeat split; auto.
    intros e' He'. rewrite X in He'. discriminate.
Qed.

Lemma useInvitation_refuses_used (code : string) (userId : Id) (w : World)
    (inv : InvitationCode.t) (t : DateTime) :
  findUnique InvitationCode.code code (invitationCode (db w)) = Some inv ->
  InvitationCode.usedAt inv = Some t ->
  InvitationsService2.useInvitation code userId w
  = (Throw (BadRequestException "This invitation code has already been used"),
     logged "invitation" "Invitation code already used" WARN w).
Proof.
  intros F U. unfold InvitationsService2.useInvitation.
  unfold bind at 1, gets at 1. cbv beta iota. rewrite F, U. reflexivity.
Qed.

Lemma canRegister_refuses_used (code : string) (w : World)
    (inv : InvitationCode.t) (t : DateTime) :
  user (db w) <> [] -> code <> ""%string ->
  findUnique InvitationCode.code code (invitationCode (db w)) = Some inv ->
  InvitationCode.usedAt inv = Some t ->
  InvitationsService.canRegister (Some code) w
  = (Ok {| InvitationsService.allowed := false;
           InvitationsService.requiresCode := true;
           InvitationsService.message :=
             Some "This invitation code has already been used"%string |}, w).
Proof.
  intros Hu Hc F U. unfold InvitationsService.canRegister.
  unfold bind at 1, gets at 1. cbv beta iota.
  destruct (user (db w)) as [|u us]; [now elim Hu|].
  cbn [List.length Nat.eqb].
  destruct code as [|a r]; [now elim Hc|]. cbn [truthy negb].
  unfold bind at 1, gets at 1. cbv beta iota. rewrite F, U. reflexivity.
Qed.

Lemma deleteInvitation_none (id userId : Id) (w : World) :
  findFirst (InvitationsService2.deletable id userId)
    (invitationCode (db w)) = None ->
  InvitationsService2.deleteInvitation id userId w
  = (Throw (NotFoundException "Invitation not found or already used"),
     logged "invitation" "Invitation not found or already used" WARN w).
Proof.
  intros F. unfold InvitationsService2.deleteInvitation.
  unfold bind at 1, gets at 1. cbv beta iota. rewrite F. reflexivity.
Qed.

(** X2. An invitation code can be used once. When [useInvitation]
    completes, the row of the code carries the user and the time of use,
    and nothing else of the store has changed; from then on, as long as
    the table of codes is as it was left, using the code again is refused
    as already used, it can no longer be deleted, and [canRegister]
    refuses it with the same message. *)
Theorem useInvitation_is_one_shot :
  forall (code : string) (userId : Id) (w : World)
         (row : InvitationCode.t) (w' : World),
    NoDup (map InvitationCode.id (invitationCode (db w))) ->
    InvitationsService2.useInvitation code userId w = (Ok row, w') ->
    InvitationCode.code row = code
    /\ InvitationCode.usedAt row = Some (now (host w))
    /\ InvitationCode.usedById row = Some userId
    /\ findUnique InvitationCode.code code (invitationCode (db w'))
       = Some row
    /\ same_tables_but_invitationCode (db w) (db w')
    /\ forall w2 : World,
         invitationCode (db w2) = invitationCode (db w') ->
         (forall u,
             fst (InvitationsService2.useInvitation code u w2)
             = Throw (BadRequestException
                        "This invitation code has already been used")
             /\ db (snd (InvitationsService2.useInvitation code u w2))
                = db w2)
         /\ (forall u,
               fst (InvitationsService2.deleteInvitation
                      (InvitationCode.id row) u w2)
               = Throw (NotFoundException
                          "Invitation not found or already used")
               /\ db (snd (InvitationsService2.deleteInvitation
                             (InvitationCode.id row) u w2)) = db w2)
         /\ (user (db w2) <> [] -> code <> ""%string ->
             fst (InvitationsService.canRegister (Some code) w2)
             = Ok {| InvitationsService.allowed := false;
                     InvitationsService.requiresCode := true;
                     InvitationsService.message :=
                       Some "This invitation code has already been used"%string
                  |}).
Proof.
  intros code userId w row w' N H.
  destruct (useInvitation_completed _ _ _ _ _ H) as (inv & Hu).
  rewrite (useInvitation_ok _ _ _ _ N Hu) in H. injection H as <- <-.
  destruct Hu as (F & U & E).
  pose proof (findUnique_key _ _ _ _ F) as Hc.
  assert (findUnique InvitationCode.code code
            (update InvitationCode.id (InvitationCode.id inv)
               (InvitationsService2.with_used (now (host w)) userId)
               (invitationCode (db w)))
          = Some (InvitationsService2.with_used (now (host w)) userId inv))
    as F'.
  { unfold update. rewrite findUnique_map.
    - rewrite F. cbn. now rewrite String.eqb_refl.
    - intros r. now destruct (String.eqb _ _). }
  split; [exact Hc|]. split; [reflexivity|]. split; [reflexivity|].
  split; [exact F'|]. split; [repeat split|].
  intros w2 T. cbn [db with_db logged with_logs invitationCode
                    with_invitationCode] in T.
  rewrite <- T in F'.
  split; [|split].
  - intros u. now rewrite (useInvitation_refuses_used _ _ _ _ _ F' eq_refl).
  - intros u. rewrite deleteInvitation_none; [split; reflexivity|].
    rewrite T. unfold findFirst, update. apply find_map_none.
    intros r _. unfold InvitationsService2.deletable.
    destruct (String.eqb (InvitationCode.id r) (InvitationCode.id inv)) eqn:K.
    + cbn. now rewrite andb_false_r.
    + cbn [InvitationsService2.with_used InvitationCode.id].
      now rewrite K.
  - intros Hus Hne.
    now rewrite (canRegister_refuses_used _ _ _ _ Hus Hne F' eq_refl).
Qed.

Lemma useInvitation_is_one_shot_witness :
  exists row w',
    InvitationsService2.useInvitation "A1B2C3" "u2" invitedWorld
    = (Ok row, w')
    /\ InvitationCode.usedById row = Some "u2"%string
    /\ fst (InvitationsService2.useInvitation "A1B2C3" "u3" w')
       = Throw (BadRequestException
                  "This invitation code has already been used").
Proof.
  destruct (completes _
              (InvitationsService2.useInvitation "A1B2C3" "u2" invitedWorld))
    as (row & w' & E); [vm_compute; reflexivity|].
  assert (NoDup (map InvitationCode.id (invitationCode (db invitedWorld))))
    as N by (cbn; repeat constructor; cbn; tauto).
  destruct (useInvitation_is_one_shot "A1B2C3" "u2" invitedWorld row w' N E)
    as (_ & _ & Hu & _ & _ & Hagain).
  exists row, w'. split; [exact E|]. split; [exact Hu|].
  apply (Hagain w' eq_refl).
Defined.

Lemma findUnique_some_of_In {R} (key : R -> Id) (t : list R) (r : R) :
  In r t -> exists r0, findUnique key (key r) t = Some r0.
Proof.
  intros H. destruct (findUnique key (key r) t) as [x|] eqn:G; [eauto|].
  unfold findUnique in G. pose proof (find_none _ _ G r H) as N.
  cbn in N. now rewrite String.eqb_refl in N.
Qed.

(** Whether the first row carrying [code] is unused and not expired. *)
Lemma useInvitation_is_ok (code : string) (userId : Id) (w : World) :
  is_ok (fst (InvitationsService2.useInvitation code userId w))
  = match findUnique InvitationCode.code code (invitationCode (db w)) with
    | Some inv =>
        match InvitationCode.usedAt inv with
        | Some _ => false
        | None =>
            negb match InvitationCode.expiresAt inv with
                 | Some e => e <? now (host w)
                 | None => false
                 end
        end
    | None => false
    end.
Proof.
  unfold InvitationsService2.useInvitation.
  unfold bind at 1, gets at 1. cbv beta iota.
  destruct (findUnique InvitationCode.code code (invitationCode (db w)))
    as [inv|] eqn:F; [|reflexivity].
  destruct (InvitationCode.usedAt inv) eqn:U; [reflexivity|].
  unfold bind at 1, gets at 1. cbv beta iota.
  destruct (match InvitationCode.expiresAt inv with
            | Some e => e <? now (host w)
            | None => false
            end); [reflexivity|].
  unfold bind at 1, log at 1, modify at 1. cbv beta iota.
  unfold bind at 1, gets at 1. cbv beta iota.
  destruct (findUnique_some_of_In InvitationCode.id _ _
              (findUnique_In _ _ _ _ F)) as (r0 & G).
  now rewrite (prismaUpdate_run invitationCodeT _ _ _ r0) by exact G.
Qed.

(** X3. The check and the use agree: with at least one user registered
    and a non-empty code, [canRegister] allows the registration exactly
    when [useInvitation] would accept the code at that moment. *)
Theorem canRegister_allows_what_useInvitation_accepts :
  forall (code : string) (userId : Id) (w : World),
    user (db w) <> [] -> code <> ""%string ->
    exists r,
      InvitationsService.canRegister (Some code) w = (Ok r, w)
      /\ InvitationsService.allowed r
         = is_ok (fst (InvitationsService2.useInvitation code userId w)).
Proof.
  intros code userId w Hu Hc. rewrite useInvitation_is_ok.
  unfold InvitationsService.canRegister.
  unfold bind at 1, gets at 1. cbv beta iota.
  destruct (user (db w)) as [|u us]; [now elim Hu|].
  cbn [List.length Nat.eqb].
  destruct code as [|a c]; [now elim Hc|]. cbn [truthy negb].
  unfold bind at 1, gets at 1. cbv beta iota.
  destruct (findUnique InvitationCode.code (String a c)
              (invitationCode (db w))) as [inv|] eqn:F.
  - destruct (InvitationCode.usedAt inv) eqn:U.
    + eexists. split; reflexivity.
    + unfold bind at 1, gets at 1. cbv beta iota.
      destruct (match InvitationCode.expiresAt inv with
                | Some e => e <? now (host w)
                | None => false
                end); eexists; split; reflexivity.
  - eexists. split; reflexivity.
Qed.

Lemma canRegister_allows_what_useInvitation_accepts_witness :
  exists r,
    InvitationsService.canRegister (Some "A1B2C3"%string) invitedWorld
    = (Ok r, invitedWorld)
    /\ InvitationsService.allowed r
       = is_ok (fst (InvitationsService2.useInvitation "A1B2C3" "u2"
                       invitedWorld)).
Proof.
  apply (canRegister_allows_what_useInvitation_accepts "A1B2C3" "u2"
           invitedWorld); cbn; discriminate.
Defined.

Lemma findUnique_none_iff {R} (key : R -> Id) (k : Id) (t : list R) :
  findUnique key k t = None <-> forall r, In r t -> key r <> k.
Proof.
  unfold findUnique. split.
  - intros H r Hr E. pose proof (find_none _ _ H r Hr) as N. cbn in N.
    rewrite E, String.eqb_refl in N. discriminate.
  - intros H. destruct (find _ t) as [x|] eqn:F; [|reflexivity].
    apply find_some in F. destruct F as [Hin E].
    apply String.eqb_eq in E. now elim (H x Hin).
Qed.

Lemma NoDup_map_eq {R} (key : R -> Id) (t : list R) (a b : R) :
  NoDup (map key t) -> In a t -> In b t -> key a = key b -> a = b.
Proof.
  induction t as [|x t IH]; cbn; intros N Ha Hb E; [easy|].
  inversion N as [|? ? Hn Ht]; subst.
  destruct Ha as [->|Ha], Hb as [->|Hb]; auto.
  - elim Hn. rewrite E. now apply in_map.
  - elim Hn. rewrite <- E. now apply in_map.
Qed.

Lemma useInvitation_unknown (code : string) (userId : Id) (w : World) :
  findUnique InvitationCode.code code (invitationCode (db w)) = None ->
  InvitationsService2.useInvitation code userId w
  = (Throw (NotFoundException "Invitation code not found"),
     logged "invitation" "Invitation code not found" WARN w).
Proof.
  intros F. unfold InvitationsService2.useInvitation.
  unfold bind at 1, gets at 1. cbv beta iota. now rewrite F.
Qed.

Lemma canRegister_unknown (code : string) (w : World) :
  user (db w) <> [] -> code <> ""%string ->
  findUnique InvitationCode.code code (invitationCode (db w)) = None ->
  InvitationsService.canRegister (Some code) w
  = (Ok {| InvitationsService.allowed := false;
           InvitationsService.requiresCode := true;
           InvitationsService.message :=
             Some "Invalid invitation code"%string |}, w).
Proof.
  intros Hu Hc F. unfold InvitationsService.canRegister.
  unfold bind at 1, gets at 1. cbv beta iota.
  destruct (user (db w)) as [|u us]; [now elim Hu|].
  cbn [List.length Nat.eqb].
  destruct code as [|a r]; [now elim Hc|]. cbn [truthy negb].
  unfold bind at 1, gets at 1. cbv beta iota. now rewrite F.
Qed.

Lemma prismaDelete_run {R} (T : Table R) (k : Id) (w : World) (r : R) :
  findUnique (pk T) k (rows T (db w)) = Some r ->
  prismaDelete T k w
  = (Ok tt,
     with_db (with_rows T (delete (pk T) k (rows T (db w))) (db w)) w).
Proof.
  intros H. unfold prismaDelete.
  rewrite (bind_ok _ _ _ _ _ (prismaFindUnique_run T k w)), H.
  reflexivity.
Qed.

(** X4. Only its creator can delete an invitation, and only while it is
    unused. When [deleteInvitation] completes, the table held a row with
    the id, created by the caller and unused; the rows with that id are
    gone, every other row is kept in place and no other table has changed;
    the code of the row is from then on unknown to [useInvitation] and to
    [canRegister]. When every row with the id is someone else's or used,
    [deleteInvitation] throws [NotFoundException] and the store is
    unchanged. *)
Theorem deleteInvitation_revokes_own_unused_code :
  forall (id userId : Id) (w : World),
    NoDup (map InvitationCode.code (invitationCode (db w))) ->
    (forall ok w',
        InvitationsService2.deleteInvitation id userId w = (Ok ok, w') ->
        exists row,
          In row (invitationCode (db w))
          /\ InvitationCode.id row = id
          /\ InvitationCode.createdById row = userId
          /\ InvitationCode.usedAt row = None
          /\ invitationCode (db w')
             = filter (fun r => negb (String.eqb (InvitationCode.id r) id))
                 (invitationCode (db w))
          /\ same_tables_but_invitationCode (db w) (db w')
          /\ forall w2 : World,
               invitationCode (db w2) = invitationCode (db w') ->
               (forall u,
                   fst (InvitationsService2.useInvitation
                          (InvitationCode.code row) u w2)
                   = Throw (NotFoundException "Invitation code not found"))
               /\ (user (db w2) <> [] ->
                   InvitationCode.code row <> ""%string ->
                   fst (InvitationsService.canRegister
                          (Some (InvitationCode.code row)) w2)
                   = Ok {| InvitationsService.allowed := false;
                           InvitationsService.requiresCode := true;
                           InvitationsService.message :=
                             Some "Invalid invitation code"%string |}))
    /\ ((forall row,
            In row (invitationCode (db w)) ->
            InvitationCode.id row = id ->
            InvitationCode.createdById row <> userId
            \/ InvitationCode.usedAt row <> None) ->
        fst (InvitationsService2.deleteInvitation id userId w)
        = Throw (NotFoundException "Invitation not found or already used")
        /\ db (snd (InvitationsService2.deleteInvitation id userId w))
           = db w).
Proof.
  intros id userId w N. split.
  - intros ok w' H. unfold InvitationsService2.deleteInvitation in H.
    unfold bind at 1, gets at 1 in H. cbv beta iota in H.
    destruct (findFirst (InvitationsService2.deletable id userId)
                (invitationCode (db w))) as [row|] eqn:F; [|discriminate].
    unfold findFirst in F. apply find_some in F. destruct F as [Hin Hd].
    unfold InvitationsService2.deletable in Hd.
    apply andb_true_iff in Hd. destruct Hd as [Hd Hused].
    apply andb_true_iff in Hd. destruct Hd as [Hid Hby].
    apply String.eqb_eq in Hid. apply String.eqb_eq in Hby.
    destruct (InvitationCode.usedAt row) eqn:U; [discriminate|].
    destruct (findUnique_some_of_In InvitationCode.id _ _ Hin) as (r0 & G).
    rewrite Hid in G.
    rewrite (bind_ok _ _ _ _ _ (prismaDelete_run invitationCodeT id w r0 G))
      in H.
    unfold bind, log, modify, ret in H. cbv beta iota in H.
    injection H as <- <-.
    exists row. do 4 (split; [assumption || reflexivity|]).
    split; [reflexivity|]. split; [repeat split|].
    intros w2 T.
    cbn [db with_db with_logs rows with_rows invitationCodeT invitationCode
         with_invitationCode pk] in T.
    assert (findUnique InvitationCode.code (InvitationCode.code row)
              (invitationCode (db w2)) = None) as K.
    { rewrite T. apply findUnique_none_iff. intros r Hr E.
      unfold delete, deleteMany in Hr. apply filter_In in Hr.
      destruct Hr as [Hr Hne].
      pose proof (NoDup_map_eq _ _ _ _ N Hr Hin E) as ->.
      rewrite Hid, String.eqb_refl in Hne. discriminate. }
    split.
    + intros u. now rewrite useInvitation_unknown.
    + intros Hu Hc. now rewrite canRegister_unknown.
  - intros Hall. rewrite deleteInvitation_none; [split; reflexivity|].
    unfold findFirst.
    destruct (find _ _) as [row|] eqn:F; [|reflexivity].
    apply find_some in F. destruct F as [Hin Hd].
    unfold InvitationsService2.deletable in Hd.
    apply andb_true_iff in Hd. destruct Hd as [Hd Hused].
    apply andb_true_iff in Hd. destruct Hd as [Hid Hby].
    apply String.eqb_eq in Hid. apply String.eqb_eq in Hby.
    destruct (Hall row Hin Hid) as [C|C]; [now elim C|].
    destruct (InvitationCode.usedAt row); [discriminate|now elim C].
Qed.

Lemma deleteInvitation_revokes_own_unused_code_witness :
  exists w',
    InvitationsService2.deleteInvitation "i1" "u1" invitedWorld
    = (Ok true, w')
    /\ invitationCode (db w') = []
    /\ fst (InvitationsService2.useInvitation "A1B2C3" "u2" w')
       = Throw (NotFoundException "Invitation code not found").
Proof.
  assert (NoDup (map InvitationCode.code (invitationCode (db invitedWorld))))
    as N by (cbn; repeat constructor; cbn; tauto).
  destruct (completes _
              (InvitationsService2.deleteInvitation "i1" "u1" invitedWorld))
    as (ok & w' & E); [vm_compute; reflexivity|].
  destruct (deleteInvitation_revokes_own_unused_code "i1" "u1" invitedWorld N)
    as [Hok _].
  destruct (Hok ok w' E) as (row & Hin & _ & _ & _ & Ht & _ & Hlater).
  destruct Hin as [<-|[]].
  exists w'. split.
  - rewrite E. f_equal. f_equal.
    assert (fst (InvitationsService2.deleteInvitation "i1" "u1" invitedWorld)
            = Ok true) as V by (vm_compute; reflexivity).
    rewrite E in V. cbn in V. now injection V.
  - split; [exact Ht|]. apply (Hlater w' eq_refl).
Defined.

(** ** WebhookDispatcherService *)

Lemma existsb_eqb_In (event : string) (l : list string) :
  existsb (String.eqb event) l = true <-> In event l.
Proof.
  rewrite existsb_exists. split.
  - intros (x & Hx & E). apply String.eqb_eq in E. now subst.
  - intros H. exists event. split; [exact H|apply String.eqb_refl].
Qed.

Lemma Promise_all_ok_iff {A} (l : list (Result A)) :
  (exists rs, Promise_all l = Ok rs) <-> Forall (fun r => is_ok r = true) l.
Proof.
  split.
  - intros (rs & H). apply Promise_all_length in H. subst l.
    induction rs; cbn; constructor; auto.
  - apply Promise_all_fulfilled.
Qed.

Lemma dispatch_exact (event : WebhookEvent) (payload : Payload) (w : World) :
  exists webhooks w',
    WebhookDispatcherService.dispatch event payload w
    = (match Promise_all
               (map d_outcome
                  (deliveriesOf (host w) event payload webhooks)) with
       | Ok _ => Ok tt
       | Throw e => Throw e
       end, w')
    /\ (forall wh, In wh webhooks
                   <-> In wh (webhook (db w)) /\ subscribed event payload wh)
    /\ (NoDup (webhook (db w)) -> NoDup webhooks)
    /\ outbox w' = outbox w ++ deliveriesOf (host w) event payload webhooks
    /\ db w' = db w /\ mailbox w' = mailbox w.
Proof.
  unfold WebhookDispatcherService.dispatch.
  unfold bind at 1. unfold gets at 1. cbv beta iota.
  match goal with
  | |- context [WebhooksService.send ?whs _ _] =>
      exists whs;
      destruct (send_run whs event payload w)
        as (w1 & E & Ho & Hdb & Hh & Hm & Hc)
  end.
  unfold try_catch. unfold bind at 1. rewrite E.
  assert (forall w2 : World, exists w3,
            (log AppLogger INFO "webhook-dispatcher" "Webhook dispatched" w2
             = (Ok tt, w3))
            /\ outbox w3 = outbox w2 /\ db w3 = db w2
            /\ mailbox w3 = mailbox w2) as L1
    by (intros w2; eexists; split; [reflexivity|]; repeat split).
  destruct (Promise_all _) as [rs|e].
  - destruct (L1 w1) as (w3 & -> & Ho3 & Hdb3 & Hm3).
    exists w3. split; [reflexivity|].
    split; [|split; [|repeat split; congruence]].
    + intros wh. unfold findMany. rewrite filter_In, andb_true_iff.
      rewrite existsb_eqb_In. unfold subscribed.
      destruct (WebhookDispatcherService.payload_companyId payload) as [c|].
      * rewrite String.eqb_eq. split.
        -- intros (Hin & He & Hco). repeat split; auto.
           intros c' Hc'. now injection Hc' as <-.
        -- intros (Hin & He & Hco). repeat split; auto.
      * split.
        -- intros (Hin & He & _). repeat split; auto. discriminate.
        -- intros (Hin & He & _). repeat split; auto.
    + intros N. now apply NoDup_filter.
  - unfold bind, log, modify, throw. cbv beta iota.
    eexists. split; [reflexivity|].
    split; [|split; [|repeat split; assumption]].
    + intros wh. unfold findMany. rewrite filter_In, andb_true_iff.
      rewrite existsb_eqb_In. unfold subscribed.
      destruct (WebhookDispatcherService.payload_companyId payload) as [c|].
      * rewrite String.eqb_eq. split.
        -- intros (Hin & He & Hco). repeat split; auto.
           intros c' Hc'. now injection Hc' as <-.
        -- intros (Hin & He & Hco). repeat split; auto.
      * split.
        -- intros (Hin & He & _). repeat split; auto. discriminate.
        -- intros (Hin & He & _). repeat split; auto.
    + intros N. now apply NoDup_filter.
Qed.

(** X5. [dispatch] reaches the webhooks that subscribed to the event and,
    when the payload carries a company, belong to that company -- these
    and no others, each once. It attempts every one of these deliveries
    with the event and the payload it was given, never writes to the
    store, and completes exactly when every delivery was fulfilled;
    otherwise it throws. *)
Theorem dispatch_reaches_the_subscribed_webhooks :
  forall (event : WebhookEvent) (payload : Payload) (w : World),
  exists deliveries,
    outbox (snd (WebhookDispatcherService.dispatch event payload w))
    = outbox w ++ deliveries
    /\ (forall wh,
          In wh (map d_webhook deliveries)
          <-> In wh (webhook (db w)) /\ subscribed event payload wh)
    /\ (NoDup (webhook (db w)) -> NoDup (map d_webhook deliveries))
    /\ Forall (fun d => d_event d = event /\ d_payload d = payload)
         deliveries
    /\ db (snd (WebhookDispatcherService.dispatch event payload w)) = db w
    /\ (fst (WebhookDispatcherService.dispatch event payload w) = Ok tt
        <-> Forall (fun d => is_ok (d_outcome d) = true) deliveries).
Proof.
  intros event payload w.
  destruct (dispatch_exact event payload w)
    as (whs & w' & E & Hin & Hnd & Ho & Hdb & _).
  exists (deliveriesOf (host w) event payload whs).
  rewrite E. cbn [fst snd]. rewrite deliveriesOf_webhooks.
  split; [exact Ho|]. split; [exact Hin|]. split; [exact Hnd|].
  split; [apply deliveriesOf_event|]. split; [exact Hdb|].
  set (l := deliveriesOf (host w) event payload whs).
  assert (Forall (fun d => is_ok (d_outcome d) = true) l
          <-> Forall (fun r => is_ok r = true) (map d_outcome l)) as K.
  { clear. induction l; cbn; split; intros H; try constructor;
      inversion H; subst; auto; now apply IHl. }
  rewrite K, <- Promise_all_ok_iff.
  destruct (Promise_all (map d_outcome l)) as [rs|e].
  - split; [eauto|reflexivity].
  - split; [discriminate|]. intros (rs & H). discriminate.
Qed.

(** ** StatsService: the revenue of a month *)

Lemma map_ext_sum {A} (f g : A -> Number) (l : list A) :
  (forall a, f a = g a) -> sum_over f l = sum_over g l.
Proof.
  intros H. unfold sum_over. f_equal. now apply map_ext.
Qed.

Lemma or_zero_vat (d : Db) (r : Receipt.t) (item : ReceiptItem.t) :
  or_zero
    (option_map InvoiceItem.vatRate
       (find (fun ii =>
          String.eqb (InvoiceItem.invoiceId ii) (Receipt.invoiceId r)
          && String.eqb (InvoiceItem.id ii) (ReceiptItem.invoiceItemId item))
          (invoiceItem d)))
  = vatOfReceiptItem d r item.
Proof.
  unfold vatOfReceiptItem.
  destruct (find _ (invoiceItem d)) as [ii|]; [|reflexivity].
  cbn [option_map or_zero]. now destruct (InvoiceItem.vatRate ii).
Qed.

Lemma netOfReceipt_sum (d : Db) (r : Receipt.t) :
  StatsService.netOfReceipt d r = netAmount d r.
Proof.
  unfold StatsService.netOfReceipt, netAmount, findMany, sum_over.
  rewrite <- (fold_left_sum
                (fun item =>
                   (ReceiptItem.amountPaid item
                    / (1 + vatOfReceiptItem d r item / 100))%num)).
  apply fold_left_ext. intros a item. now rewrite or_zero_vat.
Qed.

Lemma monthsBeforeRounding_revenue (h : Host) (d : Db) (year : Z) :
  forall c i,
    fieldAt Revenue c i (monthsBeforeRounding h d year)
    = added_up 0%num
        (contributions (keyRevenue h d) c i
           (findMany
              (fun r => StatsService.inYear h year (Receipt.createdAt r))
              (receipt d))).
Proof.
  unfold monthsBeforeRounding.
  set (L1 := findMany _ (invoice d)).
  set (L2 := findMany _ (receipt d)).
  rewrite (fold_left_ext _ _ L1 (stepInvoiced_key h)).
  rewrite (fold_left_ext _ _ L2 (stepRevenue_key h d)).
  rewrite (fold_left_ext _ _ _ (stepDeposits_key h year)).
  destruct (fold_applyKey Invoiced (keyInvoiced h) L1 (keyInvoiced_lt h)
              [] map_ok_nil) as [Ok1 S1].
  destruct (fold_applyKey Revenue (keyRevenue h d) L2 (keyRevenue_lt h d)
              _ Ok1) as [Ok2 S2].
  destruct (fold_applyKey Deposits (keyDeposits h year)
              (StatsService.paidInvoices d) (keyDeposits_lt h year)
              _ Ok2) as [Ok3 S3].
  intros c i. rewrite S3, S2, S1. reflexivity.
Qed.

Lemma revenue_sum (h : Host) (d : Db) (year : Z) (c : Currency)
    (mo : Month) :
  contributions (keyRevenue h d) c (monthIndex mo)
    (findMany (fun r => StatsService.inYear h year (Receipt.createdAt r))
       (receipt d))
  = map (netAmount d) (filter (receiptIn h d year c mo) (receipt d)).
Proof.
  unfold findMany, contributions.
  induction (receipt d) as [|a L IH]; cbn [filter flat_map map];
    [reflexivity|].
  unfold receiptIn at 1.
  destruct (StatsService.inYear h year (Receipt.createdAt a));
    cbn [andb flat_map]; [|exact IH].
  unfold keyRevenue at 1.
  destruct (findUnique Invoice.id (Receipt.invoiceId a) (invoice d))
    as [inv|]; cbn [andb app]; [|exact IH].
  destruct (truthy (Some (Invoice.currency inv))); cbn [negb andb app];
    [|exact IH].
  destruct (String.eqb (Invoice.currency inv) c); cbn [andb app];
    [|exact IH].
  destruct (Nat.eqb _ _); cbn [app map]; [|exact IH].
  now rewrite IH, netOfReceipt_sum.
Qed.

(** X6. The [revenue] value that [getMonthlyStats] reports for a currency
    and a month is made of the amounts without VAT of the receipts created
    in that month of the requested year for invoices of that currency,
    active or not: they are added up in binary64 from 0 in the order of
    the store, and the sum is rounded to two decimals by [toFixed]. The
    amount without VAT of a receipt is the sum over its items, in
    binary64 likewise, of [amountPaid / (1 + vatRate / 100)] with the
    rate of the invoice item referred to. *)
Theorem monthly_revenue_is_net_of_receipts :
  forall (year : Z) (w : World) res (w' : World),
    StatsService.getMonthlyStats year w = (Ok res, w') ->
    forall c months,
      In (c, months) res ->
      forall mo : Month,
      exists s,
        nth_error months (monthIndex mo) = Some s
        /\ StatsService.revenue s
           = toFixed2
               (sum_over (netAmount (db w))
                  (filter (receiptIn (host w) (db w) year c mo)
                     (receipt (db w)))).
Proof.
  intros year w res w' H.
  apply getMonthlyStats_run in H. destruct H as [-> ->].
  destruct (monthsBeforeRounding_fields (host w) (db w) year)
    as [[Hnd Hok] _].
  pose proof (monthsBeforeRounding_revenue (host w) (db w) year) as Hf.
  set (m := monthsBeforeRounding (host w) (db w) year) in *.
  intros c months Hin mo.
  apply in_map_iff in Hin. destruct Hin as (e & He & Hin).
  unfold rounded in He. injection He as <- <-.
  rewrite Forall_forall in Hok.
  destruct (months_ok_nth _ (monthIndex mo) (Hok e Hin)
              (monthIndex_lt mo)) as (s & Hs & Hmonth).
  exists (StatsService.roundStat s).
  rewrite nth_error_map, Hs. split; [reflexivity|].
  specialize (Hf (fst e) (monthIndex mo)).
  unfold fieldAt in Hf.
  rewrite (lookup_In_NoDup m e Hnd Hin), Hs in Hf.
  cbn [getField] in Hf. cbn [StatsService.roundStat StatsService.revenue].
  unfold sum_over. rewrite Hf. do 2 f_equal. apply revenue_sum.
Qed.

Lemma monthly_revenue_is_net_of_receipts_witness :
  exists res,
    StatsService.getMonthlyStats 2024 revenueWorld = (Ok res, revenueWorld)
    /\ forall c months,
         In (c, months) res ->
         forall mo : Month,
         exists s,
           nth_error months (monthIndex mo) = Some s
           /\ StatsService.revenue s
              = toFixed2
                  (sum_over (netAmount (db revenueWorld))
                     (filter (receiptIn (host revenueWorld)
                                (db revenueWorld) 2024 c mo)
                        (receipt (db revenueWorld)))).
Proof.
  destruct (completes _ (StatsService.getMonthlyStats 2024 revenueWorld))
    as (res & w' & E); [vm_compute; reflexivity|].
  pose proof (monthly_revenue_is_net_of_receipts 2024 revenueWorld res w' E)
    as K.
  destruct (getMonthlyStats_run _ _ _ _ E) as [-> _].
  exists res. split; [exact E|exact K].
Defined.

(** ** SignaturesService: one-time codes *)

Lemma same_store_refl (w : World) : same_store w w.
Proof. reflexivity. Qed.

Lemma same_store_trans (a b c : World) :
  same_store a b -> same_store b c -> same_store a c.
Proof. unfold same_store. congruence. Qed.

Lemma store_log s l c m : preserves same_store (log s l c m).
Proof. apply preserves_modify. reflexivity. Qed.

Lemma store_dispatch event payload :
  preserves same_store (WebhookDispatcherService.dispatch event payload).
Proof.
  intros w r w' H.
  destruct (dispatch_run event payload w) as (r1 & w1 & E & Hdb & Hh & _).
  rewrite E in H. injection H as _ <-. unfold same_store. congruence.
Qed.

Lemma store_sendMail o : preserves same_store (MailService.sendMail o).
Proof.
  unfold MailService.sendMail, log.
  frame_by same_store_refl same_store_trans.
Qed.

#[local] Hint Resolve same_store_refl store_log store_dispatch
  store_sendMail : frame.

Ltac frame_store := frame_by same_store_refl same_store_trans.

Lemma store_sendOtpToUser email otp :
  preserves same_store (SignaturesService.sendOtpToUser email otp).
Proof. unfold SignaturesService.sendOtpToUser. frame_store. Qed.

(** A guarded dispatch leaves the store and the host alone. *)
Lemma try_dispatch_store (event : WebhookEvent) (payload : Payload)
    (s : LogSink) (l : LogLevel) (cat msg : string) (w : World) :
  exists w',
    try_catch (WebhookDispatcherService.dispatch event payload)
      (fun _ => log s l cat msg) w = (Ok tt, w')
    /\ same_store w w'.
Proof.
  destruct (try_dispatch_run event payload s l cat msg w)
    as (w' & E & Hdb & Hh & _).
  exists w'. split; [exact E|]. unfold same_store. congruence.
Qed.

Lemma find_In_key {R} (p : R -> bool) (key : R -> Id) (t : list R) (r : R) :
  NoDup (map key t) -> find p t = Some r ->
  findUnique key (key r) t = Some r.
Proof.
  intros N F. apply find_some in F. destruct F as [Hin _].
  now apply findUnique_NoDup.
Qed.

Lemma generateOTPCode_run (sid : Id) (w : World) (msg : string)
    (w1 : World) :
  NoDup (map Signature.id (signature (db w))) ->
  SignaturesService.generateOTPCode sid w = (Ok msg, w1) ->
  exists s q,
    In s (signature (db w)) /\ Signature.id s = sid
    /\ Signature.isActive s = true
    /\ findUnique Quote.id (Signature.quoteId s) (quote (db w)) = Some q
    /\ db w1
       = with_signature
           (update Signature.id sid
              (Signature.with_otp (randomOtp (host w))
                 (now (host w) + SignaturesService.fifteenMinutes))
              (signature (db w))) (db w)
    /\ host w1 = host w.
Proof.
  intros N H. unfold SignaturesService.generateOTPCode in H.
  unfold bind at 1, gets at 1 in H. cbv beta iota in H.
  destruct (findFirst _ (signature (db w))) as [s|] eqn:F.
  2:{ unfold bind at 1, ret at 1 in H. cbv beta iota in H. discriminate. }
  assert (exists x,
            (quote <- prismaFindUnique quoteT (Signature.quoteId s) ;;
             match quote with
             | Some q => SignaturesService.contactEmailOf (Quote.clientId q)
             | None => ret None
             end) w = (Ok x, w)
            /\ (x <> None ->
                exists q, findUnique Quote.id (Signature.quoteId s)
                            (quote (db w)) = Some q)) as (x & Ex & Hq).
  { rewrite (bind_ok _ _ _ _ _ (prismaFindUnique_run quoteT _ w)).
    cbn [rows pk quoteT].
    destruct (findUnique Quote.id (Signature.quoteId s) (quote (db w)))
      as [q|] eqn:Fq.
    - destruct (contactEmailOf_run (Quote.clientId q) w) as (x & Ex).
      exists x. split; [exact Ex|]. eauto.
    - exists None. split; [reflexivity|]. intros K. now elim K. }
  rewrite (bind_ok _ _ _ _ _ Ex) in H.
  destruct x as [email|]; [|discriminate].
  destruct Hq as (q & Fq); [discriminate|].
  unfold bind at 1, gets at 1 in H. cbv beta iota in H.
  unfold bind at 1, gets at 1 in H. cbv beta iota in H.
  pose proof F as F0. unfold findFirst in F0. apply find_some in F0.
  destruct F0 as [Hin Hp]. apply andb_true_iff in Hp.
  destruct Hp as [Hid Hact]. apply String.eqb_eq in Hid.
  assert (findUnique Signature.id sid (signature (db w)) = Some s) as Fs
    by (rewrite <- Hid; now apply findUnique_NoDup).
  rewrite (bind_ok _ _ _ _ _ (prismaUpdate_run signatureT sid _ w s Fs)) in H.
  match type of H with
  | context [bind (SignaturesService.sendOtpToUser ?e ?o) _ ?w0] =>
      destruct (SignaturesService.sendOtpToUser e o w0) as [[b|err] w2] eqn:S;
      pose proof (store_sendOtpToUser e o _ _ _ S) as D
  end.
  2:{ rewrite (bind_throw _ _ _ _ _ S) in H. discriminate. }
  rewrite (bind_ok _ _ _ _ _ S) in H.
  match type of H with
  | context [bind (try_catch (WebhookDispatcherService.dispatch ?e ?p)
                     (fun _ => log ?s ?l ?c ?m)) _ ?w0] =>
      destruct (try_dispatch_store e p s l c m w0) as (w3 & E3 & D3);
      rewrite (bind_ok _ _ _ _ _ E3) in H
  end.
  unfold bind, log, modify, ret in H. injection H as <- <-.
  unfold same_store in D, D3. injection D as Dd Dh. injection D3 as Dd3 Dh3.
  exists s, q. repeat (split; [assumption|]).
  cbn [db host with_logs]. rewrite Dh3, Dd3, Dh, Dd. split; reflexivity.
Qed.

Lemma signQuote_ok (sid : Id) (otp : string) (w : World)
    (s : Signature.t) (q : Quote.t) :
  findFirst (SignaturesService.signable sid otp (now (host w)))
    (signature (db w)) = Some s ->
  findUnique Quote.id (Signature.quoteId s) (quote (db w)) = Some q ->
  exists w',
    SignaturesService.signQuote sid otp w
    = (Ok "Quote signed successfully."%string, w')
    /\ quote (db w')
       = update Quote.id (Signature.quoteId s) (Quote.with_status Q_SIGNED)
           (quote (db w))
    /\ signature (db w')
       = update Signature.id (Signature.id s)
           (Signature.with_signed (now (host w))) (signature (db w)).
Proof.
  intros F Fq. unfold SignaturesService.signQuote.
  unfold bind at 1, gets at 1. cbv beta iota.
  unfold bind at 1, gets at 1. cbv beta iota. rewrite F.
  pose proof F as F0. unfold findFirst in F0. apply find_some in F0.
  destruct F0 as [Hin _].
  destruct (findUnique_some_of_In Signature.id _ _ Hin) as (s0 & Fs).
  rewrite (bind_ok _ _ _ _ _
             (prismaUpdate_run signatureT _ _ w s0 Fs)).
  match goal with
  | |- context [bind (prismaUpdate quoteT ?k ?f) _ ?w0] =>
      rewrite (bind_ok _ _ _ _ _ (prismaUpdate_run quoteT k f w0 q Fq))
  end.
  match goal with
  | |- context [bind (try_catch (WebhookDispatcherService.dispatch ?e ?p)
                        (fun _ => log ?s ?l ?c ?m)) _ ?w0] =>
      destruct (try_dispatch_store e p s l c m w0) as (w3 & E3 & D3);
      rewrite (bind_ok _ _ _ _ _ E3)
  end.
  unfold bind, log, modify, ret. cbv beta iota.
  eexists. split; [reflexivity|].
  unfold same_store in D3. injection D3 as Dd3 _.
  cbn [db with_logs]. rewrite Dd3. split; reflexivity.
Qed.

Lemma signQuote_refused (sid : Id) (otp : string) (w : World) :
  findFirst (SignaturesService.signable sid otp (now (host w)))
    (signature (db w)) = None ->
  SignaturesService.signQuote sid otp w
  = (Throw (BadRequestException "Invalid or expired OTP code."),
     logged "signature" "Invalid or expired OTP code." ERROR w).
Proof.
  intros F. unfold SignaturesService.signQuote.
  unfold bind at 1, gets at 1. cbv beta iota.
  unfold bind at 1, gets at 1. cbv beta iota. now rewrite F.
Qed.

Lemma find_update_none {R} (key : R -> Id) (k : Id) (f : R -> R)
    (p : R -> bool) (t : list R) :
  (forall r, In r t -> key r = k -> p (f r) = false) ->
  (forall r, In r t -> key r <> k -> p r = false) ->
  find p (update key k f t) = None.
Proof.
  intros H1 H2. unfold update. apply find_map_none. intros r Hr.
  destruct (String.eqb (key r) k) eqn:E.
  - apply String.eqb_eq in E. auto.
  - apply String.eqb_neq in E. auto.
Qed.

Lemma find_update_unique {R} (key : R -> Id) (k : Id) (f : R -> R)
    (p : R -> bool) (t : list R) (s : R) :
  In s t -> key s = k -> p (f s) = true ->
  (forall r, In r t -> p (f r) = true -> key r = k -> r = s) ->
  (forall r, In r t -> key r <> k -> p r = false) ->
  find p (update key k f t) = Some (f s).
Proof.
  unfold update. induction t as [|a t IH]; cbn; intros Hin Hk Hp Hu Ho;
    [easy|].
  destruct (String.eqb (key a) k) eqn:E.
  - apply String.eqb_eq in E.
    destruct (p (f a)) eqn:Pa.
    + now rewrite (Hu a (or_introl eq_refl) Pa E).
    + destruct Hin as [->|Hin]; [congruence|]. apply IH; auto.
  - apply String.eqb_neq in E. rewrite (Ho a (or_introl eq_refl) E).
    destruct Hin as [->|Hin]; [congruence|]. apply IH; auto.
Qed.

(** X7. A one-time code signs for fifteen minutes. When [generateOTPCode]
    completes, the signature carries the generated code, unused, with an
    expiry fifteen minutes after the generation. With the store as it was
    left, [signQuote] with that code completes and the quote is SIGNED as
    long as the clock has not passed the expiry; past it, or with any
    other code, [signQuote] throws and writes nothing. *)
Theorem otp_signs_within_fifteen_minutes :
  forall (sid : Id) (w : World) (msg : string) (w1 : World),
    NoDup (map Signature.id (signature (db w))) ->
    SignaturesService.generateOTPCode sid w = (Ok msg, w1) ->
    exists s,
      In s (signature (db w)) /\ Signature.id s = sid
      /\ Signature.isActive s = true
      /\ findUnique Signature.id sid (signature (db w1))
         = Some (Signature.with_otp (randomOtp (host w))
                   (now (host w) + SignaturesService.fifteenMinutes) s)
      /\ forall w2 : World,
           db w2 = db w1 ->
           (now (host w2) <= now (host w) + SignaturesService.fifteenMinutes ->
            fst (SignaturesService.signQuote sid (randomOtp (host w)) w2)
            = Ok "Quote signed successfully."%string
            /\ statusOfQuote
                 (db (snd (SignaturesService.signQuote sid
                             (randomOtp (host w)) w2)))
                 (Signature.quoteId s) = Some Q_SIGNED)
           /\ (now (host w) + SignaturesService.fifteenMinutes < now (host w2) ->
               fst (SignaturesService.signQuote sid (randomOtp (host w)) w2)
               = Throw (BadRequestException "Invalid or expired OTP code.")
               /\ db (snd (SignaturesService.signQuote sid
                             (randomOtp (host w)) w2)) = db w2)
           /\ (forall other,
                 other <> randomOtp (host w) ->
                 fst (SignaturesService.signQuote sid other w2)
                 = Throw (BadRequestException "Invalid or expired OTP code.")
                 /\ db (snd (SignaturesService.signQuote sid other w2))
                    = db w2).
Proof.
  intros sid w msg w1 N H.
  destruct (generateOTPCode_run _ _ _ _ N H)
    as (s & q & Hin & Hid & Hact & Fq & Hdb & Hh).
  set (otp := randomOtp (host w)) in *.
  set (deadline := now (host w) + SignaturesService.fifteenMinutes) in *.
  assert (forall r, In r (signature (db w)) -> Signature.id r = sid -> r = s)
    as Uniq.
  { intros r Hr Er. apply (NoDup_map_eq Signature.id _ _ _ N Hr Hin).
    congruence. }
  exists s. do 3 (split; [assumption|]). split.
  { rewrite Hdb. cbn [signature with_signature].
    rewrite findUnique_update by reflexivity.
    rewrite <- Hid at 1. now rewrite (findUnique_NoDup _ _ _ N Hin). }
  intros w2 D. rewrite Hdb in D.
  assert (forall code t,
            (forall r, In r (signature (db w)) ->
                       Signature.id r <> sid ->
                       SignaturesService.signable sid code t r = false))
    as Other.
  { intros code t r _ Hne. unfold SignaturesService.signable.
    apply String.eqb_neq in Hne. now rewrite Hne. }
  split; [|split].
  - intros Ht.
    assert (findFirst
              (SignaturesService.signable sid otp (now (host w2)))
              (signature (db w2))
            = Some (Signature.with_otp otp deadline s)) as F.
    { rewrite D. cbn [signature with_signature]. unfold findFirst.
      apply find_update_unique;
        [exact Hin|exact Hid| |intros r Hr _ Er; now apply Uniq|apply Other].
      unfold SignaturesService.signable. cbn.
      rewrite Hid, Hact, !String.eqb_refl. cbn. now apply Z.leb_le. }
    assert (findUnique Quote.id
              (Signature.quoteId (Signature.with_otp otp deadline s))
              (quote (db w2)) = Some q) as Fq2
      by (rewrite D; exact Fq).
    destruct (signQuote_ok _ _ _ _ _ F Fq2) as (w3 & E & Hq & _).
    rewrite E. cbn [fst snd]. split; [reflexivity|].
    unfold statusOfQuote. rewrite Hq. cbn [Signature.quoteId
      Signature.with_otp].
    rewrite findUnique_update by reflexivity.
    rewrite D. cbn [quote with_signature]. now rewrite Fq.
  - intros Ht. rewrite signQuote_refused; [split; reflexivity|].
    rewrite D. cbn [signature with_signature]. unfold findFirst.
    apply find_update_none; [|apply Other].
    intros r _ _. unfold SignaturesService.signable. cbn.
    assert ((now (host w2) <=? deadline) = false) as -> by (apply Z.leb_gt; lia).
    now rewrite andb_false_r.
  - intros other Hne. rewrite signQuote_refused; [split; reflexivity|].
    rewrite D. cbn [signature with_signature]. unfold findFirst.
    apply find_update_none; [|apply Other].
    intros r _ _. unfold SignaturesService.signable. cbn.
    assert (String.eqb otp other = false) as ->
      by (apply String.eqb_neq; congruence).
    now rewrite andb_false_r.
Qed.

Lemma otp_signs_within_fifteen_minutes_witness :
  exists msg w1,
    SignaturesService.generateOTPCode "s1" pendingWorld = (Ok msg, w1)
    /\ fst (SignaturesService.signQuote "s1" "12345678" w1)
       = Ok "Quote signed successfully."%string
    /\ fst (SignaturesService.signQuote "s1" "12345678"
              (with_now (now (host pendingWorld) + 900001) w1))
       = Throw (BadRequestException "Invalid or expired OTP code.").
Proof.
  destruct (completes _
              (SignaturesService.generateOTPCode "s1" pendingWorld))
    as (msg & w1 & E); [vm_compute; reflexivity|].
  assert (NoDup (map Signature.id (signature (db pendingWorld)))) as N
    by (cbn; repeat constructor; cbn; tauto).
  destruct (otp_signs_within_fifteen_minutes "s1" pendingWorld msg w1 N E)
    as (s & _ & _ & _ & _ & Hlater).
  exists msg, w1. split; [exact E|]. split.
  - destruct (Hlater w1 eq_refl) as (Hok & _ & _).
    apply Hok.
    assert (host w1 = host pendingWorld) as ->.
    { destruct (generateOTPCode_run _ _ _ _ N E)
        as (? & ? & _ & _ & _ & _ & _ & Hh). exact Hh. }
    cbn. unfold SignaturesService.fifteenMinutes. lia.
  - destruct (Hlater (with_now (now (host pendingWorld) + 900001) w1)
                eq_refl) as (_ & Hlate & _).
    apply Hlate. cbn. unfold SignaturesService.fifteenMinutes. lia.
Defined.

(** X8. A signed code cannot be replayed. When [signQuote] completes,
    every row of the signature carries [otpUsed] and the time of
    signature; with the table of signatures as it was left, [signQuote] on
    that signature throws whatever the code and writes nothing. *)
Theorem signQuote_cannot_be_replayed :
  forall (sid : Id) (otp : string) (w : World) (msg : string) (w' : World),
    SignaturesService.signQuote sid otp w = (Ok msg, w') ->
    (forall s, In s (signature (db w')) -> Signature.id s = sid ->
               Signature.otpUsed s = true
               /\ Signature.signedAt s = Some (now (host w)))
    /\ forall w2 : World,
         signature (db w2) = signature (db w') ->
         forall otp',
           fst (SignaturesService.signQuote sid otp' w2)
           = Throw (BadRequestException "Invalid or expired OTP code.")
           /\ db (snd (SignaturesService.signQuote sid otp' w2)) = db w2.
Proof.
  intros sid otp w msg w' H.
  destruct (signQuote_quotes _ _ _ _ _ H) as (Hok & _ & _).
  destruct (Hok msg eq_refl) as (s & q & F & Fq & _).
  destruct (signQuote_ok _ _ _ _ _ F Fq) as (w3 & E & _ & Hs).
  rewrite E in H. injection H as _ <-.
  assert (Signature.id s = sid) as Hid.
  { unfold findFirst in F. apply find_some in F. destruct F as [_ Hp].
    unfold SignaturesService.signable in Hp.
    repeat (apply andb_true_iff in Hp; destruct Hp as [Hp _]).
    now apply String.eqb_eq. }
  rewrite Hid in Hs. split.
  - intros r Hr Er. rewrite Hs in Hr. unfold update in Hr.
    apply in_map_iff in Hr. destruct Hr as (r0 & <- & _).
    destruct (String.eqb (Signature.id r0) sid) eqn:K.
    + split; reflexivity.
    + cbn in Er. rewrite Er, String.eqb_refl in K. discriminate.
  - intros w2 T otp'. rewrite signQuote_refused; [split; reflexivity|].
    rewrite T, Hs. unfold findFirst. apply find_update_none.
    + intros r _ _. unfold SignaturesService.signable. cbn.
      now rewrite !andb_false_r.
    + intros r _ Hne. unfold SignaturesService.signable.
      apply String.eqb_neq in Hne. now rewrite Hne.
Qed.

Lemma signQuote_cannot_be_replayed_witness :
  exists w1 msg w',
    w1 = snd (SignaturesService.generateOTPCode "s1" pendingWorld)
    /\ SignaturesService.signQuote "s1" "12345678" w1 = (Ok msg, w')
    /\ fst (SignaturesService.signQuote "s1" "12345678" w')
       = Throw (BadRequestException "Invalid or expired OTP code.").
Proof.
  set (w1 := snd (SignaturesService.generateOTPCode "s1" pendingWorld)).
  destruct (completes _ (SignaturesService.signQuote "s1" "12345678" w1))
    as (msg & w' & E); [vm_compute; reflexivity|].
  exists w1, msg, w'. split; [reflexivity|]. split; [exact E|].
  destruct (signQuote_cannot_be_replayed "s1" "12345678" w1 msg w' E)
    as [_ Hlater].
  apply (Hlater w' eq_refl).
Defined.

(** ** InvoicesService: the items of an edited invoice *)

Lemma filter_filter_comm {A} (p q : A -> bool) (l : list A) :
  filter p (filter q l) = filter q (filter p l).
Proof.
  induction l as [|a l IH]; cbn; [reflexivity|].
  destruct (p a) eqn:P, (q a) eqn:Q; cbn; rewrite ?P, ?Q, IH; reflexivity.
Qed.

Lemma filter_map_keys {A} (p : A -> bool) (g : A -> A) (l : list A) :
  (forall a, p (g a) = p a) -> filter p (map g l) = map g (filter p l).
Proof.
  intros H. induction l as [|a l IH]; cbn; [reflexivity|].
  rewrite H. destruct (p a); cbn; now rewrite IH.
Qed.

Lemma filter_all {A} (p : A -> bool) (l : list A) :
  (forall a, In a l -> p a = true) -> filter p l = l.
Proof.
  induction l as [|a l IH]; cbn; intros H; [reflexivity|].
  rewrite (H a) by auto. f_equal. apply IH. auto.
Qed.

Lemma map_id_in {A} (g : A -> A) (l : list A) :
  (forall a, In a l -> g a = a) -> map g l = l.
Proof.
  induction l as [|a l IH]; cbn; intros H; [reflexivity|].
  rewrite (H a) by auto. f_equal. apply IH. auto.
Qed.

Lemma itemRows_invoiceId (exempt : bool) (id k : Id)
    (items : list InvoiceItemDto.t) :
  forall n,
    filter (fun it => String.eqb (InvoiceItem.invoiceId it) k)
      (itemRows exempt id n items)
    = if String.eqb id k then itemRows exempt id n items else [].
Proof.
  induction items as [|i items IH]; intros n; cbn.
  - now destruct (String.eqb id k).
  - rewrite IH. now destruct (String.eqb id k).
Qed.

Lemma rowUpdates_other (exempt : bool) (id : Id)
    (l : list InvoiceItemDto.t) (r : InvoiceItem.t) :
  InvoiceItem.invoiceId r <> id -> rowUpdates exempt id l r = r.
Proof.
  intros Hne. unfold rowUpdates. induction l as [|i l IH]; cbn; [easy|].
  assert (rowUpdate exempt id r i = r) as ->; [|exact IH].
  unfold rowUpdate. destruct (InvoiceItemDto.id i); [|reflexivity].
  apply String.eqb_neq in Hne. now rewrite Hne.
Qed.

(** X9. [editInvoice] reconciles the stored items with the payload. When
    it completes, the items stored for the invoice are the previously
    stored ones whose id the payload names, in their order and rewritten
    by the payload entries that name them, followed by one new row for
    every payload entry without an id, in the order of the payload; stored
    items that the payload does not name are gone, and the items of every
    other invoice are untouched. *)
Theorem editInvoice_reconciles_items :
  forall (body : EditInvoicesDto.t) (w : World) (view : InvoiceView.t)
         (w' : World),
    InvoicesService.editInvoice body w = (Ok view, w') ->
    exists id co n,
      EditInvoicesDto.id body = Some id
      /\ hd_error (company (db w)) = Some co
      /\ storedItems (db w') id
         = map (rowUpdates (InvoicesService.isVatExemptFrance co) id
                  (filter InvoicesService.hasId (EditInvoicesDto.items body)))
             (keptItems (EditInvoicesDto.items body) (storedItems (db w) id))
           ++ itemRows (InvoicesService.isVatExemptFrance co) id n
                (newEntries (EditInvoicesDto.items body))
      /\ (forall k, k <> id -> storedItems (db w') k = storedItems (db w) k).
Proof.
  intros body w view w' H.
  destruct (editInvoice_run _ _ _ _ H)
    as (id & co & cl & ex & w1 & Hid & Hco & _ & _ & E & Hdb).
  destruct (updateInvoiceRecord_run _ _ _ _ _ _ _ _ E)
    as (row & n & _ & _ & _ & Hitems).
  exists id, co, n. split; [exact Hid|]. split; [exact Hco|].
  set (exempt := InvoicesService.isVatExemptFrance co) in *.
  set (items := EditInvoicesDto.items body) in *.
  assert (forall k,
            storedItems (db w') k
            = map (rowUpdates exempt id (filter InvoicesService.hasId items))
                (filter (fun it =>
                   negb (String.eqb (InvoiceItem.invoiceId it) id
                         && InvoicesService.includes
                              (itemIdsToDelete id items (db w))
                              (InvoiceItem.id it)))
                   (storedItems (db w) k))
              ++ (if String.eqb id k
                  then itemRows exempt id n (newEntries items) else []))
    as K.
  { intros k. unfold storedItems, findMany. rewrite Hdb, Hitems.
    rewrite filter_app, itemRows_invoiceId. f_equal.
    rewrite filter_map_keys
      by (intros a; now destruct (rowUpdates_keys exempt id
                                    (filter InvoicesService.hasId items) a)
                      as [_ ->]).
    unfold deleteMany. now rewrite filter_filter_comm. }
  split.
  - rewrite K, String.eqb_refl. f_equal. f_equal. unfold keptItems.
    apply filter_ext_in. intros it Hit.
    unfold storedItems, findMany in Hit. apply filter_In in Hit.
    destruct Hit as [Hin Hinv]. rewrite Hinv. cbn [andb].
    unfold itemIdsToDelete.
    destruct (InvoicesService.includes
                (InvoicesService.incomingItemIds items) (InvoiceItem.id it))
      eqn:Inc.
    + apply negb_true_iff.
      match goal with
      | |- ?X = false => destruct X eqn:D; [|reflexivity]
      end.
      apply includes_In in D. apply filter_In in D. destruct D as [_ D].
      rewrite Inc in D. discriminate.
    + apply negb_false_iff. apply includes_In. apply filter_In.
      split; [|now rewrite Inc].
      apply in_map. unfold storedItems, findMany. apply filter_In. auto.
  - intros k Hne. rewrite K.
    assert (String.eqb id k = false) as ->
      by (apply String.eqb_neq; congruence).
    rewrite app_nil_r.
    rewrite (filter_all _ (storedItems (db w) k)).
    + apply map_id_in. intros it Hit. apply rowUpdates_other.
      unfold storedItems, findMany in Hit. apply filter_In in Hit.
      destruct Hit as [_ Hinv]. apply String.eqb_eq in Hinv. congruence.
    + intros it Hit. unfold storedItems, findMany in Hit.
      apply filter_In in Hit. destruct Hit as [_ Hinv].
      apply String.eqb_eq in Hinv.
      assert (String.eqb (InvoiceItem.invoiceId it) id = false) as ->
        by (apply String.eqb_neq; congruence).
      reflexivity.
Qed.

Lemma editInvoice_reconciles_items_witness :
  exists view w',
    InvoicesService.editInvoice editOfInvoice1 twoItemsWorld = (Ok view, w')
    /\ exists id co n,
         EditInvoicesDto.id editOfInvoice1 = Some id
         /\ hd_error (company (db twoItemsWorld)) = Some co
         /\ storedItems (db w') id
            = map (rowUpdates (InvoicesService.isVatExemptFrance co) id
                     (filter InvoicesService.hasId
                        (EditInvoicesDto.items editOfInvoice1)))
                (keptItems (EditInvoicesDto.items editOfInvoice1)
                   (storedItems (db twoItemsWorld) id))
              ++ itemRows (InvoicesService.isVatExemptFrance co) id n
                   (newEntries (EditInvoicesDto.items editOfInvoice1))
         /\ (forall k, k <> id ->
                storedItems (db w') k = storedItems (db twoItemsWorld) k).
Proof.
  destruct (completes _
              (InvoicesService.editInvoice editOfInvoice1 twoItemsWorld))
    as (view & w' & E); [vm_compute; reflexivity|].
  exists view, w'. split; [exact E|].
  exact (editInvoice_reconciles_items _ _ _ _ E).
Defined.

(** ** ClientsService: creating and editing a client *)

Lemma chars_nonempty (s : string) :
  Forall (fun t => t <> ""%string) (chars s).
Proof.
  induction s as [|c r IH]; cbn [chars]; [constructor|].
  destruct (chars r) as [|[|d t] ts].
  - constructor; [discriminate|constructor].
  - constructor; [discriminate|exact IH].
  - inversion IH as [|? ? _ Hts]; subst.
    destruct (isContinuation d); repeat constructor; try discriminate;
      exact Hts.
Qed.

Lemma concat_empty (l : list string) :
  Forall (fun t => t <> ""%string) l ->
  String.concat "" l = ""%string <-> l = [].
Proof.
  intros H. destruct l as [|t l]; cbn; [tauto|].
  inversion H as [|? ? Ht _]; subst.
  split; [|discriminate]. intros E. exfalso.
  destruct l; [now apply Ht|].
  destruct t; [now apply Ht|discriminate].
Qed.

Lemma dropWhile_In {A} (p : A -> bool) (l : list A) (x : A) :
  In x (dropWhile p l) -> In x l.
Proof.
  induction l as [|a l IH]; cbn; [auto|].
  destruct (p a); [auto|]. intros H. exact H.
Qed.

Lemma dropWhile_nil {A} (p : A -> bool) (l : list A) :
  dropWhile p l = [] <-> forallb p l = true.
Proof.
  induction l as [|a l IH]; cbn; [tauto|].
  destruct (p a); cbn; [exact IH|]. split; discriminate.
Qed.

Lemma dropWhile_forallb {A} (p : A -> bool) (l : list A) :
  forallb p (dropWhile p l) = forallb p l.
Proof.
  induction l as [|a l IH]; cbn; [reflexivity|].
  destruct (p a) eqn:E; cbn; [exact IH|now rewrite E].
Qed.

Lemma forallb_reversed {A} (p : A -> bool) (l : list A) :
  forallb p (rev l) = forallb p l.
Proof.
  induction l as [|a l IH]; cbn; [reflexivity|].
  rewrite forallb_app, IH. cbn. rewrite andb_true_r. apply andb_comm.
Qed.

(** [trim] leaves nothing exactly when every character is white space. *)
Lemma trim_empty (s : string) :
  trim s = ""%string <-> forallb isWhiteSpace (chars s) = true.
Proof.
  unfold trim. rewrite concat_empty.
  - split.
    + intros H. apply (f_equal (@rev string)) in H.
      rewrite rev_involutive in H. cbn in H.
      apply dropWhile_nil in H.
      now rewrite forallb_reversed, dropWhile_forallb in H.
    + intros H. rewrite <- dropWhile_forallb, <- forallb_reversed in H.
      apply dropWhile_nil in H. now rewrite H.
  - apply Forall_forall. intros t Ht.
    apply in_rev, dropWhile_In, in_rev, dropWhile_In in Ht.
    pose proof (chars_nonempty s) as N. rewrite Forall_forall in N. auto.
Qed.

Lemma missing_filled (x : option string) :
  missing x = false <-> filled x.
Proof.
  unfold missing, filled. destruct x as [s|]; cbn.
  - assert (String.eqb (trim s) "" = false
            <-> exists ch, In ch (chars s) /\ isWhiteSpace ch = false) as K.
    { rewrite String.eqb_neq, trim_empty. split.
      - intros N. induction (chars s) as [|a l IH].
        + now elim N.
        + cbn [forallb] in N. destruct (isWhiteSpace a) eqn:W.
          * destruct (IH N) as (c & Hc & Wc).
            exists c. split; [now right|exact Wc].
          * exists a. split; [now left|exact W].
      - intros (c & Hc & Wc) F. rewrite forallb_forall in F.
        rewrite (F c Hc) in Wc. discriminate. }
    destruct s as [|a r].
    + cbn. split; [discriminate|].
      intros (s & c & E & Hc & _). injection E as <-. destruct Hc.
    + cbn [truthy negb orb]. rewrite K. split.
      * intros (c & Hc & Wc). exists (String a r), c. auto.
      * intros (s & c & E & Hc & Wc). injection E as <-. eauto.
  - split; [discriminate|]. intros (s & c & E & _). discriminate.
Qed.

Lemma validate_run (type : ClientType) (data : EditClientsDto.t)
    (w : World) :
  (exists msg,
      ClientsService2.validate type data w
      = (Throw (BadRequestException msg), logged "client" msg ERROR w)
      /\ match type with
         | INDIVIDUAL =>
             (msg = "First name is required for individual clients"%string
              /\ ~ filled (EditClientsDto.contactFirstname data))
             \/ (msg = "Last name is required for individual clients"%string
                 /\ filled (EditClientsDto.contactFirstname data)
                 /\ ~ filled (EditClientsDto.contactLastname data))
         | COMPANY =>
             (msg = "Company name is required for company clients"%string
              /\ ~ filled (EditClientsDto.name data))
             \/ (msg = "SIRET/SIREN (legalId) is required for company clients"%string
                 /\ filled (EditClientsDto.name data)
                 /\ ~ filled (EditClientsDto.legalId data))
         end)
  \/ (ClientsService2.validate type data w = (Ok tt, w)
      /\ match type with
         | INDIVIDUAL =>
             filled (EditClientsDto.contactFirstname data)
             /\ filled (EditClientsDto.contactLastname data)
         | COMPANY =>
             filled (EditClientsDto.name data)
             /\ filled (EditClientsDto.legalId data)
         end).
Proof.
  assert (forall x, missing x = true -> ~ filled x) as Hm.
  { intros x M F. apply missing_filled in F. congruence. }
  unfold ClientsService2.validate. destruct type.
  - destruct (missing (EditClientsDto.name data)) eqn:M1.
    + left. eexists. split; [reflexivity|]. left. auto.
    + apply missing_filled in M1.
      destruct (missing (EditClientsDto.legalId data)) eqn:M2.
      * left. eexists. split; [reflexivity|]. right. auto.
      * apply missing_filled in M2. right. auto.
  - destruct (missing (EditClientsDto.contactFirstname data)) eqn:M1.
    + left. eexists. split; [reflexivity|]. left. auto.
    + apply missing_filled in M1.
      destruct (missing (EditClientsDto.contactLastname data)) eqn:M2.
      * left. eexists. split; [reflexivity|]. right. auto.
      * apply missing_filled in M2. right. auto.
Qed.

Lemma createClient_run (dT : ClientType) (dA : bool)
    (dto : EditClientsDto.t) (w : World) :
  let type := ClientsService2.typeOf (EditClientsDto.type dto) in
  let c := ClientsService2.clientData dT dA dto (genId (cuid w)) in
  (exists e w',
      ClientsService2.createClient dT dA dto w = (Throw e, w')
      /\ db w' = db w
      /\ (ClientsService2.validate type dto w = (Ok tt, w) ->
          findUnique Client.id (Client.id c) (client (db w)) <> None))
  \/ (exists w',
        ClientsService2.createClient dT dA dto w = (Ok c, w')
        /\ ClientsService2.validate type dto w = (Ok tt, w)
        /\ findUnique Client.id (Client.id c) (client (db w)) = None
        /\ db w' = with_client (client (db w) ++ [c]) (db w)).
Proof.
  cbv zeta.
  destruct (validate_run (ClientsService2.typeOf (EditClientsDto.type dto))
              dto w) as [(msg & V & _)|(V & _)].
  - left. unfold ClientsService2.createClient.
    rewrite (bind_throw _ _ _ _ _ V). eexists _, _.
    split; [reflexivity|]. split; [reflexivity|].
    rewrite V. discriminate.
  - destruct (create Client.id
                (ClientsService2.clientData dT dA dto (genId (cuid w)))
                (client (db w))) as [t'|] eqn:C.
    + destruct (create_spec _ _ _ _ C) as [Fresh Et]. subst t'.
      right. unfold ClientsService2.createClient.
      rewrite (bind_ok _ _ _ _ _ V).
      unfold bind at 1. rewrite newId_run.
      unfold bind at 1. rewrite prismaCreate_run.
      cbn [rows pk clientT db with_cuid]. rewrite C.
      unfold bind at 1, log at 1, modify at 1. cbv beta iota.
      step_dispatch w' E H. destruct H as (Hdb & _). unfold ret.
      exists w'. split; [reflexivity|]. split; [exact V|].
      split; [exact Fresh|]. rewrite Hdb. reflexivity.
    + left. unfold ClientsService2.createClient.
      rewrite (bind_ok _ _ _ _ _ V).
      unfold bind at 1. rewrite newId_run.
      unfold bind at 1. rewrite prismaCreate_run.
      cbn [rows pk clientT db with_cuid]. rewrite C.
      eexists _, _. split; [reflexivity|]. split; [reflexivity|].
      intros _ F. unfold create in C.
      destruct (existsb _ (client (db w))) eqn:X; [|discriminate].
      apply existsb_exists in X. destruct X as (x & Hx & Ex).
      unfold findUnique in F.
      pose proof (find_none _ _ F x Hx) as N. cbv beta in N. congruence.
Qed.

(** X10. [createClient] stores well-formed clients only. When it
    completes, the new row is appended to the [client] table under an
    identifier that was free and nothing else of the store has changed;
    for an individual the row has the empty name and a first and a last
    name that are filled; otherwise the row has no contact names, and a
    name and a legal id that are filled. When it throws, nothing has been
    written; the first required field that is not filled decides the
    message of the [BadRequestException]. *)
Theorem createClient_stores_well_formed_clients :
  forall (dT : ClientType) (dA : bool) (dto : EditClientsDto.t) (w : World),
    (forall c w',
        ClientsService2.createClient dT dA dto w = (Ok c, w') ->
        client (db w') = client (db w) ++ [c]
        /\ same_tables_but_client (db w) (db w')
        /\ findUnique Client.id (Client.id c) (client (db w)) = None
        /\ Client.isActive c = dA
        /\ if forIndividual dto
           then Client.type c = INDIVIDUAL
                /\ Client.name c = ""%string
                /\ Client.contactFirstname c
                   = EditClientsDto.contactFirstname dto
                /\ Client.contactLastname c
                   = EditClientsDto.contactLastname dto
                /\ filled (Client.contactFirstname c)
                /\ filled (Client.contactLastname c)
           else Client.contactFirstname c = None
                /\ Client.contactLastname c = None
                /\ Some (Client.name c) = EditClientsDto.name dto
                /\ Client.legalId c = EditClientsDto.legalId dto
                /\ filled (Some (Client.name c))
                /\ filled (Client.legalId c))
    /\ (forall e w',
          ClientsService2.createClient dT dA dto w = (Throw e, w') ->
          db w' = db w)
    /\ (forIndividual dto = true ->
        (~ filled (EditClientsDto.contactFirstname dto) ->
         fst (ClientsService2.createClient dT dA dto w)
         = Throw (BadRequestException
                    "First name is required for individual clients"))
        /\ (filled (EditClientsDto.contactFirstname dto) ->
            ~ filled (EditClientsDto.contactLastname dto) ->
            fst (ClientsService2.createClient dT dA dto w)
            = Throw (BadRequestException
                       "Last name is required for individual clients")))
    /\ (forIndividual dto = false ->
        (~ filled (EditClientsDto.name dto) ->
         fst (ClientsService2.createClient dT dA dto w)
         = Throw (BadRequestException
                    "Company name is required for company clients"))
        /\ (filled (EditClientsDto.name dto) ->
            ~ filled (EditClientsDto.legalId dto) ->
            fst (ClientsService2.createClient dT dA dto w)
            = Throw (BadRequestException
                       "SIRET/SIREN (legalId) is required for company clients"))).
Proof.
  intros dT dA dto w.
  assert (ClientsService2.typeOf (EditClientsDto.type dto)
          = if forIndividual dto then INDIVIDUAL else COMPANY) as Ty.
  { unfold forIndividual, ClientsService2.typeOf.
    destruct (EditClientsDto.type dto) as [[]|]; reflexivity. }
  pose proof (createClient_run dT dA dto w) as R. cbv zeta in R.
  pose proof (validate_run (ClientsService2.typeOf (EditClientsDto.type dto))
                dto w) as V.
  rewrite Ty in R, V.
  split; [|split; [|split]].
  - intros c w' H.
    destruct R as [(e & w1 & E & _)|(w1 & E & Hv & Fresh & Hdb)];
      [congruence|].
    rewrite E in H. injection H as <- <-.
    rewrite Hdb. cbn [client with_client].
    split; [reflexivity|]. split; [repeat split|]. split; [exact Fresh|].
    split; [reflexivity|].
    destruct V as [(msg & V & _)|(_ & Hf)]; [congruence|].
    unfold ClientsService2.clientData. rewrite Ty.
    unfold forIndividual in *.
    destruct (EditClientsDto.type dto) as [[]|]; cbn in *;
      destruct Hf as [F1 F2]; repeat split; auto;
      destruct F1 as (s & ch & -> & Hch); auto;
      exists s, ch; auto.
  - intros e w' H.
    destruct R as [(e1 & w1 & E & Hdb & _)|(w1 & E & _)]; congruence.
  - intros I. rewrite I in V, R.
    assert (forall msg,
              ClientsService2.validate INDIVIDUAL dto w
              = (Throw (BadRequestException msg),
                 logged "client" msg ERROR w) ->
              fst (ClientsService2.createClient dT dA dto w)
              = Throw (BadRequestException msg)) as K.
    { intros msg E. unfold ClientsService2.createClient.
      rewrite Ty, I. now rewrite (bind_throw _ _ _ _ _ E). }
    destruct V as [(msg & V & [[-> N]|(-> & F & N)])|(_ & F1 & F2)].
    + split; [intros _; now apply K|]. intros F. now elim N.
    + split; [intros N'; now elim N'|]. intros _ _. now apply K.
    + split; [intros N; now elim N|]. intros _ N. now elim N.
  - intros I. rewrite I in V, R.
    assert (forall msg,
              ClientsService2.validate COMPANY dto w
              = (Throw (BadRequestException msg),
                 logged "client" msg ERROR w) ->
              fst (ClientsService2.createClient dT dA dto w)
              = Throw (BadRequestException msg)) as K.
    { intros msg E. unfold ClientsService2.createClient.
      rewrite Ty, I. now rewrite (bind_throw _ _ _ _ _ E). }
    destruct V as [(msg & V & [[-> N]|(-> & F & N)])|(_ & F1 & F2)].
    + split; [intros _; now apply K|]. intros F. now elim N.
    + split; [intros N'; now elim N'|]. intros _ _. now apply K.
    + split; [intros N; now elim N|]. intros _ N. now elim N.
Qed.

Lemma createClient_stores_well_formed_clients_witness :
  exists c w',
    ClientsService2.createClient COMPANY true newCompanyClient baseWorld
    = (Ok c, w')
    /\ client (db w') = client (db baseWorld) ++ [c]
    /\ Client.contactFirstname c = None
    /\ Client.name c = "Martin SARL"%string.
Proof.
  destruct (completes _
              (ClientsService2.createClient COMPANY true newCompanyClient
                 baseWorld)) as (c & w' & E); [vm_compute; reflexivity|].
  destruct (createClient_stores_well_formed_clients COMPANY true
              newCompanyClient baseWorld) as (Hok & _).
  destruct (Hok c w' E) as (Ht & _ & _ & _ & Hshape).
  cbn in Hshape. destruct Hshape as (Hf & _ & Hn & _).
  exists c, w'. split; [exact E|]. split; [exact Ht|]. split; [exact Hf|].
  now injection Hn.
Defined.

Lemma editClientsInfo_completed (dto : EditClientsDto.t) (w : World)
    (c : Client.t) (w' : World) :
  ClientsService2.editClientsInfo dto w = (Ok c, w') ->
  exists id old,
    EditClientsDto.id dto = Some id /\ id <> ""%string
    /\ findUnique Client.id id (client (db w)) = Some old
    /\ c = ClientsService2.editedClient dto old
    /\ db w'
       = with_client
           (update Client.id id (ClientsService2.editedClient dto)
              (client (db w))) (db w).
Proof.
  unfold ClientsService2.editClientsInfo. intros H.
  destruct (EditClientsDto.id dto) as [[|a r]|] eqn:Hid;
    [discriminate| |discriminate].
  rewrite (bind_ok _ _ _ _ _ (prismaFindUnique_run clientT _ w)) in H.
  cbn [rows pk clientT] in H.
  destruct (findUnique Client.id (String a r) (client (db w)))
    as [old|] eqn:F; [|discriminate].
  match type of H with
  | context [bind (ClientsService2.validate ?t ?d) _ ?w0] =>
      destruct (validate_run t d w0) as [(msg & V & _)|(V & _)]
  end.
  { rewrite (bind_throw _ _ _ _ _ V) in H. discriminate. }
  rewrite (bind_ok _ _ _ _ _ V) in H.
  rewrite (bind_ok _ _ _ _ _ (prismaUpdate_run clientT _ _ w old F)) in H.
  unfold bind at 1, log at 1, modify at 1 in H. cbv beta iota in H.
  match type of H with
  | context [bind (try_catch (WebhookDispatcherService.dispatch ?e ?p)
                     (fun _ => log ?s ?l ?c ?m)) _ ?w0] =>
      destruct (try_dispatch_run e p s l c m w0) as (w2 & E2 & Hdb & _);
      rewrite (bind_ok _ _ _ _ _ E2) in H
  end.
  unfold ret in H. injection H as <- <-.
  exists (String a r), old. split; [reflexivity|]. split; [discriminate|].
  split; [exact F|]. split; [reflexivity|]. rewrite Hdb. reflexivity.
Qed.

Lemma editClientsInfo_refused (dto : EditClientsDto.t) (w : World)
    (id : Id) (old : Client.t) (msg : string) :
  EditClientsDto.id dto = Some id -> id <> ""%string ->
  findUnique Client.id id (client (db w)) = Some old ->
  ClientsService2.validate
    match EditClientsDto.type dto with
    | Some t => t
    | None => Client.type old
    end dto w
  = (Throw (BadRequestException msg), logged "client" msg ERROR w) ->
  ClientsService2.editClientsInfo dto w
  = (Throw (BadRequestException msg), logged "client" msg ERROR w).
Proof.
  intros Hid Hne F V. unfold ClientsService2.editClientsInfo.
  rewrite Hid. destruct id as [|a r]; [now elim Hne|].
  rewrite (bind_ok _ _ _ _ _ (prismaFindUnique_run clientT _ w)).
  cbn [rows pk clientT]. rewrite F.
  now rewrite (bind_throw _ _ _ _ _ V).
Qed.

(** X11. [editClientsInfo] patches a client and re-activates it. When it
    completes, the row with the id of the payload carries every value that
    the payload gives and keeps the stored value of every column that the
    payload leaves out, and it is active, whatever it was before -- a
    soft-deleted client edited this way is active again; the other clients
    and the other tables are unchanged. The required fields are looked for
    in the payload alone: for a client that is a company by the payload
    or, without a type in the payload, by the stored row, a payload without
    a filled name is refused even though the stored row has one, and
    nothing is written. *)
Theorem editClientsInfo_patches_and_reactivates :
  forall (dto : EditClientsDto.t) (w : World),
    (forall c w',
        ClientsService2.editClientsInfo dto w = (Ok c, w') ->
        exists id old,
          EditClientsDto.id dto = Some id
          /\ findUnique Client.id id (client (db w)) = Some old
          /\ findUnique Client.id id (client (db w')) = Some c
          /\ Client.id c = id
          /\ Client.isActive c = true
          /\ Forall (fun col =>
               snd col c = match fst col dto with
                           | Some v => Some v
                           | None => snd col old
                           end) clientColumns
          /\ Client.name c = match EditClientsDto.name dto with
                             | Some n => n
                             | None => Client.name old
                             end
          /\ Client.type c = match EditClientsDto.type dto with
                             | Some t => t
                             | None => Client.type old
                             end
          /\ (forall k, k <> id ->
                findUnique Client.id k (client (db w'))
                = findUnique Client.id k (client (db w)))
          /\ same_tables_but_client (db w) (db w'))
    /\ (forall id old,
          EditClientsDto.id dto = Some id -> id <> ""%string ->
          findUnique Client.id id (client (db w)) = Some old ->
          match EditClientsDto.type dto with
          | Some t => t
          | None => Client.type old
          end = COMPANY ->
          ~ filled (EditClientsDto.name dto) ->
          fst (ClientsService2.editClientsInfo dto w)
          = Throw (BadRequestException
                     "Company name is required for company clients")
          /\ db (snd (ClientsService2.editClientsInfo dto w)) = db w).
Proof.
  intros dto w. split.
  - intros c w' H.
    destruct (editClientsInfo_completed _ _ _ _ H)
      as (id & old & Hid & Hne & F & -> & Hdb).
    exists id, old. split; [exact Hid|]. split; [exact F|].
    rewrite Hdb. cbn [client with_client].
    split.
    { unfold update. rewrite findUnique_map.
      - rewrite F. cbn [option_map]. now rewrite (findUnique_key _ _ _ _ F),
          String.eqb_refl.
      - intros r. destruct (String.eqb (Client.id r) id) eqn:K; [|reflexivity].
        apply String.eqb_eq in K. cbn. now rewrite Hid. }
    split; [cbn; now rewrite Hid|]. split; [reflexivity|].
    split; [repeat constructor|]. split; [reflexivity|].
    split; [reflexivity|]. split; [|repeat split].
    intros k Hk. unfold update. rewrite findUnique_map.
    + destruct (findUnique Client.id k (client (db w))) as [r|] eqn:G;
        [|reflexivity].
      cbn [option_map]. rewrite (findUnique_key _ _ _ _ G).
      apply String.eqb_neq in Hk. now rewrite Hk.
    + intros r. destruct (String.eqb (Client.id r) id) eqn:K; [|reflexivity].
      apply String.eqb_eq in K. cbn. now rewrite Hid.
  - intros id old Hid Hne F Ty N.
    match goal with
    | |- context [ClientsService2.editClientsInfo dto w] =>
        destruct (validate_run
                    match EditClientsDto.type dto with
                    | Some t => t
                    | None => Client.type old
                    end dto w) as [(msg & V & Hm)|(_ & Hf)]
    end.
    + rewrite Ty in Hm. destruct Hm as [[-> _]|(_ & Fn & _)];
        [|now elim N].
      rewrite (editClientsInfo_refused _ _ _ _ _ Hid Hne F V).
      split; reflexivity.
    + rewrite Ty in Hf. destruct Hf as [Fn _]. now elim N.
Qed.

Lemma editClientsInfo_patches_and_reactivates_witness :
  exists w1 c w2,
    w1 = snd (ClientsService.deleteClient "cl1" baseWorld)
    /\ option_map Client.isActive
         (findUnique Client.id "cl1" (client (db w1))) = Some false
    /\ ClientsService2.editClientsInfo editOfDupont w1 = (Ok c, w2)
    /\ option_map Client.isActive
         (findUnique Client.id "cl1" (client (db w2))) = Some true
    /\ Client.contactEmail c = Some "billing@dupont.example"%string
    /\ Client.country c = Some "France"%string.
Proof.
  set (w1 := snd (ClientsService.deleteClient "cl1" baseWorld)).
  destruct (completes _ (ClientsService2.editClientsInfo editOfDupont w1))
    as (c & w2 & E); [vm_compute; reflexivity|].
  destruct (editClientsInfo_patches_and_reactivates editOfDupont w1)
    as [Hok _].
  destruct (Hok c w2 E)
    as (id & old & Hid & Fo & Fc & _ & Ha & Hcols & _).
  cbn in Hid. injection Hid as <-.
  assert (old = Client.with_isActive false dupont) as ->.
  { assert (findUnique Client.id "cl1" (client (db w1))
            = Some (Client.with_isActive false dupont)) as V
      by (vm_compute; reflexivity).
    rewrite V in Fo. now injection Fo. }
  exists w1, c, w2. split; [reflexivity|].
  split; [vm_compute; reflexivity|]. split; [exact E|].
  split; [rewrite Fc; cbn; now rewrite Ha|].
  unfold clientColumns in Hcols.
  repeat match goal with
         | H : Forall _ (_ :: _) |- _ =>
             let a := fresh "C" in
             let b := fresh "R" in
             inversion H as [|? ? a b]; subst; clear H
         end.
  cbn in *. split; assumption.
Defined.

(** ** ReceiptsService: what the operations write *)

Lemma createReceiptItems_run (receiptId : Id)
    (items : list ReceiptItemDto.t) :
  forall (w : World) r w',
    mapM (ReceiptsService.createReceiptItem receiptId) items w = (r, w') ->
    logs w' = logs w /\ outbox w' = outbox w /\ mailbox w' = mailbox w
    /\ host w' = host w
    /\ forall rows, r = Ok rows ->
         rows = receiptItemRows receiptId (cuid w) items
         /\ db w' = with_receiptItem (receiptItem (db w) ++ rows) (db w).
Proof.
  induction items as [|i items IH]; intros w r w' H.
  - cbn in H. injection H as <- <-. repeat split; auto.
    + now injection H as <-.
    + injection H as <-. cbn. rewrite app_nil_r.
      destruct (db w); reflexivity.
  - cbn [mapM] in H. unfold ReceiptsService.createReceiptItem at 1 in H.
    unfold bind at 1 in H. unfold bind at 1 in H.
    rewrite newId_run in H. rewrite prismaCreate_run in H.
    cbn [rows pk receiptItemT db with_cuid] in H.
    destruct (create _ _ _) as [t'|] eqn:C.
    + apply create_spec in C. destruct C as [_ ->].
      unfold bind at 1 in H.
      match type of H with
      | context [mapM _ items ?w1] =>
          destruct (mapM (ReceiptsService.createReceiptItem receiptId)
                      items w1) as [r1 w2] eqn:E1;
          specialize (IH _ _ _ E1)
      end.
      cbn [logs outbox mailbox host cuid db with_db with_cuid with_rows
           receiptItemT] in IH.
      destruct IH as (Hl & Ho & Hm & Hh & IH).
      destruct r1 as [rows1|e]; injection H as <- <-.
      * repeat split; auto.
        -- injection H as <-. cbn [receiptItemRows]. f_equal.
           now destruct (IH rows1 eq_refl).
        -- injection H as <-. destruct (IH rows1 eq_refl) as [_ ->].
           cbn. now rewrite <- app_assoc.
      * repeat split; auto; discriminate.
    + injection H as <- <-. repeat split; auto; discriminate.
Qed.

(** [checkInvoiceAfterReceipt] on an existing invoice rewrites the status
    of an UNPAID invoice and nothing else. *)
Lemma checkInvoice_db (invoiceId : Id) (inv : Invoice.t) (w : World) :
  findUnique Invoice.id invoiceId (invoice (db w)) = Some inv ->
  exists w',
    ReceiptsService.checkInvoiceAfterReceipt invoiceId w = (Ok tt, w')
    /\ db w'
       = (if InvoiceStatus_eqb (Invoice.status inv) UNPAID
          then with_invoice
                 (update Invoice.id invoiceId
                    (Invoice.with_status
                       (checkedStatus inv (receiptsOf (db w) invoiceId)))
                    (invoice (db w))) (db w)
          else db w)
    /\ host w' = host w /\ cuid w' = cuid w.
Proof.
  intros F. unfold ReceiptsService.checkInvoiceAfterReceipt, checkedStatus.
  rewrite (bind_ok _ _ _ _ _ (prismaFindUnique_run invoiceT invoiceId w)).
  cbn [rows pk invoiceT]. rewrite F.
  destruct (InvoiceStatus_eqb (Invoice.status inv) UNPAID) eqn:S.
  - unfold bind at 1, prismaFindMany at 1, gets at 1. cbv beta iota.
    cbn [rows receiptT]. fold (receiptsOf (db w) invoiceId).
    destruct (_ >= _)%num;
      rewrite (bind_ok _ _ _ _ _
                 (prismaUpdate_run invoiceT invoiceId _ w inv F));
      eexists; (split; [reflexivity|]); repeat split.
  - exists w. repeat split.
Qed.

Lemma createReceipt_full (body : CreateReceiptDto.t) (w : World)
    (view : ReceiptView.t) (w' : World) :
  ReceiptsService.createReceipt body w = (Ok view, w') ->
  exists inv,
    findUnique Invoice.id (CreateReceiptDto.invoiceId body) (invoice (db w))
      = Some inv
    /\ findUnique Receipt.id (genId (cuid w)) (receipt (db w)) = None
    /\ ReceiptView.receipt view
       = receiptRow body (genId (cuid w)) (now (host w))
    /\ ReceiptView.items view
       = itemsOfReceipt (db w') (genId (cuid w))
    /\ receipt (db w')
       = receipt (db w) ++ [receiptRow body (genId (cuid w)) (now (host w))]
    /\ receiptItem (db w')
       = receiptItem (db w)
           ++ receiptItemRows (genId (cuid w)) (S (cuid w))
                (CreateReceiptDto.items body)
    /\ invoice (db w')
       = (if InvoiceStatus_eqb (Invoice.status inv) UNPAID
          then update Invoice.id (CreateReceiptDto.invoiceId body)
                 (Invoice.with_status
                    (checkedStatus inv
                       (receiptsOf (db w') (CreateReceiptDto.invoiceId body))))
                 (invoice (db w))
          else invoice (db w))
    /\ same_tables_but_receipts (db w) (db w')
    /\ host w' = host w.
Proof.
  intros H. unfold ReceiptsService.createReceipt in H.
  rewrite (bind_ok _ _ _ _ _ (prismaFindUnique_run invoiceT _ w)) in H.
  cbn [rows pk invoiceT] in H.
  destruct (findUnique Invoice.id (CreateReceiptDto.invoiceId body)
              (invoice (db w))) as [inv|] eqn:F; [|discriminate].
  unfold bind at 1, includeInvoice at 1, gets at 1 in H. cbv beta iota in H.
  unfold bind at 1, gets at 1 in H. cbv beta iota in H.
  match type of H with
  | context [bind (transaction ?c) _ ?w0] =>
      destruct (transaction c w0) as [[rv|e] w1] eqn:T
  end.
  2:{ rewrite (bind_throw _ _ _ _ _ T) in H. discriminate. }
  rewrite (bind_ok _ _ _ _ _ T) in H.
  apply transaction_ok in T.
  unfold bind at 1 in T. rewrite newId_run in T.
  unfold bind at 1 in T. rewrite prismaCreate_run in T.
  cbn [rows pk receiptT db with_cuid] in T.
  fold (receiptRow body (genId (cuid w)) (now (host w))) in T.
  destruct (create Receipt.id _ (receipt (db w))) as [t'|] eqn:C;
    [|discriminate].
  apply create_spec in C. destruct C as [Fresh ->].
  cbn [Receipt.id receiptRow] in Fresh.
  unfold bind at 1 in T.
  match type of T with
  | context [mapM ?f ?l ?wa] =>
      destruct (mapM f l wa) as [r1 wb] eqn:E1;
      pose proof (createReceiptItems_run _ _ _ _ _ E1)
        as (_ & _ & _ & Hh1 & Hrows)
  end.
  destruct r1 as [rows|]; [|discriminate].
  destruct (Hrows rows eq_refl) as (-> & Hdb1).
  cbn [cuid db host with_db with_cuid with_rows receiptT receiptItem
       with_receipt] in Hdb1, Hh1.
  unfold ReceiptsService.includeReceipt, gets in T. injection T as <- <-.
  cbn [InvoiceView.invoice] in H.
  rewrite (findUnique_key _ _ _ _ F) in H.
  assert (findUnique Invoice.id (CreateReceiptDto.invoiceId body)
            (invoice (db wb)) = Some inv) as F1
    by (rewrite Hdb1; exact F).
  destruct (checkInvoice_db _ _ _ F1) as (w2 & E2 & Hdb2 & Hh2 & _).
  rewrite (bind_ok _ _ _ _ _ E2) in H.
  match type of H with
  | context [bind (try_catch (WebhookDispatcherService.dispatch ?e ?p)
                     (fun _ => log ?s ?l ?c ?m)) _ ?w0] =>
      destruct (try_dispatch_run e p s l c m w0)
        as (w3 & E3 & Hdb3 & Hh3 & _);
      rewrite (bind_ok _ _ _ _ _ E3) in H
  end.
  unfold bind, log, modify, ret in H. injection H as <- <-.
  cbn [db host with_logs]. rewrite Hdb3, Hh3, Hh2, Hh1.
  exists inv. split; [reflexivity|]. split; [exact Fresh|].
  split; [reflexivity|].
  assert (receiptsOf (db w2) (CreateReceiptDto.invoiceId body)
          = receiptsOf (db wb) (CreateReceiptDto.invoiceId body)) as Hr.
  { unfold receiptsOf. rewrite Hdb2.
    now destruct (InvoiceStatus_eqb (Invoice.status inv) UNPAID). }
  rewrite Hr. rewrite Hdb2.
  destruct (InvoiceStatus_eqb (Invoice.status inv) UNPAID);
    rewrite Hdb1;
    cbn [ReceiptView.receipt ReceiptView.items itemsOfReceipt findMany
         receipt receiptItem invoice with_invoice with_receiptItem
         with_receipt Receipt.id receiptRow];
    repeat split.
Qed.

(** ** ReceiptsService: a receipt for the whole of an invoice *)

Lemma createReceiptFromInvoice_run (invoiceId : Id) (w : World)
    (view : ReceiptView.t) (w' : World) :
  ReceiptsService2.createReceiptFromInvoice invoiceId w = (Ok view, w') ->
  exists inv w0,
    findUnique Invoice.id invoiceId (invoice (db w)) = Some inv
    /\ ReceiptsService.createReceipt
         (ReceiptsService2.receiptOfInvoice (viewOfInvoice (db w) inv)) w
       = (Ok view, w0)
    /\ db w' = db w0 /\ host w' = host w0.
Proof.
  intros H. unfold ReceiptsService2.createReceiptFromInvoice in H.
  rewrite (bind_ok _ _ _ _ _ (prismaFindUnique_run invoiceT _ w)) in H.
  cbn [rows pk invoiceT] in H.
  destruct (findUnique Invoice.id invoiceId (invoice (db w))) as [inv|] eqn:F;
    [|discriminate].
  unfold bind at 1, includeInvoice at 1, gets at 1 in H. cbv beta iota in H.
  fold (storedItems (db w) (Invoice.id inv)) in H.
  fold (viewOfInvoice (db w) inv) in H.
  destruct (ReceiptsService.createReceipt
              (ReceiptsService2.receiptOfInvoice (viewOfInvoice (db w) inv))
              w) as [[v|e] w0] eqn:E.
  2:{ rewrite (bind_throw _ _ _ _ _ E) in H. discriminate. }
  rewrite (bind_ok _ _ _ _ _ E) in H.
  match type of H with
  | context [bind (try_catch (WebhookDispatcherService.dispatch ?e ?p)
                     (fun _ => log ?s ?l ?c ?m)) _ ?w1] =>
      destruct (try_dispatch_run e p s l c m w1)
        as (w3 & E3 & Hdb3 & Hh3 & _);
      rewrite (bind_ok _ _ _ _ _ E3) in H
  end.
  unfold bind, log, modify, ret in H. injection H as <- <-.
  exists inv, w0. cbn [db host with_logs]. auto.
Qed.

Lemma receiptItemRows_map (receiptId : Id) (lines : list InvoiceItem.t) :
  forall n,
    map paidLine
      (receiptItemRows receiptId n
         (map (fun item =>
                 {| ReceiptItemDto.invoiceItemId := InvoiceItem.id item;
                    ReceiptItemDto.amountPaid :=
                      ReceiptsService2.amountOf item |}) lines))
    = map (fun l => (receiptId, InvoiceItem.id l, toFixed2 (lineTotal l)))
        lines.
Proof.
  induction lines as [|l lines IH]; intros n; cbn; [reflexivity|].
  now rewrite IH.
Qed.

Lemma reduce_amountPaid_lines (lines : list InvoiceItem.t) :
  ReceiptsService.reduce_amountPaid
    (map (fun item =>
            {| ReceiptItemDto.invoiceItemId := InvoiceItem.id item;
               ReceiptItemDto.amountPaid :=
                 ReceiptsService2.amountOf item |}) lines)
  = sum_over (fun l => toFixed2 (lineTotal l)) lines.
Proof.
  unfold ReceiptsService.reduce_amountPaid.
  rewrite (fold_left_sum ReceiptItemDto.amountPaid).
  unfold sum_over. now rewrite map_map.
Qed.

(** The receipt [createReceiptFromInvoice] stores, through the
    [createReceipt] it calls. *)
Lemma createReceiptFromInvoice_pays_lines_aux (invoiceId : Id) (w w' : World)
    (view : ReceiptView.t) :
  ReceiptsService2.createReceiptFromInvoice invoiceId w = (Ok view, w') ->
  exists w0,
    (forall inv,
        findUnique Invoice.id invoiceId (invoice (db w)) = Some inv ->
        ReceiptsService.createReceipt
          (ReceiptsService2.receiptOfInvoice (viewOfInvoice (db w) inv)) w
        = (Ok view, w0))
    /\ db w' = db w0
    /\ receipt (db w0) = receipt (db w) ++ [ReceiptView.receipt view]
    /\ Receipt.invoiceId (ReceiptView.receipt view) = invoiceId
    /\ Receipt.totalPaid (ReceiptView.receipt view)
       = sum_over (fun l => toFixed2 (lineTotal l))
           (storedItems (db w) invoiceId).
Proof.
  intros H.
  destruct (createReceiptFromInvoice_run _ _ _ _ H)
    as (inv & w0 & F & E & Hdb & _).
  destruct (createReceipt_full _ _ _ _ E)
    as (inv' & _ & _ & Hrow & _ & Hr & _).
  pose proof (findUnique_key _ _ _ _ F) as K.
  exists w0.
  split; [intros i Fi; rewrite Fi in F; injection F as ->; exact E|].
  split; [exact Hdb|].
  split; [rewrite Hr, <- Hrow; reflexivity|].
  rewrite Hrow.
  cbn [receiptRow Receipt.invoiceId Receipt.totalPaid
       CreateReceiptDto.invoiceId CreateReceiptDto.items
       ReceiptsService2.receiptOfInvoice viewOfInvoice InvoiceView.items
       InvoiceView.invoice].
  rewrite K. split; [reflexivity|]. apply reduce_amountPaid_lines.
Qed.

(** X12. When [createReceiptFromInvoice] completes, one receipt and its
    items were appended to what was stored: one item per stored line of the
    invoice, in the order of the lines, paying the line's total with VAT
    -- the binary64 product [quantity * unitPrice * (1 + vatRate / 100)]
    -- as [toFixed(2)] rounds it to the hundredth. The receipt's
    [totalPaid] is the binary64 sum of these rounded amounts, in the order
    of the lines. *)
Theorem createReceiptFromInvoice_pays_every_line :
  forall (invoiceId : Id) (w w' : World) (view : ReceiptView.t),
    ReceiptsService2.createReceiptFromInvoice invoiceId w = (Ok view, w') ->
    let lines := storedItems (db w) invoiceId in
    let new := ReceiptView.receipt view in
    exists rows,
      receipt (db w') = receipt (db w) ++ [new]
      /\ receiptItem (db w') = receiptItem (db w) ++ rows
      /\ Receipt.invoiceId new = invoiceId
      /\ map paidLine rows
         = map (fun l => (Receipt.id new, InvoiceItem.id l,
                          toFixed2 (lineTotal l))) lines
      /\ Receipt.totalPaid new
         = sum_over (fun l => toFixed2 (lineTotal l)) lines.
Proof.
  intros invoiceId w w' view H lines new.
  destruct (createReceiptFromInvoice_run _ _ _ _ H)
    as (inv & w0 & F & E & Hdb & _).
  destruct (createReceipt_full _ _ _ _ E)
    as (inv' & _ & _ & Hrow & _ & Hr & Hi & _).
  pose proof (findUnique_key _ _ _ _ F) as K.
  cbn [ReceiptsService2.receiptOfInvoice CreateReceiptDto.items
       CreateReceiptDto.invoiceId viewOfInvoice InvoiceView.items
       InvoiceView.invoice] in Hrow, Hr, Hi.
  rewrite K in Hi. fold lines in Hi.
  eexists. rewrite Hdb. split; [rewrite Hr, <- Hrow; reflexivity|].
  split; [exact Hi|].
  subst new. rewrite Hrow.
  cbn [receiptRow Receipt.invoiceId Receipt.id Receipt.totalPaid
       CreateReceiptDto.invoiceId CreateReceiptDto.items
       ReceiptsService2.receiptOfInvoice viewOfInvoice InvoiceView.items
       InvoiceView.invoice].
  rewrite K. fold lines.
  split; [reflexivity|]. split; [apply receiptItemRows_map|].
  apply reduce_amountPaid_lines.
Qed.

(** A run on an invoice of one line, 1 x 0.5 at 15 %: the line totals
    0.57499999999999996 as a double, and the receipt pays 0.57. *)
Lemma createReceiptFromInvoice_pays_every_line_witness :
  exists view w',
    ReceiptsService2.createReceiptFromInvoice "inv4" halfWorld
      = (Ok view, w')
    /\ (exists rows,
          receipt (db w')
            = receipt (db halfWorld) ++ [ReceiptView.receipt view]
          /\ receiptItem (db w') = receiptItem (db halfWorld) ++ rows
          /\ map paidLine rows
             = map (fun l => (Receipt.id (ReceiptView.receipt view),
                              InvoiceItem.id l, toFixed2 (lineTotal l)))
                 (storedItems (db halfWorld) "inv4"))
    /\ map lineTotal (storedItems (db halfWorld) "inv4")
       = [Num.decimal 57499999999999996 17]
    /\ Receipt.totalPaid (ReceiptView.receipt view) = Num.decimal 57 2.
Proof.
  destruct (completes _
              (ReceiptsService2.createReceiptFromInvoice "inv4" halfWorld))
    as (view & w' & E); [vm_compute; reflexivity|].
  exists view, w'. split; [exact E|].
  destruct (createReceiptFromInvoice_pays_every_line _ _ _ _ E)
    as (rows & R & I & _ & L & T).
  split; [exists rows; auto|].
  split; [vm_compute; reflexivity|].
  rewrite T. vm_compute. reflexivity.
Defined.

Lemma sum_over_app {A} (f : A -> Number) (l l' : list A) :
  sum_over f (l ++ l') = added_up (sum_over f l) (map f l').
Proof. unfold sum_over. now rewrite map_app, added_up_app. Qed.

(** The status of an UNPAID invoice after [createReceiptFromInvoice]. *)
Lemma createReceiptFromInvoice_status (invoiceId : Id) (w w' : World)
    (view : ReceiptView.t) (inv : Invoice.t) :
  ReceiptsService2.createReceiptFromInvoice invoiceId w = (Ok view, w') ->
  findUnique Invoice.id invoiceId (invoice (db w)) = Some inv ->
  Invoice.status inv = UNPAID ->
  findUnique Invoice.id invoiceId (invoice (db w'))
  = Some (Invoice.with_status
            (if (sum_over Receipt.totalPaid (receiptsOf (db w) invoiceId)
                 + sum_over (fun l => toFixed2 (lineTotal l))
                     (storedItems (db w) invoiceId)
                 >= Invoice.totalTTC inv)%num
             then PAID else UNPAID) inv).
Proof.
  intros H F U.
  destruct (createReceiptFromInvoice_pays_lines_aux invoiceId w w' view H)
    as (w0 & E & Hdb & Hr & Hid & Hsum).
  pose proof (findUnique_key _ _ _ _ F) as K.
  rewrite Hdb.
  assert (CreateReceiptDto.invoiceId
            (ReceiptsService2.receiptOfInvoice (viewOfInvoice (db w) inv))
          = invoiceId) as Kb by exact K.
  pose proof (createReceipt_run _ _ _ _ inv (E inv F)) as R.
  rewrite Kb in R. rewrite (R F). do 2 f_equal.
  unfold checkedStatus. rewrite U. cbn [InvoiceStatus_eqb].
  rewrite reduce_totalPaid_sum.
  unfold receiptsOf, findMany. rewrite Hr, filter_app.
  cbn [filter]. rewrite Hid, String.eqb_refl.
  fold (findMany (fun r => String.eqb (Receipt.invoiceId r) invoiceId)
          (receipt (db w))).
  fold (receiptsOf (db w) invoiceId).
  rewrite sum_over_app. cbn [map added_up fold_left].
  now rewrite Hsum.
Qed.

(** X13. A receipt made from an UNPAID invoice settles it by the rounded
    amounts: after [createReceiptFromInvoice] the invoice is PAID exactly
    when the binary64 sum of the [totalPaid] of the receipts it had, plus
    the binary64 sum of its stored lines' totals, each rounded to the
    hundredth by [toFixed(2)], compares [>=] to its [totalTTC]; it stays
    UNPAID otherwise, and is as before in every other column. The stored
    [totalTTC] plays no part in what is paid, so that the invoice can
    stay UNPAID, as it does for lines of 1 x 19.99 and 3 x 2.2 with a
    [totalTTC] of 26.59: the receipt pays 26.589999999999996. *)
Theorem createReceiptFromInvoice_settles_by_rounded_amounts :
  forall (invoiceId : Id) (w w' : World) (view : ReceiptView.t)
         (inv : Invoice.t),
    ReceiptsService2.createReceiptFromInvoice invoiceId w = (Ok view, w') ->
    findUnique Invoice.id invoiceId (invoice (db w)) = Some inv ->
    Invoice.status inv = UNPAID ->
    exists inv',
      findUnique Invoice.id invoiceId (invoice (db w')) = Some inv'
      /\ inv' = Invoice.with_status (Invoice.status inv') inv
      /\ (Invoice.status inv' = PAID
          <-> (sum_over Receipt.totalPaid (receiptsOf (db w) invoiceId)
               + sum_over (fun l => toFixed2 (lineTotal l))
                   (storedItems (db w) invoiceId)
               >= Invoice.totalTTC inv)%num = true)
      /\ (Invoice.status inv' = UNPAID
          <-> (sum_over Receipt.totalPaid (receiptsOf (db w) invoiceId)
               + sum_over (fun l => toFixed2 (lineTotal l))
                   (storedItems (db w) invoiceId)
               >= Invoice.totalTTC inv)%num = false).
Proof.
  intros invoiceId w w' view inv H F U.
  rewrite (createReceiptFromInvoice_status _ _ _ _ _ H F U).
  eexists. split; [reflexivity|].
  cbn [Invoice.status Invoice.with_status]. split; [reflexivity|].
  destruct (_ >= _)%num; split; split; congruence.
Qed.

Lemma createReceiptFromInvoice_settles_by_rounded_amounts_witness :
  exists view w' inv',
    ReceiptsService2.createReceiptFromInvoice "inv5" centsWorld
      = (Ok view, w')
    /\ Receipt.totalPaid (ReceiptView.receipt view)
       = Num.decimal 26589999999999996 15
    /\ findUnique Invoice.id "inv5" (invoice (db w')) = Some inv'
    /\ Invoice.totalTTC inv' = Num.decimal 2659 2
    /\ Invoice.status inv' = UNPAID.
Proof.
  destruct (completes _
              (ReceiptsService2.createReceiptFromInvoice "inv5" centsWorld))
    as (view & w' & E); [vm_compute; reflexivity|].
  destruct (createReceiptFromInvoice_settles_by_rounded_amounts
              "inv5" centsWorld w' view invoice5 E eq_refl eq_refl)
    as (inv' & F' & Same & _ & Unpaid).
  destruct (createReceiptFromInvoice_pays_lines_aux _ _ _ _ E)
    as (_ & _ & _ & _ & _ & T).
  exists view, w', inv'. split; [exact E|].
  split; [rewrite T; vm_compute; reflexivity|].
  split; [exact F'|].
  split; [rewrite Same; vm_compute; reflexivity|].
  apply Unpaid. vm_compute. reflexivity.
Defined.

(** ** ReceiptsService: deleting and editing a receipt *)

Lemma checkInvoice_missing (invoiceId : Id) (w : World) :
  findUnique Invoice.id invoiceId (invoice (db w)) = None ->
  exists e w', ReceiptsService.checkInvoiceAfterReceipt invoiceId w
               = (Throw e, w').
Proof.
  intros F. unfold ReceiptsService.checkInvoiceAfterReceipt.
  rewrite (bind_ok _ _ _ _ _ (prismaFindUnique_run invoiceT invoiceId w)).
  cbn [rows pk invoiceT]. rewrite F. eexists. eexists. reflexivity.
Qed.

Lemma checkInvoice_others (invoiceId : Id) (w w' : World) :
  ReceiptsService.checkInvoiceAfterReceipt invoiceId w = (Ok tt, w') ->
  receipt (db w') = receipt (db w)
  /\ receiptItem (db w') = receiptItem (db w)
  /\ same_tables_but_receipts (db w) (db w')
  /\ (forall k, k <> invoiceId ->
        findUnique Invoice.id k (invoice (db w'))
        = findUnique Invoice.id k (invoice (db w))).
Proof.
  intros H.
  destruct (findUnique Invoice.id invoiceId (invoice (db w))) as [inv|] eqn:F.
  - destruct (checkInvoice_db _ _ _ F) as (w1 & E & Hdb & _).
    rewrite E in H. injection H as <-. rewrite Hdb.
    destruct (InvoiceStatus_eqb (Invoice.status inv) UNPAID).
    + cbn [receipt receiptItem invoice with_invoice].
      split; [reflexivity|]. split; [reflexivity|].
      split; [repeat split|].
      intros k Hk. apply findUnique_update_other.
      * intros r. reflexivity.
      * congruence.
    + repeat split.
  - destruct (checkInvoice_missing _ _ F) as (e & w1 & E).
    rewrite E in H. discriminate.
Qed.

Lemma deleteReceipt_full (id : Id) (w : World) (msg : string) (w' : World) :
  ReceiptsService.deleteReceipt id w = (Ok msg, w') ->
  receipt (db w') = delete Receipt.id id (receipt (db w))
  /\ receiptItem (db w')
     = deleteMany (fun it => String.eqb (ReceiptItem.receiptId it) id)
         (receiptItem (db w))
  /\ same_tables_but_receipts (db w) (db w')
  /\ exists ex,
       findUnique Receipt.id id (receipt (db w)) = Some ex
       /\ forall k, k <> Receipt.invoiceId ex ->
            findUnique Invoice.id k (invoice (db w'))
            = findUnique Invoice.id k (invoice (db w)).
Proof.
  intros H. unfold ReceiptsService.deleteReceipt in H.
  rewrite (bind_ok _ _ _ _ _ (prismaFindUnique_run receiptT _ w)) in H.
  cbn [rows pk receiptT] in H.
  destruct (findUnique Receipt.id id (receipt (db w))) as [ex|] eqn:Fr;
    [|discriminate].
  unfold bind at 1, ReceiptsService.includeReceipt at 1, gets at 1 in H.
  cbv beta iota in H.
  unfold bind at 1, ReceiptsService.includeInvoiceOfReceipt at 1, gets at 1
    in H.
  cbv beta iota in H.
  unfold bind at 1, prismaDeleteMany at 1, modifyDb, modify in H.
  cbv beta iota in H.
  match type of H with
  | context [bind (prismaDelete receiptT id) _ ?w0] =>
      assert (prismaDelete receiptT id w0
              = (Ok tt,
                 with_db (with_receipt (delete Receipt.id id (receipt (db w)))
                            (db w0)) w0)) as D
  end.
  { unfold prismaDelete.
    rewrite (bind_ok _ _ _ _ _ (prismaFindUnique_run receiptT id _)).
    cbn [db with_db rows with_rows receiptT receiptItemT receipt
         with_receiptItem pk].
    rewrite Fr. reflexivity. }
  rewrite (bind_ok _ _ _ _ _ D) in H.
  match type of H with
  | context [bind (ReceiptsService.checkInvoiceAfterReceipt ?k) _ ?w0] =>
      destruct (ReceiptsService.checkInvoiceAfterReceipt k w0)
        as [[[]|e] w2] eqn:E2
  end.
  2:{ rewrite (bind_throw _ _ _ _ _ E2) in H. discriminate. }
  rewrite (bind_ok _ _ _ _ _ E2) in H.
  apply checkInvoice_others in E2.
  destruct E2 as (Hr2 & Hi2 & Hs2 & Ho2).
  match type of H with
  | context [bind (try_catch (ReceiptsService.dispatchForReceipt ?e ?r ?i)
                     (fun _ => log ?s ?l ?c ?m)) _ ?w0] =>
      destruct (try_dispatchForReceipt_run e r i s l c m w0)
        as (w3 & E3 & Hdb3 & _);
      rewrite (bind_ok _ _ _ _ _ E3) in H
  end.
  unfold bind, log, modify, ret in H. injection H as _ <-.
  cbn [db with_logs]. rewrite Hdb3, Hr2, Hi2.
  cbn [db with_db rows with_rows receiptT receiptItemT receipt receiptItem
       with_receiptItem with_receipt invoice] in *.
  split; [reflexivity|]. split; [reflexivity|].
  split.
  { destruct Hs2 as (A1 & A2 & A3 & A4 & A5 & A6 & A7 & A8 & A9).
    destruct (db w). repeat split; assumption. }
  exists ex. split; [reflexivity|]. exact Ho2.
Qed.

Lemma delete_app_fresh {R} (key : R -> Id) (t : list R) (r : R) :
  findUnique key (key r) t = None -> delete key (key r) (t ++ [r]) = t.
Proof.
  intros F. unfold delete, deleteMany. rewrite filter_app. cbn [filter].
  rewrite String.eqb_refl. cbn [negb]. rewrite app_nil_r.
  apply filter_all. intros a Ha.
  destruct (String.eqb (key a) (key r)) eqn:E; [|reflexivity].
  apply String.eqb_eq in E.
  now elim (proj1 (findUnique_none_iff key (key r) t) F a Ha).
Qed.

Lemma receiptItemRows_receiptId (receiptId : Id)
    (items : list ReceiptItemDto.t) :
  forall n it, In it (receiptItemRows receiptId n items) ->
               ReceiptItem.receiptId it = receiptId.
Proof.
  induction items as [|i items IH]; intros n it H; cbn in H; [easy|].
  destruct H as [<-|H]; [reflexivity|]. eapply IH, H.
Qed.

Lemma receiptItemRows_paid (receiptId : Id) (items : list ReceiptItemDto.t) :
  forall n, map paidLine (receiptItemRows receiptId n items)
            = map (submittedLine receiptId) items.
Proof.
  induction items as [|i items IH]; intros n; cbn; [reflexivity|].
  now rewrite IH.
Qed.

Lemma filter_none {A} (p : A -> bool) (l : list A) :
  (forall a, In a l -> p a = false) -> filter p l = [].
Proof.
  induction l as [|a l IH]; cbn; intros H; [reflexivity|].
  rewrite (H a) by auto. apply IH. auto.
Qed.

Lemma bind_completes {A B} (c : M A) (k : A -> M B) (w w' : World) (b : B) :
  bind c k w = (Ok b, w') ->
  exists a w1, c w = (Ok a, w1) /\ k a w1 = (Ok b, w').
Proof.
  unfold bind. destruct (c w) as [[a|e] w1]; [eauto|discriminate].
Qed.

(** X14. Deleting a receipt that [createReceipt] has just created puts the
    receipt and receipt item tables back as they were, provided every
    stored item belonged to a stored receipt. No table other than the
    invoices is touched, and there every invoice other than the receipt's
    is found as before. *)
Theorem deleteReceipt_undoes_createReceipt :
  forall (body : CreateReceiptDto.t) (w w1 w2 : World)
         (view : ReceiptView.t) (msg : string),
    itemsHaveReceipts (db w) ->
    ReceiptsService.createReceipt body w = (Ok view, w1) ->
    ReceiptsService.deleteReceipt (Receipt.id (ReceiptView.receipt view)) w1
      = (Ok msg, w2) ->
    receipt (db w2) = receipt (db w)
    /\ receiptItem (db w2) = receiptItem (db w)
    /\ same_tables_but_receipts (db w) (db w2)
    /\ (forall k, k <> CreateReceiptDto.invoiceId body ->
          findUnique Invoice.id k (invoice (db w2))
          = findUnique Invoice.id k (invoice (db w))).
Proof.
  intros body w w1 w2 view msg FK C D.
  destruct (createReceipt_full _ _ _ _ C)
    as (inv & F & Fresh & Hrow & _ & Hr & Hi & Hinv & Hs & _).
  destruct (deleteReceipt_full _ _ _ _ D)
    as (Dr & Di & Ds & ex & Fex & Do).
  rewrite Hrow in Dr, Di, Fex.
  set (row := receiptRow body (genId (cuid w)) (now (host w))) in *.
  change (Receipt.id row) with (genId (cuid w)) in Dr, Di, Fex.
  rewrite Hr in Dr, Fex. rewrite Hi in Di.
  change (genId (cuid w)) with (Receipt.id row) in Dr, Fex, Fresh.
  rewrite (findUnique_app_fresh _ _ _ Fresh) in Fex. injection Fex as <-.
  rewrite (delete_app_fresh _ _ _ Fresh) in Dr.
  split; [exact Dr|]. split.
  { rewrite Di. unfold deleteMany. rewrite filter_app.
    rewrite (filter_none _ (receiptItemRows _ _ _)).
    - rewrite app_nil_r. apply filter_all. intros it Hit.
      destruct (String.eqb (ReceiptItem.receiptId it) (genId (cuid w)))
        eqn:E; [|reflexivity].
      apply String.eqb_eq in E. elim (FK it Hit). rewrite E. exact Fresh.
    - intros it Hit. apply receiptItemRows_receiptId in Hit.
      rewrite Hit, String.eqb_refl. reflexivity. }
  split.
  { destruct Hs as (A1 & A2 & A3 & A4 & A5 & A6 & A7 & A8 & A9).
    destruct Ds as (B1 & B2 & B3 & B4 & B5 & B6 & B7 & B8 & B9).
    repeat split; congruence. }
  intros k Hk. rewrite (Do k Hk), Hinv.
  destruct (InvoiceStatus_eqb (Invoice.status inv) UNPAID); [|reflexivity].
  apply findUnique_update_other; [intros r; reflexivity|congruence].
Qed.

Lemma deleteReceipt_undoes_createReceipt_witness :
  exists view w1 msg w2,
    ReceiptsService.createReceipt fullPayment invoicedWorld = (Ok view, w1)
    /\ ReceiptsService.deleteReceipt (Receipt.id (ReceiptView.receipt view))
         w1 = (Ok msg, w2)
    /\ receipt (db w2) = receipt (db invoicedWorld)
    /\ receiptItem (db w2) = receiptItem (db invoicedWorld).
Proof.
  destruct (completes _
              (bind (ReceiptsService.createReceipt fullPayment)
                 (fun view =>
                    ReceiptsService.deleteReceipt
                      (Receipt.id (ReceiptView.receipt view)))
                 invoicedWorld))
    as (msg & w2 & E); [vm_compute; reflexivity|].
  destruct (bind_completes _ _ _ _ _ E) as (view & w1 & C & D).
  exists view, w1, msg, w2. split; [exact C|]. split; [exact D|].
  destruct (deleteReceipt_undoes_createReceipt fullPayment invoicedWorld
              w1 w2 view msg) as (R & I & _).
  - intros it [].
  - exact C.
  - exact D.
  - split; assumption.
Defined.

Lemma editReceipt_full (body : EditReceiptDto.t) (w : World)
    (view : ReceiptView.t) (w' : World) :
  ReceiptsService.editReceipt body w = (Ok view, w') ->
  let id := EditReceiptDto.id body in
  exists ex,
    findUnique Receipt.id id (receipt (db w)) = Some ex
    /\ ReceiptView.receipt view = editedReceipt body ex
    /\ receipt (db w') = update Receipt.id id (editedReceipt body)
                           (receipt (db w))
    /\ receiptItem (db w')
       = deleteMany (fun it => String.eqb (ReceiptItem.receiptId it) id)
           (receiptItem (db w))
           ++ receiptItemRows id (cuid w) (EditReceiptDto.items body)
    /\ same_tables_but_receipts (db w) (db w').
Proof.
  intros H id. unfold ReceiptsService.editReceipt in H.
  rewrite (bind_ok _ _ _ _ _ (prismaFindUnique_run receiptT _ w)) in H.
  cbn [rows pk receiptT] in H.
  destruct (findUnique Receipt.id (EditReceiptDto.id body) (receipt (db w)))
    as [ex|] eqn:Fr; [|discriminate].
  pose proof (findUnique_key _ _ _ _ Fr) as K.
  match type of H with
  | context [bind (transaction ?c) _ ?w0] =>
      destruct (transaction c w0) as [[rv|e] w1] eqn:T
  end.
  2:{ rewrite (bind_throw _ _ _ _ _ T) in H. discriminate. }
  rewrite (bind_ok _ _ _ _ _ T) in H.
  apply transaction_ok in T.
  unfold bind at 1 in T.
  unfold prismaDeleteMany at 1, modifyDb, modify in T.
  cbv beta iota in T.
  unfold bind at 1 in T.
  match type of T with
  | context [mapM ?f ?l ?wa] =>
      destruct (mapM f l wa) as [r1 wb] eqn:E1;
      pose proof (createReceiptItems_run _ _ _ _ _ E1)
        as (_ & _ & _ & _ & Hrows)
  end.
  destruct r1 as [rows|]; [|discriminate].
  destruct (Hrows rows eq_refl) as (-> & Hdb1).
  cbn [cuid db with_db rows with_rows receiptItemT receiptItem
       with_receiptItem] in Hdb1.
  assert (findUnique Receipt.id (Receipt.id ex) (receipt (db wb)) = Some ex)
    as Fb.
  { rewrite Hdb1, K. destruct (db w). exact Fr. }
  rewrite (bind_ok _ _ _ _ _
             (prismaUpdate_run receiptT (Receipt.id ex) _ wb ex Fb)) in T.
  unfold bind, ReceiptsService.includeReceipt,
    ReceiptsService.includeInvoiceOfReceipt, gets, ret in T.
  injection T as <- <-.
  cbn [fst snd] in H.
  match type of H with
  | context [bind (ReceiptsService.checkInvoiceAfterReceipt ?k) _ ?w0] =>
      destruct (ReceiptsService.checkInvoiceAfterReceipt k w0)
        as [[[]|e] w2] eqn:E2
  end.
  2:{ rewrite (bind_throw _ _ _ _ _ E2) in H. discriminate. }
  rewrite (bind_ok _ _ _ _ _ E2) in H.
  apply checkInvoice_others in E2.
  destruct E2 as (Hr2 & Hi2 & Hs2 & _).
  match type of H with
  | context [bind (try_catch (ReceiptsService.dispatchForReceipt ?e ?r ?i)
                     (fun _ => log ?s ?l ?c ?m)) _ ?w0] =>
      destruct (try_dispatchForReceipt_run e r i s l c m w0)
        as (w3 & E3 & Hdb3 & _);
      rewrite (bind_ok _ _ _ _ _ E3) in H
  end.
  unfold bind, log, modify, ret in H. injection H as <- <-.
  cbn [db with_logs]. rewrite Hdb3, Hr2, Hi2.
  cbn [db with_db rows with_rows receiptT receipt receiptItem with_receipt
       pk ReceiptView.receipt] in *.
  exists ex. subst id. split; [exact Fr|]. rewrite <- K.
  split; [reflexivity|].
  rewrite Hdb1.
  split; [destruct (db w); reflexivity|].
  split; [destruct (db w); reflexivity|].
  destruct Hs2 as (A1 & A2 & A3 & A4 & A5 & A6 & A7 & A8 & A9).
  rewrite Hdb1 in A1, A2, A3, A4, A5, A6, A7, A8, A9.
  destruct (db w). repeat split; assumption.
Qed.

Lemma reduce_amountPaid_sum (items : list ReceiptItemDto.t) :
  ReceiptsService.reduce_amountPaid items
  = sum_over ReceiptItemDto.amountPaid items.
Proof. apply (fold_left_sum ReceiptItemDto.amountPaid). Qed.

(** X15. [editReceipt] replaces the items of the receipt: when it
    completes, the receipt has exactly the submitted items, in the order
    submitted, and the items of every other receipt are as before. The
    receipt row keeps its invoice and creation date, takes as [totalPaid]
    the submitted amounts added up in binary64 from 0 in the order
    submitted, and keeps each payment field the request leaves out; every
    other receipt row is found as before. *)
Theorem editReceipt_replaces_the_items :
  forall (body : EditReceiptDto.t) (w w' : World) (view : ReceiptView.t),
    ReceiptsService.editReceipt body w = (Ok view, w') ->
    let id := EditReceiptDto.id body in
    map paidLine (itemsOfReceipt (db w') id)
      = map (submittedLine id) (EditReceiptDto.items body)
    /\ (forall k, k <> id ->
          itemsOfReceipt (db w') k = itemsOfReceipt (db w) k)
    /\ (exists old,
          findUnique Receipt.id id (receipt (db w)) = Some old
          /\ findUnique Receipt.id id (receipt (db w'))
             = Some (editedReceipt body old)
          /\ ReceiptView.receipt view = editedReceipt body old
          /\ Receipt.totalPaid (editedReceipt body old)
             = sum_over ReceiptItemDto.amountPaid
                 (EditReceiptDto.items body))
    /\ (forall k, k <> id ->
          findUnique Receipt.id k (receipt (db w'))
          = findUnique Receipt.id k (receipt (db w))).
Proof.
  intros body w w' view H id.
  destruct (editReceipt_full _ _ _ _ H) as (ex & F & Hv & Hr & Hi & _).
  fold id in F, Hr, Hi.
  unfold itemsOfReceipt, findMany. rewrite Hi. unfold deleteMany.
  split.
  { rewrite filter_app. rewrite (filter_none _ (filter _ _)).
    - cbn [app]. rewrite filter_all; [apply receiptItemRows_paid|].
      intros it Hit. apply receiptItemRows_receiptId in Hit.
      rewrite Hit. apply String.eqb_refl.
    - intros it Hit. apply filter_In in Hit. destruct Hit as [_ Hit].
      now destruct (String.eqb (ReceiptItem.receiptId it) id). }
  split.
  { intros k Hk. rewrite filter_app.
    rewrite (filter_none _ (receiptItemRows _ _ _)).
    - rewrite app_nil_r, filter_filter_comm. apply filter_all.
      intros it Hit. apply filter_In in Hit. destruct Hit as [_ Hit].
      apply String.eqb_eq in Hit.
      destruct (String.eqb (ReceiptItem.receiptId it) id) eqn:E;
        [|reflexivity].
      apply String.eqb_eq in E. congruence.
    - intros it Hit. apply receiptItemRows_receiptId in Hit.
      rewrite Hit. now apply String.eqb_neq. }
  split.
  { exists ex. split; [exact F|]. rewrite Hr.
    split; [rewrite findUnique_update by reflexivity; now rewrite F|].
    split; [exact Hv|]. apply reduce_amountPaid_sum. }
  intros k Hk. rewrite Hr.
  apply findUnique_update_other; [intros r; reflexivity|congruence].
Qed.

Lemma editReceipt_replaces_the_items_witness :
  exists view w',
    ReceiptsService.editReceipt partPayment revenueWorld = (Ok view, w')
    /\ map paidLine (itemsOfReceipt (db w') "r2")
       = map (submittedLine "r2") (EditReceiptDto.items partPayment).
Proof.
  destruct (completes _
              (ReceiptsService.editReceipt partPayment revenueWorld))
    as (view & w' & E); [vm_compute; reflexivity|].
  exists view, w'. split; [exact E|].
  exact (proj1 (editReceipt_replaces_the_items _ _ _ _ E)).
Defined.

(** ** Paged listings *)

Lemma pageCountOf_spec (total : Z) :
  (0 <= total)%Z ->
  exists count : nat,
    pageCountOf total = Z.of_nat count
    /\ (10 * (Z.of_nat count - 1) < total <= 10 * Z.of_nat count)%Z.
Proof.
  intros H. unfold pageCountOf, pageSize.
  pose proof (Qle_ceiling (inject_Z total / inject_Z 10)) as U.
  pose proof (Qceiling_lt (inject_Z total / inject_Z 10)) as L.
  set (c := Qceiling (inject_Z total / inject_Z 10)) in *.
  assert (inject_Z total <= inject_Z c * inject_Z 10)%Q as U'.
  { setoid_replace (inject_Z total)
      with (inject_Z total / inject_Z 10 * inject_Z 10)%Q by (now field).
    apply Qmult_le_compat_r; [exact U|discriminate]. }
  assert (inject_Z (c - 1) * inject_Z 10 < inject_Z total)%Q as L'.
  { setoid_replace (inject_Z total)
      with (inject_Z total / inject_Z 10 * inject_Z 10)%Q by (now field).
    apply Qmult_lt_compat_r; [reflexivity|exact L]. }
  rewrite <- inject_Z_mult in U', L'.
  rewrite <- Zle_Qle in U'. rewrite <- Zlt_Qlt in L'.
  exists (Z.to_nat c). rewrite Z2Nat.id by lia. split; [reflexivity|lia].
Qed.

Lemma firstn_plus {A} (a b : nat) (l : list A) :
  firstn (a + b) l = firstn a l ++ firstn b (skipn a l).
Proof.
  revert l. induction a as [|a IH]; intros l; [reflexivity|].
  destruct l as [|x l]; cbn.
  - now rewrite firstn_nil.
  - now rewrite IH.
Qed.

Lemma concat_pages {A} (l : list A) (k : nat) :
  List.concat (map (fun n => pageOf (Z.of_nat n) l) (seq 1 k))
  = firstn (10 * k) l.
Proof.
  induction k as [|k IH]; [reflexivity|].
  rewrite seq_S, map_app, concat_app, IH. cbn [map List.concat plus].
  rewrite app_nil_r. unfold pageOf.
  replace (Z.to_nat ((Z.of_nat (S k) - 1) * 10)) with (10 * k)%nat by lia.
  replace (10 * S k)%nat with (10 * k + 10)%nat by lia.
  now rewrite firstn_plus.
Qed.

Lemma skipTake_run {R} (n : Z) (l : list R) (w : World) :
  (1 <= n)%Z ->
  skipTake ((n - 1) * pageSize) pageSize l w = (Ok (pageOf n l), w).
Proof.
  intros H. unfold skipTake, pageSize.
  destruct ((n - 1) * 10 <? 0)%Z eqn:E; [apply Z.ltb_lt in E; lia|].
  reflexivity.
Qed.

Lemma getClients_run (orderByNameAsc : list Client.t -> list Client.t)
    (page : string) (w : World) :
  (1 <= pageNumberOf page)%Z ->
  ClientsService2.getClients orderByNameAsc page w
  = (Ok {| ClientsService2.pageCount :=
             pageCountOf (Z.of_nat (List.length (client (db w))));
           ClientsService2.clients :=
             pageOf (pageNumberOf page) (orderByNameAsc (client (db w))) |},
     w).
Proof.
  intros H. unfold ClientsService2.getClients.
  unfold bind at 1, gets at 1. cbv beta iota.
  rewrite (bind_ok _ _ _ _ _ (skipTake_run _ _ w H)).
  reflexivity.
Qed.

Lemma pageNumberOf_fallback (page : string) :
  parseInt page = None \/ parseInt page = Some 0%Z ->
  pageNumberOf page = pageNumberOf "1".
Proof. unfold pageNumberOf. intros [-> | ->]; reflexivity. Qed.

Lemma concat_listed {A} (f : string -> list A) (l : list A) (count : nat)
    (pages : list string) :
  (forall p, (1 <= pageNumberOf p)%Z -> f p = pageOf (pageNumberOf p) l) ->
  pagesUpTo count pages ->
  List.concat (map f pages) = firstn (10 * count) l.
Proof.
  intros Hf Hp. rewrite <- concat_pages. unfold pagesUpTo in Hp.
  rewrite <- (map_map Z.of_nat (fun z => pageOf z l)), <- Hp, map_map.
  f_equal. apply map_ext_in. intros p Hin. apply Hf.
  assert (In (pageNumberOf p) (map Z.of_nat (seq 1 count))) as I
    by (rewrite <- Hp; now apply in_map).
  apply in_map_iff in I. destruct I as (n & <- & Hn).
  apply in_seq in Hn. lia.
Qed.

(** X16. [getClients] never writes, and the pages it serves cover the
    table: with [count] the [pageCount] it reports, which is the number of
    clients divided by ten and rounded up, the pages 1 to [count] put one
    after the other are the clients in the order of the listing, every
    client once, ten to a page. A page that is no number, or is 0, is
    answered like page 1. The sorting is assumed to permute the rows. *)
Theorem getClients_pages_cover_the_table :
  forall (orderByNameAsc : list Client.t -> list Client.t) (w : World),
    (forall l, Permutation (orderByNameAsc l) l) ->
    exists count : nat,
      (10 * (Z.of_nat count - 1) < Z.of_nat (List.length (client (db w)))
       <= 10 * Z.of_nat count)%Z
      /\ (forall page,
            (1 <= pageNumberOf page)%Z ->
            exists r,
              ClientsService2.getClients orderByNameAsc page w = (Ok r, w)
              /\ ClientsService2.pageCount r = Z.of_nat count
              /\ (List.length (ClientsService2.clients r) <= 10)%nat)
      /\ (forall pages,
            pagesUpTo count pages ->
            List.concat (map (fun p => clientsListed orderByNameAsc p w) pages)
            = orderByNameAsc (client (db w)))
      /\ (forall page,
            parseInt page = None \/ parseInt page = Some 0%Z ->
            ClientsService2.getClients orderByNameAsc page w
            = ClientsService2.getClients orderByNameAsc "1" w).
Proof.
  intros ob w Perm.
  destruct (pageCountOf_spec (Z.of_nat (List.length (client (db w)))))
    as (count & Ec & Hc); [lia|].
  exists count. split; [exact Hc|]. split.
  { intros page H. rewrite (getClients_run ob page w H).
    eexists. split; [reflexivity|]. split; [exact Ec|].
    cbn [ClientsService2.clients]. unfold pageOf. apply firstn_le_length. }
  split.
  { intros pages Hp.
    rewrite (concat_listed _ (ob (client (db w))) count pages); [| |exact Hp].
    - apply firstn_all2.
      rewrite (Permutation_length (Perm (client (db w)))). lia.
    - intros p H. unfold clientsListed.
      now rewrite (getClients_run ob p w H). }
  intros page H. unfold ClientsService2.getClients.
  now rewrite (pageNumberOf_fallback page H).
Qed.

Lemma insertByName_perm (c : Client.t) (l : list Client.t) :
  Permutation (insertByName c l) (c :: l).
Proof.
  induction l as [|x l IH]; cbn; [reflexivity|].
  destruct (String.leb _ _); [reflexivity|].
  rewrite IH. apply perm_swap.
Qed.

Lemma sortByName_perm (l : list Client.t) : Permutation (sortByName l) l.
Proof.
  unfold sortByName. induction l as [|c l IH]; cbn; [reflexivity|].
  rewrite insertByName_perm. now constructor.
Qed.

Lemma getClients_pages_cover_the_table_witness :
  exists count : nat,
    forall pages,
      pagesUpTo count pages ->
      List.concat (map (fun p => clientsListed sortByName p baseWorld) pages)
      = sortByName (client (db baseWorld)).
Proof.
  destruct (getClients_pages_cover_the_table sortByName baseWorld
              sortByName_perm) as (count & _ & _ & H & _).
  exists count. exact H.
Defined.

Lemma mapM_includeInvoice (rows : list Invoice.t) (w : World) :
  mapM includeInvoice rows w = (Ok (map (viewOfInvoice (db w)) rows), w).
Proof.
  induction rows as [|r rows IH]; [reflexivity|].
  cbn [mapM map]. unfold bind at 1, includeInvoice at 1, gets at 1.
  cbv beta iota. unfold bind at 1. rewrite IH. reflexivity.
Qed.

Lemma getInvoices_run {PaymentMethod : Type}
    (findPM : Id -> option PaymentMethod)
    (orderBy : list Invoice.t -> list Invoice.t)
    (page : string) (w : World) :
  (1 <= pageNumberOf page)%Z ->
  InvoicesService2.getInvoices PaymentMethod findPM orderBy page w
  = (Ok {| InvoicesService2.pageCount :=
             pageCountOf (Z.of_nat (List.length (invoice (db w))));
           InvoicesService2.invoices :=
             map (InvoicesService2.attachPaymentMethod PaymentMethod findPM)
               (map (viewOfInvoice (db w))
                  (pageOf (pageNumberOf page)
                     (orderBy (findMany Invoice.isActive
                                 (invoice (db w)))))) |},
     w).
Proof.
  intros H. unfold InvoicesService2.getInvoices.
  unfold bind at 1, gets at 1. cbv beta iota.
  rewrite (bind_ok _ _ _ _ _ (skipTake_run _ _ w H)).
  rewrite (bind_ok _ _ _ _ _ (mapM_includeInvoice _ w)).
  reflexivity.
Qed.

Lemma attachPaymentMethod_view {PaymentMethod : Type}
    (findPM : Id -> option PaymentMethod) (v : InvoiceView.t) :
  InvoicesService2.view PaymentMethod
    (InvoicesService2.attachPaymentMethod PaymentMethod findPM v) = v.
Proof.
  unfold InvoicesService2.attachPaymentMethod.
  destruct (Invoice.paymentMethodId (InvoiceView.invoice v)) as [id|];
    [|reflexivity].
  destruct (truthy (Some id)); [|reflexivity].
  destruct (findPM id); reflexivity.
Qed.

Lemma invoicesListed_run {PaymentMethod : Type}
    (findPM : Id -> option PaymentMethod)
    (orderBy : list Invoice.t -> list Invoice.t)
    (page : string) (w : World) :
  (1 <= pageNumberOf page)%Z ->
  invoicesListed findPM orderBy page w
  = pageOf (pageNumberOf page)
      (orderBy (findMany Invoice.isActive (invoice (db w)))).
Proof.
  intros H. unfold invoicesListed. rewrite (getInvoices_run _ _ _ _ H).
  cbn [fst InvoicesService2.invoices]. rewrite !map_map.
  apply map_id_in. intros a _. now rewrite attachPaymentMethod_view.
Qed.

(** X17. [getInvoices] lists the active invoices only, yet counts every
    invoice: it never writes, the pages 1 to [pageCount] put one after the
    other are exactly the active invoices in the order of the listing, and
    [pageCount] is the number of all invoices, deleted ones included,
    divided by ten and rounded up. So a page within [pageCount] is empty
    once the active invoices are used up. The sorting is assumed to permute
    the rows. *)
Theorem getInvoices_counts_deleted_invoices :
  forall (PaymentMethod : Type) (findPM : Id -> option PaymentMethod)
         (orderBy : list Invoice.t -> list Invoice.t) (w : World),
    (forall l, Permutation (orderBy l) l) ->
    let active := findMany Invoice.isActive (invoice (db w)) in
    exists count : nat,
      (10 * (Z.of_nat count - 1) < Z.of_nat (List.length (invoice (db w)))
       <= 10 * Z.of_nat count)%Z
      /\ (forall page,
            (1 <= pageNumberOf page)%Z ->
            exists r,
              InvoicesService2.getInvoices PaymentMethod findPM orderBy
                page w = (Ok r, w)
              /\ InvoicesService2.pageCount r = Z.of_nat count)
      /\ (forall pages,
            pagesUpTo count pages ->
            List.concat
              (map (fun p => invoicesListed findPM orderBy p w) pages)
            = orderBy active)
      /\ (forall page,
            (1 <= pageNumberOf page)%Z ->
            (Z.of_nat (List.length active)
             <= 10 * (pageNumberOf page - 1))%Z ->
            invoicesListed findPM orderBy page w = []).
Proof.
  intros PM findPM ob w Perm active.
  destruct (pageCountOf_spec (Z.of_nat (List.length (invoice (db w)))))
    as (count & Ec & Hc); [lia|].
  exists count. split; [exact Hc|]. split.
  { intros page H. rewrite (getInvoices_run findPM ob page w H).
    eexists. split; [reflexivity|]. exact Ec. }
  split.
  { intros pages Hp.
    rewrite (concat_listed _ (ob active) count pages); [| |exact Hp].
    - apply firstn_all2.
      rewrite (Permutation_length (Perm active)).
      pose proof (filter_length_le Invoice.isActive (invoice (db w))) as L.
      unfold active, findMany. lia.
    - intros p H. now apply invoicesListed_run. }
  intros page H Hn. rewrite (invoicesListed_run findPM ob page w H).
  fold active. unfold pageOf. rewrite skipn_all2; [apply firstn_nil|].
  rewrite (Permutation_length (Perm active)). lia.
Qed.

Lemma insertByDateDesc_perm (i : Invoice.t) (l : list Invoice.t) :
  Permutation (insertByDateDesc i l) (i :: l).
Proof.
  induction l as [|x l IH]; cbn; [reflexivity|].
  destruct (_ <=? _)%Z; [reflexivity|].
  rewrite IH. apply perm_swap.
Qed.

Lemma sortByDateDesc_perm (l : list Invoice.t) :
  Permutation (sortByDateDesc l) l.
Proof.
  unfold sortByDateDesc. induction l as [|c l IH]; cbn; [reflexivity|].
  rewrite insertByDateDesc_perm. now constructor.
Qed.

Lemma getInvoices_counts_deleted_invoices_witness :
  exists r,
    InvoicesService2.getInvoices unit (fun _ => None) sortByDateDesc "1"
      deletedInvoiceWorld = (Ok r, deletedInvoiceWorld)
    /\ InvoicesService2.pageCount r = 1%Z
    /\ invoicesListed (fun _ => @None unit) sortByDateDesc "1"
         deletedInvoiceWorld = [].
Proof.
  destruct (getInvoices_counts_deleted_invoices unit (fun _ => None)
              sortByDateDesc deletedInvoiceWorld sortByDateDesc_perm)
    as (count & Hc & Hrun & _ & Hempty).
  destruct (Hrun "1"%string) as (r & E & Ep); [vm_compute; discriminate|].
  exists r. split; [exact E|]. split.
  - rewrite Ep.
    change (Z.of_nat (List.length (invoice (db deletedInvoiceWorld))))
      with 1%Z in Hc.
    lia.
  - apply Hempty; vm_compute; discriminate.
Defined.

(** ** StatsService: the statistics of a range of years *)

Lemma getFieldY_addFieldY (f g : Field) (x : Number)
    (s : StatsService2.YearStat) :
  getFieldY g (addFieldY f x s)
  = if Field_eqb f g then (getFieldY g s + x)%num else getFieldY g s.
Proof. destruct f, g; reflexivity. Qed.

Lemma year_addFieldY (f : Field) (x : Number) (s : StatsService2.YearStat) :
  StatsService2.year (addFieldY f x s) = StatsService2.year s.
Proof. destruct f; reflexivity. Qed.

Lemma updateYear_spec (f : Field) (x : Number) (y : Z)
    (years years' : list StatsService2.YearStat) :
  StatsService2.updateYear (addFieldY f x) y years = Some years' ->
  map StatsService2.year years' = map StatsService2.year years
  /\ forall g y',
       yearValue g y' years'
       = if Field_eqb f g && (y =? y')%Z
         then (yearValue g y' years + x)%num else yearValue g y' years.
Proof.
  revert years'. induction years as [|e r IH]; intros years' H;
    cbn [StatsService2.updateYear] in H; [discriminate|].
  destruct (StatsService2.year e =? y)%Z eqn:E.
  - injection H as <-. cbn [map]. rewrite year_addFieldY.
    split; [reflexivity|]. intros g y'. unfold yearValue. cbn [find].
    rewrite year_addFieldY. apply Z.eqb_eq in E. rewrite E.
    destruct (y =? y')%Z.
    + rewrite getFieldY_addFieldY, andb_true_r. reflexivity.
    + rewrite andb_false_r. reflexivity.
  - destruct (StatsService2.updateYear _ y r) as [r'|]; [|discriminate].
    injection H as <-. destruct (IH r' eq_refl) as [Hy Hv].
    cbn [map]. split; [now rewrite Hy|]. intros g y'.
    unfold yearValue in *. cbn [find].
    destruct (StatsService2.year e =? y')%Z eqn:E'.
    + assert ((y =? y')%Z = false) as ->.
      { apply Z.eqb_neq. apply Z.eqb_eq in E'. apply Z.eqb_neq in E. lia. }
      rewrite andb_false_r. reflexivity.
    + apply Hv.
Qed.

Lemma updateEntry_spec (f : Field) (x : Number) (c : Currency) (y : Z)
    (m m' : StatsService2.CurrencyYearsMap) :
  StatsService2.updateEntry (addFieldY f x) c y m = Some m' ->
  map fst m' = map fst m
  /\ map (fun e => map StatsService2.year (snd e)) m'
     = map (fun e => map StatsService2.year (snd e)) m
  /\ forall g c' y',
       valueAt g c' y' m'
       = if Field_eqb f g && (String.eqb c c' && (y =? y')%Z)
         then (valueAt g c' y' m + x)%num else valueAt g c' y' m.
Proof.
  revert m'. induction m as [|[c0 ys0] r IH]; intros m' H;
    cbn [StatsService2.updateEntry fst snd] in H; [discriminate|].
  destruct (String.eqb c0 c) eqn:E.
  - destruct (StatsService2.updateYear _ y ys0) as [ys|] eqn:U;
      [|discriminate].
    injection H as <-. destruct (updateYear_spec _ _ _ _ _ U) as [Hy Hv].
    cbn [map fst snd]. split; [reflexivity|]. split; [now rewrite Hy|].
    intros g c' y'. unfold valueAt. cbn [find fst snd].
    apply String.eqb_eq in E. subst c0.
    destruct (String.eqb c c') eqn:E'.
    + rewrite Hv. cbn [andb]. reflexivity.
    + cbn [andb]. now rewrite andb_false_r.
  - destruct (StatsService2.updateEntry _ c y r) as [r'|]; [|discriminate].
    injection H as <-. destruct (IH r' eq_refl) as (Hf & Hy & Hv).
    cbn [map fst snd]. split; [now rewrite Hf|]. split; [now rewrite Hy|].
    intros g c' y'. specialize (Hv g c' y').
    unfold valueAt in *. cbn [find fst snd].
    destruct (String.eqb c0 c') eqn:E'.
    + assert (String.eqb c c' = false) as ->.
      { apply String.eqb_neq. apply String.eqb_eq in E'.
        apply String.eqb_neq in E. congruence. }
      cbn [andb]. now rewrite andb_false_r.
    + exact Hv.
Qed.

Lemma yearsArray_years (startYear endYear : Z) :
  map StatsService2.year (StatsService2.yearsArray startYear endYear)
  = yearsOf startYear endYear.
Proof.
  unfold StatsService2.yearsArray, yearsOf. rewrite map_map. reflexivity.
Qed.

Lemma yearValue_yearsArray (g : Field) (y startYear endYear : Z) :
  yearValue g y (StatsService2.yearsArray startYear endYear) = 0%num.
Proof.
  unfold yearValue, StatsService2.yearsArray.
  induction (seq 0 (Z.to_nat (endYear - startYear + 1))) as [|i l IH];
    cbn [map find]; [reflexivity|].
  cbn [StatsService2.year].
  destruct (startYear + Z.of_nat i =? y)%Z; [|exact IH].
  destruct g; reflexivity.
Qed.

Lemma hasY_In (c : Currency) (m : StatsService2.CurrencyYearsMap) :
  StatsService2.has c m = true <-> In c (map fst m).
Proof.
  unfold StatsService2.has. rewrite existsb_exists, in_map_iff. split.
  - intros (e & Hin & E). apply String.eqb_eq in E. eauto.
  - intros (e & E & Hin). exists e. split; [exact Hin|].
    now apply String.eqb_eq.
Qed.

Lemma find_app_none {A} (p : A -> bool) (l l' : list A) :
  find p l = None -> find p (l ++ l') = find p l'.
Proof.
  induction l as [|a l IH]; cbn; [reflexivity|].
  destruct (p a); [discriminate|exact IH].
Qed.

Lemma find_app_some {A} (p : A -> bool) (l l' : list A) (a : A) :
  find p l = Some a -> find p (l ++ l') = Some a.
Proof.
  induction l as [|b l IH]; cbn; [discriminate|].
  destruct (p b); [auto|exact IH].
Qed.

Lemma ensureCurrencyYears_spec (startYear endYear : Z) (c : Currency)
    (m : StatsService2.CurrencyYearsMap) :
  years_ok startYear endYear m ->
  years_ok startYear endYear
    (StatsService2.ensureCurrencyYears startYear endYear c m)
  /\ forall g c' y',
       valueAt g c' y'
         (StatsService2.ensureCurrencyYears startYear endYear c m)
       = valueAt g c' y' m.
Proof.
  intros [Hnd Hok]. unfold StatsService2.ensureCurrencyYears.
  destruct (StatsService2.has c m) eqn:H.
  - split; [split; assumption|]. reflexivity.
  - assert (~ In c (map fst m)) as Hn.
    { intros Hin. apply hasY_In in Hin. congruence. }
    split.
    + split.
      * rewrite map_app. cbn [map fst].
        apply NoDup_app_remove_l with (l := []). cbn [app].
        apply Permutation_NoDup with (l := c :: map fst m).
        -- apply Permutation_cons_append.
        -- now constructor.
      * apply Forall_app. split; [exact Hok|].
        constructor; [apply yearsArray_years|constructor].
    + intros g c' y'. unfold valueAt.
      destruct (find (fun e => String.eqb (fst e) c') m) as [e|] eqn:F.
      * now rewrite (find_app_some _ _ _ _ F).
      * rewrite (find_app_none _ _ _ F). cbn [find fst snd].
        destruct (String.eqb c c'); [apply yearValue_yearsArray|reflexivity].
Qed.

Lemma applyKeyY_spec (startYear endYear : Z) (f : Field) k
    (m m' : StatsService2.CurrencyYearsMap) :
  years_ok startYear endYear m ->
  applyKeyY startYear endYear f k m = Some m' ->
  years_ok startYear endYear m'
  /\ forall g c' y',
       valueAt g c' y' m'
       = if Field_eqb f g
         then added_up (valueAt g c' y' m)
                (contributionsY (fun k => k) c' y' [k])
         else valueAt g c' y' m.
Proof.
  intros Hm H. destruct k as [[[c y] x]|]; cbn [applyKeyY] in H.
  - destruct (ensureCurrencyYears_spec startYear endYear c m Hm)
      as [[Hnd Hok] Hv].
    destruct (updateEntry_spec _ _ _ _ _ _ H) as (Hf & Hy & Hu).
    split.
    + split; [now rewrite Hf|].
      rewrite Forall_forall in Hok. apply Forall_forall.
      intros e He.
      assert (In (map StatsService2.year (snd e))
                (map (fun e => map StatsService2.year (snd e)) m')) as I
        by (now apply (in_map (fun e => map StatsService2.year (snd e)))).
      rewrite Hy in I. apply in_map_iff in I.
      destruct I as (e0 & <- & He0). now apply Hok.
    + intros g c' y'. rewrite Hu, Hv.
      unfold contributionsY. cbn [flat_map]. rewrite app_nil_r.
      destruct (Field_eqb f g); cbn [andb]; [|reflexivity].
      destruct (String.eqb c c' && (y =? y')%Z); reflexivity.
  - injection H as <-. split; [exact Hm|]. intros g c' y'.
    now destruct (Field_eqb f g).
Qed.

(** After a loop that completes, the value held for a currency and a year
    is the value held before with the amounts of the elements for that
    currency and year added to it one after the other. *)
Lemma forEach_applyKeyY {A} (startYear endYear : Z) (f : Field)
    (key : A -> option (Currency * Z * Number)) (L : list A) :
  forall m m',
    years_ok startYear endYear m ->
    StatsService2.forEach
      (fun m a => applyKeyY startYear endYear f (key a) m) L m = Some m' ->
    years_ok startYear endYear m'
    /\ forall g c' y',
         valueAt g c' y' m'
         = if Field_eqb f g
           then added_up (valueAt g c' y' m) (contributionsY key c' y' L)
           else valueAt g c' y' m.
Proof.
  induction L as [|a L IH]; intros m m' Hm H; cbn [StatsService2.forEach] in H.
  - injection H as <-. split; [exact Hm|]. intros g c' y'.
    now destruct (Field_eqb f g).
  - destruct (applyKeyY startYear endYear f (key a) m) as [m1|] eqn:S;
      [|discriminate].
    destruct (applyKeyY_spec _ _ _ _ _ _ Hm S) as [Hm1 Hv1].
    destruct (IH m1 m' Hm1 H) as [Hok Hv].
    split; [exact Hok|]. intros g c' y'.
    rewrite Hv, Hv1. destruct (Field_eqb f g); [|reflexivity].
    rewrite <- added_up_app. f_equal.
    unfold contributionsY. cbn [flat_map]. now rewrite app_nil_r.
Qed.

Lemma forEach_ext {A} (s1 s2 : StatsService2.CurrencyYearsMap -> A ->
                               option StatsService2.CurrencyYearsMap)
    (L : list A) :
  (forall m a, s1 m a = s2 m a) ->
  forall m, StatsService2.forEach s1 L m = StatsService2.forEach s2 L m.
Proof.
  intros H. induction L as [|a L IH]; intros m; cbn; [reflexivity|].
  rewrite H. destruct (s2 m a); [apply IH|reflexivity].
Qed.

Lemma stepInvoicedY_key h s e m inv :
  StatsService2.stepInvoiced h s e m inv
  = applyKeyY s e Invoiced (keyInvoicedY h inv) m.
Proof. reflexivity. Qed.

Lemma stepRevenueY_key h d s e m r :
  StatsService2.stepRevenue h d s e m r
  = applyKeyY s e Revenue (keyRevenueY h d r) m.
Proof.
  unfold StatsService2.stepRevenue, keyRevenueY.
  destruct (findUnique _ _ _) as [inv|]; [|reflexivity].
  destruct (negb _); reflexivity.
Qed.

Lemma stepDepositsY_key h s e m p :
  StatsService2.stepDeposits h s e m p
  = applyKeyY s e Deposits (keyDepositsY h s e p) m.
Proof.
  unfold StatsService2.stepDeposits, keyDepositsY.
  destruct (_ || _); reflexivity.
Qed.

Lemma invoicedY_sum (h : Host) (s e : Z) (c : Currency) (y : Z)
    (L : list Invoice.t) :
  contributionsY (keyInvoicedY h) c y
    (findMany (fun inv =>
       Invoice.isActive inv
       && StatsService2.inRange h s e (Invoice.createdAt inv)) L)
  = map Invoice.totalTTC (filter (invoicedInYear h s e c y) L).
Proof.
  unfold findMany, contributionsY, keyInvoicedY, invoicedInYear.
  induction L as [|a L IH]; cbn [filter flat_map map]; [reflexivity|].
  destruct (Invoice.isActive a
            && StatsService2.inRange h s e (Invoice.createdAt a));
    cbn [andb flat_map]; [|exact IH].
  destruct (String.eqb (Invoice.currency a) c); cbn [andb]; [|exact IH].
  destruct (_ =? _)%Z; cbn [app map]; now rewrite IH.
Qed.

Lemma revenueY_sum (h : Host) (d : Db) (s e : Z) (c : Currency) (y : Z) :
  contributionsY (keyRevenueY h d) c y
    (findMany (fun r => StatsService2.inRange h s e (Receipt.createdAt r))
       (receipt d))
  = map (netAmount d) (filter (receiptInYear h d s e c y) (receipt d)).
Proof.
  unfold findMany, contributionsY.
  induction (receipt d) as [|a L IH]; cbn [filter flat_map map];
    [reflexivity|].
  unfold receiptInYear at 1.
  destruct (StatsService2.inRange h s e (Receipt.createdAt a));
    cbn [andb flat_map]; [|exact IH].
  unfold keyRevenueY at 1.
  destruct (findUnique Invoice.id (Receipt.invoiceId a) (invoice d))
    as [inv|]; cbn [andb app]; [|exact IH].
  destruct (truthy (Some (Invoice.currency inv))); cbn [negb andb app];
    [|exact IH].
  destruct (String.eqb (Invoice.currency inv) c); cbn [andb app];
    [|exact IH].
  destruct (_ =? _)%Z; cbn [app map]; [|exact IH].
  now rewrite IH, netOfReceipt_sum.
Qed.

Lemma depositsY_sum (h : Host) (d : Db) (s e : Z) (c : Currency) (y : Z) :
  (s <= y <= e)%Z ->
  contributionsY (keyDepositsY h s e) c y (StatsService.paidInvoices d)
  = map Invoice.totalTTC (filter (depositedInYear h d c y) (invoice d)).
Proof.
  intros Hy.
  unfold StatsService.paidInvoices, StatsService.invoicesWithReceipts,
    findMany, contributionsY.
  induction (invoice d) as [|a L IH]; cbn [filter flat_map map];
    [reflexivity|].
  unfold depositedInYear at 1.
  destruct (Invoice.isActive a && existsb _ (receipt d)); cbn [andb];
    [|exact IH].
  cbn [flat_map].
  destruct (StatsService.paidDate _ _ _) as [t|];
    [|rewrite andb_false_r; cbn [app]; exact IH].
  cbn [app flat_map]. unfold keyDepositsY at 1. cbn [fst snd].
  destruct (getFullYear h t =? y)%Z eqn:E.
  - apply Z.eqb_eq in E. rewrite E.
    assert (((y <? s) || (e <? y))%Z = false) as ->.
    { apply orb_false_iff. split; apply Z.ltb_ge; lia. }
    rewrite Z.eqb_refl, !andb_true_r.
    destruct (String.eqb _ c); cbn [app map]; now rewrite IH.
  - rewrite andb_false_r.
    destruct (_ || _); cbn [app]; [exact IH|].
    rewrite E, andb_false_r. exact IH.
Qed.

Lemma find_fst_NoDup {B} (m : list (string * B)) (e : string * B) :
  NoDup (map fst m) -> In e m ->
  find (fun e' => String.eqb (fst e') (fst e)) m = Some e.
Proof.
  destruct e as [c b]. cbn [fst].
  induction m as [|[c0 b0] m IH]; intros Hnd Hin; [contradiction|].
  cbn in *. inversion Hnd as [|? ? Hnot Hnd']; subst.
  destruct (String.eqb c0 c) eqn:E.
  - apply String.eqb_eq in E. subst c0.
    destruct Hin as [Heq|Hin]; [exact (f_equal Some Heq)|].
    elim Hnot. apply in_map_iff. exists (c, b). auto.
  - destruct Hin as [Heq|Hin].
    + injection Heq as -> _. now rewrite String.eqb_refl in E.
    + auto.
Qed.

Lemma find_year_NoDup (years : list StatsService2.YearStat)
    (s : StatsService2.YearStat) :
  NoDup (map StatsService2.year years) -> In s years ->
  find (fun s' => StatsService2.year s' =? StatsService2.year s)%Z years
  = Some s.
Proof.
  induction years as [|a l IH]; intros Hnd Hin; [contradiction|].
  cbn in *. inversion Hnd as [|? ? Hnot Hnd']; subst.
  destruct (StatsService2.year a =? StatsService2.year s)%Z eqn:E.
  - apply Z.eqb_eq in E.
    destruct Hin as [->|Hin]; [reflexivity|].
    elim Hnot. rewrite E. now apply in_map.
  - destruct Hin as [->|Hin]; [now rewrite Z.eqb_refl in E|auto].
Qed.

Lemma valueAt_In (f : Field) (y : Z) (m : StatsService2.CurrencyYearsMap)
    (e : Currency * list StatsService2.YearStat) :
  NoDup (map fst m) -> In e m ->
  valueAt f (fst e) y m = yearValue f y (snd e).
Proof.
  intros N I. unfold valueAt.
  replace (find _ m) with (Some e); [reflexivity|].
  symmetry. apply (find_fst_NoDup m e N I).
Qed.

Lemma yearValue_In (f : Field) (years : list StatsService2.YearStat)
    (s : StatsService2.YearStat) :
  NoDup (map StatsService2.year years) -> In s years ->
  yearValue f (StatsService2.year s) years = getFieldY f s.
Proof.
  intros N I. unfold yearValue. now rewrite (find_year_NoDup _ _ N I).
Qed.

Lemma yearsOf_NoDup (s e : Z) : NoDup (yearsOf s e).
Proof.
  unfold yearsOf.
  generalize (seq_NoDup (Z.to_nat (e - s + 1)) 0).
  induction (seq 0 (Z.to_nat (e - s + 1))) as [|i l IH]; intros N;
    cbn [map]; [constructor|].
  inversion N as [|? ? Hn Hl]; subst. constructor; [|auto].
  intros Hin. apply in_map_iff in Hin. destruct Hin as (j & Ej & Hj).
  assert (j = i) by lia. subst j. contradiction.
Qed.

Lemma yearsOf_range (s e y : Z) : In y (yearsOf s e) -> (s <= y <= e)%Z.
Proof.
  unfold yearsOf. intros H. apply in_map_iff in H.
  destruct H as (i & <- & Hi). apply in_seq in Hi. lia.
Qed.

Lemma years_ok_nil (s e : Z) : years_ok s e [].
Proof. split; constructor. Qed.

(** The values accumulated before the rounding. *)
Lemma accumulate_fields (h : Host) (d : Db) (s e : Z)
    (m : StatsService2.CurrencyYearsMap) :
  StatsService2.accumulate h d s e = Some m ->
  years_ok s e m
  /\ forall c y,
       valueAt Invoiced c y m
       = added_up 0%num
           (contributionsY (keyInvoicedY h) c y
              (findMany (fun inv =>
                 Invoice.isActive inv
                 && StatsService2.inRange h s e (Invoice.createdAt inv))
                 (invoice d)))
       /\ valueAt Revenue c y m
          = added_up 0%num
              (contributionsY (keyRevenueY h d) c y
                 (findMany (fun r =>
                    StatsService2.inRange h s e (Receipt.createdAt r))
                    (receipt d)))
       /\ valueAt Deposits c y m
          = added_up 0%num
              (contributionsY (keyDepositsY h s e) c y
                 (StatsService.paidInvoices d)).
Proof.
  unfold StatsService2.accumulate.
  set (L1 := findMany _ (invoice d)).
  set (L2 := findMany _ (receipt d)).
  rewrite (forEach_ext _ _ L1 (stepInvoicedY_key h s e)).
  destruct (StatsService2.forEach _ L1 []) as [m1|] eqn:E1; [|discriminate].
  rewrite (forEach_ext _ _ L2 (stepRevenueY_key h d s e)).
  destruct (StatsService2.forEach _ L2 m1) as [m2|] eqn:E2; [|discriminate].
  rewrite (forEach_ext _ _ _ (stepDepositsY_key h s e)).
  intros E3.
  destruct (forEach_applyKeyY s e Invoiced (keyInvoicedY h) L1 _ _
              (years_ok_nil s e) E1) as [Ok1 S1].
  destruct (forEach_applyKeyY s e Revenue (keyRevenueY h d) L2 _ _ Ok1 E2)
    as [Ok2 S2].
  destruct (forEach_applyKeyY s e Deposits (keyDepositsY h s e) _ _ _ Ok2 E3)
    as [Ok3 S3].
  split; [exact Ok3|]. intros c y.
  split; [|split]; rewrite S3, S2, S1; reflexivity.
Qed.

Lemma getYearlyStats_run (s e : Z) (w : World) res w' :
  StatsService2.getYearlyStats s e w = (Ok res, w') ->
  w' = w
  /\ exists m,
       StatsService2.accumulate (host w) (db w) s e = Some m
       /\ res = map roundedY m.
Proof.
  unfold StatsService2.getYearlyStats.
  unfold bind at 1, gets at 1. cbv beta iota.
  destruct (findFirst _ (company (db w))); [|discriminate].
  unfold bind, gets. cbv beta iota.
  destruct (StatsService2.accumulate (host w) (db w) s e) as [m|];
    [|discriminate].
  unfold ret. intros H. injection H as <- <-.
  split; [reflexivity|]. exists m. split; reflexivity.
Qed.

(** X18. When [getYearlyStats] completes it has written nothing, and its
    result has one entry per currency, each with one statistic per year
    from [startYear] to [endYear], in order. For a currency and a year,
    [invoiced] is made of the [totalTTC] of the active invoices of that
    currency created within the range and in that year, [revenue] of the
    amounts without VAT of the receipts created within the range and in
    that year for invoices of that currency, and [deposits] of the
    [totalTTC] of the active invoices of that currency whose receipts, in
    ascending order of creation, first bring the running binary64 sum of
    their [totalPaid] to compare [>=] to the total at a receipt dated in
    that year. Each is the binary64 sum of these amounts, added from 0 in
    the order of the store, and then rounded to two decimals by
    [toFixed]. *)
Theorem yearly_stats_sums_rounded :
  forall (startYear endYear : Z) (w : World) res (w' : World),
    StatsService2.getYearlyStats startYear endYear w = (Ok res, w') ->
    w' = w
    /\ NoDup (map fst res)
    /\ forall c years,
         In (c, years) res ->
         map StatsService2.year years = yearsOf startYear endYear
         /\ forall s,
              In s years ->
              StatsService2.invoiced s
              = toFixed2
                  (sum_over Invoice.totalTTC
                     (filter (invoicedInYear (host w) startYear endYear c
                                (StatsService2.year s))
                        (invoice (db w))))
              /\ StatsService2.revenue s
                 = toFixed2
                     (sum_over (netAmount (db w))
                        (filter (receiptInYear (host w) (db w) startYear
                                   endYear c (StatsService2.year s))
                           (receipt (db w))))
              /\ StatsService2.deposits s
                 = toFixed2
                     (sum_over Invoice.totalTTC
                        (filter (depositedInYear (host w) (db w) c
                                   (StatsService2.year s))
                           (invoice (db w)))).
Proof.
  intros startYear endYear w res w' H.
  destruct (getYearlyStats_run _ _ _ _ _ H) as (-> & m & A & ->).
  destruct (accumulate_fields _ _ _ _ _ A) as [[Hnd Hok] Hf].
  split; [reflexivity|]. split.
  { rewrite map_map. cbn [roundedY fst]. exact Hnd. }
  intros c years Hin.
  apply in_map_iff in Hin. destruct Hin as (e & He & Hin).
  unfold roundedY in He. injection He as <- <-.
  rewrite Forall_forall in Hok. pose proof (Hok e Hin) as Hy.
  split.
  { rewrite map_map. cbn [StatsService2.roundStat StatsService2.year].
    exact Hy. }
  intros s Hs. apply in_map_iff in Hs. destruct Hs as (s0 & <- & Hs0).
  cbn [StatsService2.roundStat StatsService2.year StatsService2.invoiced
       StatsService2.revenue StatsService2.deposits].
  assert (NoDup (map StatsService2.year (snd e))) as Ny
    by (rewrite Hy; apply yearsOf_NoDup).
  assert (startYear <= StatsService2.year s0 <= endYear)%Z as Hr.
  { apply yearsOf_range. rewrite <- Hy. now apply in_map. }
  destruct (Hf (fst e) (StatsService2.year s0)) as (HI & HR & HD).
  rewrite (valueAt_In _ _ m e Hnd Hin), (yearValue_In _ _ _ Ny Hs0) in HI.
  rewrite (valueAt_In _ _ m e Hnd Hin), (yearValue_In _ _ _ Ny Hs0) in HR.
  rewrite (valueAt_In _ _ m e Hnd Hin), (yearValue_In _ _ _ Ny Hs0) in HD.
  cbn [getFieldY] in HI, HR, HD. unfold sum_over.
  split; [|split]; f_equal.
  - rewrite HI. f_equal. apply invoicedY_sum.
  - rewrite HR. f_equal. apply revenueY_sum.
  - rewrite HD. f_equal. now apply depositsY_sum.
Qed.

Lemma yearly_stats_sums_rounded_witness :
  exists res,
    StatsService2.getYearlyStats 2023 2025 revenueWorld
      = (Ok res, revenueWorld)
    /\ NoDup (map fst res)
    /\ forall c years,
         In (c, years) res ->
         map StatsService2.year years = yearsOf 2023 2025.
Proof.
  destruct (completes _
              (StatsService2.getYearlyStats 2023 2025 revenueWorld))
    as (res & w' & E); [vm_compute; reflexivity|].
  destruct (yearly_stats_sums_rounded 2023 2025 revenueWorld res w' E)
    as (-> & N & K).
  exists res. split; [exact E|]. split; [exact N|].
  intros c years Hin. exact (proj1 (K c years Hin)).
Defined.

Lemma yearsOf_In (s e y : Z) : (s <= y <= e)%Z -> In y (yearsOf s e).
Proof.
  intros H. unfold yearsOf. apply in_map_iff.
  exists (Z.to_nat (y - s)). split; [lia|]. apply in_seq. lia.
Qed.

Lemma updateYear_total (f : StatsService2.YearStat -> StatsService2.YearStat)
    (y : Z) (years : list StatsService2.YearStat) :
  In y (map StatsService2.year years) ->
  exists years', StatsService2.updateYear f y years = Some years'.
Proof.
  induction years as [|a l IH]; cbn; intros H; [contradiction|].
  destruct (StatsService2.year a =? y)%Z eqn:E; [eauto|].
  destruct H as [H|H]; [apply Z.eqb_neq in E; contradiction|].
  destruct (IH H) as (l' & ->). cbn. eauto.
Qed.

Lemma updateEntry_total (f : StatsService2.YearStat -> StatsService2.YearStat)
    (c : Currency) (y : Z) (m : StatsService2.CurrencyYearsMap) :
  In c (map fst m) ->
  (forall e, In e m -> In y (map StatsService2.year (snd e))) ->
  exists m', StatsService2.updateEntry f c y m = Some m'.
Proof.
  induction m as [|[c0 ys0] r IH]; cbn [map fst snd In]; intros Hc Hy;
    [contradiction|].
  cbn [StatsService2.updateEntry fst snd].
  destruct (String.eqb c0 c) eqn:E.
  - destruct (updateYear_total f y ys0) as (ys & ->).
    + apply (Hy (c0, ys0)). now left.
    + cbn. eauto.
  - destruct Hc as [Hc|Hc]; [apply String.eqb_neq in E; contradiction|].
    destruct (IH Hc) as (r' & ->); [intros e0 He0; apply Hy; now right|].
    cbn. eauto.
Qed.

Lemma applyKeyY_total (s e : Z) (f : Field) k
    (m : StatsService2.CurrencyYearsMap) :
  years_ok s e m ->
  (forall c y x, k = Some (c, y, x) -> (s <= y <= e)%Z) ->
  exists m', applyKeyY s e f k m = Some m'.
Proof.
  intros Hm Hk. destruct k as [[[c y] x]|]; cbn [applyKeyY]; [|eauto].
  destruct (ensureCurrencyYears_spec s e c m Hm) as [[Hnd Hok] _].
  apply updateEntry_total.
  - unfold StatsService2.ensureCurrencyYears.
    destruct (StatsService2.has c m) eqn:H; [now apply hasY_In|].
    rewrite map_app, in_app_iff. right. now left.
  - intros e0 He0. rewrite Forall_forall in Hok. rewrite (Hok e0 He0).
    apply yearsOf_In. eauto.
Qed.

Lemma forEach_total {A} (s e : Z) (f : Field)
    (key : A -> option (Currency * Z * Number)) (L : list A) :
  (forall a c y x, In a L -> key a = Some (c, y, x) -> (s <= y <= e)%Z) ->
  forall m,
    years_ok s e m ->
    exists m',
      StatsService2.forEach (fun m a => applyKeyY s e f (key a) m) L m
      = Some m'
      /\ years_ok s e m'.
Proof.
  induction L as [|a L IH]; intros Hk m Hm; cbn [StatsService2.forEach].
  - eauto.
  - destruct (applyKeyY_total s e f (key a) m Hm) as (m1 & E1).
    { intros c y x. apply Hk. now left. }
    rewrite E1.
    destruct (applyKeyY_spec _ _ _ _ _ _ Hm E1) as [Hm1 _].
    apply IH; [|exact Hm1]. intros b c y x Hb. apply Hk. now right.
Qed.

(** X19. [getYearlyStats] throws the [BadRequestException] "No company
    found" when there is no company. With a company it completes, leaving
    the world as it was, whenever the host places every date of the
    requested range in a year from [startYear] to [endYear]; the lookup of
    the year of an invoice or of a receipt is what can fail otherwise. *)
Theorem getYearlyStats_completes_on_consistent_dates :
  forall (startYear endYear : Z) (w : World),
    (company (db w) = [] ->
     fst (StatsService2.getYearlyStats startYear endYear w)
     = Throw (BadRequestException
                "No company found. Please create a company first."))
    /\ (company (db w) <> [] ->
        (forall t,
            StatsService2.inRange (host w) startYear endYear t = true ->
            (startYear <= getFullYear (host w) t <= endYear)%Z) ->
        exists res,
          StatsService2.getYearlyStats startYear endYear w = (Ok res, w)).
Proof.
  intros s e w. split.
  - intros H. unfold StatsService2.getYearlyStats.
    unfold bind at 1, gets at 1. cbv beta iota. rewrite H. reflexivity.
  - intros Hc Hh. unfold StatsService2.getYearlyStats.
    unfold bind at 1, gets at 1. cbv beta iota.
    destruct (company (db w)) as [|co cs] eqn:C; [contradiction|].
    cbn [findFirst find]. unfold bind, gets. cbv beta iota.
    unfold StatsService2.accumulate.
    set (L1 := findMany _ (invoice (db w))).
    set (L2 := findMany _ (receipt (db w))).
    rewrite (forEach_ext _ _ L1 (stepInvoicedY_key (host w) s e)).
    destruct (forEach_total s e Invoiced (keyInvoicedY (host w)) L1)
      with (m := @nil (Currency * list StatsService2.YearStat))
      as (m1 & -> & Ok1); [|apply years_ok_nil|].
    { intros a c y x Ha K. injection K as _ <- _. apply Hh.
      unfold L1, findMany in Ha. apply filter_In in Ha.
      destruct Ha as [_ Ha]. apply andb_true_iff in Ha. tauto. }
    rewrite (forEach_ext _ _ L2 (stepRevenueY_key (host w) (db w) s e)).
    destruct (forEach_total s e Revenue (keyRevenueY (host w) (db w)) L2)
      with (m := m1) as (m2 & -> & Ok2); [|exact Ok1|].
    { intros a c y x Ha K. unfold keyRevenueY in K.
      destruct (findUnique _ _ _); [|discriminate].
      destruct (negb _); [discriminate|]. injection K as _ <- _.
      apply Hh. unfold L2, findMany in Ha. apply filter_In in Ha. tauto. }
    rewrite (forEach_ext _ _ _ (stepDepositsY_key (host w) s e)).
    destruct (forEach_total s e Deposits (keyDepositsY (host w) s e)
                (StatsService.paidInvoices (db w)))
      with (m := m2) as (m3 & -> & _); [|exact Ok2|].
    { intros a c y x _ K. unfold keyDepositsY in K.
      destruct (_ || _) eqn:O; [discriminate|]. injection K as _ <- _.
      apply orb_false_iff in O. destruct O as [O1 O2].
      apply Z.ltb_ge in O1, O2. lia. }
    eexists. reflexivity.
Qed.

(** The UTC host of the concrete runs places the dates of 2024 in 2024. *)
Lemma utc_year_2024 (t : DateTime) :
  (Utc.newDate 2024 0 1 0 0 0 0 <= t <= Utc.newDate 2024 11 31 23 59 59 999)%Z ->
  Utc.getFullYear t = 2024%Z.
Proof.
  intros [L U]. unfold Utc.getFullYear.
  assert (19723 <= t / Utc.msPerDay <= 20088)%Z as B.
  { split.
    - apply (Z.div_le_mono _ _ Utc.msPerDay) in L; [|reflexivity].
      exact L.
    - apply (Z.div_le_mono _ _ Utc.msPerDay) in U; [|reflexivity].
      exact U. }
  set (z := (t / Utc.msPerDay)%Z) in *. clearbody z.
  assert (forallb (fun i => (fst (fst (Utc.civilFromDays
                                         (19723 + Z.of_nat i))) =? 2024)%Z)
            (seq 0 366) = true) as F by (vm_compute; reflexivity).
  rewrite forallb_forall in F.
  specialize (F (Z.to_nat (z - 19723))).
  replace (19723 + Z.of_nat (Z.to_nat (z - 19723)))%Z with z in F by lia.
  apply Z.eqb_eq, F, in_seq. lia.
Qed.

Lemma getYearlyStats_completes_on_consistent_dates_witness :
  exists res,
    StatsService2.getYearlyStats 2024 2024 revenueWorld
    = (Ok res, revenueWorld).
Proof.
  apply (proj2 (getYearlyStats_completes_on_consistent_dates 2024 2024
                  revenueWorld)).
  - vm_compute. discriminate.
  - intros t H. unfold StatsService2.inRange in H.
    apply andb_true_iff in H. destruct H as [L U].
    apply Z.leb_le in L, U.
    change (getFullYear (host revenueWorld) t) with (Utc.getFullYear t).
    rewrite (utc_year_2024 t (conj L U)). lia.
Defined.

(** ** A new invoice and its receipt *)

Lemma createInvoice_store (body : CreateInvoiceDto.t) (w : World)
    (view : InvoiceView.t) (w1 : World) :
  InvoicesService.createInvoice body w = (Ok view, w1) ->
  exists co cl,
    hd_error (company (db w)) = Some co
    /\ InvoiceView.invoice view = createData body co cl w (genId (cuid w))
    /\ findUnique Invoice.id (genId (cuid w)) (invoice (db w)) = None
    /\ invoice (db w1)
       = invoice (db w) ++ [createData body co cl w (genId (cuid w))]
    /\ invoiceItem (db w1)
       = invoiceItem (db w)
           ++ itemRows (InvoicesService.isVatExemptFrance co)
                (genId (cuid w)) (S (cuid w)) (CreateInvoiceDto.items body)
    /\ receipt (db w1) = receipt (db w).
Proof.
  intros H. pose proof (createInvoice_run body w) as R.
  destruct (hd_error (company (db w))) as [co|]; [|congruence].
  destruct (findUnique Client.id _ (client (db w))) as [cl|]; [|congruence].
  destruct (InvoicesService.createInvoiceRecord _ _ _ w) as [[v|e] w0] eqn:E;
    [|congruence].
  rewrite R in H. injection H as <- <-.
  destruct (createInvoiceRecord_run _ _ _ _ _ _ E)
    as (_ & _ & _ & _ & _ & Hv).
  destruct (Hv v eq_refl) as (Fresh & Hdb & Ev).
  exists co, cl. split; [reflexivity|].
  rewrite dispatchCreated_db. cbn [db logged with_logs]. rewrite Hdb.
  split; [rewrite Ev; reflexivity|]. split; [exact Fresh|].
  repeat split.
Qed.

Lemma lineTotal_itemRows (exempt : bool) (id : Id)
    (items : list InvoiceItemDto.t) :
  forall n,
    map lineTotal (itemRows exempt id n items)
    = map (submittedTotal exempt) items.
Proof.
  induction items as [|i items IH]; intros n; cbn [itemRows map];
    [reflexivity|].
  now rewrite IH.
Qed.

Lemma createData_totalTTC (body : CreateInvoiceDto.t) (co : Company.t)
    (cl : Client.t) (w : World) (id : Id) :
  Invoice.totalTTC (createData body co cl w id)
  = if InvoicesService.isVatExemptFrance co
    then InvoicesService.reduce_totalHT (CreateInvoiceDto.items body)
    else InvoicesService.reduce_totalTTC (CreateInvoiceDto.items body).
Proof. reflexivity. Qed.

(** Adding to 0 does not change how a number compares. *)
Lemma zero_plus_geb (x t : Number) : (0 + x >= t)%num = (x >= t)%num.
Proof. destruct x as [[|]|[|]| |[|] m e]; destruct t; reflexivity. Qed.

(** X20. An invoice that [createInvoice] has just created and that
    [createReceiptFromInvoice] then receipts is paid line by line: the
    receipt's [totalPaid] is the binary64 sum of the submitted lines'
    totals with VAT, each rounded to the hundredth by [toFixed(2)], the
    rate being 0 under the French exemption. The invoice is PAID
    afterwards exactly when that sum compares [>=] to the [totalTTC] that
    [createInvoice] stored, which is a sum of unrounded line totals, and
    it stays UNPAID otherwise -- as it does for one line of 3 x 1.1, stored
    as 3.3000000000000003 and paid 3.3. The stored items and receipts are
    assumed to belong to stored invoices. *)
Theorem new_invoice_is_settled_by_its_rounded_lines :
  forall (body : CreateInvoiceDto.t) (w w1 w2 : World)
         (view : InvoiceView.t) (paid : ReceiptView.t),
    belongToInvoices (db w) ->
    InvoicesService.createInvoice body w = (Ok view, w1) ->
    ReceiptsService2.createReceiptFromInvoice
      (Invoice.id (InvoiceView.invoice view)) w1 = (Ok paid, w2) ->
    exists co inv',
      hd_error (company (db w)) = Some co
      /\ Receipt.totalPaid (ReceiptView.receipt paid)
         = sum_over
             (fun i => toFixed2
                         (submittedTotal
                            (InvoicesService.isVatExemptFrance co) i))
             (CreateInvoiceDto.items body)
      /\ findUnique Invoice.id (Invoice.id (InvoiceView.invoice view))
           (invoice (db w2)) = Some inv'
      /\ inv' = Invoice.with_status (Invoice.status inv')
                  (InvoiceView.invoice view)
      /\ (Invoice.status inv' = PAID
          <-> (Receipt.totalPaid (ReceiptView.receipt paid)
               >= Invoice.totalTTC (InvoiceView.invoice view))%num = true)
      /\ (Invoice.status inv' = UNPAID
          <-> (Receipt.totalPaid (ReceiptView.receipt paid)
               >= Invoice.totalTTC (InvoiceView.invoice view))%num = false).
Proof.
  intros body w w1 w2 view paid [FKi FKr] C R.
  destruct (createInvoice_store _ _ _ _ C)
    as (co & cl & Hco & Ev & Fresh & Hinv & Hit & Hrc).
  set (id := genId (cuid w)) in *.
  set (exempt := InvoicesService.isVatExemptFrance co) in *.
  set (inv := createData body co cl w id) in *.
  rewrite Ev in *. change (Invoice.id inv) with id in *.
  assert (storedItems (db w1) id
          = itemRows exempt id (S (cuid w)) (CreateInvoiceDto.items body))
    as Hst.
  { unfold storedItems, findMany. rewrite Hit, filter_app.
    rewrite itemRows_invoiceId, String.eqb_refl.
    rewrite (filter_none _ (invoiceItem (db w))); [reflexivity|].
    intros it Hin.
    destruct (String.eqb (InvoiceItem.invoiceId it) id) eqn:E;
      [|reflexivity].
    apply String.eqb_eq in E. elim (FKi it Hin). rewrite E. exact Fresh. }
  assert (receiptsOf (db w1) id = []) as Hre.
  { unfold receiptsOf, findMany. rewrite Hrc. apply filter_none.
    intros r Hin.
    destruct (String.eqb (Receipt.invoiceId r) id) eqn:E; [|reflexivity].
    apply String.eqb_eq in E. elim (FKr r Hin). rewrite E. exact Fresh. }
  assert (findUnique Invoice.id id (invoice (db w1)) = Some inv) as F1
    by (rewrite Hinv; apply (findUnique_app_fresh Invoice.id _ inv Fresh)).
  destruct (createReceiptFromInvoice_pays_lines_aux _ _ _ _ R)
    as (_ & _ & _ & _ & _ & Hp).
  pose proof (createReceiptFromInvoice_status _ _ _ _ inv R F1 eq_refl) as S.
  rewrite Hre, <- Hp in S. change (sum_over Receipt.totalPaid [])
    with 0%num in S. rewrite zero_plus_geb in S.
  exists co. eexists. split; [exact Hco|]. split.
  { rewrite Hp, Hst. unfold sum_over. f_equal.
    rewrite <- (map_map lineTotal toFixed2), lineTotal_itemRows.
    now rewrite map_map. }
  split; [exact S|].
  cbn [Invoice.status Invoice.with_status]. split; [reflexivity|].
  destruct (_ >= _)%num; split; split; congruence.
Qed.

Lemma new_invoice_is_settled_by_its_rounded_lines_witness :
  exists view w1 paid w2 inv',
    InvoicesService.createInvoice threeTimes baseWorld = (Ok view, w1)
    /\ ReceiptsService2.createReceiptFromInvoice
         (Invoice.id (InvoiceView.invoice view)) w1 = (Ok paid, w2)
    /\ Invoice.totalTTC (InvoiceView.invoice view)
       = Num.decimal 33000000000000003 16
    /\ Receipt.totalPaid (ReceiptView.receipt paid) = Num.decimal 33 1
    /\ findUnique Invoice.id (Invoice.id (InvoiceView.invoice view))
         (invoice (db w2)) = Some inv'
    /\ Invoice.status inv' = UNPAID.
Proof.
  destruct (completes _
              (bind (InvoicesService.createInvoice threeTimes)
                 (fun view =>
                    ReceiptsService2.createReceiptFromInvoice
                      (Invoice.id (InvoiceView.invoice view)))
                 baseWorld))
    as (paid & w2 & E); [vm_compute; reflexivity|].
  destruct (bind_completes _ _ _ _ _ E) as (view & w1 & C & R).
  destruct (new_invoice_is_settled_by_its_rounded_lines threeTimes baseWorld
              w1 w2 view paid) as (co & inv' & Hco & Hp & F & _ & _ & U);
    [split; intros x []|exact C|exact R|].
  destruct (createInvoice_store _ _ _ _ C)
    as (co' & cl & Hco' & Ev & _).
  injection Hco as <-. injection Hco' as <-.
  assert (Invoice.totalTTC (InvoiceView.invoice view)
          = Num.decimal 33000000000000003 16) as T
    by (rewrite Ev, createData_totalTTC; vm_compute; reflexivity).
  assert (Receipt.totalPaid (ReceiptView.receipt paid) = Num.decimal 33 1)
    as P by (rewrite Hp; vm_compute; reflexivity).
  exists view, w1, paid, w2, inv'.
  split; [exact C|]. split; [exact R|]. split; [exact T|].
  split; [exact P|]. split; [exact F|].
  apply U. rewrite T, P. vm_compute. reflexivity.
Defined.

(** ** Soft deletion and the listings *)

Lemma deleteInvoice_db (id : Id) (w : World) (inv : Invoice.t) (w' : World) :
  InvoicesService.deleteInvoice id w = (Ok inv, w') ->
  invoice (db w')
  = update Invoice.id id (Invoice.with_isActive false) (invoice (db w)).
Proof.
  unfold InvoicesService.deleteInvoice.
  rewrite (bind_ok _ _ _ _ _ (prismaFindUnique_run invoiceT id w)).
  cbn [rows pk invoiceT].
  destruct (findUnique Invoice.id id (invoice (db w))) as [old|] eqn:F;
    [|discriminate].
  unfold bind at 1, includeInvoice at 1, gets at 1. cbv beta iota.
  rewrite (bind_ok _ _ _ _ _ (prismaUpdate_run invoiceT id _ w old F)).
  unfold bind at 1, log at 1, modify at 1. cbv beta iota.
  step_dispatch w1 E H. destruct H as (Hdb & _). unfold ret.
  intros K. injection K as _ <-. rewrite Hdb. reflexivity.
Qed.

Lemma deleteClient_db (id : Id) (w : World) (c : Client.t) (w' : World) :
  ClientsService.deleteClient id w = (Ok c, w') ->
  client (db w')
  = update Client.id id (Client.with_isActive false) (client (db w))
  /\ exists old,
       findUnique Client.id id (client (db w)) = Some old
       /\ c = Client.with_isActive false old.
Proof.
  unfold ClientsService.deleteClient.
  rewrite (bind_ok _ _ _ _ _ (prismaFindUnique_run clientT id w)).
  cbn [rows pk clientT].
  destruct (findUnique Client.id id (client (db w))) as [old|] eqn:F;
    [|discriminate].
  rewrite (bind_ok _ _ _ _ _ (prismaUpdate_run clientT id _ w old F)).
  unfold bind at 1, log at 1, modify at 1. cbv beta iota.
  step_dispatch w1 E H. destruct H as (Hdb & _). unfold ret.
  intros K. injection K as <- <-. rewrite Hdb.
  split; [reflexivity|]. exists old. split; reflexivity.
Qed.

Lemma In_pageOf {R} (n : Z) (l : list R) (r : R) :
  In r (pageOf n l) -> In r l.
Proof.
  unfold pageOf. intros H.
  rewrite <- (firstn_skipn (Z.to_nat ((n - 1) * 10)) l).
  apply in_or_app. right.
  rewrite <- (firstn_skipn 10 (skipn _ l)).
  apply in_or_app. now left.
Qed.

(** X21. A deleted invoice leaves the listing but not the count: after
    [deleteInvoice] completes, no page of [getInvoices] lists an invoice
    with that id, and the [pageCount] of every page is what it was before
    the deletion. The sorting is assumed to permute the rows. *)
Theorem deleted_invoice_leaves_the_listing_not_the_count :
  forall (PaymentMethod : Type) (findPM : Id -> option PaymentMethod)
         (orderBy : list Invoice.t -> list Invoice.t)
         (id : Id) (w w' : World) (deleted : Invoice.t),
    (forall l, Permutation (orderBy l) l) ->
    InvoicesService.deleteInvoice id w = (Ok deleted, w') ->
    forall page,
      (1 <= pageNumberOf page)%Z ->
      (forall i, In i (invoicesListed findPM orderBy page w') ->
                 Invoice.id i <> id)
      /\ exists r r',
           InvoicesService2.getInvoices PaymentMethod findPM orderBy page w
             = (Ok r, w)
           /\ InvoicesService2.getInvoices PaymentMethod findPM orderBy
                page w' = (Ok r', w')
           /\ InvoicesService2.pageCount r' = InvoicesService2.pageCount r.
Proof.
  intros PM findPM ob id w w' deleted Perm D page Hp.
  pose proof (deleteInvoice_db _ _ _ _ D) as Hdb. split.
  - intros i Hi. rewrite (invoicesListed_run findPM ob page w' Hp) in Hi.
    apply In_pageOf in Hi.
    apply (Permutation_in _ (Perm _)) in Hi.
    unfold findMany in Hi. apply filter_In in Hi. destruct Hi as [Hin Ha].
    rewrite Hdb in Hin. unfold update in Hin. apply in_map_iff in Hin.
    destruct Hin as (x & Ex & _).
    destruct (String.eqb (Invoice.id x) id) eqn:E.
    + subst i. cbn in Ha. discriminate.
    + subst i. now apply String.eqb_neq.
  - rewrite (getInvoices_run findPM ob page w Hp).
    rewrite (getInvoices_run findPM ob page w' Hp).
    eexists. eexists. split; [reflexivity|]. split; [reflexivity|].
    cbn [InvoicesService2.pageCount]. rewrite Hdb. unfold update.
    now rewrite length_map.
Qed.

Lemma deleted_invoice_leaves_the_listing_not_the_count_witness :
  exists deleted w',
    InvoicesService.deleteInvoice "inv1" invoicedWorld = (Ok deleted, w')
    /\ forall i,
         In i (invoicesListed (fun _ => @None unit) sortByDateDesc "1" w') ->
         Invoice.id i <> "inv1"%string.
Proof.
  destruct (completes _ (InvoicesService.deleteInvoice "inv1" invoicedWorld))
    as (deleted & w' & E); [vm_compute; reflexivity|].
  exists deleted, w'. split; [exact E|].
  destruct (deleted_invoice_leaves_the_listing_not_the_count unit
              (fun _ => None) sortByDateDesc "inv1" invoicedWorld w' deleted
              sortByDateDesc_perm E "1"%string) as [H _].
  - vm_compute. discriminate.
  - exact H.
Defined.

(** X22. A deleted client stays in the listing: [getClients] does not look
    at [isActive], so after [deleteClient] completes the pages 1 to
    [pageCount] still list the client, now inactive. The sorting is
    assumed to permute the rows. *)
Theorem deleted_client_stays_in_the_listing :
  forall (orderByNameAsc : list Client.t -> list Client.t)
         (id : Id) (w w' : World) (deleted : Client.t),
    (forall l, Permutation (orderByNameAsc l) l) ->
    ClientsService.deleteClient id w = (Ok deleted, w') ->
    Client.isActive deleted = false
    /\ exists count : nat,
         (forall page,
             (1 <= pageNumberOf page)%Z ->
             exists r,
               ClientsService2.getClients orderByNameAsc page w' = (Ok r, w')
               /\ ClientsService2.pageCount r = Z.of_nat count)
         /\ forall pages,
              pagesUpTo count pages ->
              In deleted
                (List.concat
                   (map (fun p => clientsListed orderByNameAsc p w') pages)).
Proof.
  intros ob id w w' deleted Perm D.
  destruct (deleteClient_db _ _ _ _ D) as (Hdb & old & F & ->).
  split; [reflexivity|].
  destruct (pageCountOf_spec (Z.of_nat (List.length (client (db w')))))
    as (count & Ec & Hc); [lia|].
  exists count. split.
  { intros page H. rewrite (getClients_run ob page w' H).
    eexists. split; [reflexivity|]. exact Ec. }
  intros pages Hp.
  rewrite (concat_listed _ (ob (client (db w'))) count pages); [| |exact Hp].
  - rewrite firstn_all2
      by (rewrite (Permutation_length (Perm (client (db w')))); lia).
    apply (Permutation_in _ (Permutation_sym (Perm _))).
    apply (findUnique_In Client.id id). rewrite Hdb.
    rewrite findUnique_update by reflexivity. now rewrite F.
  - intros p H. unfold clientsListed.
    now rewrite (getClients_run ob p w' H).
Qed.

Lemma deleted_client_stays_in_the_listing_witness :
  exists deleted w',
    ClientsService.deleteClient "cl1" baseWorld = (Ok deleted, w')
    /\ Client.isActive deleted = false
    /\ In deleted (clientsListed sortByName "1" w').
Proof.
  destruct (completes _ (ClientsService.deleteClient "cl1" baseWorld))
    as (deleted & w' & E); [vm_compute; reflexivity|].
  exists deleted, w'. split; [exact E|].
  destruct (deleted_client_stays_in_the_listing sortByName "cl1" baseWorld
              w' deleted sortByName_perm E) as (Ha & count & Hc & Hl).
  split; [exact Ha|].
  destruct (Hc "1"%string) as (r & Er & Ep); [vm_compute; discriminate|].
  destruct (deleteClient_db _ _ _ _ E) as (Hdb & _).
  assert (count = 1%nat) as ->.
  { rewrite (getClients_run sortByName "1" w') in Er
      by (vm_compute; discriminate).
    injection Er as <-. cbn [ClientsService2.pageCount] in Ep.
    rewrite Hdb in Ep. unfold update in Ep. rewrite length_map in Ep.
    change (pageCountOf (Z.of_nat (List.length (client (db baseWorld)))))
      with 1%Z in Ep.
    lia. }
  specialize (Hl ["1"%string] eq_refl). cbn [map List.concat] in Hl.
  now rewrite app_nil_r in Hl.
Defined.

(** ** InvoicesService: what an edit keeps *)

(** X23. [editInvoice] does not re-examine the invoice: when it completes,
    the row keeps its id, company, status, [isActive] and creation date
    whatever the new totals are, so that a PAID invoice stays PAID after
    an edit that changes its total. The due date is the one of the request
    and, without one, a fortnight from now, not the stored one. Every
    other invoice is found as before. *)
Theorem editInvoice_keeps_status_and_resets_due_date :
  forall (body : EditInvoicesDto.t) (w w' : World) (view : InvoiceView.t),
    InvoicesService.editInvoice body w = (Ok view, w') ->
    exists id old,
      EditInvoicesDto.id body = Some id
      /\ findUnique Invoice.id id (invoice (db w)) = Some old
      /\ findUnique Invoice.id id (invoice (db w'))
         = Some (InvoiceView.invoice view)
      /\ Invoice.id (InvoiceView.invoice view) = id
      /\ Invoice.companyId (InvoiceView.invoice view) = Invoice.companyId old
      /\ Invoice.status (InvoiceView.invoice view) = Invoice.status old
      /\ Invoice.isActive (InvoiceView.invoice view) = Invoice.isActive old
      /\ Invoice.createdAt (InvoiceView.invoice view)
         = Invoice.createdAt old
      /\ Invoice.dueDate (InvoiceView.invoice view)
         = match EditInvoicesDto.dueDate body with
           | Some d => d
           | None => (now (host w) + InvoicesService.fortnight)%Z
           end
      /\ (forall k, k <> id ->
            findUnique Invoice.id k (invoice (db w'))
            = findUnique Invoice.id k (invoice (db w))).
Proof.
  intros body w w' view H.
  destruct (editInvoice_run _ _ _ _ H)
    as (id & co & cl & ex & w1 & Hid & _ & _ & Hex & E & Hdb).
  destruct (updateInvoiceRecord_run _ _ _ _ _ _ _ _ E)
    as (row & n & Hrow & Hv & Hinv & _).
  rewrite Hex in Hrow. injection Hrow as <-.
  pose proof (findUnique_key _ _ _ _ Hex) as K.
  exists id, ex. split; [exact Hid|]. split; [exact Hex|].
  rewrite Hdb, Hinv, Hv. split.
  { rewrite findUnique_update by reflexivity. now rewrite Hex. }
  split; [exact K|].
  do 5 (split; [reflexivity|]).
  intros k Hk.
  apply findUnique_update_other; [intros r; reflexivity|congruence].
Qed.

Lemma editInvoice_keeps_status_and_resets_due_date_witness :
  exists view w' id old,
    InvoicesService.editInvoice editOfInvoice1 twoItemsWorld = (Ok view, w')
    /\ findUnique Invoice.id id (invoice (db twoItemsWorld)) = Some old
    /\ Invoice.status (InvoiceView.invoice view) = Invoice.status old.
Proof.
  destruct (completes _
              (InvoicesService.editInvoice editOfInvoice1 twoItemsWorld))
    as (view & w' & E); [vm_compute; reflexivity|].
  destruct (editInvoice_keeps_status_and_resets_due_date _ _ _ _ E)
    as (id & old & _ & F & _ & _ & _ & S & _).
  exists view, w', id, old. split; [exact E|]. split; [exact F|exact S].
Defined.
